(** * MAHORAGA default strategy: entry and exit rules, staleness, Twitter
      confirmation budget, keyword sentiment, ticker extraction and the
      ticker-validation cache.

    A shallow embedding of the TypeScript sources under
    [src/strategy/default], followed by the terms in which the theorems are
    stated and by the theorems.

    Conventions of the embedding.
    - A JavaScript [number] that is read from configuration, from the broker
      or from a stored record is a finite rational ([Q]); values computed
      from them live in [num], the rationals extended with the three
      non-finite values a division can produce ([Infinity], [-Infinity],
      [NaN]).  Arithmetic is exact: binary rounding and the sign of zero
      are not modelled.
    - Counters, lengths and millisecond timestamps are integers ([Z]).
    - Strings are [string]s of 8-bit characters; case mapping acts on the
      ASCII letters.
    - [Date.now()] is a parameter [now] of the function that reads it, or
      the clock of the world the function runs in.
    - Network answers are arguments: a function that awaits a request takes
      what the request returns, and records that it was sent.
    - [Math.log10] and the exponential time decay are functions of the host
      and are parameters of the functions that call them.
    - Formatted reason strings are kept as a constructor carrying the
      numbers the template prints. *)

From Stdlib Require Import QArith Qabs Qminmax Lqa ZArith Lia Bool List Ascii String.
From stdpp Require Import gmap strings sorting.
Import ListNotations.

Local Open Scope Z_scope.

(** ** JavaScript numbers *)

Module Num.

Inductive num : Type :=
| Fin (q : Q)
| PInf
| NInf
| NaN.

Definition Qlt_bool (x y : Q) : bool := negb (Qle_bool y x).

Definition Qsgn_pos (x : Q) : bool := Qlt_bool 0 x.
Definition Qsgn_neg (x : Q) : bool := Qlt_bool x 0.

(** unary minus *)
Definition neg (a : num) : num :=
  match a with
  | Fin x => Fin (- x)
  | PInf => NInf
  | NInf => PInf
  | NaN => NaN
  end.

(** [a + b] *)
Definition add (a b : num) : num :=
  match a, b with
  | NaN, _ | _, NaN => NaN
  | Fin x, Fin y => Fin (x + y)
  | PInf, NInf | NInf, PInf => NaN
  | PInf, _ | _, PInf => PInf
  | NInf, _ | _, NInf => NInf
  end.

(** [a - b] *)
Definition sub (a b : num) : num := add a (neg b).

(** an infinity of the sign of [x], [NaN] for zero *)
Definition inf_of_sign (x : Q) : num :=
  if Qsgn_pos x then PInf else if Qsgn_neg x then NInf else NaN.

(** [a * b] *)
Definition mul (a b : num) : num :=
  match a, b with
  | NaN, _ | _, NaN => NaN
  | Fin x, Fin y => Fin (x * y)
  | PInf, Fin y | Fin y, PInf => inf_of_sign y
  | NInf, Fin y | Fin y, NInf => inf_of_sign (- y)
  | PInf, PInf | NInf, NInf => PInf
  | PInf, NInf | NInf, PInf => NInf
  end.

(** [a / b]; a finite value over zero is an infinity of its sign, and
    [0 / 0] is [NaN] *)
Definition div (a b : num) : num :=
  match a, b with
  | NaN, _ | _, NaN => NaN
  | Fin x, Fin y => if Qeq_bool y 0 then inf_of_sign x else Fin (x / y)
  | Fin _, (PInf | NInf) => Fin 0
  | (PInf | NInf), (PInf | NInf) => NaN
  | PInf, Fin y => if Qsgn_neg y then NInf else PInf
  | NInf, Fin y => if Qsgn_neg y then PInf else NInf
  end.

(** [a < b]; every comparison with [NaN] is false *)
Definition lt (a b : num) : bool :=
  match a, b with
  | NaN, _ | _, NaN => false
  | Fin x, Fin y => Qlt_bool x y
  | PInf, _ => false
  | _, PInf => true
  | _, NInf => false
  | NInf, _ => true
  end.

(** [a <= b] *)
Definition le (a b : num) : bool :=
  match a, b with
  | NaN, _ | _, NaN => false
  | Fin x, Fin y => Qle_bool x y
  | _, PInf => true
  | PInf, _ => false
  | NInf, _ => true
  | _, NInf => false
  end.

(** [a > b] and [a >= b] *)
Definition gt (a b : num) : bool := lt b a.
Definition ge (a b : num) : bool := le b a.

(** [Math.min(a, b)] *)
Definition min (a b : num) : num :=
  match a, b with
  | NaN, _ | _, NaN => NaN
  | _, _ => if lt b a then b else a
  end.

(** [Math.abs(a)] *)
Definition abs (a : num) : num :=
  match a with
  | Fin x => Fin (Qabs x)
  | PInf | NInf => PInf
  | NaN => NaN
  end.

Definition is_finite (a : num) : bool :=
  match a with Fin _ => true | _ => false end.

(** [a || b] on numbers: [0] and [NaN] are falsy *)
Definition or_else (a b : num) : num :=
  match a with
  | NaN => b
  | Fin x => if Qeq_bool x 0 then b else a
  | _ => a
  end.

End Num.

Import Num.

Declare Scope num_scope.
Delimit Scope num_scope with num.
Bind Scope num_scope with num.
Infix "+" := Num.add : num_scope.
Infix "-" := Num.sub : num_scope.
Infix "*" := Num.mul : num_scope.
Infix "/" := Num.div : num_scope.
Infix "<?" := Num.lt : num_scope.
Infix "<=?" := Num.le : num_scope.
Infix ">?" := Num.gt : num_scope.
Infix ">=?" := Num.ge : num_scope.
Notation "- x" := (Num.neg x) : num_scope.

(** A finite literal. *)
Definition fin (q : Q) : num := Fin q.
Definition finZ (z : Z) : num := Fin (inject_Z z).

(** ** Configuration and shared records (core/types) *)

Inductive Verdict := BUY | SKIP | WAIT.
Inductive EntryQuality := excellent | good | fair | poor.

(** Modelled from the spec: [AgentConfig] of core/types is not among the
    sources; these are the thresholds the modelled functions read, with the
    names the sources use.  [max_positions] is a count. *)
Record AgentConfig := {
  max_positions : Z;
  min_analyst_confidence : Q;
  position_size_pct_of_cash : Q;
  max_position_value : Q;
  take_profit_pct : Q;
  stop_loss_pct : Q;
  options_enabled : bool;
  options_min_confidence : Q;
  options_stop_loss_pct : Q;
  options_take_profit_pct : Q;
  stale_position_enabled : bool;
  stale_min_hold_hours : Q;
  stale_max_hold_days : Q;
  stale_mid_hold_days : Q;
  stale_min_gain_pct : Q;
  stale_mid_min_gain_pct : Q;
  stale_social_volume_decay : Q;
  ticker_blacklist : list string
}.

(** Modelled from the spec: [PositionEntry] of core/types, with the three
    fields recorded when a position is opened. *)
Record PositionEntry := {
  entry_time : Q;
  entry_price : Q;
  entry_social_volume : Q
}.

(** ** rules/staleness.ts *)

Module Staleness.

Local Open Scope num_scope.

(** The two templates of [reason], with the numbers they print. *)
Inductive Reason :=
| NoEntryData
| TooEarly (holdHours : num)
| StaleScore (score holdDays : num)
| OkScore (score : num).

Record StalenessResult := {
  isStale : bool;
  reason : Reason;
  staleness_score : num
}.

Definition holdHours (now : Z) (entry : PositionEntry) : num :=
  (finZ now - fin (entry_time entry)) / finZ (1000 * 60 * 60).

Definition holdDays (now : Z) (entry : PositionEntry) : num :=
  holdHours now entry / finZ 24.

Definition pnlPct (currentPrice : Q) (entry : PositionEntry) : num :=
  if fin (entry_price entry) >? finZ 0
  then ((fin currentPrice - fin (entry_price entry)) / fin (entry_price entry)) * finZ 100
  else finZ 0.

(** Time-based points (max 40). *)
Definition timeScore (config : AgentConfig) (hd : num) : num :=
  if hd >=? fin (stale_max_hold_days config) then finZ 40
  else if hd >=? fin (stale_mid_hold_days config) then
    (finZ 20 * (hd - fin (stale_mid_hold_days config)))
    / (fin (stale_max_hold_days config) - fin (stale_mid_hold_days config))
  else finZ 0.

(** Price action points (max 30). *)
Definition priceScore (config : AgentConfig) (hd pnl : num) : num :=
  if pnl <? finZ 0 then Num.min (finZ 30) (Num.abs pnl * finZ 3)
  else if (pnl <? fin (stale_mid_min_gain_pct config))
          && (hd >=? fin (stale_mid_hold_days config)) then finZ 15
  else finZ 0.

Definition volumeRatio (currentSocialVolume : Q) (entry : PositionEntry) : num :=
  if fin (entry_social_volume entry) >? finZ 0
  then fin currentSocialVolume / fin (entry_social_volume entry)
  else finZ 1.

(** Social volume decay points (max 30). *)
Definition volumeScore (config : AgentConfig) (ratio : num) : num :=
  if ratio <=? fin (stale_social_volume_decay config) then finZ 30
  else if ratio <=? fin (1 # 2) then finZ 15
  else finZ 0.

Definition analyzeStaleness (now : Z) (_symbol : string) (currentPrice : Q)
    (currentSocialVolume : Q) (entry : option PositionEntry)
    (config : AgentConfig) : StalenessResult :=
  match entry with
  | None => {| isStale := false; reason := NoEntryData; staleness_score := finZ 0 |}
  | Some entry =>
    let hh := holdHours now entry in
    let hd := holdDays now entry in
    let pnl := pnlPct currentPrice entry in
    if hh <? fin (stale_min_hold_hours config) then
      {| isStale := false; reason := TooEarly hh; staleness_score := finZ 0 |}
    else
      let stalenessScore := finZ 0 in
      let stalenessScore := stalenessScore + timeScore config hd in
      let stalenessScore := stalenessScore + priceScore config hd pnl in
      let stalenessScore :=
        stalenessScore + volumeScore config (volumeRatio currentSocialVolume entry) in
      let stalenessScore := Num.min (finZ 100) stalenessScore in
      let stale :=
        (stalenessScore >=? finZ 70)
        || ((hd >=? fin (stale_max_hold_days config))
            && (pnl <? fin (stale_min_gain_pct config))) in
      {| isStale := stale;
         reason := if stale then StaleScore stalenessScore hd else OkScore stalenessScore;
         staleness_score := stalenessScore |}
  end.

End Staleness.

(** ** String helpers (the [String.prototype] methods the sources call) *)

Module Str.

Local Open Scope char_scope.

Definition code (c : ascii) : N := N_of_ascii c.

Definition in_range (lo hi c : ascii) : bool :=
  ((code lo <=? code c) && (code c <=? code hi))%N.

Definition is_upper (c : ascii) : bool := in_range "A" "Z" c.
Definition is_lower (c : ascii) : bool := in_range "a" "z" c.
Definition is_digit (c : ascii) : bool := in_range "0" "9" c.

Definition upper_char (c : ascii) : ascii :=
  if is_lower c then ascii_of_N (code c - 32) else c.

Definition lower_char (c : ascii) : ascii :=
  if is_upper c then ascii_of_N (code c + 32) else c.

Fixpoint map_string (f : ascii -> ascii) (s : string) : string :=
  match s with
  | EmptyString => EmptyString
  | String c s' => String (f c) (map_string f s')
  end.

(** [s.toUpperCase()], [s.toLowerCase()] *)
Definition toUpperCase (s : string) : string := map_string upper_char s.
Definition toLowerCase (s : string) : string := map_string lower_char s.

(** [s.startsWith(p)] *)
Fixpoint startsWith (p s : string) : bool :=
  match p, s with
  | EmptyString, _ => true
  | String a p', String b s' => Ascii.eqb a b && startsWith p' s'
  | String _ _, EmptyString => false
  end.

(** [s.includes(w)] *)
Fixpoint includes (w s : string) : bool :=
  startsWith w s ||
  match s with
  | EmptyString => false
  | String _ s' => includes w s'
  end.

(** [\s] of a regular expression, on 8-bit characters *)
Definition is_space (c : ascii) : bool :=
  let n := code c in
  ((9 <=? n) && (n <=? 13) || (n =? 32) || (n =? 160))%N.

(** [\w] *)
Definition is_word (c : ascii) : bool :=
  is_upper c || is_lower c || is_digit c || Ascii.eqb c "_".

Fixpoint dropWhile (p : ascii -> bool) (s : string) : string :=
  match s with
  | EmptyString => EmptyString
  | String c s' => if p c then dropWhile p s' else s
  end.

Fixpoint takeWhile (p : ascii -> bool) (s : string) : string :=
  match s with
  | EmptyString => EmptyString
  | String c s' => if p c then String c (takeWhile p s') else EmptyString
  end.

Fixpoint rev_string (s acc : string) : string :=
  match s with
  | EmptyString => acc
  | String c s' => rev_string s' (String c acc)
  end.

(** [s.trim()] *)
Definition trim (s : string) : string :=
  let s1 := dropWhile is_space s in
  rev_string (dropWhile is_space (rev_string s1 EmptyString)) EmptyString.

(** [s.slice(0, n)] *)
Fixpoint slice0 (n : nat) (s : string) : string :=
  match n, s with
  | S n', String c s' => String c (slice0 n' s')
  | _, _ => EmptyString
  end.

End Str.

(** ** helpers/sentiment.ts: keyword sentiment *)

Module Sentiment.

Definition bullish : list string :=
  [ "moon"; "rocket"; "buy"; "calls"; "long"; "bullish"; "yolo"; "tendies";
    "gains"; "diamond"; "squeeze"; "pump"; "green"; "up"; "breakout";
    "undervalued"; "accumulate" ]%string.

Definition bearish : list string :=
  [ "puts"; "short"; "sell"; "bearish"; "crash"; "dump"; "drill"; "tank";
    "rip"; "red"; "down"; "bag"; "overvalued"; "bubble"; "avoid" ]%string.

(** [for (const w of ws) if (lower.includes(w)) n++] *)
Fixpoint countIncluded (lower : string) (ws : list string) (n : Z) : Z :=
  match ws with
  | [] => n
  | w :: ws' => countIncluded lower ws' (if Str.includes w lower then n + 1 else n)
  end.

Definition detectSentiment (text : string) : num :=
  let lower := Str.toLowerCase text in
  let bull := countIncluded lower bullish 0 in
  let bear := countIncluded lower bearish 0 in
  let total := bull + bear in
  if total =? 0 then finZ 0
  else (finZ (bull - bear) / finZ total)%num.

End Sentiment.

(** ** Broker and research records (core/types), strategy context and state *)

(** Modelled from the spec: [Position], [Account] and [ResearchResult] of
    core/types and [BuyCandidate] of strategy/types are not among the
    sources; the fields are those the sources read and write. *)
Record Position := {
  symbol : string;
  asset_class : string;
  avg_entry_price : Q;
  current_price : Q;
  market_value : Q;
  unrealized_pl : Q
}.

Record Account := { cash : Q }.

Record ResearchResult := {
  r_symbol : string;
  verdict : Verdict;
  confidence : Q;
  entry_quality : EntryQuality;
  reasoning : string
}.

Record BuyCandidate := {
  b_symbol : string;
  b_confidence : Q;
  b_reason : string;
  notional : num;
  useOptions : bool
}.

(** Modelled from the spec: [TwitterConfirmation] of core/types, with the
    fields [gatherTwitterConfirmation] fills. *)
Record Highlight := { h_author : string; h_text : string; h_likes : Z }.

Record TwitterConfirmation := {
  tc_symbol : string;
  tweet_count : nat;
  tc_sentiment : num;
  confirms_existing : bool;
  highlights : list Highlight;
  tc_timestamp : Z
}.

(** The key-value store behind [ctx.state], one field per key the strategy
    uses; [None] is a key that was never set.  The keys
    [twitterConfirmation_<symbol>] are the map [twitterConfirmation]. *)
Record StrategyState := {
  socialSnapshotCache : option (gmap string Q);
  stalenessAnalysis : option (gmap string Staleness.StalenessResult);
  twitterDailyReads : option Z;
  twitterDailyReadReset : option Z;
  twitterConfirmation : gmap string TwitterConfirmation
}.

(** Modelled from the spec: the parts of [StrategyContext] (strategy/types)
    that the modelled functions read besides the state. *)
Record StrategyContext := {
  config : AgentConfig;
  positionEntries : gmap string PositionEntry;
  TWITTER_BEARER_TOKEN : option string
}.

Definition eqb_verdict (a b : Verdict) : bool :=
  match a, b with
  | BUY, BUY | SKIP, SKIP | WAIT, WAIT => true
  | _, _ => false
  end.

Definition eqb_quality (a b : EntryQuality) : bool :=
  match a, b with
  | excellent, excellent | good, good | fair, fair | poor, poor => true
  | _, _ => false
  end.

(** ** rules/entries.ts *)

Module Entries.

Local Open Scope num_scope.

(** [xs.sort(cmp)]: the stable sort of the language, as an insertion
    sort; [a] stays before [b] unless [cmp(a, b) > 0]. *)
Section Sort.
Context {A : Type} (cmp : A -> A -> num).

Fixpoint insert_sorted (x : A) (l : list A) : list A :=
  match l with
  | [] => [x]
  | y :: l' => if cmp x y >? finZ 0 then y :: insert_sorted x l' else x :: l
  end.

Definition sort (l : list A) : list A := foldr insert_sorted [] l.
End Sort.

Definition sizePct (cfg : AgentConfig) : num :=
  Num.min (finZ 20) (fin (position_size_pct_of_cash cfg)).

Definition notionalFor (cfg : AgentConfig) (account : Account) (r : ResearchResult) : num :=
  Num.min (fin (cash account) * (sizePct cfg / finZ 100) * fin (confidence r))
          (fin (max_position_value cfg)).

Definition shouldUseOptions (cfg : AgentConfig) (r : ResearchResult) : bool :=
  options_enabled cfg
  && (fin (confidence r) >=? fin (options_min_confidence cfg))
  && eqb_quality (entry_quality r) excellent.

(** The body of [for (const r of buyResearch.slice(0, 3))]; returning the
    accumulator is [break], recursing without pushing is [continue]. *)
Fixpoint entriesLoop (cfg : AgentConfig) (held : nat) (account : Account)
    (rs : list ResearchResult) (candidates : list BuyCandidate) : list BuyCandidate :=
  match rs with
  | [] => candidates
  | r :: rs' =>
    if (Z.of_nat held + Z.of_nat (length candidates) >=? max_positions cfg)%Z
    then candidates
    else
      let notional := notionalFor cfg account r in
      if notional <? finZ 100 then entriesLoop cfg held account rs' candidates
      else
        entriesLoop cfg held account rs'
          (candidates ++
           [ {| b_symbol := r_symbol r;
                b_confidence := confidence r;
                b_reason := reasoning r;
                notional := notional;
                useOptions := shouldUseOptions cfg r |} ])
  end.

Definition isBuyAboveMin (cfg : AgentConfig) (r : ResearchResult) : bool :=
  eqb_verdict (verdict r) BUY
  && (fin (confidence r) >=? fin (min_analyst_confidence cfg)).

Definition byConfidenceDesc (a b : ResearchResult) : num :=
  fin (confidence b) - fin (confidence a).

Definition selectEntries (ctx : StrategyContext) (research : list ResearchResult)
    (positions : list Position) (account : Account) : list BuyCandidate :=
  let heldSymbols : gset string := list_to_set (map symbol positions) in
  if (Z.of_nat (length positions) >=? max_positions (config ctx))%Z then []
  else
    let buyResearch :=
      sort byConfidenceDesc
        (List.filter (fun r => negb (bool_decide (r_symbol r ∈ heldSymbols)))
           (List.filter (isBuyAboveMin (config ctx)) research)) in
    entriesLoop (config ctx) (length positions) account (firstn 3 buyResearch) [].

End Entries.

(** ** rules/exits.ts *)

Module Exits.

Local Open Scope num_scope.

(** The five templates of a sell reason, with the number each prints. *)
Inductive ExitReason :=
| TakeProfit (plPct : num)
| StopLoss (plPct : num)
| STALE (r : Staleness.Reason)
| OptionsStopLoss (plPct : num)
| OptionsTakeProfit (plPct : num).

(** Modelled from the spec: [SellCandidate] of strategy/types, a symbol and
    a reason. *)
Record SellCandidate := { s_symbol : string; s_reason : ExitReason }.

(** [plPct] of [selectExits]. *)
Definition plPct (pos : Position) : num :=
  (fin (unrealized_pl pos) / (fin (market_value pos) - fin (unrealized_pl pos))) * finZ 100.

(** [plPct] of [checkOptionsExit]. *)
Definition optionsPlPct (pos : Position) : num :=
  let entryPrice := Num.or_else (fin (avg_entry_price pos)) (fin (current_price pos)) in
  if entryPrice >? finZ 0
  then ((fin (current_price pos) - entryPrice) / entryPrice) * finZ 100
  else finZ 0.

Definition checkOptionsExit (pos : Position) (ctx : StrategyContext) : option SellCandidate :=
  if negb (options_enabled (config ctx)) then None
  else
    let plPct := optionsPlPct pos in
    if plPct <=? - fin (options_stop_loss_pct (config ctx)) then
      Some {| s_symbol := symbol pos; s_reason := OptionsStopLoss plPct |}
    else if plPct >=? fin (options_take_profit_pct (config ctx)) then
      Some {| s_symbol := symbol pos; s_reason := OptionsTakeProfit plPct |}
    else None.

(** One iteration of [for (const pos of positions)]: the sell candidates
    so far and the strategy state, before and after.  The loop is
    synchronous; the clock readings of its staleness evaluations are taken
    to be one reading, [now]. *)
Definition exitStep (ctx : StrategyContext) (now : Z)
    (acc : list SellCandidate * StrategyState) (pos : Position)
    : list SellCandidate * StrategyState :=
  let '(exits, st) := acc in
  if String.eqb (asset_class pos) "us_option" then
    match checkOptionsExit pos ctx with
    | Some optionExit => (exits ++ [optionExit], st)
    | None => (exits, st)
    end
  else
    let plPct := plPct pos in
    if plPct >=? fin (take_profit_pct (config ctx)) then
      (exits ++ [ {| s_symbol := symbol pos; s_reason := TakeProfit plPct |} ], st)
    else if plPct <=? - fin (stop_loss_pct (config ctx)) then
      (exits ++ [ {| s_symbol := symbol pos; s_reason := StopLoss plPct |} ], st)
    else if stale_position_enabled (config ctx) then
      let socialSnapshot := default ∅ (socialSnapshotCache st) in
      let currentSocialVolume := default 0%Q (socialSnapshot !! symbol pos) in
      let entry := positionEntries ctx !! symbol pos in
      let stalenessResult :=
        Staleness.analyzeStaleness now (symbol pos) (current_price pos)
          currentSocialVolume entry (config ctx) in
      let stalenessState := default ∅ (stalenessAnalysis st) in
      let st' :=
        {| socialSnapshotCache := socialSnapshotCache st;
           stalenessAnalysis := Some (<[symbol pos := stalenessResult]> stalenessState);
           twitterDailyReads := twitterDailyReads st;
           twitterDailyReadReset := twitterDailyReadReset st;
           twitterConfirmation := twitterConfirmation st |} in
      if Staleness.isStale stalenessResult then
        (exits ++ [ {| s_symbol := symbol pos;
                       s_reason := STALE (Staleness.reason stalenessResult) |} ], st')
      else (exits, st')
    else (exits, st).

Definition selectExits (ctx : StrategyContext) (now : Z) (st : StrategyState)
    (positions : list Position) (_account : Account)
    : list SellCandidate * StrategyState :=
  fold_left (exitStep ctx now) positions ([], st).

End Exits.

(** ** gatherers/twitter.ts: read budget, search, confirmation *)

Module Twitter.

Definition MAX_DAILY_READS : Z := 200.
Definition ONE_DAY_MS : Z := 86400000.
Definition MIN_SENTIMENT_FOR_CONFIRMATION : Q := 3 # 10.
Definition CACHE_TTL_MS : Z := 300000.

(** What a call can read and change besides its arguments: the strategy
    state, the clock, the requests sent to the Twitter API and the log. *)
Record World := {
  w_state : StrategyState;
  w_now : Z;
  w_fetches : list (string * Z);
  w_log : list (string * string)
}.

Definition set_state (st : StrategyState) (w : World) : World :=
  {| w_state := st; w_now := w_now w; w_fetches := w_fetches w; w_log := w_log w |}.

Definition log (component event : string) (w : World) : World :=
  {| w_state := w_state w; w_now := w_now w; w_fetches := w_fetches w;
     w_log := w_log w ++ [(component, event)] |}.

Definition set_reads (reads : Z) (st : StrategyState) : StrategyState :=
  {| socialSnapshotCache := socialSnapshotCache st;
     stalenessAnalysis := stalenessAnalysis st;
     twitterDailyReads := Some reads;
     twitterDailyReadReset := twitterDailyReadReset st;
     twitterConfirmation := twitterConfirmation st |}.

Definition set_reset (t : Z) (st : StrategyState) : StrategyState :=
  {| socialSnapshotCache := socialSnapshotCache st;
     stalenessAnalysis := stalenessAnalysis st;
     twitterDailyReads := twitterDailyReads st;
     twitterDailyReadReset := Some t;
     twitterConfirmation := twitterConfirmation st |}.

Definition set_confirmation (key : string) (c : TwitterConfirmation)
    (st : StrategyState) : StrategyState :=
  {| socialSnapshotCache := socialSnapshotCache st;
     stalenessAnalysis := stalenessAnalysis st;
     twitterDailyReads := twitterDailyReads st;
     twitterDailyReadReset := twitterDailyReadReset st;
     twitterConfirmation := <[key := c]> (twitterConfirmation st) |}.

(** [!!ctx.env.TWITTER_BEARER_TOKEN] *)
Definition isTwitterEnabled (ctx : StrategyContext) : bool :=
  match TWITTER_BEARER_TOKEN ctx with
  | Some t => negb (String.eqb t "")
  | None => false
  end.

Definition canSpendTwitterRead (w : World) : bool * World :=
  let now := w_now w in
  let resetTime := default 0 (twitterDailyReadReset (w_state w)) in
  let w1 :=
    if now - resetTime >? ONE_DAY_MS
    then set_state (set_reset now (set_reads 0 (w_state w))) w
    else w in
  let reads := default 0 (twitterDailyReads (w_state w1)) in
  (reads <? MAX_DAILY_READS, w1).

Definition spendTwitterRead (count : Z) (w : World) : World :=
  let current := default 0 (twitterDailyReads (w_state w)) in
  log "Twitter" "read_spent" (set_state (set_reads (current + count) (w_state w)) w).

(** The JSON of the recent-search endpoint. *)
Record RawTweet := {
  rt_id : string;
  rt_text : string;
  rt_created_at : string;
  rt_author_id : string;
  rt_retweet_count : option Z;
  rt_like_count : option Z
}.

Record RawUser := {
  u_id : string;
  u_username : string;
  u_followers_count : option Z
}.

Record Payload := {
  p_data : option (list RawTweet);
  p_users : option (list RawUser)
}.

(** How the network answers one request: [fetch] rejects, the status is
    not ok, the body is not JSON, or a payload arrives. *)
Inductive Response :=
| FetchThrows
| NotOk (status : Z)
| JsonThrows
| Ok (payload : Payload).

Record Answer := { elapsed : Z; response : Response }.

Record Tweet := {
  id : string;
  text : string;
  created_at : string;
  author : string;
  author_followers : Z;
  retweets : Z;
  likes : Z
}.

Definition toTweet (payload : Payload) (tweet : RawTweet) : Tweet :=
  let user :=
    find (fun u => String.eqb (u_id u) (rt_author_id tweet)) (default [] (p_users payload)) in
  {| id := rt_id tweet;
     text := rt_text tweet;
     created_at := rt_created_at tweet;
     author :=
       match user with
       | Some u => if String.eqb (u_username u) "" then "unknown" else u_username u
       | None => "unknown"
       end;
     author_followers := default 0 (user ≫= u_followers_count);
     retweets := default 0 (rt_retweet_count tweet);
     likes := default 0 (rt_like_count tweet) |}.

(** The request is recorded by its [query] and [max_results] parameters;
    time passes while it is awaited. *)
Definition fetch (query : string) (max_results : Z) (a : Answer) (w : World) : World :=
  {| w_state := w_state w; w_now := w_now w + elapsed a;
     w_fetches := w_fetches w ++ [(query, max_results)]; w_log := w_log w |}.

Definition twitterSearchRecent (ctx : StrategyContext) (query : string) (maxResults : Z)
    (a : Answer) (w : World) : list Tweet * World :=
  if negb (isTwitterEnabled ctx) then ([], w)
  else
    let '(can, w) := canSpendTwitterRead w in
    if negb can then ([], w)
    else
      let w := fetch query (Z.min maxResults 10) a w in
      match response a with
      | FetchThrows => ([], log "Twitter" "error" w)
      | NotOk _ => ([], log "Twitter" "api_error" w)
      | JsonThrows => ([], log "Twitter" "error" w)
      | Ok payload =>
        let w := spendTwitterRead 1 w in
        (map (toTweet payload) (default [] (p_data payload)), w)
      end.

Definition bullWords : list string :=
  [ "buy"; "call"; "long"; "bullish"; "upgrade"; "beat"; "squeeze"; "moon"; "breakout" ]%string.
Definition bearWords : list string :=
  [ "sell"; "put"; "short"; "bearish"; "downgrade"; "miss"; "crash"; "dump"; "breakdown" ]%string.

Definition actionableKeywords : list string :=
  [ "unusual"; "flow"; "sweep"; "block"; "whale"; "breaking"; "alert"; "upgrade";
    "downgrade" ]%string.

(** [xs.join(sep)] *)
Fixpoint join (sep : string) (xs : list string) : string :=
  match xs with
  | [] => ""
  | [x] => x
  | x :: xs' => x ++ sep ++ join sep xs'
  end.

Definition confirmationQuery (symbol : string) : string :=
  "$" ++ symbol ++ " (" ++ join " OR " (firstn 5 actionableKeywords)
      ++ ") -is:retweet lang:en".

Section Confirmation.

(** [Math.log10], a function of the host. *)
Variable log10 : Q -> num.

Local Open Scope num_scope.

Definition authorWeight (tweet : Tweet) : num :=
  Num.min (fin (15 # 10)) (log10 (inject_Z (author_followers tweet + 1)) / finZ 5).

Definition engagementWeight (tweet : Tweet) : num :=
  Num.min (fin (13 # 10))
    (finZ 1 + finZ (likes tweet + retweets tweet * 2) / finZ 1000).

(** [for (const w of bullWords) ... sentiment += 1; for (const w of bearWords) ... -= 1] *)
Definition tweetPolarity (tweet : Tweet) : Z :=
  let text := Str.toLowerCase (text tweet) in
  let sentiment := 0%Z in
  let sentiment :=
    fold_left (fun s w => if Str.includes w text then (s + 1)%Z else s) bullWords sentiment in
  fold_left (fun s w => if Str.includes w text then (s - 1)%Z else s) bearWords sentiment.

Record Tally := {
  t_bullish : num;
  t_bearish : num;
  t_totalWeight : num;
  t_highlights : list Highlight
}.

(** The body of [for (const tweet of tweets)]. *)
Definition tallyStep (t : Tally) (tweet : Tweet) : Tally :=
  let weight := authorWeight tweet * engagementWeight tweet in
  let sentiment := tweetPolarity tweet in
  {| t_bullish := if (sentiment >? 0)%Z then t_bullish t + weight else t_bullish t;
     t_bearish :=
       if (sentiment >? 0)%Z then t_bearish t
       else if (sentiment <? 0)%Z then t_bearish t + weight else t_bearish t;
     t_totalWeight := t_totalWeight t + weight;
     t_highlights :=
       if ((likes tweet >? 50) || (author_followers tweet >? 10000))%Z
       then t_highlights t ++
            [ {| h_author := author tweet;
                 h_text := Str.slice0 150 (text tweet);
                 h_likes := likes tweet |} ]
       else t_highlights t |}.

Definition tally (tweets : list Tweet) : Tally :=
  fold_left tallyStep tweets
    {| t_bullish := finZ 0; t_bearish := finZ 0; t_totalWeight := finZ 0;
       t_highlights := [] |}.

Definition twitterSentiment (tweets : list Tweet) : num :=
  let t := tally tweets in
  if t_totalWeight t >? finZ 0
  then (t_bullish t - t_bearish t) / t_totalWeight t
  else finZ 0.

Definition confirms (twitterSentiment : num) (existingSentiment : Q) : bool :=
  let twitterBullish := twitterSentiment >? fin (2 # 10) in
  let twitterBearish := twitterSentiment <? - fin (2 # 10) in
  let existingBullish := fin existingSentiment >? finZ 0 in
  (twitterBullish && existingBullish) || (twitterBearish && negb existingBullish).

(** [gatherTwitterConfirmation] past its cache: search, score, store. *)
Definition confirmFresh (ctx : StrategyContext) (symbol : string)
    (existingSentiment : Q) (a : Answer) (w : World)
    : option TwitterConfirmation * World :=
  let cacheKey := symbol in
  let query := confirmationQuery symbol in
  let '(tweets, w) := twitterSearchRecent ctx query 10 a w in
  if (length tweets =? 0)%nat then (None, w)
  else
    let twitterSentiment := twitterSentiment tweets in
    let result :=
      {| tc_symbol := symbol;
         tweet_count := length tweets;
         tc_sentiment := twitterSentiment;
         confirms_existing := confirms twitterSentiment existingSentiment;
         highlights := firstn 3 (t_highlights (tally tweets));
         tc_timestamp := w_now w |} in
    let w := set_state (set_confirmation cacheKey result (w_state w)) w in
    (Some result, log "Twitter" "signal_confirmed" w).

Definition gatherTwitterConfirmation (ctx : StrategyContext) (symbol : string)
    (existingSentiment : Q) (a : Answer) (w : World)
    : option TwitterConfirmation * World :=
  if negb (isTwitterEnabled ctx) then (None, w)
  else
    let '(can, w) := canSpendTwitterRead w in
    if negb can then (None, w)
    else if Num.abs (fin existingSentiment) <? fin MIN_SENTIMENT_FOR_CONFIRMATION
    then (None, w)
    else
      let cacheKey := symbol in
      match twitterConfirmation (w_state w) !! cacheKey with
      | Some cached =>
        if (w_now w - tc_timestamp cached <? CACHE_TTL_MS)%Z then (Some cached, w)
        else confirmFresh ctx symbol existingSentiment a w
      | None => confirmFresh ctx symbol existingSentiment a w
      end.

End Confirmation.

End Twitter.

(** ** helpers/ticker.ts: ticker extraction *)

(** The regular expressions of the sources, as a backtracking matcher over
    the constructs they use.  A match state is the character before the
    current position, the text from the current position on, and the
    capture groups set so far.  Groups inside a quantified atom are not
    reset between iterations: the modelled expressions have none. *)
Module Regex.

Inductive regex :=
| Chr (c : ascii)
| Class (lo hi : ascii)
| Space
| WordB
| Eps
| Seq (r1 r2 : regex)
| Alt (r1 r2 : regex)
| Rep (r : regex) (min : nat) (max : option nat)
| Group (n : nat) (r : regex)
| Look (r : regex).

Record mstate := {
  prev : option ascii;
  rest : string;
  caps : list (nat * string)
}.

Definition char_eq (ci : bool) (a c : ascii) : bool :=
  if ci then Ascii.eqb (Str.upper_char a) (Str.upper_char c) else Ascii.eqb a c.

Definition in_class (ci : bool) (lo hi a : ascii) : bool :=
  if ci
  then Str.in_range lo hi a || Str.in_range lo hi (Str.upper_char a)
       || Str.in_range lo hi (Str.lower_char a)
  else Str.in_range lo hi a.

(** one character satisfying [p] *)
Definition one (p : ascii -> bool) (st : mstate) (k : mstate -> option mstate)
    : option mstate :=
  match rest st with
  | String a s' =>
    if p a then k {| prev := Some a; rest := s'; caps := caps st |} else None
  | EmptyString => None
  end.

Definition word_before (st : mstate) : bool :=
  match prev st with Some a => Str.is_word a | None => false end.

Definition word_after (st : mstate) : bool :=
  match rest st with String a _ => Str.is_word a | EmptyString => false end.

Definition set_cap (n : nat) (s : string) (cs : list (nat * string)) : list (nat * string) :=
  (n, s) :: List.filter (fun c => negb (Nat.eqb (fst c) n)) cs.

Definition get_cap (n : nat) (cs : list (nat * string)) : option string :=
  snd <$> find (fun c => Nat.eqb (fst c) n) cs.

(** the text consumed between two states of one match *)
Definition consumed (st st1 : mstate) : string :=
  Str.slice0 (String.length (rest st) - String.length (rest st1)) (rest st).

(** A greedy quantifier over the matcher [body] of its atom: at most
    [fuel] more iterations, [min] of them still required; an iteration
    that is not required and consumes nothing is refused, as the language
    does. *)
Fixpoint rep (body : mstate -> (mstate -> option mstate) -> option mstate)
    (k : mstate -> option mstate) (fuel min : nat) (st : mstate)
    {struct fuel} : option mstate :=
  match fuel with
  | O => if Nat.eqb min 0%nat then k st else None
  | S fuel' =>
    match
      body st (fun st1 =>
        if Nat.eqb min 0%nat
           && Nat.eqb (String.length (rest st1)) (String.length (rest st))
        then None
        else rep body k fuel' (Nat.pred min) st1)
    with
    | Some res => Some res
    | None => if Nat.eqb min 0%nat then k st else None
    end
  end.

(** [m ci r st k]: match [r] at [st], then continue with [k]; [None] makes
    the matcher backtrack. *)
Fixpoint m (ci : bool) (r : regex) (st : mstate) (k : mstate -> option mstate)
    {struct r} : option mstate :=
  match r with
  | Chr c => one (fun a => char_eq ci a c) st k
  | Class lo hi => one (in_class ci lo hi) st k
  | Space => one Str.is_space st k
  | WordB => if xorb (word_before st) (word_after st) then k st else None
  | Eps => k st
  | Seq r1 r2 => m ci r1 st (fun st1 => m ci r2 st1 k)
  | Alt r1 r2 =>
    match m ci r1 st k with
    | Some res => Some res
    | None => m ci r2 st k
    end
  | Rep r1 min max =>
    let fuel :=
      match max with
      | Some n => n
      | None => (min + String.length (rest st))%nat
      end in
    rep (m ci r1) k fuel min st
  | Group n r1 =>
    m ci r1 st (fun st1 =>
      k {| prev := prev st1; rest := rest st1;
           caps := set_cap n (consumed st st1) (caps st1) |})
  | Look r1 =>
    match m ci r1 st Some with
    | Some st1 => k {| prev := prev st; rest := rest st; caps := caps st1 |}
    | None => None
    end
  end.

(** a literal word *)
Fixpoint lit (s : string) : regex :=
  match s with
  | EmptyString => Eps
  | String c EmptyString => Chr c
  | String c s' => Seq (Chr c) (lit s')
  end.

(** [a|b|...] *)
Fixpoint alts (rs : list regex) : regex :=
  match rs with
  | [] => Eps
  | [r] => r
  | r :: rs' => Alt r (alts rs')
  end.

Definition opt (r : regex) : regex := Rep r 0%nat (Some 1%nat).
Definition plus (r : regex) : regex := Rep r 1%nat None.

(** [regex.exec(text)] of a global expression whose [lastIndex] is at
    [s], with [prev] before it: the leftmost match from there on. *)
Fixpoint exec (ci : bool) (re : regex) (prev : option ascii) (s : string)
    : option mstate :=
  match m ci re {| prev := prev; rest := s; caps := [] |} Some with
  | Some st => Some st
  | None =>
    match s with
    | EmptyString => None
    | String c s' => exec ci re (Some c) s'
    end
  end.

End Regex.

Module Ticker.

Import Regex.

Definition TICKER_BLACKLIST : gset string :=
  list_to_set ([
    "CEO"; "CFO"; "COO"; "CTO"; "IPO"; "EPS"; "GDP"; "SEC"; "FDA"; "USA"; "USD";
    "ETF"; "NYSE"; "API"; "ATH"; "ATL"; "IMO"; "FOMO"; "YOLO"; "DD"; "TA"; "FA";
    "ROI"; "PE"; "PB"; "PS"; "EV"; "DCF"; "WSB"; "RIP"; "LOL"; "OMG"; "WTF"; "FUD";
    "HODL"; "APE"; "MOASS"; "DRS"; "NFT"; "DAO"; "THE"; "AND"; "FOR"; "ARE"; "BUT";
    "NOT"; "YOU"; "ALL"; "CAN"; "HER"; "WAS"; "ONE"; "OUR"; "OUT"; "DAY"; "HAD";
    "HAS"; "HIS"; "HOW"; "ITS"; "LET"; "MAY"; "NEW"; "NOW"; "OLD"; "SEE"; "WAY";
    "WHO"; "BOY"; "DID"; "GET"; "HIM"; "HIT"; "LOW"; "MAN"; "RUN"; "SAY"; "SHE";
    "TOO"; "USE"; "DAD"; "MOM"; "GOT"; "PUT"; "SAW"; "SAT"; "SET"; "SIT"; "TRY";
    "THAT"; "THIS"; "WITH"; "HAVE"; "FROM"; "THEY"; "BEEN"; "CALL"; "WILL"; "EACH";
    "MAKE"; "LIKE"; "TIME"; "JUST"; "KNOW"; "TAKE"; "COME"; "MADE"; "FIND"; "MORE";
    "LONG"; "HERE"; "MANY"; "SOME"; "THAN"; "THEM"; "THEN"; "ONLY"; "OVER"; "SUCH";
    "YEAR"; "INTO"; "MOST"; "ALSO"; "BACK"; "GOOD"; "WELL"; "EVEN"; "WANT"; "GIVE";
    "MUCH"; "WORK"; "FIRST"; "AFTER"; "AS"; "AT"; "BE"; "BY"; "DO"; "GO"; "IF"; "IN";
    "IS"; "IT"; "MY"; "NO"; "OF"; "ON"; "OR"; "SO"; "TO"; "UP"; "US"; "WE"; "AN";
    "AM"; "AH"; "OH"; "OK"; "HI"; "YA"; "YO"; "BULL"; "BEAR"; "CALL"; "PUTS"; "HOLD";
    "SELL"; "MOON"; "PUMP"; "DUMP"; "BAGS"; "TEND"; "START"; "ABOUT"; "NAME"; "NEXT";
    "PLAY"; "LIVE"; "GAME"; "BEST"; "LINK"; "READ"; "POST"; "NEWS"; "FREE"; "LOOK";
    "HELP"; "OPEN"; "FULL"; "VIEW"; "REAL"; "SEND"; "HIGH"; "DROP"; "FAST"; "SAFE";
    "RISK"; "TURN"; "PLAN"; "DEAL"; "MOVE"; "HUGE"; "EASY"; "HARD"; "LATE"; "WAIT";
    "SOON"; "STOP"; "EXIT"; "GAIN"; "LOSS"; "GROW"; "FALL"; "JUMP"; "KEEP"; "COPY";
    "EDIT"; "SAVE"; "NOTE"; "TIPS"; "IDEA"; "PLUS"; "ZERO"; "SELF"; "BOTH"; "BETA";
    "TEST"; "INFO"; "DATA"; "CASH"; "WHAT"; "WHEN"; "WHERE"; "WHY"; "WATCH"; "LOVE";
    "HATE"; "TECH"; "HOPE"; "FEAR"; "WEEK"; "LAST"; "PART"; "SIDE"; "STEP"; "SURE";
    "TELL"; "THINK"; "TOLD"; "TRUE"; "TURN"; "TYPE"; "UNIT"; "USED"; "VERY"; "WANT";
    "WENT"; "WERE"; "YEAH"; "YOUR"; "ELSE"; "AWAY"; "OTHER"; "PRICE"; "THEIR";
    "STILL"; "CHEAP"; "THESE"; "LEAP"; "EVERY"; "SINCE"; "BEING"; "THOSE"; "DOING";
    "COULD"; "WOULD"; "SHOULD"; "MIGHT"; "MUST"; "SHALL"
  ]%string).

(** [/\$([A-Z]{1,5})\b|\b([A-Z]{2,5})\b(?=\s+(?:calls?|puts?|stock|shares?|moon|rocket|yolo|buy|sell|long|short))/gi] *)
Definition tickerRegex : regex :=
  Alt
    (Seq (Chr "$") (Seq (Group 1 (Rep (Class "A" "Z") 1%nat (Some 5%nat))) WordB))
    (Seq WordB
      (Seq (Group 2 (Rep (Class "A" "Z") 2%nat (Some 5%nat)))
        (Seq WordB
          (Look
            (Seq (plus Space)
              (alts
                [ Seq (lit "call") (opt (Chr "s"));
                  Seq (lit "put") (opt (Chr "s"));
                  lit "stock";
                  Seq (lit "share") (opt (Chr "s"));
                  lit "moon"; lit "rocket"; lit "yolo"; lit "buy"; lit "sell";
                  lit "long"; lit "short" ])))))).

(** [match[1] || match[2] || ""] *)
Definition matchedTicker (cs : list (nat * string)) : string :=
  match get_cap 1%nat cs with
  | Some (String c s) => String c s
  | _ =>
    match get_cap 2%nat cs with
    | Some (String c s) => String c s
    | _ => EmptyString
    end
  end.

(** [matches.add(ticker)] on a [Set], kept in insertion order *)
Definition set_add (t : string) (matches : list string) : list string :=
  if existsb (String.eqb t) matches then matches else matches ++ [t].

(** The [while ((match = regex.exec(text)) !== null)] loop.  Each turn
    resumes at the end of the previous match; [None] is a loop that has
    not ended after [fuel] turns. *)
Fixpoint tickerLoop (fuel : nat) (customSet : gset string) (prev : option ascii)
    (s : string) (matches : list string) : option (list string) :=
  match fuel with
  | O => None
  | S fuel' =>
    match exec true tickerRegex prev s with
    | None => Some matches
    | Some st =>
      let ticker := Str.toUpperCase (matchedTicker (caps st)) in
      let matches :=
        if (2 <=? String.length ticker)%nat && (String.length ticker <=? 5)%nat
           && negb (bool_decide (ticker ∈ TICKER_BLACKLIST))
           && negb (bool_decide (ticker ∈ customSet))
        then set_add ticker matches
        else matches in
      tickerLoop fuel' customSet (Regex.prev st) (rest st) matches
    end
  end.

Definition extractTickers (text : string) (customBlacklist : list string)
    : option (list string) :=
  let customSet : gset string := list_to_set (map Str.toUpperCase customBlacklist) in
  tickerLoop (S (String.length text)) customSet None text [].

End Ticker.

(** ** helpers/ticker.ts: the ticker validation cache *)

Module TickerCache.

(** The fields of [class ValidTickerCache]; [secTickers = None] is [null]. *)
Record ValidTickerCache := {
  secTickers : option (gset string);
  lastSecRefresh : Z;
  alpacaCache : gmap string bool
}.

Definition SEC_REFRESH_INTERVAL_MS : Z := 24 * 60 * 60 * 1000.

(** The answer of the SEC company directory: the tickers and titles of
    its entries in the order [Object.values] lists them. *)
Inductive DirAnswer :=
| DirThrows
| DirNotOk
| DirJsonThrows
| DirOk (entries : list (string * string)).

Definition refreshSecTickersIfNeeded (now : Z) (a : DirAnswer) (c : ValidTickerCache)
    : ValidTickerCache :=
  match secTickers c with
  | Some _ =>
    if now - lastSecRefresh c <? SEC_REFRESH_INTERVAL_MS then c
    else
      match a with
      | DirOk entries =>
        {| secTickers := Some (list_to_set (map (fun e => Str.toUpperCase (fst e)) entries));
           lastSecRefresh := now;
           alpacaCache := alpacaCache c |}
      | _ => c
      end
  | None =>
    match a with
    | DirOk entries =>
      {| secTickers := Some (list_to_set (map (fun e => Str.toUpperCase (fst e)) entries));
         lastSecRefresh := now;
         alpacaCache := alpacaCache c |}
    | _ => c
    end
  end.

Definition isKnownSecTicker (c : ValidTickerCache) (symbol : string) : bool :=
  match secTickers c with
  | Some s => bool_decide (Str.toUpperCase symbol ∈ s)
  | None => false
  end.

Definition getCachedValidation (c : ValidTickerCache) (symbol : string) : option bool :=
  alpacaCache c !! Str.toUpperCase symbol.

Definition set_alpaca (upper : string) (isValid : bool) (c : ValidTickerCache)
    : ValidTickerCache :=
  {| secTickers := secTickers c;
     lastSecRefresh := lastSecRefresh c;
     alpacaCache := <[upper := isValid]> (alpacaCache c) |}.

Definition setCachedValidation (c : ValidTickerCache) (symbol : string) (isValid : bool)
    : ValidTickerCache :=
  set_alpaca (Str.toUpperCase symbol) isValid c.

(** What [alpaca.trading.getAsset] does for a symbol. *)
Inductive AssetAnswer :=
| AssetThrows
| AssetNull
| Asset (tradable : bool).

(** The shared [tickerCache], the symbols [getAsset] was called with, the
    company-name cache of the SEC gatherer, the number of directory
    requests sent, and the log. *)
Record World := {
  cache : ValidTickerCache;
  assetCalls : list string;
  companyToTickerCache : gmap string (option string);
  dirFetches : nat;
  g_log : list (string * string)
}.

Definition set_cache (c : ValidTickerCache) (w : World) : World :=
  {| cache := c; assetCalls := assetCalls w;
     companyToTickerCache := companyToTickerCache w;
     dirFetches := dirFetches w; g_log := g_log w |}.

Definition call_asset (upper : string) (w : World) : World :=
  {| cache := cache w; assetCalls := assetCalls w ++ [upper];
     companyToTickerCache := companyToTickerCache w;
     dirFetches := dirFetches w; g_log := g_log w |}.

Definition g_logged (component event : string) (w : World) : World :=
  {| cache := cache w; assetCalls := assetCalls w;
     companyToTickerCache := companyToTickerCache w;
     dirFetches := dirFetches w; g_log := g_log w ++ [(component, event)] |}.

Definition validateWithAlpaca (getAsset : string -> AssetAnswer) (symbol : string)
    (w : World) : bool * World :=
  let upper := Str.toUpperCase symbol in
  match alpacaCache (cache w) !! upper with
  | Some cached => (cached, w)
  | None =>
    let w := call_asset upper w in
    match getAsset upper with
    | Asset tradable => (tradable, set_cache (set_alpaca upper tradable (cache w)) w)
    | AssetNull => (false, set_cache (set_alpaca upper false (cache w)) w)
    | AssetThrows => (false, set_cache (set_alpaca upper false (cache w)) w)
    end
  end.

End TickerCache.

(** ** gatherers/reddit.ts and gatherers/sec.ts: promotion of aggregates *)

Module Gatherers.

Import TickerCache.
Local Open Scope num_scope.

(** Modelled from the spec: the fields of [Signal] (core/types) that both
    gatherers set to numbers or to the symbol. *)
Record Signal := {
  sig_symbol : string;
  sig_source : string;
  sig_sentiment : num;
  sig_raw_sentiment : num;
  sig_volume : Z;
  sig_freshness : num;
  sig_source_weight : num
}.

(** The fields of a [tickerData] entry that the promotion reads. *)
Record RedditAggregate := {
  mentions : Z;
  weightedSentiment : Q;
  rawSentiment : Q;
  totalQuality : Q;
  freshestPost : Q
}.

(** An entry of [parseSECAtomFeed]; [updatedMs] is
    [new Date(updated).getTime()]. *)
Record SecEntry := {
  se_form : string;
  se_company : string;
  se_updatedMs : num
}.

(** [normalized.split(/[\s,]+/)[0]] *)
Definition firstWord (s : string) : string :=
  Str.takeWhile (fun c => negb (Str.is_space c || Ascii.eqb c ",")) s.

Definition set_company (name : string) (t : option string) (w : World) : World :=
  {| cache := cache w; assetCalls := assetCalls w;
     companyToTickerCache := <[name := t]> (companyToTickerCache w);
     dirFetches := dirFetches w; g_log := g_log w |}.

Definition fetch_dir (w : World) : World :=
  {| cache := cache w; assetCalls := assetCalls w;
     companyToTickerCache := companyToTickerCache w;
     dirFetches := S (dirFetches w); g_log := g_log w |}.

(** [dir n] is the directory's answer to the [n]-th request. *)
Definition resolveTickerFromCompanyName (dir : nat -> DirAnswer) (companyName : string)
    (w : World) : option string * World :=
  let normalized := Str.trim (Str.toUpperCase companyName) in
  match companyToTickerCache w !! normalized with
  | Some cached => (cached, w)
  | None =>
    let a := dir (dirFetches w) in
    let w := fetch_dir w in
    match a with
    | DirOk entries =>
      match
        find (fun e =>
                let entryTitle := Str.toUpperCase (snd e) in
                String.eqb entryTitle normalized
                || Str.includes entryTitle normalized
                || Str.includes normalized entryTitle) entries
      with
      | Some e => (Some (fst e), set_company normalized (Some (fst e)) w)
      | None =>
        match
          find (fun e => Str.startsWith (firstWord normalized) (Str.toUpperCase (snd e)))
               entries
        with
        | Some e => (Some (fst e), set_company normalized (Some (fst e)) w)
        | None => (None, set_company normalized None w)
        end
      end
    | _ => (None, w)
    end
  end.

Section Gather.

(** [calculateTimeDecay] (it raises 0.5 to a real power) and
    [calculateSECFreshness] read the clock; the weights come from
    [SOURCE_CONFIG]. *)
Variable calculateTimeDecay : Q -> num.
Variable now : Z.
Variable sec_8k sec_4 : Q.
Variable getAsset : string -> AssetAnswer.
Variable dir : nat -> DirAnswer.

Definition calculateSECFreshness (updatedMs : num) : num :=
  let ageMs := finZ now - updatedMs in
  let ageHours := ageMs / finZ (1000 * 60 * 60) in
  if ageHours <? finZ 1 then fin 1
  else if ageHours <? finZ 4 then fin (9 # 10)
  else if ageHours <? finZ 12 then fin (7 # 10)
  else if ageHours <? finZ 24 then fin (5 # 10)
  else fin (3 # 10).

Definition redditSignal (symbol : string) (data : RedditAggregate) : Signal :=
  let avgRawSentiment := fin (rawSentiment data) / finZ (mentions data) in
  let avgQuality := fin (totalQuality data) / finZ (mentions data) in
  let finalSentiment :=
    if fin (totalQuality data) >? finZ 0
    then fin (weightedSentiment data) / finZ (mentions data)
    else avgRawSentiment * fin (5 # 10) in
  {| sig_symbol := symbol;
     sig_source := "reddit";
     sig_sentiment := finalSentiment;
     sig_raw_sentiment := avgRawSentiment;
     sig_volume := mentions data;
     sig_freshness := calculateTimeDecay (freshestPost data);
     sig_source_weight := avgQuality |}.

(** The body of [for (const [symbol, data] of tickerData)] in
    [gatherReddit]. *)
Definition redditStep (acc : list Signal * World) (e : string * RedditAggregate)
    : list Signal * World :=
  let '(signals, w) := acc in
  let '(symbol, data) := e in
  if (mentions data >=? 2)%Z then
    if negb (isKnownSecTicker (cache w) symbol) then
      match getCachedValidation (cache w) symbol with
      | Some false => (signals, w)
      | None =>
        let '(isValid, w) := validateWithAlpaca getAsset symbol w in
        if negb isValid then (signals, g_logged "Reddit" "invalid_ticker_filtered" w)
        else (signals ++ [redditSignal symbol data], w)
      | Some true => (signals ++ [redditSignal symbol data], w)
      end
    else (signals ++ [redditSignal symbol data], w)
  else (signals, w).

(** [gatherReddit] from its aggregated [tickerData] on. *)
Definition gatherRedditPromote (tickerData : list (string * RedditAggregate))
    (w : World) : list Signal * World :=
  fold_left redditStep tickerData ([], w).

Definition secSignal (ticker : string) (entry : SecEntry) : Signal :=
  let is8k := String.eqb (se_form entry) "8-K" in
  let sourceWeight := if is8k then sec_8k else sec_4 in
  let freshness := calculateSECFreshness (se_updatedMs entry) in
  let sentiment := if is8k then (3 # 10)%Q else (2 # 10)%Q in
  {| sig_symbol := ticker;
     sig_source := "sec_edgar";
     sig_sentiment := fin sentiment * fin sourceWeight * freshness;
     sig_raw_sentiment := fin sentiment;
     sig_volume := 1;
     sig_freshness := freshness;
     sig_source_weight := fin sourceWeight |}.

(** The body of [for (const entry of entries.slice(0, 15))] in
    [gatherSECFilings]. *)
Definition secStep (acc : list Signal * World) (entry : SecEntry)
    : list Signal * World :=
  let '(signals, w) := acc in
  let '(ticker, w) := resolveTickerFromCompanyName dir (se_company entry) w in
  match ticker with
  | None | Some EmptyString => (signals, w)
  | Some ticker =>
    match getCachedValidation (cache w) ticker with
    | Some false => (signals, w)
    | None =>
      let '(isValid, w) := validateWithAlpaca getAsset ticker w in
      if negb isValid then (signals, w)
      else (signals ++ [secSignal ticker entry], w)
    | Some true => (signals ++ [secSignal ticker entry], w)
    end
  end.

(** [gatherSECFilings] from its parsed feed entries on. *)
Definition gatherSECPromote (entries : list SecEntry) (w : World)
    : list Signal * World :=
  fold_left secStep (firstn 15 entries) ([], w).

End Gather.

End Gatherers.

(** * The worker's entry point, the remaining gatherers and helpers *)

From Stdlib Require Import Qround.

(** ** More of the numbers: [Math.max], [Math.round] and truthiness *)

Module Math.

(** [Math.max(a, b)] *)
Definition max (a b : num) : num :=
  match a, b with
  | NaN, _ | _, NaN => NaN
  | _, _ => if Num.lt a b then b else a
  end.

(** [Math.round(a)]: the nearest integer, a half going up *)
Definition round (a : num) : num :=
  match a with
  | Fin q => Fin (inject_Z (Qfloor (q + (1 # 2))))
  | _ => a
  end.

(** [!!a] for a number *)
Definition truthy (a : num) : bool :=
  match a with
  | NaN => false
  | Fin x => negb (Qeq_bool x 0)
  | _ => true
  end.

End Math.

(** ** src/index.ts: authorization and routing of the worker *)

Module Worker.

(** [s.slice(n)] *)
Fixpoint sliceFrom (n : nat) (s : string) : string :=
  match n, s with
  | S n', String _ s' => sliceFrom n' s'
  | _, _ => s
  end.

(** [s.slice(a, b)] for [a <= b] *)
Definition slice (a b : nat) (s : string) : string :=
  Str.slice0 (b - a) (sliceFrom a s).

(** [s.replace(pat, rep)] for a string pattern: the first occurrence *)
Fixpoint replaceFirst (pat rep s : string) : string :=
  if Str.startsWith pat s then (rep ++ sliceFrom (String.length pat) s)%string
  else
    match s with
    | EmptyString => EmptyString
    | String c s' => String c (replaceFirst pat rep s')
    end.

(** [a || b] on strings: the empty string is falsy *)
Definition or_str (a b : string) : string :=
  match a with EmptyString => b | _ => a end.

(** [s.charCodeAt(i)] as the bitwise operators read it: the code of the
    character, and 0 for the [NaN] of an index out of range.  Codes are
    below 2^16, so that the 32-bit operators [|] and [^] never wrap. *)
Definition charCodeAt (s : string) (i : nat) : Z :=
  match String.get i s with
  | Some c => Z.of_N (Str.code c)
  | None => 0
  end.

(** [for (let i = 0; i < a.length; i++) mismatch |= a.charCodeAt(i) ^ b.charCodeAt(i)]
    with [k] iterations to go, [i = a.length - k]. *)
Fixpoint compareLoop (a b : string) (k : nat) (mismatch : Z) : Z :=
  match k with
  | O => mismatch
  | S k' =>
    let i := (String.length a - k)%nat in
    compareLoop a b k' (Z.lor mismatch (Z.lxor (charCodeAt a i) (charCodeAt b i)))
  end.

Definition constantTimeCompare (a b : string) : bool :=
  if negb (Nat.eqb (String.length a) (String.length b)) then false
  else
    let mismatch := compareLoop a b (String.length a) 0 in
    mismatch =? 0.

(** The bindings of [Env] and the parts of a [Request] that the handler
    reads: the path and query of its URL and its [Authorization] header. *)
Record Env := {
  MAHORAGA_API_TOKEN : option string;
  ENVIRONMENT : option string
}.

Record Request := {
  pathname : string;
  search : string;
  Authorization : option string
}.

Definition isAuthorized (request : Request) (env : Env) : bool :=
  match MAHORAGA_API_TOKEN env with
  | None => false
  | Some token =>
    if String.eqb token "" then false
    else
      match Authorization request with
      | None => false
      | Some authHeader =>
        if negb (Str.startsWith "Bearer " authHeader) then false
        else constantTimeCompare (sliceFrom 7 authHeader) token
      end
  end.

(** What the handler answers: a response of its own, or the response of
    the MCP agent or of the harness to the request it passes on.  The
    request for the harness is for [new URL(agentPath, "http://harness")]
    with the query [search]. *)
Inductive Response :=
| Health
| Info
| Unauthorized
| RateLimited (resetAt : Z)
| FromMcp
| FromHarness (agentPath search : string)
| NotFound.

(** The status of the handler's own responses. *)
Definition status (r : Response) : option Z :=
  match r with
  | Health | Info => Some 200
  | Unauthorized => Some 401
  | RateLimited _ => Some 429
  | NotFound => Some 404
  | FromMcp | FromHarness _ _ => None
  end.

Record RateCheck := { allowed : bool; resetAt : Z }.

(** The calls made to the session object: the keys checked and the keys
    counted. *)
Record World := {
  checked : list string;
  incremented : list string
}.

Definition fetch (checkRateLimit : string -> RateCheck) (request : Request) (env : Env)
    (w : World) : Response * World :=
  if String.eqb (pathname request) "/health" then (Health, w)
  else if String.eqb (pathname request) "/" then (Info, w)
  else if Str.startsWith "/mcp" (pathname request) then
    if negb (isAuthorized request env) then (Unauthorized, w)
    else (FromMcp, w)
  else if Str.startsWith "/agent" (pathname request) then
    if negb (isAuthorized request env) then (Unauthorized, w)
    else
      let tokenHash :=
        or_str (default "" (slice 7 15 <$> Authorization request)) "anon" in
      let key := ("agent-" ++ tokenHash)%string in
      let rateCheck := checkRateLimit key in
      let w := {| checked := checked w ++ [key]; incremented := incremented w |} in
      if negb (allowed rateCheck) then (RateLimited (resetAt rateCheck), w)
      else
        let w := {| checked := checked w; incremented := incremented w ++ [key] |} in
        let agentPath := or_str (replaceFirst "/agent" "" (pathname request)) "/status" in
        (FromHarness agentPath (search request), w)
  else (NotFound, w).

End Worker.

(** ** dashboard/functions/api: the proxy in front of the worker *)

Module Dashboard.

Record Env := { MAHORAGA_WORKER_URL : option string }.

(** [url.pathname.replace(/^\/api/, '') || '/status'] *)
Definition path (pathname : string) : string :=
  Worker.or_str
    (if Str.startsWith "/api" pathname then Worker.sliceFrom 4 pathname else pathname)
    "/status".

Definition workerUrl (env : Env) : string :=
  Worker.or_str (default "" (MAHORAGA_WORKER_URL env))
    "https://mahoraga.chrisboyle.workers.dev".

Definition targetUrl (env : Env) (pathname search : string) : string :=
  (workerUrl env ++ "/agent" ++ path pathname ++ search)%string.

(** Header names are case-insensitive: the headers are a map keyed by the
    lower-cased name.  [headers.set(name, value)]: *)
Definition set (name value : string) (h : gmap string string) : gmap string string :=
  <[Str.toLowerCase name := value]> h.

Inductive FetchAnswer :=
| FetchThrows
| Answered (status : Z) (statusText : string) (headers : gmap string string).

Record Response := {
  r_status : Z;
  r_statusText : string;
  r_headers : gmap string string;
  r_proxied : bool
}.

(** The request is sent to [targetUrl] with the method, headers and body
    of the incoming one; [r_proxied] tells whether the body of the answer
    is that of the worker. *)
Definition onRequest (fetch : string -> FetchAnswer) (env : Env) (pathname search : string)
    : Response :=
  match fetch (targetUrl env pathname search) with
  | Answered status statusText headers =>
    {| r_status := status;
       r_statusText := statusText;
       r_headers :=
         set "Access-Control-Allow-Headers" "Content-Type, Authorization"
           (set "Access-Control-Allow-Methods" "GET, POST, PUT, DELETE, OPTIONS"
              (set "Access-Control-Allow-Origin" "*" headers));
       r_proxied := true |}
  | FetchThrows =>
    {| r_status := 502;
       r_statusText := "";
       r_headers := {[ "content-type"%string := "application/json"%string ]};
       r_proxied := false |}
  end.

End Dashboard.

(** ** gatherers/twitter.ts: breaking news *)

Module TwitterNews.

Import Twitter.

Definition MAX_NEWS_AGE_MS : Z := 1800000.
Definition BREAKING_THRESHOLD_MS : Z := 600000.

Record BreakingNews := {
  bn_symbol : string;
  headline : string;
  bn_author : string;
  age_minutes : num;
  is_breaking : bool
}.

Definition newsQuery (toCheck : list string) : string :=
  ("(from:FirstSquawk OR from:DeItaone OR from:Newsquawk) ("
   ++ join " OR " (map (fun s => "$" ++ s) toCheck) ++ ") -is:retweet")%string.

Section News.

(** [new Date(s).getTime()], a function of the host; [NaN] for a string
    that is not a date. *)
Variable getTime : string -> num.

(** [toCheck.find((s) => ...)] for one tweet *)
Definition mentioned (toCheck : list string) (tweet : Tweet) : option string :=
  find (fun s =>
          Str.includes ("$" ++ s) (Str.toUpperCase (text tweet))
          || Str.includes (" " ++ s ++ " ") (Str.toUpperCase (text tweet)))
       toCheck.

(** The body of [for (const tweet of tweets)]; the loop does not await,
    and its clock readings are one reading, [now]. *)
Definition newsStep (now : Z) (toCheck : list string) (results : list BreakingNews)
    (tweet : Tweet) : list BreakingNews :=
  let tweetAge := (finZ now - getTime (created_at tweet))%num in
  if (tweetAge >? finZ MAX_NEWS_AGE_MS)%num then results
  else
    match mentioned toCheck tweet with
    | Some mentionedSymbol =>
      if String.eqb mentionedSymbol "" then results
      else
        results ++
        [ {| bn_symbol := mentionedSymbol;
             headline := Str.slice0 200 (text tweet);
             bn_author := author tweet;
             age_minutes := Math.round (tweetAge / finZ 60000)%num;
             is_breaking := (tweetAge <? finZ BREAKING_THRESHOLD_MS)%num |} ]
    | None => results
    end.

Definition checkTwitterBreakingNews (ctx : StrategyContext) (symbols : list string)
    (a : Answer) (w : World) : list BreakingNews * World :=
  if negb (isTwitterEnabled ctx) then ([], w)
  else
    let '(can, w) := canSpendTwitterRead w in
    if negb can then ([], w)
    else if (length symbols =? 0)%nat then ([], w)
    else
      let toCheck := firstn 3 symbols in
      let newsQuery := newsQuery toCheck in
      let '(tweets, w) := twitterSearchRecent ctx newsQuery 5 a w in
      let results := fold_left (newsStep (w_now w) toCheck) tweets [] in
      if (0 <? length results)%nat
      then (results, log "Twitter" "breaking_news_found" w)
      else (results, w).

End News.

End TwitterNews.

(** ** helpers/sentiment.ts: time decay and engagement *)

Module Scoring.

(** Modelled from the spec: [SOURCE_CONFIG] of strategy/default/config is
    not among the sources; these are the entries the modelled functions
    read.  The engagement tables are given as [Object.entries] lists them,
    each key as the integer it spells. *)
Record SourceConfig := {
  decayHalfLifeMinutes : Q;
  weights_stocktwits : Q;
  engagement_upvotes : list (Z * Q);
  engagement_comments : list (Z * Q)
}.

Section Helpers.

Variable SOURCE_CONFIG : SourceConfig.

(** [x ** y], a function of the host. *)
Variable pow : num -> num -> num.

Local Open Scope num_scope.

(** [postTimestamp] is in seconds, the clock in milliseconds. *)
Definition calculateTimeDecay (now : Z) (postTimestamp : num) : num :=
  let ageMinutes := (finZ now - postTimestamp * finZ 1000) / finZ 60000 in
  let halfLife := fin (decayHalfLifeMinutes SOURCE_CONFIG) in
  let decay := pow (fin (1 # 2)) (ageMinutes / halfLife) in
  Math.max (fin (2 # 10)) (Num.min (fin 1) decay).

(** [([a], [b]) => Number(b) - Number(a)] *)
Definition byThresholdDesc (a b : Z * Q) : num := finZ (fst b) - finZ (fst a).

(** [for (const [threshold, mult] of thresholds) if (count >= parseInt(threshold, 10)) { ...; break }]
    after the sort, starting from the default multiplier. *)
Definition multiplierFor (table : list (Z * Q)) (count : Z) (default : Q) : Q :=
  match find (fun e => (count >=? fst e)%Z) (Entries.sort byThresholdDesc table) with
  | Some e => snd e
  | None => default
  end.

Definition getEngagementMultiplier (upvotes comments : Z) : num :=
  let upvoteMultiplier :=
    multiplierFor (engagement_upvotes SOURCE_CONFIG) upvotes (8 # 10) in
  let commentMultiplier :=
    multiplierFor (engagement_comments SOURCE_CONFIG) comments (9 # 10) in
  (fin upvoteMultiplier + fin commentMultiplier) / finZ 2.

End Helpers.

End Scoring.

(** ** gatherers/stocktwits.ts *)

Module StockTwits.

Import Scoring.

Record Message := {
  basic : option string;
  created_at : option string
}.

(** What [res.json()] gives: it throws, or it is an object of which the
    gatherer reads [symbols] (each entry by its [symbol]) and [messages]. *)
Inductive Json :=
| JsonThrows
| JsonValue (symbols : option (list string)) (messages : option (list Message)).

Record HttpResponse := { status : Z; body : Json }.

Inductive NetResult :=
| NetThrows
| NetResponse (res : HttpResponse).

(** The answer to one request, and the time it took. *)
Record NetAnswer := { elapsed : Z; result : NetResult }.

(** [res.ok] *)
Definition ok (res : HttpResponse) : bool :=
  (200 <=? status res) && (status res <=? 299).

(** The requests sent, the delays slept, the log and the clock. *)
Record World := {
  requests : list string;
  sleeps : list Z;
  st_log : list (string * string);
  st_now : Z
}.

Definition request (url : string) (took : Z) (w : World) : World :=
  {| requests := requests w ++ [url]; sleeps := sleeps w; st_log := st_log w;
     st_now := st_now w + took |}.

Definition sleep (ms : Z) (w : World) : World :=
  {| requests := requests w; sleeps := sleeps w ++ [ms]; st_log := st_log w;
     st_now := st_now w + ms |}.

Definition log (component event : string) (w : World) : World :=
  {| requests := requests w; sleeps := sleeps w;
     st_log := st_log w ++ [(component, event)]; st_now := st_now w |}.

Section Gather.

(** [net n url] answers the request for [url] sent after [n] others. *)
Variable net : nat -> string -> NetAnswer.

(** [for (let i = 0; i < maxRetries; i++)] with [k] iterations to go,
    [i = maxRetries - k]. *)
Fixpoint retryLoop (url : string) (maxRetries k : nat) (w : World)
    : option HttpResponse * World :=
  match k with
  | O => (None, w)
  | S k' =>
    let i := (maxRetries - k)%nat in
    let a := net (length (requests w)) url in
    let w := request url (elapsed a) w in
    match result a with
    | NetResponse res =>
      if ok res then (Some res, w)
      else if status res =? 403 then
        retryLoop url maxRetries k' (sleep (1000 * 2 ^ Z.of_nat i) w)
      else (None, w)
    | NetThrows =>
      retryLoop url maxRetries k'
        (sleep (1000 * 2 ^ Z.of_nat i) (log "StockTwits" "fetch_retry" w))
    end
  end.

Definition fetchWithRetry (url : string) (maxRetries : nat) (w : World)
    : option HttpResponse * World :=
  retryLoop url maxRetries maxRetries w.

Variable SOURCE_CONFIG : SourceConfig.
Variable pow : num -> num -> num.

(** [new Date(s).getTime()] and [encodeURIComponent], functions of the
    host. *)
Variable getTime : string -> num.
Variable encodeURIComponent : string -> string.

Local Open Scope num_scope.

Definition trendingUrl : string :=
  "https://api.stocktwits.com/api/2/trending/symbols.json".

Definition streamUrl (symbol : string) : string :=
  ("https://api.stocktwits.com/api/2/streams/symbol/" ++ encodeURIComponent symbol
   ++ ".json?limit=30")%string.

(** [new Date(msg.created_at || Date.now()).getTime() / 1000] *)
Definition msgTime (now : Z) (msg : Message) : num :=
  match created_at msg with
  | Some s => if String.eqb s "" then finZ now else getTime s
  | None => finZ now
  end / finZ 1000.

Record Tally := {
  bullish : num;
  bearish : num;
  totalTimeDecay : num
}.

(** The body of [for (const msg of messages)]; the loop does not await,
    and its clock readings are one reading, [now]. *)
Definition tallyStep (now : Z) (t : Tally) (msg : Message) : Tally :=
  let sentiment := basic msg in
  let msgTime := msgTime now msg in
  let timeDecay := calculateTimeDecay SOURCE_CONFIG pow now msgTime in
  let isBullish := bool_decide (sentiment = Some "Bullish"%string) in
  let isBearish := bool_decide (sentiment = Some "Bearish"%string) in
  {| totalTimeDecay := totalTimeDecay t + timeDecay;
     bullish := if isBullish then bullish t + timeDecay else bullish t;
     bearish :=
       if isBullish then bearish t
       else if isBearish then bearish t + timeDecay else bearish t |}.

Definition tally (now : Z) (messages : list Message) : Tally :=
  fold_left (tallyStep now) messages
    {| bullish := finZ 0; bearish := finZ 0; totalTimeDecay := finZ 0 |}.

Record Signal := {
  symbol : string;
  sentiment : num;
  raw_sentiment : num;
  volume : nat;
  sig_bullish : num;
  sig_bearish : num;
  freshness : num;
  source_weight : Q;
  timestamp : Z
}.

Definition score (t : Tally) : num :=
  let effectiveTotal := Num.or_else (totalTimeDecay t) (finZ 1) in
  if effectiveTotal >? finZ 0 then (bullish t - bearish t) / effectiveTotal else finZ 0.

(** [total > 0 ? totalTimeDecay / total : 0], exact here; in the source
    the sum and the quotient are rounded. *)
Definition avgFreshness (t : Tally) (total : nat) : num :=
  if (0 <? total)%nat then totalTimeDecay t / finZ (Z.of_nat total) else finZ 0.

(** The signal of a symbol with at least 5 messages. *)
Definition signalFor (now : Z) (sym : string) (messages : list Message) : Signal :=
  let t := tally now messages in
  let total := length messages in
  let sourceWeight := weights_stocktwits SOURCE_CONFIG in
  {| symbol := sym;
     sentiment := score t * fin sourceWeight * avgFreshness t total;
     raw_sentiment := score t;
     volume := total;
     sig_bullish := Math.round (bullish t);
     sig_bearish := Math.round (bearish t);
     freshness := avgFreshness t total;
     source_weight := sourceWeight;
     timestamp := now |}.

(** The body of [for (const sym of trending.slice(0, 15))]. *)
Definition symbolStep (acc : list Signal * World) (sym : string) : list Signal * World :=
  let '(signals, w) := acc in
  let '(streamRes, w) := fetchWithRetry (streamUrl sym) 3 w in
  match streamRes with
  | None => (signals, w)
  | Some res =>
    match body res with
    | JsonThrows => (signals, log "StockTwits" "symbol_error" w)
    | JsonValue _ messages =>
      let messages := default [] messages in
      let signals :=
        if (5 <=? length messages)%nat
        then signals ++ [signalFor (st_now w) sym messages]
        else signals in
      (signals, sleep 200 w)
    end
  end.

Definition gatherStockTwits (w : World) : list Signal * World :=
  let '(trendingRes, w) := fetchWithRetry trendingUrl 3 w in
  match trendingRes with
  | None => ([], log "StockTwits" "cloudflare_blocked" w)
  | Some res =>
    match body res with
    | JsonThrows => ([], log "StockTwits" "error" w)
    | JsonValue symbols _ =>
      let trending := default [] symbols in
      fold_left symbolStep (firstn 15 trending) ([], w)
    end
  end.

End Gather.

End StockTwits.

(** ** gatherers/crypto.ts and rules/crypto.ts *)

Module Crypto.

Local Open Scope num_scope.

(** Modelled from the spec: the crypto settings of [AgentConfig]
    (core/types), with the names the sources use.  A symbol list that is
    not configured is [None]. *)
Record CryptoConfig := {
  crypto_enabled : bool;
  crypto_symbols : option (list string);
  crypto_momentum_threshold : Q;
  crypto_take_profit_pct : Q;
  crypto_stop_loss_pct : Q;
  crypto_max_position_value : Q
}.

(** The fields of a crypto snapshot that the gatherer reads, each absent
    or a number. *)
Record Snapshot := {
  latest_trade_price : option Q;
  prev_daily_bar_c : option Q;
  daily_bar_v : option Q
}.

Inductive SnapshotResult :=
| SnapshotThrows
| SnapshotNull
| SnapshotOf (snapshot : Snapshot).

Record SnapshotAnswer := { took : Z; snapshot_result : SnapshotResult }.

(** Modelled from the spec: the fields of [Signal] (core/types) that the
    crypto gatherer sets and the crypto rules read, but for the constant
    [source_detail] and the formatted [reason].  A signal of another
    gatherer has [isCrypto = false] and [NaN] for its undefined
    [momentum]. *)
Record Signal := {
  sig_symbol : string;
  source : string;
  sentiment : num;
  raw_sentiment : num;
  volume : Q;
  freshness : Q;
  source_weight : Q;
  bullish : Z;
  bearish : Z;
  isCrypto : bool;
  momentum : num;
  price : Q;
  timestamp : Z
}.

(** The snapshots asked for, the delays slept, the log and the clock. *)
Record World := {
  asked : list string;
  sleeps : list Z;
  c_log : list (string * string);
  c_now : Z
}.

Definition ask (symbol : string) (took : Z) (w : World) : World :=
  {| asked := asked w ++ [symbol]; sleeps := sleeps w; c_log := c_log w;
     c_now := c_now w + took |}.

Definition sleep (ms : Z) (w : World) : World :=
  {| asked := asked w; sleeps := sleeps w ++ [ms]; c_log := c_log w;
     c_now := c_now w + ms |}.

Definition log (component event : string) (w : World) : World :=
  {| asked := asked w; sleeps := sleeps w; c_log := c_log w ++ [(component, event)];
     c_now := c_now w |}.

Section Gatherer.

Variable config : CryptoConfig.
Variable getCryptoSnapshot : string -> SnapshotAnswer.

Definition momentumOf (price prevClose : Q) : num :=
  ((fin price - fin prevClose) / fin prevClose) * finZ 100.

Definition rawSentimentOf (momentum : num) : num :=
  let threshold := Num.or_else (fin (crypto_momentum_threshold config)) (fin 2) in
  let hasSignificantMove := Num.abs momentum >=? threshold in
  let isBullish := momentum >? finZ 0 in
  if hasSignificantMove && isBullish
  then Num.min (Num.abs momentum / finZ 5) (finZ 1)
  else fin (1 # 10).

(** The body of [for (const symbol of symbols)]. *)
Definition cryptoStep (acc : list Signal * World) (symbol : string)
    : list Signal * World :=
  let '(signals, w) := acc in
  let a := getCryptoSnapshot symbol in
  let w := ask symbol (took a) w in
  match snapshot_result a with
  | SnapshotThrows => (signals, log "Crypto" "error" w)
  | SnapshotNull => (signals, w)
  | SnapshotOf snapshot =>
    let price := default 0%Q (latest_trade_price snapshot) in
    let prevClose := default 0%Q (prev_daily_bar_c snapshot) in
    if Qeq_bool price 0 || Qeq_bool prevClose 0 then (signals, w)
    else
      let momentum := momentumOf price prevClose in
      let isBullish := momentum >? finZ 0 in
      let rawSentiment := rawSentimentOf momentum in
      (signals ++
       [ {| sig_symbol := symbol;
            source := "crypto";
            sentiment := rawSentiment;
            raw_sentiment := rawSentiment;
            volume := default 0%Q (daily_bar_v snapshot);
            freshness := 1;
            source_weight := 8 # 10;
            bullish := if isBullish then 1 else 0;
            bearish := if isBullish then 0 else 1;
            isCrypto := true;
            momentum := momentum;
            price := price;
            timestamp := c_now w |} ],
       sleep 200 w)
  end.

Definition gatherCrypto (w : World) : list Signal * World :=
  if negb (crypto_enabled config) then ([], w)
  else
    let symbols :=
      default ["BTC/USD"; "ETH/USD"; "SOL/USD"]%string (crypto_symbols config) in
    let '(signals, w) := fold_left cryptoStep symbols ([], w) in
    (signals, log "Crypto" "gathered_signals" w).

End Gatherer.

(** *** The trading loop *)

(** A research result as [researchCrypto] returns it and as the state
    stores it.  [researchCrypto] copies the verdict and the confidence
    from the model's JSON without a check: [r_verdict] is the verdict (a
    value that is not a string is never ["BUY"] and stands for any other
    string), and [r_confidence] is the number that [<] and [*] read from
    the confidence, [NaN] when it is missing or is not a number. *)
Record Research := {
  r_verdict : string;
  r_confidence : num;
  r_timestamp : Z
}.

Record Reply (A : Type) := { r_took : Z; r_value : A }.
Arguments r_took {A}.
Arguments r_value {A}.

Inductive SellReason :=
| CryptoTakeProfit (plPct : num)
| CryptoStopLoss (plPct : num).

(** What the loop does to the outside, in order. *)
Inductive Event :=
| Sell (symbol : string) (reason : SellReason)
| Researched (symbol : string)
| GetAccount
| Buy (symbol : string) (positionSize : num) (filled : bool)
| Logged (component event : string).

(** The research cache of the strategy state (the keys
    [cryptoResearch_<symbol>]), the clock and the events so far. *)
Record Trading := {
  cryptoResearch : gmap string Research;
  t_now : Z;
  events : list Event
}.

Definition emit (e : Event) (took : Z) (t : Trading) : Trading :=
  {| cryptoResearch := cryptoResearch t; t_now := t_now t + took;
     events := events t ++ [e] |}.

Definition CRYPTO_RESEARCH_TTL_MS : Z := 300000.

Section Rules.

Variable cfg : AgentConfig.
Variable config : CryptoConfig.

(** [researchCrypto], the broker's [sell], [getAccount] and [buy]:
    what they answer and how long they take.  The broker reports a
    failure by its result. *)
Variable researchCrypto : string -> num -> num -> Reply (option Research).
Variable sell : string -> Z.
Variable getAccount : nat -> Reply Account.
Variable buy : string -> num -> Reply bool.

Definition isCryptoPosition (p : Position) : bool :=
  bool_decide (symbol p ∈ (list_to_set (default [] (crypto_symbols config)) : gset string))
  || Str.includes "/" (symbol p).

(** The body of [for (const pos of cryptoPositions)]. *)
Definition exitStep (t : Trading) (pos : Position) : Trading :=
  let plPct := Exits.plPct pos in
  if plPct >=? fin (crypto_take_profit_pct config) then
    emit (Sell (symbol pos) (CryptoTakeProfit plPct)) (sell (symbol pos))
      (emit (Logged "Crypto" "take_profit") 0 t)
  else if plPct <=? - fin (crypto_stop_loss_pct config) then
    emit (Sell (symbol pos) (CryptoStopLoss plPct)) (sell (symbol pos))
      (emit (Logged "Crypto" "stop_loss") 0 t)
  else t.

Definition maxCryptoPositions : nat :=
  Nat.min
    (match length (default [] (crypto_symbols config)) with
     | O => 3
     | n => n
     end) 3.

Definition byMomentumDesc (a b : Signal) : num :=
  Num.or_else (momentum b) (finZ 0) - Num.or_else (momentum a) (finZ 0).

(** The signals that the entry loop ranks. *)
Definition cryptoSignals (signals : list Signal) (heldCrypto : gset string) : list Signal :=
  Entries.sort byMomentumDesc
    (List.filter (fun s => sentiment s >? finZ 0)
       (List.filter (fun s => negb (bool_decide (sig_symbol s ∈ heldCrypto)))
          (List.filter isCrypto signals))).

Definition positionSizeFor (account : Account) (research : Research) : num :=
  Num.min
    (fin (cash account) * (Entries.sizePct cfg / finZ 100)
     * r_confidence research)
    (fin (crypto_max_position_value config)).

(** The number of [getAccount] calls so far. *)
Definition accountCalls (t : Trading) : nat :=
  length (List.filter (fun e => match e with GetAccount => true | _ => false end) (events t)).

(** The body of [for (const signal of cryptoSignals.slice(0, 2))];
    [inl] is what [continue] and the end of the body leave, [inr] what
    [break] leaves. *)
Definition entryStep (held : nat) (t : Trading) (signal : Signal) : Trading + Trading :=
  if (maxCryptoPositions <=? held)%nat then inr t
  else
    let cachedResearch := cryptoResearch t !! sig_symbol signal in
    let stale :=
      match cachedResearch with
      | None => true
      | Some cached => (t_now t - r_timestamp cached >? CRYPTO_RESEARCH_TTL_MS)%Z
      end in
    let '(research, t) :=
      if stale then
        let a :=
          researchCrypto (sig_symbol signal) (Num.or_else (momentum signal) (finZ 0))
            (sentiment signal) in
        let t := emit (Researched (sig_symbol signal)) (r_took a) t in
        match r_value a with
        | Some research =>
          (Some research,
           {| cryptoResearch := <[sig_symbol signal := research]> (cryptoResearch t);
              t_now := t_now t; events := events t |})
        | None => (None, t)
        end
      else (cachedResearch, t) in
    match research with
    | None => inl (emit (Logged "Crypto" "research_skip") 0 t)
    | Some research =>
      if negb (String.eqb (r_verdict research) "BUY")
      then inl (emit (Logged "Crypto" "research_skip") 0 t)
      else if r_confidence research <? fin (min_analyst_confidence cfg)
      then inl (emit (Logged "Crypto" "low_confidence") 0 t)
      else
        let a := getAccount (accountCalls t) in
        let t := emit GetAccount (r_took a) t in
        let positionSize := positionSizeFor (r_value a) research in
        if positionSize <? finZ 10
        then inl (emit (Logged "Crypto" "buy_skipped") 0 t)
        else
          let b := buy (sig_symbol signal) positionSize in
          let t := emit (Buy (sig_symbol signal) positionSize (r_value b)) (r_took b) t in
          if r_value b then inr t else inl t
    end.

(** The loop: it goes on after [inl] and stops at [inr]. *)
Fixpoint entryLoop (held : nat) (signals : list Signal) (t : Trading) : Trading :=
  match signals with
  | [] => t
  | signal :: rest =>
    match entryStep held t signal with
    | inl t => entryLoop held rest t
    | inr t => t
    end
  end.

Definition runCryptoTrading (signals : list Signal) (positions : list Position)
    (t : Trading) : Trading :=
  if negb (crypto_enabled config) then t
  else
    let cryptoPositions := List.filter isCryptoPosition positions in
    let heldCrypto : gset string := list_to_set (map symbol cryptoPositions) in
    let t := fold_left exitStep cryptoPositions t in
    if (maxCryptoPositions <=? length cryptoPositions)%nat then t
    else
      entryLoop (length cryptoPositions)
        (firstn 2 (cryptoSignals signals heldCrypto)) t.

End Rules.

End Crypto.

(** ** helpers/crypto.ts: crypto symbols *)

Module CryptoSymbol.

Import Regex.

(** [$] of an expression without the [m] flag: the end of the text. *)
Definition atEnd (st : mstate) : option mstate :=
  match rest st with
  | EmptyString => Some st
  | String _ _ => None
  end.

(** [text.match(re)] and [re.test(text)] of an expression [/^...$/]
    without flags: a match starts at the start of the text and ends at
    its end. *)
Definition matchAnchored (re : regex) (text : string) : option mstate :=
  m false re {| prev := None; rest := text; caps := [] |} atEnd.

Definition base : regex := Rep (Class "A" "Z") 2%nat (Some 5%nat).

Definition quote : regex := alts [lit "USD"; lit "USDT"; lit "USDC"].

(** [/^([A-Z]{2,5})(USD|USDT|USDC)$/] *)
Definition concatenated : regex := Seq (Group 1 base) (Group 2 quote).

(** [/^[A-Z]{2,5}\/(USD|USDT|USDC)$/] *)
Definition slashed : regex := Seq base (Seq (Chr "/") (Group 1 quote)).

(** [match[n]] inside a template literal. *)
Definition group (n : nat) (st : mstate) : string :=
  default "undefined"%string (get_cap n (caps st)).

Definition normalizeCryptoSymbol (symbol : string) : string :=
  if Str.includes "/" symbol then Str.toUpperCase symbol
  else
    match matchAnchored concatenated (Str.toUpperCase symbol) with
    | Some st => (group 1 st ++ "/" ++ group 2 st)%string
    | None => symbol
    end.

Definition isCryptoSymbol (symbol : string) (cryptoSymbols : list string) : bool :=
  let normalizedInput := normalizeCryptoSymbol symbol in
  if existsb (fun configSymbol =>
                String.eqb (normalizeCryptoSymbol configSymbol) normalizedInput)
       cryptoSymbols
  then true
  else
    match matchAnchored slashed normalizedInput with
    | Some _ => true
    | None => false
    end.

End CryptoSymbol.

(** ** prompts/analyst.ts: the candidates of the analyst prompt *)

Module Analyst.

Import Crypto.

Local Open Scope num_scope.

(** A value of the map [aggregated]. *)
Record Aggregate := {
  a_symbol : string;
  sources : list string;
  totalSentiment : num;
  count : Z
}.

(** [{ ...a, avgSentiment }] *)
Record Candidate := {
  agg : Aggregate;
  avgSentiment : num
}.

(** [aggregated.has(symbol)], the map being kept as the list of its
    values in insertion order. *)
Definition has (symbol : string) (aggregated : list Aggregate) : bool :=
  existsb (fun a => String.eqb (a_symbol a) symbol) aggregated.

(** The three updates of the aggregate of [sig]. *)
Definition push (sig : Signal) (a : Aggregate) : Aggregate :=
  {| a_symbol := a_symbol a;
     sources := sources a ++ [source sig];
     totalSentiment := totalSentiment a + sentiment sig;
     count := (count a + 1)%Z |}.

(** The body of [for (const sig of signals)]. *)
Definition aggregateStep (aggregated : list Aggregate) (sig : Signal) : list Aggregate :=
  let aggregated :=
    if has (sig_symbol sig) aggregated then aggregated
    else aggregated ++
         [ {| a_symbol := sig_symbol sig; sources := []; totalSentiment := finZ 0;
              count := 0 |} ] in
  map (fun a => if String.eqb (a_symbol a) (sig_symbol sig) then push sig a else a)
      aggregated.

Section Candidates.

(** Modelled from the spec: [min_sentiment_score] of [AgentConfig]. *)
Variable min_sentiment_score : Q.

Definition byAvgDesc (a b : Candidate) : num := avgSentiment b - avgSentiment a.

Definition candidates (signals : list Signal) : list Candidate :=
  let aggregated := fold_left aggregateStep signals [] in
  firstn 10
    (Entries.sort byAvgDesc
       (List.filter (fun a => avgSentiment a >=? fin min_sentiment_score * fin (1 # 2))
          (map (fun a =>
                  {| agg := a;
                     avgSentiment := totalSentiment a / finZ (count a) |})
             aggregated))).

End Candidates.

End Analyst.

(** * Terms of the statements and example data *)

Module StalenessTerms.

Import Staleness.

(** The quantities of [analyzeStaleness] as rationals. *)
Definition holdHoursQ (now : Z) (e : PositionEntry) : Q :=
  ((inject_Z now - entry_time e) / inject_Z 3600000)%Q.

Definition holdDaysQ (now : Z) (e : PositionEntry) : Q :=
  (holdHoursQ now e / 24)%Q.

Definition pnlPctQ (currentPrice : Q) (e : PositionEntry) : Q :=
  if Num.Qlt_bool 0 (entry_price e)
  then (((currentPrice - entry_price e) / entry_price e) * 100)%Q
  else 0%Q.

(** The score past the "too early" test, as [analyzeStaleness] sums it. *)
Definition scoreOf (cfg : AgentConfig) (now : Z) (cp vol : Q) (e : PositionEntry) : num :=
  Num.min (finZ 100)
    (finZ 0 + timeScore cfg (holdDays now e) + priceScore cfg (holdDays now e) (pnlPct cp e)
     + volumeScore cfg (volumeRatio vol e))%num.

(** The numbers that the reason of a result prints. *)
Definition reasonNumbers (r : Reason) : list num :=
  match r with
  | NoEntryData => []
  | TooEarly hh => [hh]
  | StaleScore score hd => [score; hd]
  | OkScore score => [score]
  end.

(** A configuration and an entry for the examples: at least a day of
    holding, mid and max hold of 1 and 3 days, gain floors of 2% and 5%. *)
Definition cfg_ex : AgentConfig :=
  {| max_positions := 5;
     min_analyst_confidence := 6 # 10;
     position_size_pct_of_cash := 25;
     max_position_value := 5000;
     take_profit_pct := 10;
     stop_loss_pct := 5;
     options_enabled := true;
     options_min_confidence := 8 # 10;
     options_stop_loss_pct := 50;
     options_take_profit_pct := 100;
     stale_position_enabled := true;
     stale_min_hold_hours := 24;
     stale_max_hold_days := 3;
     stale_mid_hold_days := 1;
     stale_min_gain_pct := 5;
     stale_mid_min_gain_pct := 2;
     stale_social_volume_decay := 3 # 10;
     ticker_blacklist := [] |}.

Definition entry_ex : PositionEntry :=
  {| entry_time := 0; entry_price := 100; entry_social_volume := 100 |}.

End StalenessTerms.

Import StalenessTerms.

Module ExitsTerms.

Import Exits.

(** The rules of exit selection, each as the test the loop makes. *)
Definition isOption (pos : Position) : bool :=
  String.eqb (asset_class pos) "us_option".

Definition tpMatches (ctx : StrategyContext) (pos : Position) : bool :=
  (plPct pos >=? fin (take_profit_pct (config ctx)))%num.

Definition slMatches (ctx : StrategyContext) (pos : Position) : bool :=
  (plPct pos <=? - fin (stop_loss_pct (config ctx)))%num.

Definition stalenessOf (ctx : StrategyContext) (now : Z) (st : StrategyState)
    (pos : Position) : Staleness.StalenessResult :=
  Staleness.analyzeStaleness now (symbol pos) (current_price pos)
    (default 0%Q (default ∅ (socialSnapshotCache st) !! symbol pos))
    (positionEntries ctx !! symbol pos) (config ctx).

Definition staleMatches (ctx : StrategyContext) (now : Z) (st : StrategyState)
    (pos : Position) : bool :=
  stale_position_enabled (config ctx) && Staleness.isStale (stalenessOf ctx now st pos).

Definition sell (pos : Position) (r : ExitReason) : SellCandidate :=
  {| s_symbol := symbol pos; s_reason := r |}.

(** What the first matching rule emits for one position. *)
Definition firstMatch (ctx : StrategyContext) (now : Z) (st : StrategyState)
    (pos : Position) : list SellCandidate :=
  if isOption pos then option_list (checkOptionsExit pos ctx)
  else if tpMatches ctx pos then [sell pos (TakeProfit (plPct pos))]
  else if slMatches ctx pos then [sell pos (StopLoss (plPct pos))]
  else if staleMatches ctx now st pos
       then [sell pos (STALE (Staleness.reason (stalenessOf ctx now st pos)))]
  else [].

Definition ctx_ex : StrategyContext :=
  {| config := cfg_ex;
     positionEntries := {[ "XYZ"%string := entry_ex ]};
     TWITTER_BEARER_TOKEN := Some "token"%string |}.

Definition st_empty : StrategyState :=
  {| socialSnapshotCache := None;
     stalenessAnalysis := None;
     twitterDailyReads := None;
     twitterDailyReadReset := None;
     twitterConfirmation := ∅ |}.

(** An option contract bought for an unrecorded price (so that
    [avg_entry_price || current_price] falls back to the current price),
    now worth 500 with 300 of it unrealized gain. *)
Definition option_pos : Position :=
  {| symbol := "XYZ250620C00100000";
     asset_class := "us_option";
     avg_entry_price := 0;
     current_price := 5;
     market_value := 500;
     unrealized_pl := 300 |}.

(** One option contract bought at 2.00 and quoted at 3.00: a gain of 50%
    on a cost of 200. *)
Definition option_held : Position :=
  {| symbol := "XYZ250620C00100000";
     asset_class := "us_option";
     avg_entry_price := 2;
     current_price := 3;
     market_value := 300;
     unrealized_pl := 100 |}.

(** A share position entered at 100 (cost 1000), now at 112. *)
Definition stock_pos : Position :=
  {| symbol := "XYZ";
     asset_class := "us_equity";
     avg_entry_price := 100;
     current_price := 112;
     market_value := 1120;
     unrealized_pl := 120 |}.

End ExitsTerms.

Import ExitsTerms.

(** How one position's slot of the result relates to the rules. *)
Definition slotOk (ctx : StrategyContext) (now : Z) (st : StrategyState)
    (pos : Position) (slot : list Exits.SellCandidate) : Prop :=
  (length slot <= 1)%nat /\
  (forall c, In c slot -> Exits.s_symbol c = symbol pos) /\
  (isOption pos = true -> slot = option_list (Exits.checkOptionsExit pos ctx)) /\
  (isOption pos = false -> tpMatches ctx pos = true ->
     slot = [sell pos (Exits.TakeProfit (Exits.plPct pos))]) /\
  (isOption pos = false -> tpMatches ctx pos = false -> slMatches ctx pos = true ->
     slot = [sell pos (Exits.StopLoss (Exits.plPct pos))]) /\
  (isOption pos = false -> tpMatches ctx pos = false -> slMatches ctx pos = false ->
     staleMatches ctx now st pos = true ->
     slot = [sell pos (Exits.STALE (Staleness.reason (stalenessOf ctx now st pos)))]) /\
  (isOption pos = false -> tpMatches ctx pos = false -> slMatches ctx pos = false ->
     staleMatches ctx now st pos = false -> slot = []).

Module EntriesTerms.

Import Entries.

(** The candidate pushed for a verdict. *)
Definition candidate (cfg : AgentConfig) (account : Account) (r : ResearchResult)
    : BuyCandidate :=
  {| b_symbol := r_symbol r;
     b_confidence := confidence r;
     b_reason := reasoning r;
     notional := notionalFor cfg account r;
     useOptions := shouldUseOptions cfg r |}.

(** [a] may stand before [b] in a list ranked by descending confidence. *)
Definition descR (a b : ResearchResult) : Prop := (confidence b <= confidence a)%Q.
Definition descB (a b : BuyCandidate) : Prop := (b_confidence b <= b_confidence a)%Q.

Definition buy (s : string) (c : Q) (q : EntryQuality) (why : string) : ResearchResult :=
  {| r_symbol := s; verdict := BUY; confidence := c; entry_quality := q; reasoning := why |}.

Definition ctx_of (cfg : AgentConfig) : StrategyContext :=
  {| config := cfg; positionEntries := ∅; TWITTER_BEARER_TOKEN := None |}.

(** The verdicts that reach the sizing loop. *)
Definition ranked (ctx : StrategyContext) (research : list ResearchResult)
    (positions : list Position) : list ResearchResult :=
  sort byConfidenceDesc
    (List.filter
       (fun r => negb (bool_decide
                         (r_symbol r ∈ (list_to_set (map symbol positions) : gset string))))
       (List.filter (isBuyAboveMin (config ctx)) research)).

End EntriesTerms.

Import EntriesTerms.

(** A configuration with room for two positions, and five BUY verdicts. *)
Definition cfg_two : AgentConfig :=
  {| max_positions := 2;
     min_analyst_confidence := 6 # 10;
     position_size_pct_of_cash := 25;
     max_position_value := 5000;
     take_profit_pct := 10;
     stop_loss_pct := 5;
     options_enabled := true;
     options_min_confidence := 8 # 10;
     options_stop_loss_pct := 50;
     options_take_profit_pct := 100;
     stale_position_enabled := true;
     stale_min_hold_hours := 24;
     stale_max_hold_days := 3;
     stale_mid_hold_days := 1;
     stale_min_gain_pct := 5;
     stale_mid_min_gain_pct := 2;
     stale_social_volume_decay := 3 # 10;
     ticker_blacklist := [] |}.

Definition research_ex : list ResearchResult :=
  [ buy "NVDA" (9 # 10) excellent "earnings beat";
    buy "AMD" (8 # 10) good "sector momentum";
    buy "TSLA" (7 # 10) fair "deliveries";
    buy "PLTR" (6 # 10) good "contract";
    buy "SOFI" (5 # 10) poor "chatter" ].

Module TwitterTerms.

Import Twitter.

(** A strategy state and a world with the given read counter, reset
    timestamp and clock, and nothing else. *)
Definition st_of (reads reset : option Z) : StrategyState :=
  {| socialSnapshotCache := None;
     stalenessAnalysis := None;
     twitterDailyReads := reads;
     twitterDailyReadReset := reset;
     twitterConfirmation := ∅ |}.

Definition world_of (reads reset : option Z) (now : Z) : World :=
  {| w_state := st_of reads reset; w_now := now; w_fetches := []; w_log := [] |}.

(** [Math.log10] at the powers of ten used by the examples, where it is
    exact; elsewhere the table has no entry. *)
Definition log10_table (q : Q) : num :=
  if Qeq_bool q 1 then finZ 0
  else if Qeq_bool q 10 then finZ 1
  else if Qeq_bool q 100 then finZ 2
  else if Qeq_bool q 1000 then finZ 3
  else if Qeq_bool q 10000 then finZ 4
  else if Qeq_bool q 100000 then finZ 5
  else NaN.

Definition raw (i text : string) : RawTweet :=
  {| rt_id := i; rt_text := text; rt_created_at := "2025-01-06T15:00:00.000Z";
     rt_author_id := "u1"; rt_retweet_count := Some 0; rt_like_count := Some 0 |}.

(** Six tweets of one author with 99999 followers: one bullish, five
    without any keyword. *)
Definition payload_ex : Payload :=
  {| p_data := Some
       [ raw "1" "Unusual call sweep on $XYZ";
         raw "2" "$XYZ block trade, 40k shares";
         raw "3" "$XYZ flow today";
         raw "4" "whale alert $XYZ";
         raw "5" "$XYZ unusual volume";
         raw "6" "$XYZ block print at the close" ];
     p_users := Some [ {| u_id := "u1"; u_username := "flowdesk";
                          u_followers_count := Some 99999 |} ] |}.

Definition answer_ex : Answer := {| elapsed := 120; response := Ok payload_ex |}.

End TwitterTerms.

Import TwitterTerms.

Module SentimentTerms.

Import Sentiment.

(** The number of words of a list that the text includes. *)
Definition included (lower : string) (ws : list string) : list string :=
  List.filter (fun w => Str.includes w lower) ws.

Definition bullCount (text : string) : Z :=
  Z.of_nat (length (included (Str.toLowerCase text) bullish)).

Definition bearCount (text : string) : Z :=
  Z.of_nat (length (included (Str.toLowerCase text) bearish)).

(** The count as the specification words it, for comparison with the
    code: the number of places of the text at which a word occurs, and the
    sum of these numbers over a list of words, without regard to case. *)
Fixpoint specOccurrences (w s : string) : Z :=
  (if Str.startsWith w s then 1 else 0) +
  match s with
  | EmptyString => 0
  | String _ s' => specOccurrences w s'
  end.

Definition specOccurrenceCount (text : string) (ws : list string) : Z :=
  fold_right (fun w n => specOccurrences w (Str.toLowerCase text) + n) 0 ws.

End SentimentTerms.

Import SentimentTerms.

Module CacheTerms.

Import TickerCache Gatherers.

(** A loaded SEC set that contains AAPL, nothing cached yet. *)
Definition world_sec : World :=
  {| cache := {| secTickers := Some {[ "AAPL"%string; "MSFT"%string ]};
                 lastSecRefresh := 1000000;
                 alpacaCache := ∅ |};
     assetCalls := [];
     companyToTickerCache := ∅;
     dirFetches := 0;
     g_log := [] |}.

(** The company directory, a filing of Apple, a broker for which every
    asset is tradable, and a Reddit aggregate of three mentions. *)
Definition directory : nat -> DirAnswer :=
  fun _ => DirOk [("AAPL", "Apple Inc."); ("MSFT", "MICROSOFT CORP")]%string.

Definition filing : SecEntry :=
  {| se_form := "8-K"; se_company := "Apple Inc."; se_updatedMs := finZ 1000000 |}.

Definition tradable : string -> AssetAnswer := fun _ => Asset true.

Definition aggregate : RedditAggregate :=
  {| mentions := 3; weightedSentiment := 1; rawSentiment := 2; totalQuality := 1;
     freshestPost := 1000 |}.

End CacheTerms.

Import CacheTerms.

Module TickerTerms.

Import Regex Ticker.

(** The least number of characters a match of [r] consumes. *)
Fixpoint minlen (r : regex) : nat :=
  match r with
  | Chr _ | Class _ _ | Space => 1
  | WordB | Eps | Look _ => 0
  | Seq r1 r2 => minlen r1 + minlen r2
  | Alt r1 r2 => Nat.min (minlen r1) (minlen r2)
  | Rep r1 min _ => min * minlen r1
  | Group _ r1 => minlen r1
  end.

(** A successful match has run its continuation on a state at least
    [n] characters further. *)
Definition advances (n : nat)
    (f : mstate -> (mstate -> option mstate) -> option mstate) : Prop :=
  forall st k res,
    f st k = Some res ->
    exists st', k st' = Some res /\
                (String.length (rest st') + n <= String.length (rest st))%nat.

(** What every extracted ticker satisfies. *)
Definition accepted (customSet : gset string) (t : string) : Prop :=
  Str.toUpperCase t = t /\
  (2 <= String.length t <= 5)%nat /\
  (t ∉ TICKER_BLACKLIST) /\
  (t ∉ customSet).

(** A match state with every character mapped by [f]. *)
Definition mapst (f : ascii -> ascii) (st : mstate) : mstate :=
  {| prev := f <$> prev st;
     rest := Str.map_string f (rest st);
     caps := map (fun c => (fst c, Str.map_string f (snd c))) (caps st) |}.

(** [k'] does on mapped states what [k] does on the states themselves. *)
Definition mirrors (f : ascii -> ascii) (k k' : mstate -> option mstate) : Prop :=
  forall st, k' (mapst f st) = mapst f <$> k st.

End TickerTerms.

Import TickerTerms.

(** ** Terms for the properties of the caches *)

Module CacheInvariantTerms.

Import TickerCache Gatherers.

(** No symbol was sent to the broker twice, and every symbol sent has its
    verdict in the cache. *)
Definition asked_once (w : World) : Prop :=
  NoDup (assetCalls w) /\
  forall s, In s (assetCalls w) -> is_Some (alpacaCache (cache w) !! s).

(** The cache holds "tradable" for the symbol of the signal. *)
Definition validated (w : World) (sig : Signal) : Prop :=
  alpacaCache (cache w) !! Str.toUpperCase (sig_symbol sig) = Some true.

(** What a promoted Reddit signal satisfies in the world [w]: it is built
    from an aggregate of at least two mentions, and its symbol is in the
    SEC set or validated. *)
Definition promoted (calculateTimeDecay : Q -> num)
    (tickerData : list (string * RedditAggregate)) (w : World) (sig : Signal) : Prop :=
  (exists data,
     In (sig_symbol sig, data) tickerData /\
     sig = redditSignal calculateTimeDecay (sig_symbol sig) data /\
     2 <= mentions data) /\
  (isKnownSecTicker (cache w) (sig_symbol sig) = true \/ validated w sig).

(** A world in which nothing has happened yet. *)
Definition world_new : World :=
  {| cache := {| secTickers := None; lastSecRefresh := 0; alpacaCache := ∅ |};
     assetCalls := [];
     companyToTickerCache := ∅;
     dirFetches := 0;
     g_log := [] |}.

End CacheInvariantTerms.

Import CacheInvariantTerms.

(** ** Terms for the properties of the Twitter integration *)

Module TwitterMoreTerms.

Import Twitter.

(** The stored daily counter, 0 when it was never set. *)
Definition reads (w : World) : Z := default 0 (twitterDailyReads (w_state w)).

(** The world [d] milliseconds later. *)
Definition later (d : Z) (w : World) : World :=
  {| w_state := w_state w; w_now := w_now w + d; w_fetches := w_fetches w;
     w_log := w_log w |}.

(** What is assumed of [Math.log10]: at 1 and above it is a number, and
    not negative. *)
Definition log10_nonneg (log10 : Q -> num) : Prop :=
  forall x, (1 <= x)%Q -> exists y, log10 x = Fin y /\ (0 <= y)%Q.

(** Counts that are not negative, in a tweet and in the payload of a
    search. *)
Definition counts_nonneg (t : Tweet) : Prop :=
  0 <= author_followers t /\ 0 <= likes t /\ 0 <= retweets t.

Definition raw_nonneg (t : RawTweet) : Prop :=
  0 <= default 0 (rt_retweet_count t) /\ 0 <= default 0 (rt_like_count t).

Definition user_nonneg (u : RawUser) : Prop :=
  0 <= default 0 (u_followers_count u).

Definition payload_nonneg (a : Answer) : Prop :=
  match response a with
  | Ok payload =>
    Forall raw_nonneg (default [] (p_data payload)) /\
    Forall user_nonneg (default [] (p_users payload))
  | _ => True
  end.

(** The sums of the loop are numbers with [bullish + bearish] at most
    [totalWeight]. *)
Definition tally_ok (t : Tally) : Prop :=
  exists b r tot,
    t_bullish t = Fin b /\ t_bearish t = Fin r /\ t_totalWeight t = Fin tot /\
    (0 <= b)%Q /\ (0 <= r)%Q /\ (b + r <= tot)%Q.

(** A step function below [Math.log10] that agrees with it at the powers
    of ten: the number of decimal digits of the integer part, less one. *)
Fixpoint digits (fuel : nat) (z : Z) : Z :=
  match fuel with
  | O => 0
  | S fuel' => if z <? 10 then 0 else 1 + digits fuel' (z / 10)
  end.

Definition log10_floor (q : Q) : num :=
  finZ (digits (Z.to_nat (Qfloor q)) (Qfloor q)).

End TwitterMoreTerms.

Import TwitterMoreTerms.

Module BudgetTerms.

Import Twitter.



End BudgetTerms.

Import BudgetTerms.

Module NewsTerms.

Import TwitterNews.

(** What every reported item satisfies: it names a symbol that was
    checked, and an age that is a number is a whole number of minutes, at
    most 30, and at most 10 for an item flagged as breaking. *)
Definition reported (toCheck : list string) (r : BreakingNews) : Prop :=
  In (bn_symbol r) toCheck /\
  bn_symbol r <> ""%string /\
  (String.length (headline r) <= 200)%nat /\
  forall m, age_minutes r = Fin m ->
    (exists z, m = inject_Z z) /\ (m <= 30)%Q /\ (is_breaking r = true -> (m <= 10)%Q).

End NewsTerms.

Import NewsTerms.

(** ** Terms for the state that exit selection leaves *)

Module ExitsMoreTerms.

Import Exits.

(** The position reaches the staleness evaluation: it is no option
    contract, neither take profit nor stop loss matches, and staleness is
    enabled. *)
Definition analysed (ctx : StrategyContext) (pos : Position) : bool :=
  negb (isOption pos) && negb (tpMatches ctx pos) && negb (slMatches ctx pos)
  && stale_position_enabled (config ctx).

(** The staleness results stored in the state. *)
Definition analysisMap (st : StrategyState) : gmap string Staleness.StalenessResult :=
  default ∅ (stalenessAnalysis st).

(** The last of the positions with symbol [k] that reaches the staleness
    evaluation. *)
Definition lastAnalysed (ctx : StrategyContext) (k : string) (positions : list Position)
    : option Position :=
  find (fun p => analysed ctx p && String.eqb (symbol p) k) (rev positions).

End ExitsMoreTerms.

Import ExitsMoreTerms.

(** ** Terms for the properties of the StockTwits gatherer *)

Module RetryTerms.

Import Scoring StockTwits.

(** The answer makes [fetchWithRetry] try again: the request threw, or
    the status is 403. *)
Definition retryable (a : NetAnswer) : bool :=
  match result a with
  | NetThrows => true
  | NetResponse res => negb (ok res) && (status res =? 403)
  end.

(** The first [m] delays of the backoff. *)
Definition backoff (m : nat) : list Z :=
  map (fun i => 1000 * 2 ^ Z.of_nat i) (seq 0 m).

Definition total (l : list Z) : Z := fold_right Z.add 0 l.

(** The time slept so far. *)
Definition slept (w : World) : Z := total (sleeps w).

(** The date of the message, when it has one, parses. *)
Definition dated (getTime : string -> num) (msg : Message) : Prop :=
  match created_at msg with
  | Some s => s = ""%string \/ exists t, getTime s = Fin t
  | None => True
  end.

(** The sums after [n] messages. *)
Definition sums_ok (n : nat) (t : Tally) : Prop :=
  exists b r tot,
    bullish t = Fin b /\ bearish t = Fin r /\ totalTimeDecay t = Fin tot /\
    (0 <= b)%Q /\ (0 <= r)%Q /\ (b + r <= tot)%Q /\
    ((2 # 10) * inject_Z (Z.of_nat n) <= tot)%Q /\ (tot <= inject_Z (Z.of_nat n))%Q.

(** What every emitted signal is: the signal of its symbol for a stream
    of at least 5 messages. *)
Definition emitted (SOURCE_CONFIG : SourceConfig) (pow : num -> num -> num)
    (getTime : string -> num) (sig : Signal) : Prop :=
  (5 <= volume sig)%nat /\
  exists now messages,
    sig = signalFor SOURCE_CONFIG pow getTime now (symbol sig) messages /\
    volume sig = length messages.

(** What is assumed of [**]: one half to a finite power is a number. *)
Definition pow_number (pow : num -> num -> num) : Prop :=
  forall q : Q, pow (fin (1 # 2)) (Fin q) <> NaN.

(** A power function for the examples: one half to any power is taken to
    be one half. *)
Definition pow_half (x y : num) : num := fin (1 # 2).

End RetryTerms.

Import RetryTerms.

Module ScoringTerms.

(** [a] may stand before [b] in a table sorted by descending threshold. *)
Definition descT (a b : Z * Q) : Prop := fst b <= fst a.

End ScoringTerms.

Import ScoringTerms.

Module TwitsExamples.

Import Scoring StockTwits.

Definition source_ex : SourceConfig :=
  {| decayHalfLifeMinutes := 120;
     weights_stocktwits := 85 # 100;
     engagement_upvotes := [(50, 1%Q); (1000, 15 # 10); (200, 12 # 10)];
     engagement_comments := [(10, 1%Q); (200, 14 # 10); (50, 12 # 10)] |}.

(** Five messages, three of them bullish and one bearish, one undated. *)
Definition messages_ex : list Message :=
  [ {| basic := Some "Bullish"%string; created_at := Some "2025-01-06T15:00:00Z"%string |};
    {| basic := Some "Bullish"%string; created_at := Some "2025-01-06T15:01:00Z"%string |};
    {| basic := Some "Bearish"%string; created_at := Some "2025-01-06T15:02:00Z"%string |};
    {| basic := None; created_at := None |};
    {| basic := Some "Bullish"%string; created_at := Some "2025-01-06T15:03:00Z"%string |} ].

(** A clock reading for every date of the examples. *)
Definition getTime_ex (s : string) : num := finZ 1736175600000.

Definition world0 : World :=
  {| requests := []; sleeps := []; st_log := []; st_now := 1736175900000 |}.

End TwitsExamples.

Import TwitsExamples.

(** ** Terms for the properties of the crypto gatherer and rules *)

Module CryptoTerms.

Import Crypto.

(** The sells and the buys among some events, in order. *)
Definition sellsOf (evs : list Event) : list (string * SellReason) :=
  flat_map (fun e => match e with Sell s r => [(s, r)] | _ => [] end) evs.

Definition buysOf (evs : list Event) : list (string * num * bool) :=
  flat_map (fun e => match e with Buy s p f => [(s, p, f)] | _ => [] end) evs.

Definition filled (b : string * num * bool) : bool := snd b.

(** What the exit loop does for one position. *)
Definition exitEvents (config : CryptoConfig) (pos : Position) : list Event :=
  if (Exits.plPct pos >=? fin (crypto_take_profit_pct config))%num then
    [Logged "Crypto" "take_profit"; Sell (symbol pos) (CryptoTakeProfit (Exits.plPct pos))]
  else if (Exits.plPct pos <=? - fin (crypto_stop_loss_pct config))%num then
    [Logged "Crypto" "stop_loss"; Sell (symbol pos) (CryptoStopLoss (Exits.plPct pos))]
  else [].

(** What every signal of the gatherer satisfies. *)
Definition gathered (symbols : list string) (sig : Signal) : Prop :=
  In (sig_symbol sig) symbols /\
  isCrypto sig = true /\
  raw_sentiment sig = sentiment sig /\
  ~ (price sig == 0)%Q /\
  bullish sig + bearish sig = 1 /\
  exists s m,
    sentiment sig = Fin s /\ (0 < s <= 1)%Q /\
    momentum sig = Fin m /\
    ((m <= 0)%Q -> s = (1 # 10)%Q /\ bearish sig = 1) /\
    ((0 < m)%Q -> bullish sig = 1).

(** The reason of a sell fits the position: take profit at or over the
    target, stop loss at or under the limit and under the target. *)
Definition exitReason (config : CryptoConfig) (pos : Position) (r : SellReason) : Prop :=
  (r = CryptoTakeProfit (Exits.plPct pos) /\
   (Exits.plPct pos >=? fin (crypto_take_profit_pct config))%num = true) \/
  (r = CryptoStopLoss (Exits.plPct pos) /\
   (Exits.plPct pos >=? fin (crypto_take_profit_pct config))%num = false /\
   (Exits.plPct pos <=? - fin (crypto_stop_loss_pct config))%num = true).

(** No event is a buy that was filled. *)
Definition unfilled (evs : list Event) : bool :=
  forallb (fun e => match e with Buy _ _ true => false | _ => true end) evs.

(** A size within the bounds of the loop: a number between 10 and the
    configured maximum. *)
Definition sizeOk (config : CryptoConfig) (size : num) : Prop :=
  exists q, size = Fin q /\ (10 <= q <= crypto_max_position_value config)%Q.

(** A research result whose confidence is a finite number. *)
Definition numeric (research : Research) : Prop :=
  exists c, r_confidence research = Fin c.

(** A buy is for a crypto signal of positive sentiment whose symbol is
    not held, and its size satisfies [okSize]. *)
Definition entered (okSize : num -> Prop) (signals : list Signal)
    (held : list string) (b : string * num * bool) : Prop :=
  (exists sig, In sig signals /\ sig_symbol sig = fst (fst b) /\
               isCrypto sig = true /\ (sentiment sig >? finZ 0)%num = true) /\
  ~ In (fst (fst b)) held /\
  okSize (snd (fst b)).

(** One round of the entry loop: no sell, at most one buy, whose size
    satisfies [okSize] and which is the last event of the round; the
    round stops the loop when the buy was filled. *)
Definition step_ok (okSize : num -> Prop) (signal : Signal) (evs : list Event)
    (stops : bool) : Prop :=
  sellsOf evs = [] /\
  (buysOf evs = [] /\ unfilled evs = true \/
   exists size pre,
     evs = pre ++ [Buy (sig_symbol signal) size stops] /\
     buysOf pre = [] /\ unfilled pre = true /\
     okSize size).

Definition config_ex : CryptoConfig :=
  {| crypto_enabled := true;
     crypto_symbols := Some ["BTC/USD"; "ETH/USD"; "SOL/USD"]%string;
     crypto_momentum_threshold := 2;
     crypto_take_profit_pct := 10;
     crypto_stop_loss_pct := 5;
     crypto_max_position_value := 1000 |}.

(** A held coin that gained 12%, one that gained 1%, and a signal for a
    third one with a research result to buy it. *)
Definition btc_ex : Position :=
  {| symbol := "BTC/USD"; asset_class := "crypto"; avg_entry_price := 100;
     current_price := 112; market_value := 112; unrealized_pl := 12 |}.

Definition sol_ex : Position :=
  {| symbol := "SOL/USD"; asset_class := "crypto"; avg_entry_price := 100;
     current_price := 101; market_value := 101; unrealized_pl := 1 |}.

Definition eth_ex : Signal :=
  {| sig_symbol := "ETH/USD"; source := "crypto"; sentiment := Fin 1;
     raw_sentiment := Fin 1; volume := 5; freshness := 1; source_weight := 8 # 10;
     bullish := 1; bearish := 0; isCrypto := true; momentum := Fin 10;
     price := 110; timestamp := 0 |}.

Definition eth_research : Research :=
  {| r_verdict := "BUY"; r_confidence := Fin (8 # 10); r_timestamp := 1000 |}.

(** The same result when the model's answer carries no confidence. *)
Definition eth_unrated : Research :=
  {| r_verdict := "BUY"; r_confidence := NaN; r_timestamp := 1000 |}.

End CryptoTerms.

Import CryptoTerms.

(** ** Terms for the properties of the crypto symbol helpers *)

Module CryptoSymbolTerms.

(** Every character of a string satisfies [p]. *)
Fixpoint all_chars (p : ascii -> bool) (s : string) : bool :=
  match s with
  | EmptyString => true
  | String a s' => p a && all_chars p s'
  end.

(** Two to five capital letters. *)
Definition isBase (b : string) : Prop :=
  (2 <= String.length b <= 5)%nat /\ all_chars Str.is_upper b = true.

Definition isQuote (q : string) : Prop :=
  q = "USD"%string \/ q = "USDT"%string \/ q = "USDC"%string.

End CryptoSymbolTerms.

Import CryptoSymbolTerms.

(** ** Terms for the properties of the analyst's candidates *)

Module AnalystTerms.

Import Crypto Analyst.

(** The signals of a symbol, in order. *)
Definition signalsOf (symbol : string) (signals : list Signal) : list Signal :=
  List.filter (fun s => String.eqb (sig_symbol s) symbol) signals.

(** The sum of the sentiments of some signals, added up from 0 in
    order. *)
Definition sumSentiment (signals : list Signal) : num :=
  fold_left Num.add (map sentiment signals) (finZ 0).

(** The aggregate of a symbol over some signals. *)
Definition groupOf (signals : list Signal) (symbol : string) : Aggregate :=
  {| a_symbol := symbol;
     sources := map source (signalsOf symbol signals);
     totalSentiment := sumSentiment (signalsOf symbol signals);
     count := Z.of_nat (length (signalsOf symbol signals)) |}.

(** The symbols of some signals, each once, in the order of their first
    occurrence. *)
Definition symbolsOf (signals : list Signal) : list string :=
  fold_left (fun ks s => Ticker.set_add (sig_symbol s) ks) signals [].

(** [a] may stand before [b]: its average is not smaller. *)
Definition notBelow (a b : Candidate) : Prop :=
  (avgSentiment a >=? avgSentiment b)%num = true.

(** A number that is neither [NaN] nor minus infinity. *)
Definition rankable (x : num) : Prop :=
  match x with
  | Fin _ | PInf => True
  | _ => False
  end.

Definition signal_ex (symbol source : string) (sentiment : Q) : Signal :=
  {| sig_symbol := symbol; source := source; sentiment := Fin sentiment;
     raw_sentiment := Fin sentiment; volume := 1; freshness := 1; source_weight := 1;
     bullish := 1; bearish := 0; isCrypto := false; momentum := NaN;
     price := 0; timestamp := 0 |}.

End AnalystTerms.

Import AnalystTerms.
(** * Theorems *)

(** ** Facts about the numbers *)

Section NumFacts.

Lemma Qlt_bool_true (x y : Q) : Num.Qlt_bool x y = true <-> (x < y)%Q.
Proof.
  unfold Num.Qlt_bool. rewrite negb_true_iff.
  split; intros H.
  - apply Qnot_le_lt. intros Hle. apply Qle_bool_iff in Hle. congruence.
  - destruct (Qle_bool y x) eqn:E; [|reflexivity].
    apply Qle_bool_iff in E. exfalso. apply (Qlt_not_le _ _ H E).
Qed.

Lemma Qlt_bool_false (x y : Q) : Num.Qlt_bool x y = false <-> (y <= x)%Q.
Proof.
  unfold Num.Qlt_bool. rewrite negb_false_iff. apply Qle_bool_iff.
Qed.

Lemma Qle_bool_false (x y : Q) : Qle_bool x y = false <-> (y < x)%Q.
Proof.
  split; intros H.
  - apply Qnot_le_lt. intros Hle. apply Qle_bool_iff in Hle. congruence.
  - destruct (Qle_bool x y) eqn:E; [|reflexivity].
    apply Qle_bool_iff in E. exfalso. apply (Qlt_not_le _ _ H E).
Qed.

Lemma Qeq_bool_false (x y : Q) : Qeq_bool x y = false <-> ~ (x == y)%Q.
Proof.
  split; intros H.
  - intros E. apply Qeq_bool_iff in E. congruence.
  - destruct (Qeq_bool x y) eqn:E; [|reflexivity].
    apply Qeq_bool_iff in E. contradiction.
Qed.

Lemma lt_fin (x y : Q) : Num.lt (Fin x) (Fin y) = true <-> (x < y)%Q.
Proof. apply Qlt_bool_true. Qed.

Lemma le_fin (x y : Q) : Num.le (Fin x) (Fin y) = true <-> (x <= y)%Q.
Proof. apply Qle_bool_iff. Qed.

Lemma ge_fin (x y : Q) : Num.ge (Fin x) (Fin y) = true <-> (y <= x)%Q.
Proof. apply Qle_bool_iff. Qed.

Lemma gt_fin (x y : Q) : Num.gt (Fin x) (Fin y) = true <-> (y < x)%Q.
Proof. apply Qlt_bool_true. Qed.

Lemma lt_fin_false (x y : Q) : Num.lt (Fin x) (Fin y) = false <-> (y <= x)%Q.
Proof. apply Qlt_bool_false. Qed.

Lemma ge_fin_false (x y : Q) : Num.ge (Fin x) (Fin y) = false <-> (x < y)%Q.
Proof. apply Qle_bool_false. Qed.

Lemma le_fin_false (x y : Q) : Num.le (Fin x) (Fin y) = false <-> (y < x)%Q.
Proof. apply Qle_bool_false. Qed.

Lemma gt_fin_false (x y : Q) : Num.gt (Fin x) (Fin y) = false <-> (x <= y)%Q.
Proof. apply Qlt_bool_false. Qed.

(** A quotient of finite numbers by a non-zero one is the rational
    quotient. *)
Lemma div_fin (x y : Q) : ~ (y == 0)%Q -> Num.div (Fin x) (Fin y) = Fin (x / y).
Proof.
  intros H. simpl. apply Qeq_bool_false in H. rewrite H. reflexivity.
Qed.

Lemma min_fin (x y : Q) :
  Num.min (Fin x) (Fin y) = Fin (if Num.Qlt_bool y x then y else x).
Proof. simpl. destruct (Num.Qlt_bool y x); reflexivity. Qed.

End NumFacts.

(** Turn the boolean comparisons of finite numbers in the context and the
    goal into rational inequalities. *)
Ltac num_cmp :=
  repeat match goal with
  | H : Num.lt (Fin _) (Fin _) = true |- _ => apply lt_fin in H
  | H : Num.lt (Fin _) (Fin _) = false |- _ => apply lt_fin_false in H
  | H : Num.le (Fin _) (Fin _) = true |- _ => apply le_fin in H
  | H : Num.le (Fin _) (Fin _) = false |- _ => apply le_fin_false in H
  | H : Num.ge (Fin _) (Fin _) = true |- _ => apply ge_fin in H
  | H : Num.ge (Fin _) (Fin _) = false |- _ => apply ge_fin_false in H
  | H : Num.gt (Fin _) (Fin _) = true |- _ => apply gt_fin in H
  | H : Num.gt (Fin _) (Fin _) = false |- _ => apply gt_fin_false in H
  | H : Num.Qlt_bool _ _ = true |- _ => apply Qlt_bool_true in H
  | H : Num.Qlt_bool _ _ = false |- _ => apply Qlt_bool_false in H
  | H : Qle_bool _ _ = true |- _ => apply Qle_bool_iff in H
  | H : Qle_bool _ _ = false |- _ => apply Qle_bool_false in H
  | H : Qeq_bool _ _ = true |- _ => apply Qeq_bool_iff in H
  | H : Qeq_bool _ _ = false |- _ => apply Qeq_bool_false in H
  end.

(** ** Facts about the strings *)

Lemma upper_char_idem c : Str.upper_char (Str.upper_char c) = Str.upper_char c.
Proof. destruct c as [[] [] [] [] [] [] [] []]; vm_compute; reflexivity. Qed.

Lemma toUpperCase_idem s : Str.toUpperCase (Str.toUpperCase s) = Str.toUpperCase s.
Proof.
  unfold Str.toUpperCase.
  induction s as [|c s IH]; cbn [Str.map_string]; [reflexivity|].
  rewrite upper_char_idem, IH. reflexivity.
Qed.

(** ** Staleness (rules/staleness.ts) *)

Module StalenessFacts.

Import Staleness.

Lemma holdHours_fin now e : exists q, holdHours now e = Fin q /\ (q == holdHoursQ now e)%Q.
Proof.
  unfold holdHours, holdHoursQ, finZ, fin. eexists. split; [reflexivity|].
  simpl. reflexivity.
Qed.

Lemma holdDays_fin now e : exists q, holdDays now e = Fin q /\ (q == holdDaysQ now e)%Q.
Proof.
  unfold holdDays, holdDaysQ, holdHours, holdHoursQ, finZ, fin.
  eexists. split; [reflexivity|]. reflexivity.
Qed.

Lemma pnlPct_fin cp e : exists q, pnlPct cp e = Fin q /\ (q == pnlPctQ cp e)%Q.
Proof.
  unfold pnlPct, pnlPctQ, finZ, fin.
  change (Fin (entry_price e) >? Fin (inject_Z 0))%num
    with (Num.Qlt_bool 0 (entry_price e)).
  destruct (Num.Qlt_bool 0 (entry_price e)) eqn:E.
  - num_cmp. cbn [Num.sub Num.add Num.neg]. rewrite div_fin.
    + cbn [Num.mul]. eexists. split; [reflexivity|]. unfold Qminus. reflexivity.
    + intros H. rewrite H in E. revert E. apply Qlt_irrefl.
  - eexists. split; reflexivity.
Qed.

Lemma timeScore_bounds cfg (hd : Q) :
  exists t, timeScore cfg (Fin hd) = Fin t /\ (0 <= t <= 40)%Q.
Proof.
  unfold timeScore, finZ, fin.
  destruct (Fin hd >=? Fin (stale_max_hold_days cfg))%num eqn:Emax.
  - eexists. split; [reflexivity|]. split; [discriminate | discriminate].
  - destruct (Fin hd >=? Fin (stale_mid_hold_days cfg))%num eqn:Emid.
    + num_cmp. cbn [Num.sub Num.add Num.neg Num.mul].
      assert (Hpos : (0 < stale_max_hold_days cfg + - stale_mid_hold_days cfg)%Q) by lra.
      rewrite div_fin by lra.
      eexists. split; [reflexivity|]. split.
      * apply Qle_shift_div_l; [exact Hpos|]. unfold inject_Z. lra.
      * apply Qle_shift_div_r; [exact Hpos|]. unfold inject_Z. lra.
    + eexists. split; [reflexivity|]. split; discriminate.
Qed.

Lemma priceScore_bounds cfg (hd : num) (pnl : Q) :
  exists p, priceScore cfg hd (Fin pnl) = Fin p /\ (0 <= p <= 30)%Q.
Proof.
  unfold priceScore, finZ, fin.
  destruct (Fin pnl <? Fin (inject_Z 0))%num eqn:Eneg.
  - cbn [Num.abs Num.mul]. rewrite min_fin.
    eexists. split; [reflexivity|].
    pose proof (Qabs_nonneg pnl) as Habs.
    destruct (Num.Qlt_bool _ _) eqn:E; num_cmp; unfold inject_Z in *; lra.
  - destruct (_ && _); eexists; (split; [reflexivity|]); split; discriminate.
Qed.

Lemma volumeScore_bounds cfg (ratio : num) :
  exists v, volumeScore cfg ratio = Fin v /\ (0 <= v <= 30)%Q.
Proof.
  unfold volumeScore, finZ, fin.
  destruct (ratio <=? _)%num; [|destruct (ratio <=? _)%num];
    eexists; (split; [reflexivity|]); split; discriminate.
Qed.

Lemma scoreOf_bounds cfg now cp vol e :
  exists q, scoreOf cfg now cp vol e = Fin q /\ (0 <= q <= 100)%Q.
Proof.
  unfold scoreOf.
  destruct (holdDays_fin now e) as (hd & -> & _).
  destruct (pnlPct_fin cp e) as (pnl & -> & _).
  destruct (timeScore_bounds cfg hd) as (t & -> & Ht).
  destruct (priceScore_bounds cfg (Fin hd) pnl) as (p & -> & Hp).
  destruct (volumeScore_bounds cfg (volumeRatio vol e)) as (v & -> & Hv).
  unfold finZ. cbn [Num.add]. rewrite min_fin.
  eexists. split; [reflexivity|].
  destruct (Num.Qlt_bool _ _) eqn:E; num_cmp; unfold inject_Z in *; lra.
Qed.

Lemma analyzeStaleness_some cfg now sym cp vol e :
  analyzeStaleness now sym cp vol (Some e) cfg =
  if (holdHours now e <? fin (stale_min_hold_hours cfg))%num
  then {| isStale := false; reason := TooEarly (holdHours now e);
          staleness_score := finZ 0 |}
  else
    let stale :=
      (scoreOf cfg now cp vol e >=? finZ 70)%num
      || ((holdDays now e >=? fin (stale_max_hold_days cfg))%num
          && (pnlPct cp e <? fin (stale_min_gain_pct cfg))%num) in
    {| isStale := stale;
       reason := if stale then StaleScore (scoreOf cfg now cp vol e) (holdDays now e)
                 else OkScore (scoreOf cfg now cp vol e);
       staleness_score := scoreOf cfg now cp vol e |}.
Proof. reflexivity. Qed.

End StalenessFacts.

Import StalenessFacts.

(** C5 (as stated, refuted).  With the hold time exactly at the max-hold
    threshold (3 days of 3), a gain of 1% under the 5% floor and a score of
    55, the position is stale although the score is below 70 and the hold
    time does not exceed the threshold. *)
Lemma C5_stale_at_threshold_counterexample :
  let r := Staleness.analyzeStaleness 259200000 "XYZ" 101 100 (Some entry_ex) cfg_ex in
  (stale_min_hold_hours cfg_ex <= holdHoursQ 259200000 entry_ex)%Q /\
  Staleness.isStale r = true /\
  exists score,
    Staleness.staleness_score r = Fin score /\
    (score == 55)%Q /\
    (holdDaysQ 259200000 entry_ex == stale_max_hold_days cfg_ex)%Q /\
    ~ ((70 <= score)%Q \/
       ((stale_max_hold_days cfg_ex < holdDaysQ 259200000 entry_ex)%Q /\
        (pnlPctQ 101 entry_ex < stale_min_gain_pct cfg_ex)%Q)).
Proof.
  cbv zeta. split; [vm_compute; discriminate|]. split; [vm_compute; reflexivity|].
  eexists. split; [vm_compute; reflexivity|].
  split; [vm_compute; reflexivity|]. split; [vm_compute; reflexivity|].
  intros [H | [H _]]; vm_compute in H; [apply H; reflexivity | discriminate H].
Qed.

(** C5 (amended).  Given an entry record and a hold time at or above the
    minimum hold hours, the score is a finite number, and [isStale] is true
    exactly when the score is at least 70, or the hold time is at or above
    the max-hold threshold and the P&L percentage is below the minimum-gain
    floor. *)
Theorem C5_isStale_iff (cfg : AgentConfig) (now : Z) (sym : string) (cp vol : Q)
    (e : PositionEntry) :
  (stale_min_hold_hours cfg <= holdHoursQ now e)%Q ->
  let r := Staleness.analyzeStaleness now sym cp vol (Some e) cfg in
  exists score,
    Staleness.staleness_score r = Fin score /\
    (Staleness.isStale r = true <->
     ((70 <= score)%Q \/
      ((stale_max_hold_days cfg <= holdDaysQ now e)%Q /\
       (pnlPctQ cp e < stale_min_gain_pct cfg)%Q))).
Proof.
  intros Hmin r. subst r. rewrite analyzeStaleness_some.
  destruct (holdHours_fin now e) as (hh & Ehh & Hhh).
  destruct (holdDays_fin now e) as (hd & Ehd & Hhd).
  destruct (pnlPct_fin cp e) as (pnl & Epnl & Hpnl).
  destruct (scoreOf_bounds cfg now cp vol e) as (score & Escore & _).
  rewrite Ehh. unfold fin.
  destruct (Fin hh <? Fin (stale_min_hold_hours cfg))%num eqn:Eearly.
  { num_cmp. rewrite Hhh in Eearly. lra. }
  cbv zeta. cbn [Staleness.staleness_score Staleness.isStale].
  exists score. split; [exact Escore|].
  rewrite Escore, Ehd, Epnl. unfold finZ.
  rewrite orb_true_iff, andb_true_iff, ge_fin, ge_fin, lt_fin.
  rewrite Hhd, Hpnl. reflexivity.
Qed.

(** A run of C5: three days and a half, a loss of 2%, social volume down
    to a fifth. *)
Lemma C5_isStale_iff_witness :
  exists score,
    Staleness.staleness_score
      (Staleness.analyzeStaleness 302400000 "XYZ" 98 20 (Some entry_ex) cfg_ex) = Fin score /\
    (Staleness.isStale
       (Staleness.analyzeStaleness 302400000 "XYZ" 98 20 (Some entry_ex) cfg_ex) = true <->
     ((70 <= score)%Q \/
      ((stale_max_hold_days cfg_ex <= holdDaysQ 302400000 entry_ex)%Q /\
       (pnlPctQ 98 entry_ex < stale_min_gain_pct cfg_ex)%Q))).
Proof.
  apply (C5_isStale_iff cfg_ex 302400000 "XYZ" 98 20 entry_ex).
  vm_compute. discriminate.
Defined.

(** C6.  Under a configuration with a positive minimum hold and
    [stale_max_hold_days > stale_mid_hold_days >= 0], every evaluation
    returns a finite score within [0, 100] and a reason whose numbers are
    finite (no quotient by zero reaches the result), and a position held
    for 0 hours is not stale. *)
Theorem C6_staleness_total_bounded (cfg : AgentConfig) :
  (0 < stale_min_hold_hours cfg)%Q ->
  (stale_mid_hold_days cfg < stale_max_hold_days cfg)%Q ->
  (0 <= stale_mid_hold_days cfg)%Q ->
  forall (now : Z) (sym : string) (cp vol : Q) (entry : option PositionEntry),
    let r := Staleness.analyzeStaleness now sym cp vol entry cfg in
    (exists q, Staleness.staleness_score r = Fin q /\ (0 <= q <= 100)%Q) /\
    Forall (fun x => Num.is_finite x = true) (reasonNumbers (Staleness.reason r)) /\
    (forall e, entry = Some e -> (inject_Z now == entry_time e)%Q ->
               Staleness.isStale r = false).
Proof.
  intros Hmin Hlt Hmid now sym cp vol entry r. subst r.
  destruct entry as [e|].
  - rewrite analyzeStaleness_some.
    destruct (holdHours_fin now e) as (hh & Ehh & Hhh).
    destruct (holdDays_fin now e) as (hd & Ehd & _).
    destruct (scoreOf_bounds cfg now cp vol e) as (score & Escore & Hscore).
    rewrite Ehh. unfold fin.
    destruct (Fin hh <? Fin (stale_min_hold_hours cfg))%num eqn:Eearly.
    + split; [|split].
      * exists 0%Q. split; [reflexivity|]. split; discriminate.
      * repeat constructor.
      * reflexivity.
    + cbv zeta. cbn [Staleness.staleness_score Staleness.isStale Staleness.reason].
      split; [|split].
      * exists score. split; [exact Escore|exact Hscore].
      * rewrite Escore, Ehd. destruct (_ || _); repeat constructor.
      * intros e' [= <-] Hzero. exfalso. num_cmp.
        rewrite Hhh in Eearly. unfold holdHoursQ in Eearly.
        assert (Hz : ((inject_Z now - entry_time e) / inject_Z 3600000 == 0)%Q).
        { rewrite Hzero. unfold Qminus. rewrite Qplus_opp_r. reflexivity. }
        rewrite Hz in Eearly. lra.
  - split; [|split].
    + exists 0%Q. split; [reflexivity|]. split; discriminate.
    + constructor.
    + intros e [=].
Qed.

(** A run of C6 on the example configuration, at the moment of entry. *)
Lemma C6_staleness_total_bounded_witness :
  (exists q,
     Staleness.staleness_score
       (Staleness.analyzeStaleness 0 "XYZ" 50 0 (Some entry_ex) cfg_ex) = Fin q /\
     (0 <= q <= 100)%Q) /\
  Forall (fun x => Num.is_finite x = true)
    (reasonNumbers
       (Staleness.reason (Staleness.analyzeStaleness 0 "XYZ" 50 0 (Some entry_ex) cfg_ex))) /\
  (forall e, Some entry_ex = Some e -> (inject_Z 0 == entry_time e)%Q ->
             Staleness.isStale
               (Staleness.analyzeStaleness 0 "XYZ" 50 0 (Some entry_ex) cfg_ex) = false).
Proof.
  apply (C6_staleness_total_bounded cfg_ex); vm_compute; congruence.
Defined.

(** ** Exit selection (rules/exits.ts) *)

Module ExitsFacts.

Import Exits.

Lemma firstMatch_length ctx now st pos : (length (firstMatch ctx now st pos) <= 1)%nat.
Proof.
  unfold firstMatch.
  repeat match goal with
         | |- context [if ?b then _ else _] => destruct b
         end; simpl; try lia.
  destruct (checkOptionsExit pos ctx); simpl; lia.
Qed.

Lemma firstMatch_symbol ctx now st pos c :
  In c (firstMatch ctx now st pos) -> s_symbol c = symbol pos.
Proof.
  unfold firstMatch, checkOptionsExit.
  repeat match goal with
         | |- context [if ?b then _ else _] => destruct b
         end; simpl; intros H; repeat destruct H as [H|H]; subst; try reflexivity;
    try contradiction.
Qed.

(** One turn of the loop appends the first match; the social snapshot it
    reads is left as it was. *)
Lemma exitStep_firstMatch ctx now exits st pos :
  exists st',
    exitStep ctx now (exits, st) pos = (exits ++ firstMatch ctx now st pos, st') /\
    socialSnapshotCache st' = socialSnapshotCache st.
Proof.
  unfold exitStep, firstMatch, isOption, tpMatches, slMatches, staleMatches, stalenessOf.
  destruct (String.eqb (asset_class pos) "us_option").
  { destruct (checkOptionsExit pos ctx); simpl; eexists;
      (split; [rewrite ?app_nil_r; reflexivity | reflexivity]). }
  destruct (plPct pos >=? _)%num; [eexists; split; reflexivity|].
  destruct (plPct pos <=? _)%num; [eexists; split; reflexivity|].
  destruct (stale_position_enabled (config ctx)); simpl.
  - destruct (Staleness.isStale _); eexists;
      (split; [rewrite ?app_nil_r; reflexivity | reflexivity]).
  - eexists. split; [rewrite app_nil_r; reflexivity | reflexivity].
Qed.

Lemma firstMatch_snapshot ctx now st st' pos :
  socialSnapshotCache st' = socialSnapshotCache st ->
  firstMatch ctx now st' pos = firstMatch ctx now st pos.
Proof.
  intros H. unfold firstMatch, staleMatches, stalenessOf. rewrite H. reflexivity.
Qed.

Lemma fold_exitStep ctx now positions : forall exits st,
  fst (fold_left (exitStep ctx now) positions (exits, st)) =
  exits ++ flat_map (firstMatch ctx now st) positions.
Proof.
  induction positions as [|pos positions IH]; intros exits st; cbn [fold_left flat_map].
  - rewrite app_nil_r. reflexivity.
  - destruct (exitStep_firstMatch ctx now exits st pos) as (st' & -> & Hsnap).
    rewrite IH, <- app_assoc. f_equal. f_equal.
    apply flat_map_ext. intros p. apply firstMatch_snapshot. exact Hsnap.
Qed.

Lemma selectExits_flat_map ctx now st positions account :
  fst (selectExits ctx now st positions account) =
  flat_map (firstMatch ctx now st) positions.
Proof. unfold selectExits. rewrite fold_exitStep. reflexivity. Qed.

(** The P&L percentage of [selectExits] over a non-zero cost basis. *)
Lemma plPct_fin pos :
  ~ (market_value pos == unrealized_pl pos)%Q ->
  exists q, plPct pos = Fin q /\
    (q == unrealized_pl pos / (market_value pos - unrealized_pl pos) * 100)%Q.
Proof.
  intros H. unfold plPct, fin, finZ. cbn [Num.sub Num.add Num.neg].
  rewrite div_fin.
  - cbn [Num.mul]. eexists. split; [reflexivity|]. reflexivity.
  - intros E. apply H. lra.
Qed.

End ExitsFacts.

Import ExitsFacts.

(** C1 (as stated, refuted).  For the option contract [option_pos] the
    percentage [unrealized_pl / (market_value - unrealized_pl) * 100] is
    150, at or above both take-profit thresholds of the example
    configuration (10 and 100); yet exit selection, with options enabled,
    compares the entry-price percentage, which is 0, and emits nothing. *)
Lemma C1_options_formula_counterexample :
  options_enabled (config ctx_ex) = true /\
  (Exits.plPct option_pos >=? finZ 150)%num = true /\
  (Exits.plPct option_pos <=? finZ 150)%num = true /\
  (Exits.plPct option_pos >=? fin (take_profit_pct (config ctx_ex)))%num = true /\
  (Exits.plPct option_pos >=? fin (options_take_profit_pct (config ctx_ex)))%num = true /\
  (Exits.optionsPlPct option_pos <=? finZ 0)%num = true /\
  (Exits.optionsPlPct option_pos >=? finZ 0)%num = true /\
  fst (Exits.selectExits ctx_ex 0 st_empty [option_pos] {| cash := 10000 |}) = [].
Proof. vm_compute. repeat split; reflexivity. Qed.

(** C1 (amended).  Exit selection decides every position of the list on
    its own, in order.  For a position that is not an options instrument
    the percentage compared against [take_profit_pct] and [stop_loss_pct]
    is [unrealized_pl / (market_value - unrealized_pl) * 100] (over a cost
    basis of zero: plus or minus infinity with the sign of the unrealized
    P&L, and no number when that is zero too): at or above the take-profit
    threshold the position is sold for take profit, otherwise at or below
    minus the stop-loss threshold it is sold for stop loss, each reason
    carrying that percentage, and otherwise only staleness can sell it.
    An options instrument is decided by the options check alone: nothing
    is sold while options are disabled; otherwise the percentage is
    [(current_price - entryPrice) / entryPrice * 100], with [entryPrice]
    the average entry price or, when that is 0, the current price, and 0
    when the entry price is not positive; at or below minus
    [options_stop_loss_pct] the contract is sold for the options stop
    loss, otherwise at or above [options_take_profit_pct] for the options
    take profit, and otherwise it is kept. *)
Theorem C1_plPct_formula (ctx : StrategyContext) (now : Z) (st : StrategyState)
    (positions : list Position) (account : Account) :
  let cfg := config ctx in
  exists slots,
    fst (Exits.selectExits ctx now st positions account) = concat slots /\
    Forall2
      (fun pos slot =>
         let cost := (market_value pos - unrealized_pl pos)%Q in
         let entryPrice :=
           if Qeq_bool (avg_entry_price pos) 0 then current_price pos
           else avg_entry_price pos in
         (asset_class pos <> "us_option"%string ->
          exists p,
            (~ (cost == 0)%Q ->
             exists q, p = Fin q /\ (q == unrealized_pl pos / cost * 100)%Q) /\
            ((cost == 0)%Q -> (0 < unrealized_pl pos)%Q -> p = PInf) /\
            ((cost == 0)%Q -> (unrealized_pl pos < 0)%Q -> p = NInf) /\
            ((cost == 0)%Q -> (unrealized_pl pos == 0)%Q -> p = NaN) /\
            ((p >=? fin (take_profit_pct cfg))%num = true ->
             slot = [sell pos (Exits.TakeProfit p)]) /\
            ((p >=? fin (take_profit_pct cfg))%num = false ->
             (p <=? - fin (stop_loss_pct cfg))%num = true ->
             slot = [sell pos (Exits.StopLoss p)]) /\
            ((p >=? fin (take_profit_pct cfg))%num = false ->
             (p <=? - fin (stop_loss_pct cfg))%num = false ->
             forall c, In c slot -> exists r, Exits.s_reason c = Exits.STALE r)) /\
         (asset_class pos = "us_option"%string ->
          (options_enabled cfg = false -> slot = []) /\
          (options_enabled cfg = true ->
           exists o,
             ((0 < entryPrice)%Q ->
              (o == (current_price pos - entryPrice) / entryPrice * 100)%Q) /\
             ((entryPrice <= 0)%Q -> (o == 0)%Q) /\
             ((o <= - options_stop_loss_pct cfg)%Q ->
              slot = [sell pos (Exits.OptionsStopLoss (Fin o))]) /\
             ((- options_stop_loss_pct cfg < o)%Q ->
              (options_take_profit_pct cfg <= o)%Q ->
              slot = [sell pos (Exits.OptionsTakeProfit (Fin o))]) /\
             ((- options_stop_loss_pct cfg < o)%Q ->
              (o < options_take_profit_pct cfg)%Q -> slot = []))))
      positions slots.
Proof.
  intros cfg. subst cfg. exists (map (firstMatch ctx now st) positions). split.
  { rewrite selectExits_flat_map. apply flat_map_concat_map. }
  induction positions as [|pos positions IH]; cbn [map]; constructor; [|exact IH].
  clear IH. cbv zeta. unfold firstMatch, isOption.
  destruct (String.eqb_spec (asset_class pos) "us_option") as [Hopt|Hopt].
  - split; [intros H; contradiction|intros _].
    unfold Exits.checkOptionsExit.
    destruct (options_enabled (config ctx)); cbn [negb];
      [split; [discriminate|intros _]|split; [intros _; reflexivity|discriminate]].
    cbv zeta. unfold Exits.optionsPlPct, fin, finZ. cbn [Num.or_else Num.neg].
    set (entryPrice := if Qeq_bool (avg_entry_price pos) 0 then current_price pos
                       else avg_entry_price pos).
    replace (if Qeq_bool (avg_entry_price pos) 0 then Fin (current_price pos)
             else Fin (avg_entry_price pos)) with (Fin entryPrice)
      by (unfold entryPrice; destruct (Qeq_bool (avg_entry_price pos) 0); reflexivity).
    cbv zeta.
    assert (Hdec : forall o,
      ((0 < entryPrice)%Q ->
       (o == (current_price pos - entryPrice) / entryPrice * 100)%Q) ->
      ((entryPrice <= 0)%Q -> (o == 0)%Q) ->
      exists o0,
        ((0 < entryPrice)%Q ->
         (o0 == (current_price pos - entryPrice) / entryPrice * 100)%Q) /\
        ((entryPrice <= 0)%Q -> (o0 == 0)%Q) /\
        ((o0 <= - options_stop_loss_pct (config ctx))%Q ->
         option_list
           (if (Fin o <=? Fin (- options_stop_loss_pct (config ctx)))%num
            then Some {| Exits.s_symbol := symbol pos;
                         Exits.s_reason := Exits.OptionsStopLoss (Fin o) |}
            else if (Fin o >=? Fin (options_take_profit_pct (config ctx)))%num
                 then Some {| Exits.s_symbol := symbol pos;
                              Exits.s_reason := Exits.OptionsTakeProfit (Fin o) |}
                 else None)
         = [sell pos (Exits.OptionsStopLoss (Fin o0))]) /\
        ((- options_stop_loss_pct (config ctx) < o0)%Q ->
         (options_take_profit_pct (config ctx) <= o0)%Q ->
         option_list
           (if (Fin o <=? Fin (- options_stop_loss_pct (config ctx)))%num
            then Some {| Exits.s_symbol := symbol pos;
                         Exits.s_reason := Exits.OptionsStopLoss (Fin o) |}
            else if (Fin o >=? Fin (options_take_profit_pct (config ctx)))%num
                 then Some {| Exits.s_symbol := symbol pos;
                              Exits.s_reason := Exits.OptionsTakeProfit (Fin o) |}
                 else None)
         = [sell pos (Exits.OptionsTakeProfit (Fin o0))]) /\
        ((- options_stop_loss_pct (config ctx) < o0)%Q ->
         (o0 < options_take_profit_pct (config ctx))%Q ->
         option_list
           (if (Fin o <=? Fin (- options_stop_loss_pct (config ctx)))%num
            then Some {| Exits.s_symbol := symbol pos;
                         Exits.s_reason := Exits.OptionsStopLoss (Fin o) |}
            else if (Fin o >=? Fin (options_take_profit_pct (config ctx)))%num
                 then Some {| Exits.s_symbol := symbol pos;
                              Exits.s_reason := Exits.OptionsTakeProfit (Fin o) |}
                 else None)
         = [])).
    { intros o Hpos Hnon. exists o. split; [exact Hpos|]. split; [exact Hnon|].
      destruct (Fin o <=? Fin (- options_stop_loss_pct (config ctx)))%num eqn:Esl;
        [|destruct (Fin o >=? Fin (options_take_profit_pct (config ctx)))%num eqn:Etp];
        num_cmp; repeat split; intros; try reflexivity; exfalso; lra. }
    destruct (Fin entryPrice >? Fin (inject_Z 0))%num eqn:Epos; num_cmp;
      unfold inject_Z in Epos.
    + cbn [Num.sub Num.add Num.neg]. rewrite div_fin by lra. cbn [Num.mul].
      apply Hdec.
      * intros _. unfold inject_Z. reflexivity.
      * intros Hle. exfalso. lra.
    + apply Hdec.
      * intros Hlt. exfalso. lra.
      * intros _. reflexivity.
  - split; [intros _|intros H; contradiction].
    exists (Exits.plPct pos). unfold tpMatches, slMatches.
    split.
    { intros Hcost. apply plPct_fin. intros E. apply Hcost. lra. }
    assert (Hzero : (market_value pos - unrealized_pl pos == 0)%Q ->
                    Exits.plPct pos
                    = (Num.inf_of_sign (unrealized_pl pos) * finZ 100)%num).
    { intros E. unfold Exits.plPct, fin. cbn [Num.sub Num.add Num.neg Num.div].
      assert (Ez : Qeq_bool (market_value pos + - unrealized_pl pos) 0 = true)
        by (apply Qeq_bool_iff; lra).
      rewrite Ez. reflexivity. }
    split.
    { intros E Hu. rewrite (Hzero E). unfold Num.inf_of_sign, Num.Qsgn_pos.
      rewrite (proj2 (Qlt_bool_true 0 (unrealized_pl pos)) Hu). reflexivity. }
    split.
    { intros E Hu. rewrite (Hzero E). unfold Num.inf_of_sign, Num.Qsgn_pos, Num.Qsgn_neg.
      rewrite (proj2 (Qlt_bool_false 0 (unrealized_pl pos))) by lra.
      rewrite (proj2 (Qlt_bool_true (unrealized_pl pos) 0) Hu). reflexivity. }
    split.
    { intros E Hu. rewrite (Hzero E). unfold Num.inf_of_sign, Num.Qsgn_pos, Num.Qsgn_neg.
      rewrite (proj2 (Qlt_bool_false 0 (unrealized_pl pos))) by lra.
      rewrite (proj2 (Qlt_bool_false (unrealized_pl pos) 0)) by lra. reflexivity. }
    split; [intros ->; reflexivity|].
    split; [intros -> ->; reflexivity|].
    intros -> -> c Hc.
    destruct (staleMatches ctx now st pos); [|contradiction].
    destruct Hc as [<-|[]]. eexists. reflexivity.
Qed.

(** A run of C1: a share position with a 12% gain is sold for take profit,
    the reason carrying 120 / (1120 - 120) * 100, and the option contract
    next to it, whose entry price falls back to the current price, is kept
    at 0%. *)
Lemma C1_plPct_formula_witness :
  exists q,
    (q == 12)%Q /\
    fst (Exits.selectExits ctx_ex 0 st_empty [stock_pos; option_pos] {| cash := 10000 |}) =
    [sell stock_pos (Exits.TakeProfit (Fin q))].
Proof.
  destruct (C1_plPct_formula ctx_ex 0 st_empty [stock_pos; option_pos] {| cash := 10000 |})
    as (slots & Heq & HF).
  rewrite Heq. clear Heq.
  inversion HF as [|pos1 slot1 ps1 ss1 H1 HF1]; subst.
  inversion HF1 as [|pos2 slot2 ps2 ss2 H2 HF2]; subst.
  inversion HF2; subst. cbn [concat]. rewrite app_nil_r.
  destruct H1 as [H1 _]. destruct H2 as [_ H2].
  destruct (H1 ltac:(discriminate)) as (p & Hq & _ & _ & _ & Htp & _).
  destruct (Hq ltac:(vm_compute; discriminate)) as (q & -> & Eq).
  destruct (H2 eq_refl) as [_ H2'].
  destruct (H2' eq_refl) as (o & Ho & _ & _ & _ & Hkeep).
  specialize (Ho ltac:(vm_compute; reflexivity)).
  exists q. split; [rewrite Eq; vm_compute; reflexivity|].
  rewrite Htp.
  - rewrite Hkeep; [reflexivity| |]; rewrite Ho; vm_compute; reflexivity.
  - apply ge_fin. rewrite Eq. vm_compute. discriminate.
Defined.

Lemma firstMatch_slotOk ctx now st pos : slotOk ctx now st pos (firstMatch ctx now st pos).
Proof.
  unfold slotOk. split; [apply firstMatch_length|].
  split; [apply firstMatch_symbol|].
  unfold firstMatch.
  repeat split; intros; repeat match goal with H : _ = _ |- _ => rewrite H end;
    try reflexivity; try discriminate.
Qed.

(** C3 (as stated, refuted).  The option contract [option_held] is up 50%:
    the options check, with thresholds of -50% and +100%, does not match,
    the take-profit test of the next rule (10%) holds for it, and exit
    selection emits nothing: an options instrument never reaches the rules
    after the first. *)
Lemma C3_options_stop_at_first_rule_counterexample :
  isOption option_held = true /\
  options_enabled (config ctx_ex) = true /\
  Exits.checkOptionsExit option_held ctx_ex = None /\
  tpMatches ctx_ex option_held = true /\
  fst (Exits.selectExits ctx_ex 0 st_empty [option_held] {| cash := 10000 |}) = [].
Proof. vm_compute. repeat split. Qed.

(** C3 (amended).  The result of exit selection is the concatenation, in
    the order of the positions, of one slot per position holding at most
    one sell candidate, for that position.  An options instrument is
    decided by the options stop-loss/take-profit check alone; any other
    position by the first rule that matches among take profit, stop loss,
    and staleness when it is enabled and reports stale.  In particular a
    position that is not an options instrument and is eligible for take
    profit and for staleness is sold with the take-profit reason only. *)
Theorem C3_exit_precedence (ctx : StrategyContext) (now : Z) (st : StrategyState)
    (positions : list Position) (account : Account) :
  (exists slots,
     fst (Exits.selectExits ctx now st positions account) = concat slots /\
     Forall2 (slotOk ctx now st) positions slots) /\
  (forall pos, isOption pos = false -> tpMatches ctx pos = true ->
     staleMatches ctx now st pos = true ->
     fst (Exits.selectExits ctx now st [pos] account) =
     [sell pos (Exits.TakeProfit (Exits.plPct pos))]).
Proof.
  split.
  - exists (map (firstMatch ctx now st) positions). split.
    + rewrite selectExits_flat_map. apply flat_map_concat_map.
    + induction positions as [|pos positions IH]; constructor.
      * apply firstMatch_slotOk.
      * exact IH.
  - intros pos Hopt Htp _. rewrite selectExits_flat_map. cbn [flat_map].
    rewrite app_nil_r. unfold firstMatch. rewrite Hopt, Htp. reflexivity.
Qed.

(** A run of C3: held six days with a 12% gain and no social volume left,
    the share position is stale and above the take-profit threshold; it is
    sold for take profit. *)
Lemma C3_exit_precedence_witness :
  fst (Exits.selectExits ctx_ex 518400000 st_empty [stock_pos] {| cash := 10000 |}) =
  [sell stock_pos (Exits.TakeProfit (Exits.plPct stock_pos))].
Proof.
  apply (proj2 (C3_exit_precedence ctx_ex 518400000 st_empty [stock_pos]
                  {| cash := 10000 |}) stock_pos);
    vm_compute; reflexivity.
Defined.

(** The same position next to the option contract: one candidate, the
    take-profit one. *)
Example selectExits_run :
  staleMatches ctx_ex 518400000 st_empty stock_pos = true /\
  tpMatches ctx_ex stock_pos = true /\
  exists p,
    fst (Exits.selectExits ctx_ex 518400000 st_empty [stock_pos; option_pos]
           {| cash := 10000 |}) =
    [sell stock_pos (Exits.TakeProfit p)].
Proof.
  split; [vm_compute; reflexivity|]. split; [vm_compute; reflexivity|].
  eexists. vm_compute. reflexivity.
Qed.

(** ** Entry selection (rules/entries.ts) *)

Module EntriesFacts.

Import Entries.

Lemma byConfidenceDesc_gt a b :
  (byConfidenceDesc a b >? finZ 0)%num = true <-> (confidence a < confidence b)%Q.
Proof.
  unfold byConfidenceDesc, fin, finZ. cbn [Num.sub Num.add Num.neg].
  rewrite gt_fin. unfold inject_Z. split; intros H; lra.
Qed.

Lemma In_insert_sorted x z l :
  In z (insert_sorted byConfidenceDesc x l) <-> z = x \/ In z l.
Proof.
  induction l as [|y l IH]; cbn [insert_sorted].
  - split; intros [H|H]; subst; cbn [In]; auto; contradiction.
  - destruct (byConfidenceDesc x y >? finZ 0)%num; cbn [In]; rewrite ?IH;
      split; intros H; decompose [or] H; subst; auto.
Qed.

Lemma In_sort z l : In z (sort byConfidenceDesc l) <-> In z l.
Proof.
  induction l as [|x l IH]; cbn [sort foldr In]; [reflexivity|].
  fold (sort byConfidenceDesc l). rewrite In_insert_sorted, IH. split; intros [H|H]; subst; auto.
Qed.

Lemma insert_sorted_sorted x l :
  StronglySorted descR l -> StronglySorted descR (insert_sorted byConfidenceDesc x l).
Proof.
  induction 1 as [|y l Hl IH Hy]; cbn [insert_sorted].
  - repeat constructor.
  - destruct (byConfidenceDesc x y >? finZ 0)%num eqn:E.
    + apply byConfidenceDesc_gt in E. constructor; [exact IH|].
      apply Forall_forall. intros z Hz.
      apply list_elem_of_In, In_insert_sorted in Hz.
      destruct Hz as [->|Hz].
      * unfold descR. lra.
      * rewrite Forall_forall in Hy. apply Hy, list_elem_of_In, Hz.
    + assert (Hle : (confidence y <= confidence x)%Q).
      { destruct (Qlt_le_dec (confidence x) (confidence y)) as [Hlt|Hle]; [|exact Hle].
        apply byConfidenceDesc_gt in Hlt. congruence. }
      constructor; [constructor; assumption|].
      constructor; [exact Hle|].
      eapply Forall_impl; [exact Hy|]. unfold descR. intros z Hz. simpl in *. lra.
Qed.

Lemma sort_sorted l : StronglySorted descR (sort byConfidenceDesc l).
Proof.
  induction l as [|x l IH]; cbn [sort foldr]; [constructor|].
  apply insert_sorted_sorted, IH.
Qed.

Lemma StronglySorted_sublist {A} (R : A -> A -> Prop) (l1 l2 : list A) :
  l1 `sublist_of` l2 -> StronglySorted R l2 -> StronglySorted R l1.
Proof.
  induction 1 as [|x l1 l2 Hsub IH|x l1 l2 Hsub IH]; intros Hs.
  - constructor.
  - apply StronglySorted_inv in Hs as [Hs Hx]. constructor; [auto|].
    rewrite Forall_forall in *. intros z Hz. apply Hx.
    eapply elem_of_sublist; eassumption.
  - apply StronglySorted_inv in Hs as [Hs _]. auto.
Qed.

(** The loop pushes, in order, the candidates of some of the verdicts it
    is given, each with a notional of at least 100, and never beyond
    [max_positions] counting the positions held; a verdict it is given and
    does not push has a notional under 100, or the positions are used
    up. *)
Lemma entriesLoop_spec cfg held account rs : forall acc,
  exists rs',
    rs' `sublist_of` rs /\
    entriesLoop cfg held account rs acc = acc ++ map (candidate cfg account) rs' /\
    Forall (fun r => (notionalFor cfg account r <? finZ 100)%num = false) rs' /\
    (rs' = [] \/
     Z.of_nat held + Z.of_nat (length acc) + Z.of_nat (length rs') <= max_positions cfg) /\
    (forall r, In r rs -> ~ In r rs' ->
       (notionalFor cfg account r <? finZ 100)%num = true \/
       max_positions cfg <= Z.of_nat held + Z.of_nat (length acc) + Z.of_nat (length rs')).
Proof.
  induction rs as [|r rs IH]; intros acc; cbn [entriesLoop].
  - exists []. rewrite app_nil_r.
    split; [constructor|]. split; [reflexivity|]. split; [constructor|].
    split; [left; reflexivity|]. intros r [].
  - destruct (_ >=? _) eqn:Ebreak.
    { exists []. rewrite app_nil_r.
      split; [apply sublist_nil_l|]. split; [reflexivity|]. split; [constructor|].
      split; [left; reflexivity|].
      intros r0 _ _. right. apply Z.geb_le in Ebreak. cbn [length]. lia. }
    cbv zeta.
    destruct (notionalFor cfg account r <? finZ 100)%num eqn:Efloor.
    + destruct (IH acc) as (rs' & Hsub & Heq & Hall & Hmax & Hrest).
      exists rs'. split; [apply sublist_cons, Hsub|]. split; [exact Heq|].
      split; [exact Hall|]. split; [exact Hmax|].
      intros r0 [<-|Hr0] Hnot; [left; exact Efloor|apply Hrest; assumption].
    + destruct (IH (acc ++ [candidate cfg account r]))
        as (rs' & Hsub & Heq & Hall & Hmax & Hrest).
      exists (r :: rs'). split; [apply sublist_skip, Hsub|].
      split; [fold (candidate cfg account r); rewrite Heq, <- app_assoc; reflexivity|].
      split; [constructor; assumption|].
      rewrite length_app in Hmax, Hrest. cbn [length] in *.
      split; [right; destruct Hmax as [->|Hmax]; cbn [length]; lia|].
      intros r0 [<-|Hr0] Hnot; [destruct Hnot; left; reflexivity|].
      destruct (Hrest r0 Hr0) as [H|H];
        [intros Hin; apply Hnot; right; exact Hin|left; exact H|].
      right. lia.
Qed.

Lemma notionalFor_fin cfg account r :
  exists n, notionalFor cfg account r = Fin n /\
    (n == Qmin (cash account * (Qmin 20 (position_size_pct_of_cash cfg) / 100)
                * confidence r)
               (max_position_value cfg))%Q.
Proof.
  unfold notionalFor, sizePct, fin, finZ.
  rewrite min_fin.
  change (Fin ?x / Fin (inject_Z 100))%num with (Fin (x / inject_Z 100)).
  cbn [Num.mul]. rewrite min_fin.
  eexists. split; [reflexivity|].
  assert (Hpct : ((if Num.Qlt_bool (position_size_pct_of_cash cfg) (inject_Z 20)
                   then position_size_pct_of_cash cfg else inject_Z 20)
                  == Qmin 20 (position_size_pct_of_cash cfg))%Q).
  { destruct (Num.Qlt_bool _ _) eqn:E; num_cmp; unfold inject_Z in *.
    - rewrite Q.min_r; [reflexivity|lra].
    - rewrite Q.min_l; [reflexivity|lra]. }
  set (X := if Num.Qlt_bool _ _ then _ else _) in *.
  assert (HN : (cash account * (X / inject_Z 100) * confidence r ==
                cash account * (Qmin 20 (position_size_pct_of_cash cfg) / 100)
                * confidence r)%Q).
  { rewrite Hpct. reflexivity. }
  set (N := (cash account * (X / inject_Z 100) * confidence r)%Q) in *.
  destruct (Num.Qlt_bool (max_position_value cfg) N) eqn:E; num_cmp.
  - rewrite Q.min_r; [reflexivity|]. rewrite <- HN. lra.
  - rewrite Q.min_l; [exact HN|]. rewrite <- HN. lra.
Qed.

Lemma candidates_sorted cfg account l :
  StronglySorted descR l -> StronglySorted descB (map (candidate cfg account) l).
Proof.
  induction 1 as [|r l Hl IH Hr]; cbn [map]; constructor; [exact IH|].
  apply Forall_forall. intros c Hc.
  apply list_elem_of_In, in_map_iff in Hc as (r' & <- & Hr').
  rewrite Forall_forall in Hr. apply (Hr r'), list_elem_of_In, Hr'.
Qed.

Lemma In_ranked ctx research positions r :
  In r (ranked ctx research positions) ->
  In r research /\ verdict r = BUY /\
  (min_analyst_confidence (config ctx) <= confidence r)%Q /\
  ~ In (r_symbol r) (map symbol positions).
Proof.
  unfold ranked. rewrite In_sort, !filter_In.
  intros ((Hin & Hbuy) & Hheld).
  unfold isBuyAboveMin in Hbuy. apply andb_true_iff in Hbuy as [Hv Hc].
  split; [exact Hin|]. split; [destruct (verdict r); (reflexivity || discriminate)|].
  split; [unfold fin in Hc; num_cmp; exact Hc|].
  apply negb_true_iff, bool_decide_eq_false in Hheld.
  intros Hs. apply Hheld, elem_of_list_to_set, list_elem_of_In, Hs.
Qed.

Lemma selectEntries_spec ctx research positions account :
  exists rs',
    rs' `sublist_of` take 3 (ranked ctx research positions) /\
    selectEntries ctx research positions account =
      map (candidate (config ctx) account) rs' /\
    Forall (fun r => (notionalFor (config ctx) account r <? finZ 100)%num = false) rs' /\
    (rs' = [] \/
     Z.of_nat (length positions) + Z.of_nat (length rs') <= max_positions (config ctx)) /\
    (forall r, In r (take 3 (ranked ctx research positions)) -> ~ In r rs' ->
       (notionalFor (config ctx) account r <? finZ 100)%num = true \/
       max_positions (config ctx) <= Z.of_nat (length positions) + Z.of_nat (length rs')).
Proof.
  unfold selectEntries. cbv zeta. fold (ranked ctx research positions).
  destruct (_ >=? _) eqn:Efull.
  - exists []. split; [apply sublist_nil_l|]. split; [reflexivity|].
    split; [constructor|]. split; [left; reflexivity|].
    intros r _ _. right. apply Z.geb_le in Efull. cbn [length]. lia.
  - destruct (entriesLoop_spec (config ctx) (length positions) account
                (take 3 (ranked ctx research positions)) [])
      as (rs' & Hsub & Heq & Hall & Hmax & Hrest).
    exists rs'. split; [exact Hsub|]. split; [exact Heq|]. split; [exact Hall|]. split.
    + destruct Hmax as [->|Hmax]; [left; reflexivity|right].
      cbn [length] in Hmax. lia.
    + intros r Hr Hnot. destruct (Hrest r Hr Hnot) as [H|H]; [left; exact H|right].
      cbn [length] in H. lia.
Qed.

(** The ranking is a rearrangement of the qualifying verdicts. *)
Lemma insert_sorted_rearranges x l :
  Permutation (insert_sorted byConfidenceDesc x l) (x :: l).
Proof.
  induction l as [|y l IH]; cbn [insert_sorted]; [reflexivity|].
  destruct (byConfidenceDesc x y >? finZ 0)%num; [|reflexivity].
  rewrite IH. apply perm_swap.
Qed.

Lemma sort_rearranges l : Permutation (sort byConfidenceDesc l) l.
Proof.
  induction l as [|x l IH]; cbn [sort foldr]; [reflexivity|].
  fold (sort byConfidenceDesc l). rewrite insert_sorted_rearranges, IH. reflexivity.
Qed.

Lemma held_existsb (s : string) (l : list string) :
  bool_decide (s ∈ (list_to_set l : gset string)) = existsb (String.eqb s) l.
Proof.
  destruct (existsb (String.eqb s) l) eqn:E.
  - apply bool_decide_eq_true. apply existsb_exists in E as (x & Hx & Heq).
    apply String.eqb_eq in Heq. subst x. apply elem_of_list_to_set, list_elem_of_In, Hx.
  - apply bool_decide_eq_false. intros Hin.
    apply elem_of_list_to_set, list_elem_of_In in Hin.
    assert (existsb (String.eqb s) l = true); [|congruence].
    apply existsb_exists. exists s. split; [exact Hin|apply String.eqb_refl].
Qed.

Lemma ranked_rearranges ctx research positions :
  Permutation (ranked ctx research positions)
    (List.filter
       (fun r => eqb_verdict (verdict r) BUY
                 && Qle_bool (min_analyst_confidence (config ctx)) (confidence r)
                 && negb (existsb (String.eqb (r_symbol r)) (map symbol positions)))
       research).
Proof.
  unfold ranked. rewrite sort_rearranges.
  induction research as [|r research IH]; [reflexivity|]. cbn [List.filter].
  change (isBuyAboveMin (config ctx) r)
    with (eqb_verdict (verdict r) BUY
          && Qle_bool (min_analyst_confidence (config ctx)) (confidence r)).
  destruct (eqb_verdict (verdict r) BUY
            && Qle_bool (min_analyst_confidence (config ctx)) (confidence r));
    cbn [andb List.filter]; [|exact IH].
  rewrite held_existsb.
  destruct (existsb (String.eqb (r_symbol r)) (map symbol positions)); cbn [negb];
    [exact IH|]. constructor. exact IH.
Qed.

Lemma filter_rearranged {A} (f : A -> bool) (l l' : list A) :
  Permutation l l' -> Permutation (List.filter f l) (List.filter f l').
Proof.
  induction 1 as [|x l l' _ IH|x y l|l l' l'' _ IH1 _ IH2]; cbn [List.filter].
  - reflexivity.
  - destruct (f x); [constructor|]; exact IH.
  - destruct (f x), (f y); try reflexivity. apply perm_swap.
  - etransitivity; eassumption.
Qed.

(** With room for two positions and none held, the loop takes the first
    two verdicts when their notionals reach the floor. *)
Lemma entriesLoop_two cfg account r1 r2 rs :
  max_positions cfg = 2 ->
  (notionalFor cfg account r1 <? finZ 100)%num = false ->
  (notionalFor cfg account r2 <? finZ 100)%num = false ->
  entriesLoop cfg 0 account (r1 :: r2 :: rs) [] =
  [candidate cfg account r1; candidate cfg account r2].
Proof.
  intros Hmax H1 H2. cbn [entriesLoop]. rewrite Hmax.
  change (Z.of_nat 0 + Z.of_nat (length []) >=? 2) with false. cbv iota zeta.
  rewrite H1. cbn [app length].
  change (Z.of_nat 0 + Z.of_nat 1 >=? 2) with false. cbv iota.
  rewrite H2. cbn [app].
  destruct rs as [|r3 rs]; cbn [entriesLoop]; [reflexivity|].
  rewrite Hmax. reflexivity.
Qed.

End EntriesFacts.

Import EntriesFacts.

(** C4.  Every candidate of entry selection comes from a BUY verdict of
    the research whose confidence is at least the minimum analyst
    confidence and whose symbol is not held; its notional is
    [min(cash * min(20, sizePct) / 100 * confidence, maxPositionValue)] and
    is at least 100.  The candidates are ranked by descending confidence,
    there are at most 3 of them, and with the positions held they never
    exceed [max_positions].  They are taken from the top: with the
    qualifying verdicts arranged by descending confidence, the candidates
    are those of some of the first three, in that order, and one of the
    first three is left out only when its notional is under 100 or when
    the positions are used up.  For five BUY verdicts of confidences 0.9,
    0.8, 0.7, 0.6, 0.5, given in any order, [max_positions = 2], no
    position held, every notional at least 100 and the two best verdicts
    above the minimum confidence, the result is the candidates of the two
    best, the best first. *)
Theorem C4_selectEntries (ctx : StrategyContext) (research : list ResearchResult)
    (positions : list Position) (account : Account) :
  let cfg := config ctx in
  let out := Entries.selectEntries ctx research positions account in
  (forall c, In c out ->
     exists r n,
       In r research /\ verdict r = BUY /\
       (min_analyst_confidence cfg <= confidence r)%Q /\
       ~ In (r_symbol r) (map symbol positions) /\
       c = candidate cfg account r /\
       notional c = Fin n /\
       (n == Qmin (cash account * (Qmin 20 (position_size_pct_of_cash cfg) / 100)
                   * confidence r)
                  (max_position_value cfg))%Q /\
       (100 <= n)%Q) /\
  StronglySorted descB out /\
  (length out <= 3)%nat /\
  (out = [] \/
   Z.of_nat (length positions) + Z.of_nat (length out) <= max_positions cfg) /\
  (exists top taken,
     Permutation top
       (List.filter
          (fun r => eqb_verdict (verdict r) BUY
                    && Qle_bool (min_analyst_confidence cfg) (confidence r)
                    && negb (existsb (String.eqb (r_symbol r)) (map symbol positions)))
          research) /\
     StronglySorted descR top /\
     taken `sublist_of` take 3 top /\
     out = map (candidate cfg account) taken /\
     (forall r, In r (take 3 top) -> ~ In r taken ->
        (exists n,
           notional (candidate cfg account r) = Fin n /\
           (n == Qmin (cash account * (Qmin 20 (position_size_pct_of_cash cfg) / 100)
                       * confidence r)
                      (max_position_value cfg))%Q /\
           (n < 100)%Q) \/
        max_positions cfg <= Z.of_nat (length positions) + Z.of_nat (length out))) /\
  (forall s1 s2 s3 s4 s5 q1 q2 q3 q4 q5 w1 w2 w3 w4 w5,
     let r1 := buy s1 (9 # 10) q1 w1 in
     let r2 := buy s2 (8 # 10) q2 w2 in
     let r3 := buy s3 (7 # 10) q3 w3 in
     let r4 := buy s4 (6 # 10) q4 w4 in
     let r5 := buy s5 (5 # 10) q5 w5 in
     Permutation research [r1; r2; r3; r4; r5] ->
     positions = [] ->
     max_positions cfg = 2 ->
     (min_analyst_confidence cfg <= 8 # 10)%Q ->
     Forall (fun r => (Entries.notionalFor cfg account r <? finZ 100)%num = false) research ->
     out = [candidate cfg account r1; candidate cfg account r2]).
Proof.
  intros cfg out. subst cfg out.
  destruct (selectEntries_spec ctx research positions account)
    as (rs' & Hsub & Heq & Hall & Hmax & Hrest).
  split; [|split; [|split; [|split; [|split]]]].
  - rewrite Heq. intros c Hc. apply in_map_iff in Hc as (r & <- & Hr).
    assert (Hrank : In r (ranked ctx research positions)).
    { apply list_elem_of_In. eapply elem_of_sublist; [|apply sublist_take].
      eapply elem_of_sublist; [|exact Hsub]. apply list_elem_of_In, Hr. }
    apply In_ranked in Hrank as (Hin & Hbuy & Hconf & Hheld).
    destruct (notionalFor_fin (config ctx) account r) as (n & En & Hn).
    exists r, n. repeat split; auto.
    rewrite Forall_forall in Hall. specialize (Hall r (proj2 (list_elem_of_In _ _) Hr)).
    cbn [notional candidate] in Hall. rewrite En in Hall. unfold finZ in Hall.
    num_cmp. unfold inject_Z in Hall. exact Hall.
  - rewrite Heq. apply candidates_sorted.
    eapply StronglySorted_sublist; [exact Hsub|].
    eapply StronglySorted_sublist; [apply sublist_take|]. apply sort_sorted.
  - rewrite Heq, length_map.
    apply sublist_length in Hsub. rewrite length_take in Hsub. lia.
  - rewrite Heq, length_map. destruct Hmax as [->|Hmax]; [left; reflexivity|right; exact Hmax].
  - exists (ranked ctx research positions), rs'.
    split; [apply ranked_rearranges|]. split; [apply sort_sorted|].
    split; [exact Hsub|]. split; [exact Heq|].
    intros r Hr Hnot. rewrite Heq, length_map.
    destruct (Hrest r Hr Hnot) as [H|H]; [left|right; exact H].
    destruct (notionalFor_fin (config ctx) account r) as (n & En & Hn).
    exists n. split; [exact En|]. split; [exact Hn|].
    rewrite En in H. unfold finZ in H. num_cmp. unfold inject_Z in H. exact H.
  - clear rs' Hsub Heq Hall Hmax Hrest.
    intros s1 s2 s3 s4 s5 q1 q2 q3 q4 q5 w1 w2 w3 w4 w5 r1 r2 r3 r4 r5
           Hperm -> Hmaxp Hminc Hfloor.
    assert (Hf1 : (Entries.notionalFor (config ctx) account r1 <? finZ 100)%num = false).
    { rewrite Forall_forall in Hfloor. apply Hfloor.
      rewrite Hperm. apply list_elem_of_In. left. reflexivity. }
    assert (Hf2 : (Entries.notionalFor (config ctx) account r2 <? finZ 100)%num = false).
    { rewrite Forall_forall in Hfloor. apply Hfloor.
      rewrite Hperm. apply list_elem_of_In. right. left. reflexivity. }
    assert (H9 : Qle_bool (min_analyst_confidence (config ctx)) (9 # 10) = true).
    { apply Qle_bool_iff. lra. }
    assert (H8 : Qle_bool (min_analyst_confidence (config ctx)) (8 # 10) = true).
    { apply Qle_bool_iff. lra. }
    assert (Hranked : exists rest, ranked ctx research [] = r1 :: r2 :: rest).
    { pose proof (ranked_rearranges ctx research []) as Hp.
      rewrite (filter_rearranged _ _ _ Hperm) in Hp.
      set (qf := fun r : ResearchResult =>
                   eqb_verdict (verdict r) BUY
                   && Qle_bool (min_analyst_confidence (config ctx)) (confidence r)
                   && negb (existsb (String.eqb (r_symbol r)) (map symbol []))) in Hp.
      assert (E1 : qf r1 = true).
      { unfold qf, r1, buy. cbn [verdict confidence eqb_verdict map existsb negb andb].
        rewrite H9. reflexivity. }
      assert (E2 : qf r2 = true).
      { unfold qf, r2, buy. cbn [verdict confidence eqb_verdict map existsb negb andb].
        rewrite H8. reflexivity. }
      set (F := List.filter qf [r3; r4; r5]).
      assert (Hfil : List.filter qf [r1; r2; r3; r4; r5] = r1 :: r2 :: F).
      { change [r1; r2; r3; r4; r5] with ([r1; r2] ++ [r3; r4; r5]).
        rewrite List.filter_app. fold F.
        change (List.filter qf [r1; r2])
          with (if qf r1 then r1 :: (if qf r2 then [r2] else [])
                else if qf r2 then [r2] else []).
        rewrite E1, E2. reflexivity. }
      rewrite Hfil in Hp.
      assert (HF : StronglySorted descR F /\
                   Forall (fun x => x = r3 \/ x = r4 \/ x = r5) F).
      { unfold F. cbn [List.filter].
        destruct (qf r3), (qf r4), (qf r5); split;
          repeat (constructor; unfold descR, r3, r4, r5; cbn [confidence buy];
                  try lra; auto). }
      destruct HF as [HF1 HF2].
      exists F. symmetry.
      apply (StronglySorted_unique_strong descR); [| |apply sort_sorted|symmetry; exact Hp].
      - assert (Hin : forall x, x ∈ r1 :: r2 :: F ->
                  x = r1 \/ x = r2 \/ x = r3 \/ x = r4 \/ x = r5).
        { intros x Hx. apply list_elem_of_In in Hx.
          destruct Hx as [<-|[<-|Hx]]; [auto|auto|].
          rewrite Forall_forall in HF2. apply list_elem_of_In, HF2 in Hx.
          destruct Hx as [->|[->| ->]]; auto. }
        intros x1 x2 Hx1 Hx2 H12 H21. unfold descR in H12, H21.
        rewrite Hp in Hx2. apply Hin in Hx1. apply Hin in Hx2.
        destruct Hx1 as [->|[->|[->|[->| ->]]]];
          destruct Hx2 as [->|[->|[->|[->| ->]]]];
          try reflexivity; exfalso;
          unfold r1, r2, r3, r4, r5 in H12, H21; cbn [confidence buy] in H12, H21; lra.
      - assert (HF3 : Forall (fun x => (confidence x <= 7 # 10)%Q) F).
        { eapply Forall_impl; [exact HF2|]. intros x [->|[->| ->]];
            unfold r3, r4, r5; cbn [confidence buy]; lra. }
        constructor; [constructor; [exact HF1|]|].
        + eapply Forall_impl; [exact HF3|]. unfold descR, r2. cbn [confidence buy].
          intros x Hx. lra.
        + constructor; [unfold descR, r1, r2; cbn [confidence buy]; lra|].
          eapply Forall_impl; [exact HF3|]. unfold descR, r1. cbn [confidence buy].
          intros x Hx. lra. }
    destruct Hranked as (rest & Hranked).
    unfold Entries.selectEntries. cbv zeta. rewrite Hmaxp.
    change (Z.of_nat (length []) >=? 2) with false. cbv iota.
    fold (ranked ctx research []). rewrite Hranked.
    destruct rest as [|r rest]; cbn [take length]; apply entriesLoop_two; assumption.
Qed.

(** The five verdicts of the example, the weakest first. *)
Lemma C4_selectEntries_witness :
  Entries.selectEntries (ctx_of cfg_two) (rev research_ex) [] {| cash := 10000 |} =
  [ candidate cfg_two {| cash := 10000 |} (buy "NVDA" (9 # 10) excellent "earnings beat");
    candidate cfg_two {| cash := 10000 |} (buy "AMD" (8 # 10) good "sector momentum") ].
Proof.
  apply (proj2 (proj2 (proj2 (proj2 (proj2
           (C4_selectEntries (ctx_of cfg_two) (rev research_ex) [] {| cash := 10000 |})))))
           "NVDA" "AMD" "TSLA" "PLTR" "SOFI" excellent good fair good poor
           "earnings beat" "sector momentum" "deliveries" "contract" "chatter")%string.
  - symmetry. apply (Permutation_rev research_ex).
  - reflexivity.
  - reflexivity.
  - vm_compute. discriminate.
  - repeat constructor.
Defined.

(** The same verdicts in another order, one symbol already held. *)
Example selectEntries_scrambled :
  map b_symbol
    (Entries.selectEntries (ctx_of cfg_ex)
       (rev research_ex)
       [ {| symbol := "NVDA"; asset_class := "us_equity"; avg_entry_price := 100;
            current_price := 100; market_value := 1000; unrealized_pl := 0 |} ]
       {| cash := 10000 |})
  = ["AMD"; "TSLA"; "PLTR"]%string.
Proof. vm_compute. reflexivity. Qed.

(** ** Twitter read budget and confirmation (gatherers/twitter.ts) *)

Module TwitterFacts.

Import Twitter.

(** With the counter at the daily maximum and a reset timestamp no older
    than a day, the budget test fails and changes nothing. *)
Lemma canSpend_exhausted w n t :
  twitterDailyReads (w_state w) = Some n ->
  MAX_DAILY_READS <= n ->
  twitterDailyReadReset (w_state w) = Some t ->
  w_now w - t <= ONE_DAY_MS ->
  canSpendTwitterRead w = (false, w).
Proof.
  intros Hn Hmax Ht Hage. unfold canSpendTwitterRead. rewrite Ht.
  cbn [from_option Datatypes.id].
  destruct (w_now w - t >? ONE_DAY_MS) eqn:E; [lia|].
  cbv beta iota zeta. rewrite Hn. cbn [from_option Datatypes.id]. f_equal. lia.
Qed.

(** A reset timestamp older than a day restarts the counter at 0, stamps
    the reset with the current time, and the test then passes. *)
Lemma canSpend_rollover w t :
  twitterDailyReadReset (w_state w) = Some t ->
  w_now w - t > ONE_DAY_MS ->
  canSpendTwitterRead w =
  (true, set_state (set_reset (w_now w) (set_reads 0 (w_state w))) w).
Proof.
  intros Ht Hage. unfold canSpendTwitterRead. rewrite Ht. cbn [from_option Datatypes.id].
  destruct (w_now w - t >? ONE_DAY_MS) eqn:E; [|lia]. reflexivity.
Qed.

End TwitterFacts.

Import TwitterFacts.

(** C7.  With the stored daily counter at 200 or more and a stored reset
    timestamp at most 24 hours old, a confirmation lookup and a search both
    return nothing and leave the world as it was: no request is sent.  With
    a stored reset timestamp more than 24 hours old, the budget test first
    sets the counter to 0 and the reset timestamp to the current time, and
    then passes. *)
Theorem C7_twitter_budget (log10 : Q -> num) (ctx : StrategyContext) (symbol query : string)
    (maxResults : Z) (existingSentiment : Q) (a : Twitter.Answer)
    (w : Twitter.World) (n t : Z) (w2 : Twitter.World) (t2 : Z) :
  twitterDailyReads (Twitter.w_state w) = Some n ->
  200 <= n ->
  twitterDailyReadReset (Twitter.w_state w) = Some t ->
  Twitter.w_now w - t <= 24 * 60 * 60 * 1000 ->
  twitterDailyReadReset (Twitter.w_state w2) = Some t2 ->
  Twitter.w_now w2 - t2 > 24 * 60 * 60 * 1000 ->
  (Twitter.gatherTwitterConfirmation log10 ctx symbol existingSentiment a w = (None, w) /\
   Twitter.twitterSearchRecent ctx query maxResults a w = ([], w)) /\
  (exists w2',
     Twitter.canSpendTwitterRead w2 = (true, w2') /\
     twitterDailyReads (Twitter.w_state w2') = Some 0 /\
     twitterDailyReadReset (Twitter.w_state w2') = Some (Twitter.w_now w2) /\
     Twitter.w_fetches w2' = Twitter.w_fetches w2).
Proof.
  intros Hn Hmax Ht Hage Ht2 Hage2.
  pose proof (canSpend_exhausted w n t Hn Hmax Ht Hage) as Hno.
  split; [split|].
  - unfold Twitter.gatherTwitterConfirmation.
    destruct (Twitter.isTwitterEnabled ctx); [|reflexivity].
    cbn [negb]. rewrite Hno. reflexivity.
  - unfold Twitter.twitterSearchRecent.
    destruct (Twitter.isTwitterEnabled ctx); [|reflexivity].
    cbn [negb]. rewrite Hno. reflexivity.
  - eexists. split; [apply (canSpend_rollover w2 t2 Ht2 Hage2)|].
    repeat split.
Qed.

(** A run of C7: 200 reads spent and a reset one hour ago; and a reset 25
    hours ago. *)
Lemma C7_twitter_budget_witness :
  (Twitter.gatherTwitterConfirmation log10_table ctx_ex "XYZ" (5 # 10) answer_ex
     (world_of (Some 200) (Some 1000000) 4600000)
   = (None, world_of (Some 200) (Some 1000000) 4600000) /\
   Twitter.twitterSearchRecent ctx_ex "$XYZ" 5 answer_ex
     (world_of (Some 200) (Some 1000000) 4600000)
   = ([], world_of (Some 200) (Some 1000000) 4600000)) /\
  (exists w2',
     Twitter.canSpendTwitterRead (world_of (Some 200) (Some 1000000) 91000000) = (true, w2') /\
     twitterDailyReads (Twitter.w_state w2') = Some 0 /\
     twitterDailyReadReset (Twitter.w_state w2') = Some 91000000 /\
     Twitter.w_fetches w2' = []).
Proof.
  apply (C7_twitter_budget log10_table ctx_ex "XYZ" "$XYZ" 5 (5 # 10) answer_ex
           (world_of (Some 200) (Some 1000000) 4600000) 200 1000000
           (world_of (Some 200) (Some 1000000) 91000000) 1000000);
    first [reflexivity | vm_compute; congruence].
Defined.


Section ConfirmationFacts.

Variable log10 : Q -> num.

Lemma canSpend_keeps w can w1 :
  Twitter.canSpendTwitterRead w = (can, w1) ->
  twitterConfirmation (Twitter.w_state w1) = twitterConfirmation (Twitter.w_state w) /\
  Twitter.w_now w1 = Twitter.w_now w /\
  Twitter.w_fetches w1 = Twitter.w_fetches w.
Proof.
  unfold Twitter.canSpendTwitterRead. cbv zeta.
  destruct (_ >? _); intros [= <- <-]; repeat split.
Qed.



End ConfirmationFacts.



(** ** Keyword sentiment (helpers/sentiment.ts) *)

Module SentimentFacts.

Import Sentiment.

Lemma countIncluded_length lower ws : forall n,
  countIncluded lower ws n = n + Z.of_nat (length (included lower ws)).
Proof.
  induction ws as [|w ws IH]; intros n; cbn [countIncluded included List.filter].
  - cbn [length]. lia.
  - rewrite IH. fold (included lower ws).
    destruct (Str.includes w lower); cbn [length]; lia.
Qed.

Lemma detectSentiment_unfold text :
  detectSentiment text =
  if bullCount text + bearCount text =? 0 then finZ 0
  else (finZ (bullCount text - bearCount text) / finZ (bullCount text + bearCount text))%num.
Proof.
  unfold detectSentiment, bullCount, bearCount. cbv zeta.
  rewrite !countIncluded_length. reflexivity.
Qed.

End SentimentFacts.

Import SentimentFacts.

(** C9 (as stated, refuted).  In "moon moon crash" a bullish word occurs
    twice and a bearish word once, so the quotient of the occurrence counts
    is (2 - 1) / (2 + 1); the function returns 0. *)
Lemma C9_occurrence_count_counterexample :
  specOccurrenceCount "moon moon crash" Sentiment.bullish = 2 /\
  specOccurrenceCount "moon moon crash" Sentiment.bearish = 1 /\
  exists q,
    Sentiment.detectSentiment "moon moon crash" = Fin q /\
    (q == 0)%Q /\
    ~ (q == (2 - 1) / (2 + 1))%Q.
Proof.
  split; [vm_compute; reflexivity|]. split; [vm_compute; reflexivity|].
  eexists. split; [vm_compute; reflexivity|].
  split; [reflexivity|]. intros H. vm_compute in H. discriminate H.
Qed.

(** C9 (amended).  With [bullCount] and [bearCount] the numbers of words of
    the bullish and of the bearish list that occur at least once in the
    lower-cased text, the function returns a finite number: exactly 0 when
    both counts are zero, and otherwise
    [(bullCount - bearCount) / (bullCount + bearCount)].  The result lies in
    [-1, 1]; it is 1 when only bullish words occur and -1 when only bearish
    words occur. *)
Theorem C9_detectSentiment (text : string) :
  exists q,
    Sentiment.detectSentiment text = Fin q /\
    (bullCount text + bearCount text = 0 -> q = 0%Q) /\
    (bullCount text + bearCount text <> 0 ->
     (q == inject_Z (bullCount text - bearCount text)
           / inject_Z (bullCount text + bearCount text))%Q) /\
    (-1 <= q <= 1)%Q /\
    (0 < bullCount text -> bearCount text = 0 -> (q == 1)%Q) /\
    (0 < bearCount text -> bullCount text = 0 -> (q == -1)%Q).
Proof.
  rewrite detectSentiment_unfold.
  assert (Hb : 0 <= bullCount text) by (unfold bullCount; lia).
  assert (Hr : 0 <= bearCount text) by (unfold bearCount; lia).
  set (b := bullCount text) in *. set (r := bearCount text) in *.
  destruct (b + r =? 0) eqn:E.
  - apply Z.eqb_eq in E. exists 0%Q. split; [reflexivity|].
    split; [reflexivity|]. split; [congruence|].
    split; [split; discriminate|]. split; intros; lia.
  - apply Z.eqb_neq in E. unfold finZ.
    assert (Hpos : (0 < inject_Z (b + r))%Q).
    { change 0%Q with (inject_Z 0). rewrite <- Zlt_Qlt. lia. }
    rewrite div_fin by lra.
    eexists. split; [reflexivity|]. split; [contradiction|].
    split; [reflexivity|].
    assert (Hlow : (- inject_Z (b + r) <= inject_Z (b - r))%Q).
    { rewrite <- inject_Z_opp, <- Zle_Qle. lia. }
    assert (Hhigh : (inject_Z (b - r) <= inject_Z (b + r))%Q).
    { rewrite <- Zle_Qle. lia. }
    split; [split|split].
    + apply Qle_shift_div_l; [exact Hpos|]. lra.
    + apply Qle_shift_div_r; [exact Hpos|]. lra.
    + intros _ Hz. rewrite Hz, Z.sub_0_r, Z.add_0_r. field.
      rewrite Hz, Z.add_0_r in Hpos. lra.
    + intros _ Hz. rewrite Hz, Z.sub_0_l, Z.add_0_l.
      rewrite inject_Z_opp. field.
      rewrite Hz, Z.add_0_l in Hpos. lra.
Qed.

(** Runs of the function: no keyword, only bullish, only bearish, and
    upper case. *)
Example detectSentiment_runs :
  Sentiment.detectSentiment "earnings on thursday" = Fin 0 /\
  Sentiment.detectSentiment "To the MOON, buy calls" = Fin (3 # 3) /\
  Sentiment.detectSentiment "Crash incoming, SELL" = Fin (-2 # 2).
Proof. vm_compute. repeat split. Qed.

(** A run of C9 on a text with bullish words only. *)
Lemma C9_detectSentiment_witness :
  exists q, Sentiment.detectSentiment "To the MOON, buy calls" = Fin q /\ (q == 1)%Q.
Proof.
  destruct (C9_detectSentiment "To the MOON, buy calls")
    as (q & Hq & _ & _ & _ & Hbull & _).
  exists q. split; [exact Hq|]. apply Hbull; vm_compute; reflexivity.
Defined.

(** ** Ticker validation in the gatherers (helpers/ticker.ts, gatherers) *)

Module CacheFacts.

Import TickerCache Gatherers.

(** The external check leaves the SEC set alone and asks for at most the
    symbol it is given. *)
Lemma validateWithAlpaca_calls getAsset symbol w :
  let '(_, w') := validateWithAlpaca getAsset symbol w in
  secTickers (cache w') = secTickers (cache w) /\
  (assetCalls w' = assetCalls w \/
   assetCalls w' = assetCalls w ++ [Str.toUpperCase symbol]).
Proof.
  unfold validateWithAlpaca. cbv zeta.
  destruct (alpacaCache (cache w) !! Str.toUpperCase symbol); [auto|].
  destruct (getAsset (Str.toUpperCase symbol)); cbn; auto.
Qed.

Section Reddit.

Variable calculateTimeDecay : Q -> num.
Variable getAsset : string -> AssetAnswer.

(** One promotion of the Reddit gatherer asks the broker only about a
    symbol that is not in the SEC set. *)
Lemma redditStep_calls signals w e :
  let '(_, w') := redditStep calculateTimeDecay getAsset (signals, w) e in
  secTickers (cache w') = secTickers (cache w) /\
  exists extra,
    assetCalls w' = assetCalls w ++ extra /\
    Forall (fun s => isKnownSecTicker (cache w) s = false) extra.
Proof.
  destruct e as [symbol data]. unfold redditStep.
  assert (Hsame : secTickers (cache w) = secTickers (cache w) /\
            exists extra, assetCalls w = assetCalls w ++ extra /\
              Forall (fun s => isKnownSecTicker (cache w) s = false) extra).
  { split; [reflexivity|]. exists []. rewrite app_nil_r. split; [reflexivity|constructor]. }
  destruct (mentions data >=? 2); [|exact Hsame].
  destruct (isKnownSecTicker (cache w) symbol) eqn:Eknown; cbn [negb]; [exact Hsame|].
  destruct (getCachedValidation (cache w) symbol) as [[|]|]; try exact Hsame.
  pose proof (validateWithAlpaca_calls getAsset symbol w) as Hv.
  destruct (validateWithAlpaca getAsset symbol w) as [isValid w1].
  destruct Hv as [Hsec Hcalls].
  assert (Hw1 : secTickers (cache w1) = secTickers (cache w) /\
            exists extra, assetCalls w1 = assetCalls w ++ extra /\
              Forall (fun s => isKnownSecTicker (cache w) s = false) extra).
  { split; [exact Hsec|]. destruct Hcalls as [->| ->].
    - exists []. rewrite app_nil_r. split; [reflexivity|constructor].
    - eexists. split; [reflexivity|]. constructor; [|constructor].
      unfold isKnownSecTicker in *. rewrite toUpperCase_idem. exact Eknown. }
  destruct isValid; cbn [negb]; exact Hw1.
Qed.

Lemma fold_redditStep_calls tickerData : forall signals w,
  let '(_, w') :=
    fold_left (redditStep calculateTimeDecay getAsset) tickerData (signals, w) in
  secTickers (cache w') = secTickers (cache w) /\
  exists extra,
    assetCalls w' = assetCalls w ++ extra /\
    Forall (fun s => isKnownSecTicker (cache w) s = false) extra.
Proof.
  induction tickerData as [|e tickerData IH]; intros signals w; cbn [fold_left].
  - split; [reflexivity|]. exists []. rewrite app_nil_r. split; [reflexivity|constructor].
  - pose proof (redditStep_calls signals w e) as Hstep.
    destruct (redditStep calculateTimeDecay getAsset (signals, w) e) as [signals1 w1].
    destruct Hstep as (Hsec1 & extra1 & Hcalls1 & Hall1).
    specialize (IH signals1 w1).
    destruct (fold_left _ tickerData (signals1, w1)) as [signals2 w2].
    destruct IH as (Hsec2 & extra2 & Hcalls2 & Hall2).
    split; [congruence|].
    exists (extra1 ++ extra2). split; [rewrite Hcalls2, Hcalls1, app_assoc; reflexivity|].
    apply Forall_app. split; [exact Hall1|].
    eapply Forall_impl; [exact Hall2|]. intros s. cbn beta.
    unfold isKnownSecTicker. rewrite Hsec1. auto.
Qed.

(** The Reddit gatherer never asks the broker about a symbol of the
    loaded SEC set. *)
Lemma reddit_skips_known_tickers tickerData w :
  exists extra,
    assetCalls (snd (gatherRedditPromote calculateTimeDecay getAsset tickerData w))
    = assetCalls w ++ extra /\
    Forall (fun s => isKnownSecTicker (cache w) s = false) extra.
Proof.
  unfold gatherRedditPromote.
  pose proof (fold_redditStep_calls tickerData [] w) as H.
  destruct (fold_left _ tickerData ([], w)) as [signals w'].
  destruct H as (_ & extra & Hcalls & Hall). exists extra. auto.
Qed.

End Reddit.

End CacheFacts.

Import CacheFacts.

(** C2 (the code at the failing input).  With AAPL in the loaded SEC set
    and nothing cached, the SEC gatherer resolves the filing of "Apple Inc."
    to AAPL and asks the broker whether AAPL is tradable; the Reddit
    gatherer, given an aggregate for AAPL in the same state, promotes it
    without asking. *)
Lemma C2_sec_gatherer_queries_known_ticker :
  TickerCache.isKnownSecTicker (TickerCache.cache world_sec) "AAPL" = true /\
  TickerCache.assetCalls
    (snd (Gatherers.gatherSECPromote 2000000 (9 # 10) (8 # 10) tradable directory
            [filing] world_sec)) = ["AAPL"%string] /\
  map Gatherers.sig_symbol
    (fst (Gatherers.gatherSECPromote 2000000 (9 # 10) (8 # 10) tradable directory
            [filing] world_sec)) = ["AAPL"%string] /\
  TickerCache.assetCalls
    (snd (Gatherers.gatherRedditPromote (fun _ => fin 1) tradable
            [("AAPL"%string, aggregate)] world_sec)) = [] /\
  map Gatherers.sig_symbol
    (fst (Gatherers.gatherRedditPromote (fun _ => fin 1) tradable
            [("AAPL"%string, aggregate)] world_sec)) = ["AAPL"%string].
Proof. vm_compute. repeat split. Qed.

(** ** Ticker extraction (helpers/ticker.ts) *)

Module TickerFacts.

Import Regex Ticker.

Lemma one_advances p : advances 1 (one p).
Proof.
  intros st k res. unfold one.
  destruct (rest st) as [|a s'] eqn:E; [discriminate|].
  destruct (p a); [|discriminate].
  intros H. eexists. split; [exact H|]. cbn [rest String.length]. lia.
Qed.

Lemma rep_advances body n k : advances n body ->
  forall fuel min st res,
    rep body k fuel min st = Some res ->
    exists st', k st' = Some res /\
                (String.length (rest st') + min * n <= String.length (rest st))%nat.
Proof.
  intros Hbody. induction fuel as [|fuel IH]; intros min st res; cbn [rep].
  - destruct (Nat.eqb min 0) eqn:E; [|discriminate].
    apply Nat.eqb_eq in E. subst min. intros H. exists st. split; [exact H|]. lia.
  - destruct (body st _) as [res'|] eqn:Ebody.
    + intros [= ->]. apply Hbody in Ebody as (st1 & Hk & Hlen).
      destruct (_ && _); [discriminate|].
      apply IH in Hk as (st' & Hk & Hlen'). exists st'. split; [exact Hk|].
      destruct min; cbn [Nat.pred] in *; lia.
    + destruct (Nat.eqb min 0) eqn:E; [|discriminate].
      apply Nat.eqb_eq in E. subst min. intros H. exists st. split; [exact H|]. lia.
Qed.

Lemma m_advances ci r : advances (minlen r) (m ci r).
Proof.
  induction r as [c|lo hi| | | |r1 IH1 r2 IH2|r1 IH1 r2 IH2|r1 IH1 min max|n r1 IH1|r1 IH1];
    cbn [m minlen].
  - apply one_advances.
  - apply one_advances.
  - apply one_advances.
  - intros st k res. destruct (xorb _ _); [|discriminate].
    intros H. exists st. split; [exact H|]. lia.
  - intros st k res H. exists st. split; [exact H|]. lia.
  - intros st k res H. apply IH1 in H as (st1 & H & Hlen1).
    apply IH2 in H as (st2 & H & Hlen2). exists st2. split; [exact H|]. lia.
  - intros st k res. destruct (m ci r1 st k) as [res'|] eqn:E1.
    + intros [= ->]. apply IH1 in E1 as (st' & H & Hlen). exists st'. split; [exact H|]. lia.
    + intros H. apply IH2 in H as (st' & H & Hlen). exists st'. split; [exact H|]. lia.
  - intros st k res H. cbv zeta in H.
    eapply rep_advances in H; [exact H|exact IH1].
  - intros st k res H. apply IH1 in H as (st1 & H & Hlen).
    eexists. split; [exact H|]. cbn [rest]. exact Hlen.
  - intros st k res. destruct (m ci r1 st Some) as [st1|]; [|discriminate].
    intros H. eexists. split; [exact H|]. cbn [rest]. lia.
Qed.

Lemma exec_advances ci re s : forall prev st,
  exec ci re prev s = Some st ->
  (String.length (rest st) + minlen re <= String.length s)%nat.
Proof.
  induction s as [|c s IH]; intros prev st; cbn [exec].
  - destruct (m ci re _ Some) as [st0|] eqn:E; [|discriminate].
    intros [= ->]. apply m_advances in E as (st' & [= ->] & Hlen). exact Hlen.
  - destruct (m ci re _ Some) as [st0|] eqn:E.
    + intros [= ->]. apply m_advances in E as (st' & [= ->] & Hlen). exact Hlen.
    + intros H. apply IH in H. cbn [String.length]. lia.
Qed.

Lemma minlen_tickerRegex : minlen tickerRegex = 2%nat.
Proof. reflexivity. Qed.

Lemma set_add_NoDup t matches : NoDup matches -> NoDup (set_add t matches).
Proof.
  intros Hnd. unfold set_add.
  destruct (existsb (String.eqb t) matches) eqn:E; [exact Hnd|].
  apply NoDup_app. split; [exact Hnd|]. split; [|apply NoDup_singleton].
  intros x Hx Hx'. apply list_elem_of_singleton in Hx'. subst x.
  assert (Hex : existsb (String.eqb t) matches = true).
  { apply existsb_exists. exists t. split; [apply list_elem_of_In, Hx|apply String.eqb_refl]. }
  congruence.
Qed.

Lemma set_add_Forall (P : string -> Prop) t matches :
  P t -> Forall P matches -> Forall P (set_add t matches).
Proof.
  intros Ht Hall. unfold set_add.
  destruct (existsb _ _); [exact Hall|].
  apply Forall_app. split; [exact Hall|]. constructor; [exact Ht|constructor].
Qed.

(** The loop ends within its fuel and keeps the extracted list free of
    duplicates and of rejected candidates. *)
Lemma tickerLoop_spec customSet : forall fuel prev s matches,
  (String.length s < fuel)%nat ->
  NoDup matches -> Forall (accepted customSet) matches ->
  exists out,
    tickerLoop fuel customSet prev s matches = Some out /\
    NoDup out /\ Forall (accepted customSet) out.
Proof.
  induction fuel as [|fuel IH]; intros prev s matches Hfuel Hnd Hall; [lia|].
  cbn [tickerLoop].
  destruct (exec true tickerRegex prev s) as [st|] eqn:E.
  - apply exec_advances in E. rewrite minlen_tickerRegex in E.
    cbv zeta. apply IH; [lia| |].
    + destruct (_ && _); [apply set_add_NoDup|]; exact Hnd.
    + destruct (_ && _) eqn:Etest; [|exact Hall].
      apply set_add_Forall; [|exact Hall].
      apply andb_true_iff in Etest as [Etest Hcustom].
      apply andb_true_iff in Etest as [Etest Hstatic].
      apply andb_true_iff in Etest as [Hlo Hhi].
      apply Nat.leb_le in Hlo, Hhi.
      apply negb_true_iff, bool_decide_eq_false in Hcustom, Hstatic.
      split; [apply toUpperCase_idem|]. split; [lia|]. split; assumption.
  - exists matches. auto.
Qed.

(** *** Case does not matter

    The matcher run on a text whose letters were mapped by [f] (a case
    mapping) mirrors its run on the text itself. *)
Section CaseMap.

Variable f : ascii -> ascii.
Hypothesis f_upper : forall a, Str.upper_char (f a) = Str.upper_char a.
Hypothesis f_space : forall a, Str.is_space (f a) = Str.is_space a.
Hypothesis f_word : forall a, Str.is_word (f a) = Str.is_word a.
Hypothesis f_class : forall lo hi a, in_class true lo hi (f a) = in_class true lo hi a.

Lemma length_map_string s : String.length (Str.map_string f s) = String.length s.
Proof. induction s as [|c s IH]; cbn [Str.map_string String.length]; congruence. Qed.

Lemma slice0_map_string n : forall s,
  Str.slice0 n (Str.map_string f s) = Str.map_string f (Str.slice0 n s).
Proof.
  induction n as [|n IH]; intros [|c s]; cbn [Str.slice0 Str.map_string]; try reflexivity.
  rewrite IH. reflexivity.
Qed.

Lemma one_mirrors p k k' st :
  (forall a, p (f a) = p a) -> mirrors f k k' ->
  one p (mapst f st) k' = mapst f <$> one p st k.
Proof.
  intros Hp Hk. unfold one. cbn [rest mapst].
  destruct (rest st) as [|a s']; cbn [Str.map_string]; [reflexivity|].
  rewrite Hp. destruct (p a); [|reflexivity].
  rewrite <- Hk. reflexivity.
Qed.

Lemma word_before_mapst st : word_before (mapst f st) = word_before st.
Proof. unfold word_before. cbn [prev mapst]. destruct (prev st); cbn; auto. Qed.

Lemma word_after_mapst st : word_after (mapst f st) = word_after st.
Proof.
  unfold word_after. cbn [rest mapst].
  destruct (rest st); cbn [Str.map_string]; auto.
Qed.

Lemma rep_mirrors body body' k k' :
  (forall st c c', mirrors f c c' -> body' (mapst f st) c' = mapst f <$> body st c) ->
  mirrors f k k' ->
  forall fuel min st, rep body' k' fuel min (mapst f st) = mapst f <$> rep body k fuel min st.
Proof.
  intros Hbody Hk. induction fuel as [|fuel IH]; intros min st; cbn [rep].
  - destruct (Nat.eqb min 0); [apply Hk|reflexivity].
  - rewrite (Hbody st
               (fun st1 =>
                  if Nat.eqb min 0
                     && Nat.eqb (String.length (rest st1)) (String.length (rest st))
                  then None
                  else rep body k fuel (Nat.pred min) st1)).
    + destruct (body st _); cbn [fmap option_fmap option_map]; [reflexivity|].
      destruct (Nat.eqb min 0); [apply Hk|reflexivity].
    + intros st1. cbn [rest mapst]. rewrite !length_map_string.
      destruct (_ && _); [reflexivity|]. apply IH.
Qed.

Lemma consumed_mapst st st1 :
  consumed (mapst f st) (mapst f st1) = Str.map_string f (consumed st st1).
Proof.
  unfold consumed. cbn [rest mapst]. rewrite !length_map_string.
  apply slice0_map_string.
Qed.

Lemma set_cap_map n s cs :
  set_cap n (Str.map_string f s) (map (fun c => (fst c, Str.map_string f (snd c))) cs) =
  map (fun c => (fst c, Str.map_string f (snd c))) (set_cap n s cs).
Proof.
  unfold set_cap. cbn [map fst snd]. f_equal.
  induction cs as [|c cs IH]; cbn [map List.filter fst]; [reflexivity|].
  destruct (negb (Nat.eqb (fst c) n)); cbn [map]; rewrite IH; reflexivity.
Qed.

Lemma m_mirrors r : forall st k k',
  mirrors f k k' -> m true r (mapst f st) k' = mapst f <$> m true r st k.
Proof.
  induction r as [c|lo hi| | | |r1 IH1 r2 IH2|r1 IH1 r2 IH2|r1 IH1 min max|n r1 IH1|r1 IH1];
    intros st k k' Hk; cbn [m].
  - apply one_mirrors; [|exact Hk]. intros a. unfold char_eq. rewrite f_upper. reflexivity.
  - apply one_mirrors; [|exact Hk]. intros a. apply f_class.
  - apply one_mirrors; [|exact Hk]. exact f_space.
  - rewrite word_before_mapst, word_after_mapst.
    destruct (xorb _ _); [apply Hk|reflexivity].
  - apply Hk.
  - apply IH1. intros st1. apply IH2, Hk.
  - rewrite (IH1 st k k' Hk). destruct (m true r1 st k); [reflexivity|].
    apply IH2, Hk.
  - cbv zeta. cbn [rest mapst]. rewrite length_map_string.
    apply rep_mirrors; [|exact Hk]. intros st0 c c' Hc. apply IH1, Hc.
  - apply IH1. intros st1. rewrite <- Hk. f_equal.
    rewrite consumed_mapst. unfold mapst. cbn [prev rest caps].
    rewrite set_cap_map. reflexivity.
  - rewrite (IH1 st Some Some) by (intros st1; reflexivity).
    destruct (m true r1 st Some) as [st1|]; cbn [fmap option_fmap option_map]; [|reflexivity].
    rewrite <- Hk. reflexivity.
Qed.

Lemma exec_mirrors re s : forall p,
  exec true re (f <$> p) (Str.map_string f s) = mapst f <$> exec true re p s.
Proof.
  induction s as [|c s IH]; intros p; cbn [exec Str.map_string].
  - change {| prev := f <$> p; rest := EmptyString; caps := [] |}
      with (mapst f {| prev := p; rest := EmptyString; caps := [] |}).
    rewrite (m_mirrors re _ Some Some) by (intros st1; reflexivity).
    destruct (m true re _ Some); reflexivity.
  - change {| prev := f <$> p; rest := String (f c) (Str.map_string f s); caps := [] |}
      with (mapst f {| prev := p; rest := String c s; caps := [] |}).
    rewrite (m_mirrors re _ Some Some) by (intros st1; reflexivity).
    destruct (m true re _ Some); [reflexivity|].
    apply (IH (Some c)).
Qed.

Lemma get_cap_map n cs :
  get_cap n (map (fun c => (fst c, Str.map_string f (snd c))) cs) =
  Str.map_string f <$> get_cap n cs.
Proof.
  unfold get_cap.
  induction cs as [|c cs IH]; cbn [map find fst]; [reflexivity|].
  destruct (Nat.eqb (fst c) n); [reflexivity|exact IH].
Qed.

Lemma toUpperCase_map_string s :
  Str.toUpperCase (Str.map_string f s) = Str.toUpperCase s.
Proof.
  unfold Str.toUpperCase.
  induction s as [|c s IH]; cbn [Str.map_string]; [reflexivity|].
  rewrite f_upper, IH. reflexivity.
Qed.

Lemma matchedTicker_map cs :
  matchedTicker (map (fun c => (fst c, Str.map_string f (snd c))) cs) =
  Str.map_string f (matchedTicker cs).
Proof.
  unfold matchedTicker. rewrite !get_cap_map.
  destruct (get_cap 1 cs) as [[|c1 s1]|]; cbn [fmap option_fmap option_map Str.map_string];
    try reflexivity;
    destruct (get_cap 2 cs) as [[|c2 s2]|]; reflexivity.
Qed.

Lemma tickerLoop_mirrors customSet : forall fuel p s matches,
  tickerLoop fuel customSet (f <$> p) (Str.map_string f s) matches =
  tickerLoop fuel customSet p s matches.
Proof.
  induction fuel as [|fuel IH]; intros p s matches; cbn [tickerLoop]; [reflexivity|].
  rewrite exec_mirrors.
  destruct (exec true tickerRegex p s) as [st|]; cbn [fmap option_fmap option_map];
    [|reflexivity].
  cbv zeta. cbn [caps prev rest mapst].
  rewrite matchedTicker_map, toUpperCase_map_string. apply IH.
Qed.

End CaseMap.

Lemma lower_upper a : Str.upper_char (Str.lower_char a) = Str.upper_char a.
Proof. destruct a as [[] [] [] [] [] [] [] []]; vm_compute; reflexivity. Qed.

Lemma lower_space a : Str.is_space (Str.lower_char a) = Str.is_space a.
Proof. destruct a as [[] [] [] [] [] [] [] []]; vm_compute; reflexivity. Qed.

Lemma lower_word a : Str.is_word (Str.lower_char a) = Str.is_word a.
Proof. destruct a as [[] [] [] [] [] [] [] []]; vm_compute; reflexivity. Qed.

Lemma upper_space a : Str.is_space (Str.upper_char a) = Str.is_space a.
Proof. destruct a as [[] [] [] [] [] [] [] []]; vm_compute; reflexivity. Qed.

Lemma upper_word a : Str.is_word (Str.upper_char a) = Str.is_word a.
Proof. destruct a as [[] [] [] [] [] [] [] []]; vm_compute; reflexivity. Qed.

(** Each character stands for the same letters after a case mapping. *)
Ltac same_cases P a :=
  destruct a as [[] [] [] [] [] [] [] []];
  repeat match goal with
         | |- context [Str.upper_char ?c] =>
           let c' := eval vm_compute in (Str.upper_char c) in
           change (Str.upper_char c) with c'
         | |- context [Str.lower_char ?c] =>
           let c' := eval vm_compute in (Str.lower_char c) in
           change (Str.lower_char c) with c'
         end;
  repeat match goal with
         | |- context [P ?c] => destruct (P c)
         end; reflexivity.

Lemma lower_class lo hi a :
  in_class true lo hi (Str.lower_char a) = in_class true lo hi a.
Proof.
  unfold in_class. generalize (Str.in_range lo hi). intros P. same_cases P a.
Qed.

Lemma upper_class lo hi a :
  in_class true lo hi (Str.upper_char a) = in_class true lo hi a.
Proof.
  unfold in_class. generalize (Str.in_range lo hi). intros P. same_cases P a.
Qed.

(** The extraction does not depend on the case of the text. *)
Lemma extractTickers_lower text customBlacklist :
  extractTickers (Str.toLowerCase text) customBlacklist =
  extractTickers text customBlacklist.
Proof.
  unfold extractTickers, Str.toLowerCase. cbv zeta. rewrite length_map_string.
  apply (tickerLoop_mirrors Str.lower_char lower_upper lower_space lower_word lower_class
           _ _ None).
Qed.

Lemma extractTickers_upper text customBlacklist :
  extractTickers (Str.toUpperCase text) customBlacklist =
  extractTickers text customBlacklist.
Proof.
  unfold extractTickers, Str.toUpperCase. cbv zeta. rewrite length_map_string.
  apply (tickerLoop_mirrors Str.upper_char upper_char_idem upper_space upper_word
           upper_class _ _ None).
Qed.

End TickerFacts.

Import TickerFacts.

(** C10.  Both patterns match without regard to case: the bare token of
    "buy amc calls" and the cashtag of "$gme to the moon" are extracted and
    returned upper-cased, and in general the result for a text is the
    result for the same text in lower case or in upper case.  For every
    text and custom blacklist the extraction ends, and every ticker it
    returns is upper-cased, occurs once, has 2 to 5 characters, and is
    absent from the static blacklist and from the custom one (as given and
    upper-cased). *)
Theorem C10_extractTickers (text : string) (customBlacklist : list string) :
  Ticker.extractTickers "buy amc calls" [] = Some ["AMC"%string] /\
  Ticker.extractTickers "$gme to the moon" [] = Some ["GME"%string] /\
  Ticker.extractTickers (Str.toLowerCase text) customBlacklist =
    Ticker.extractTickers text customBlacklist /\
  Ticker.extractTickers (Str.toUpperCase text) customBlacklist =
    Ticker.extractTickers text customBlacklist /\
  exists out,
    Ticker.extractTickers text customBlacklist = Some out /\
    NoDup out /\
    forall t, In t out ->
      Str.toUpperCase t = t /\
      (2 <= String.length t <= 5)%nat /\
      (t ∉ Ticker.TICKER_BLACKLIST) /\
      ~ In t customBlacklist /\
      ~ In t (map Str.toUpperCase customBlacklist).
Proof.
  split; [vm_compute; reflexivity|]. split; [vm_compute; reflexivity|].
  split; [apply extractTickers_lower|]. split; [apply extractTickers_upper|].
  unfold Ticker.extractTickers. cbv zeta.
  destruct (tickerLoop_spec (list_to_set (map Str.toUpperCase customBlacklist))
              (S (String.length text)) None text [])
    as (out & Hout & Hnd & Hall); [lia|constructor|constructor|].
  exists out. split; [exact Hout|]. split; [exact Hnd|].
  intros t Ht. rewrite Forall_forall in Hall.
  destruct (Hall t (proj2 (list_elem_of_In _ _) Ht)) as (Hup & Hlen & Hstatic & Hcustom).
  assert (Hnot : ~ In t (map Str.toUpperCase customBlacklist)).
  { intros Hin. apply Hcustom, elem_of_list_to_set, list_elem_of_In, Hin. }
  repeat split; try assumption; try lia.
  intros Hin. apply Hnot. rewrite <- Hup. apply in_map, Hin.
Qed.

(** A run of C10: the ticker of "buy amc calls". *)
Lemma C10_extractTickers_witness :
  Str.toUpperCase "AMC" = "AMC"%string /\
  (2 <= String.length "AMC" <= 5)%nat /\
  ("AMC"%string ∉ Ticker.TICKER_BLACKLIST).
Proof.
  destruct (C10_extractTickers "buy amc calls" [])
    as (H1 & _ & _ & _ & out & Hout & _ & Hall).
  rewrite H1 in Hout. injection Hout as <-.
  destruct (Hall "AMC"%string (or_introl eq_refl)) as (Hup & Hlen & Hbl & _).
  split; [exact Hup|]. split; [exact Hlen|exact Hbl].
Defined.

(** Runs of the extraction: the examples of the specification, mixed case,
    a custom blacklist given in lower case. *)
Example extractTickers_runs :
  Ticker.extractTickers "Buying $GME calls now" [] = Some ["GME"%string] /\
  Ticker.extractTickers "THE BEST CALLS ARE HERE" [] = Some [] /\
  Ticker.extractTickers "$Tsla puts, nvda Stock and $tsla again" [] =
    Some ["TSLA"%string; "NVDA"%string] /\
  Ticker.extractTickers "$gme and amc calls" ["amc"%string] = Some ["GME"%string].
Proof. vm_compute. repeat split. Qed.

(** ** The validation cache across gatherer runs (helpers/ticker.ts, gatherers) *)

Module CacheInvariants.

Import TickerCache Gatherers.

(** After the check, the verdict is in the cache under the upper-cased
    symbol. *)
Lemma validateWithAlpaca_stores getAsset symbol w :
  alpacaCache (cache (snd (validateWithAlpaca getAsset symbol w)))
    !! Str.toUpperCase symbol
  = Some (fst (validateWithAlpaca getAsset symbol w)).
Proof.
  unfold validateWithAlpaca. cbv zeta.
  destruct (alpacaCache (cache w) !! Str.toUpperCase symbol) eqn:E; [exact E|].
  destruct (getAsset (Str.toUpperCase symbol)); cbn; apply lookup_insert_eq.
Qed.

(** A cached verdict is never replaced. *)
Lemma validateWithAlpaca_keeps getAsset symbol w k v :
  alpacaCache (cache w) !! k = Some v ->
  alpacaCache (cache (snd (validateWithAlpaca getAsset symbol w))) !! k = Some v.
Proof.
  intros Hk. unfold validateWithAlpaca. cbv zeta.
  destruct (alpacaCache (cache w) !! Str.toUpperCase symbol) eqn:E; [exact Hk|].
  assert (Hne : Str.toUpperCase symbol <> k) by congruence.
  destruct (getAsset (Str.toUpperCase symbol)); cbn;
    rewrite lookup_insert_ne by exact Hne; exact Hk.
Qed.

(** A check on a cached symbol returns the cached verdict and changes
    nothing. *)
Lemma validateWithAlpaca_hit getAsset symbol w v :
  alpacaCache (cache w) !! Str.toUpperCase symbol = Some v ->
  validateWithAlpaca getAsset symbol w = (v, w).
Proof. intros H. unfold validateWithAlpaca. cbv zeta. rewrite H. reflexivity. Qed.

Lemma validateWithAlpaca_asked_once getAsset symbol w :
  asked_once w -> asked_once (snd (validateWithAlpaca getAsset symbol w)).
Proof.
  intros [Hnd Hall]. unfold validateWithAlpaca. cbv zeta.
  destruct (alpacaCache (cache w) !! Str.toUpperCase symbol) eqn:E; [split; assumption|].
  assert (Hnew : ~ In (Str.toUpperCase symbol) (assetCalls w)).
  { intros Hin. destruct (Hall _ Hin) as [v Hv]. congruence. }
  assert (Hgoal : forall v,
    asked_once (set_cache (set_alpaca (Str.toUpperCase symbol) v
                             (cache (call_asset (Str.toUpperCase symbol) w)))
                  (call_asset (Str.toUpperCase symbol) w))).
  { intros v. split; cbn.
    - apply NoDup_app. split; [exact Hnd|].
      split; [|apply NoDup_singleton].
      intros x Hx Hx'. apply list_elem_of_In in Hx.
      apply list_elem_of_singleton in Hx'. subst. auto.
    - intros s Hs. apply in_app_or in Hs. destruct Hs as [Hs|[<-|[]]].
      + apply lookup_insert_is_Some'. right. auto.
      + apply lookup_insert_is_Some'. left. reflexivity. }
  destruct (getAsset (Str.toUpperCase symbol)); apply Hgoal.
Qed.

Lemma resolve_cache dir companyName w :
  cache (snd (resolveTickerFromCompanyName dir companyName w)) = cache w /\
  assetCalls (snd (resolveTickerFromCompanyName dir companyName w)) = assetCalls w.
Proof.
  unfold resolveTickerFromCompanyName. cbv zeta.
  destruct (companyToTickerCache w !! _); [auto|].
  destruct (dir (dirFetches w)); cbn; auto.
  destruct (find _ entries); cbn; auto.
  destruct (find _ entries); cbn; auto.
Qed.

Section Steps.

Variable calculateTimeDecay : Q -> num.
Variable now : Z.
Variable sec_8k sec_4 : Q.
Variable getAsset : string -> AssetAnswer.
Variable dir : nat -> DirAnswer.

Local Abbreviation secStep := (secStep now sec_8k sec_4 getAsset dir).
Local Abbreviation redditStep := (redditStep calculateTimeDecay getAsset).

(** What one filing does to the world: the cache and the broker calls
    change as one tradability check changes them, or not at all. *)
Lemma secStep_world signals w entry :
  snd (secStep (signals, w) entry) = snd (resolveTickerFromCompanyName dir (se_company entry) w)
  \/ exists ticker w0,
       cache w0 = cache w /\ assetCalls w0 = assetCalls w /\
       cache (snd (secStep (signals, w) entry))
       = cache (snd (validateWithAlpaca getAsset ticker w0)) /\
       assetCalls (snd (secStep (signals, w) entry))
       = assetCalls (snd (validateWithAlpaca getAsset ticker w0)).
Proof.
  unfold Gatherers.secStep.
  pose proof (resolve_cache dir (se_company entry) w) as [Hc Ha].
  destruct (resolveTickerFromCompanyName dir (se_company entry) w) as [ticker w0].
  cbn [snd] in *.
  destruct ticker as [[|c t]|]; [left; reflexivity| |left; reflexivity].
  destruct (getCachedValidation (cache w0) (String c t)) as [[|]|];
    [left; reflexivity|left; reflexivity|].
  right. exists (String c t), w0.
  destruct (validateWithAlpaca getAsset (String c t) w0) as [isValid w1].
  destruct isValid; cbn; auto.
Qed.

Lemma asked_once_same w w0 :
  cache w0 = cache w -> assetCalls w0 = assetCalls w -> asked_once w -> asked_once w0.
Proof. unfold asked_once. intros -> ->. auto. Qed.

Lemma secStep_asked_once signals w entry :
  asked_once w -> asked_once (snd (secStep (signals, w) entry)).
Proof.
  intros H. destruct (secStep_world signals w entry) as [->|(ticker & w0 & Hc & Ha & Hc' & Ha')].
  - pose proof (resolve_cache dir (se_company entry) w) as [Hc Ha].
    eapply asked_once_same; eauto.
  - eapply asked_once_same; [exact Hc'|exact Ha'|].
    apply validateWithAlpaca_asked_once. eapply asked_once_same; eauto.
Qed.

Lemma redditStep_asked_once signals w e :
  asked_once w -> asked_once (snd (redditStep (signals, w) e)).
Proof.
  intros H. destruct e as [symbol data]. unfold Gatherers.redditStep.
  destruct (mentions data >=? 2); [|exact H].
  destruct (isKnownSecTicker (cache w) symbol); cbn [negb]; [exact H|].
  destruct (getCachedValidation (cache w) symbol) as [[|]|]; try exact H.
  pose proof (validateWithAlpaca_asked_once getAsset symbol w H) as Hv.
  destruct (validateWithAlpaca getAsset symbol w) as [isValid w1].
  destruct isValid; cbn [negb snd] in *; [exact Hv|].
  destruct Hv. split; assumption.
Qed.

Lemma fold_secStep_asked_once entries : forall signals w,
  asked_once w -> asked_once (snd (fold_left secStep entries (signals, w))).
Proof.
  induction entries as [|e entries IH]; intros signals w H; cbn [fold_left]; [exact H|].
  pose proof (secStep_asked_once signals w e H) as H1.
  destruct (secStep (signals, w) e) as [signals1 w1]. apply IH. exact H1.
Qed.

Lemma fold_redditStep_asked_once tickerData : forall signals w,
  asked_once w -> asked_once (snd (fold_left redditStep tickerData (signals, w))).
Proof.
  induction tickerData as [|e tickerData IH]; intros signals w H; cbn [fold_left]; [exact H|].
  pose proof (redditStep_asked_once signals w e H) as H1.
  destruct (redditStep (signals, w) e) as [signals1 w1]. apply IH. exact H1.
Qed.

(** One filing keeps the signals so far validated and adds at most one
    signal, validated too. *)
Lemma secStep_validated signals w entry :
  Forall (validated w) signals ->
  Forall (validated (snd (secStep (signals, w) entry))) (fst (secStep (signals, w) entry)) /\
  (length (fst (secStep (signals, w) entry)) <= S (length signals))%nat.
Proof.
  intros H. unfold Gatherers.secStep.
  pose proof (resolve_cache dir (se_company entry) w) as [Hc _].
  destruct (resolveTickerFromCompanyName dir (se_company entry) w) as [ticker w0].
  cbn [snd] in Hc.
  assert (H0 : Forall (validated w0) signals).
  { eapply Forall_impl; [exact H|]. intros sig. unfold validated. rewrite Hc. auto. }
  destruct ticker as [[|c t]|]; cbn [fst snd]; [split; [exact H0|lia]| |split; [exact H0|lia]].
  unfold getCachedValidation.
  destruct (alpacaCache (cache w0) !! Str.toUpperCase (String c t)) as [[|]|] eqn:E;
    cbn [fst snd].
  - split; [|rewrite length_app; cbn; lia].
    apply Forall_app. split; [exact H0|]. constructor; [exact E|constructor].
  - split; [exact H0|lia].
  - pose proof (validateWithAlpaca_stores getAsset (String c t) w0) as Hst.
    assert (H1 : Forall (validated (snd (validateWithAlpaca getAsset (String c t) w0))) signals).
    { eapply Forall_impl; [exact H0|]. intros sig. unfold validated.
      apply validateWithAlpaca_keeps. }
    destruct (validateWithAlpaca getAsset (String c t) w0) as [isValid w1].
    cbn [fst snd] in *. destruct isValid; cbn [negb fst snd].
    + split; [|rewrite length_app; cbn; lia].
      apply Forall_app. split; [exact H1|]. constructor; [exact Hst|constructor].
    + split; [exact H1|lia].
Qed.

Lemma fold_secStep_validated entries : forall signals w,
  Forall (validated w) signals ->
  Forall (validated (snd (fold_left secStep entries (signals, w))))
         (fst (fold_left secStep entries (signals, w))) /\
  (length (fst (fold_left secStep entries (signals, w)))
   <= length signals + length entries)%nat.
Proof.
  induction entries as [|e entries IH]; intros signals w H; cbn [fold_left].
  - cbn. split; [exact H|lia].
  - pose proof (secStep_validated signals w e H) as [H1 Hlen].
    destruct (secStep (signals, w) e) as [signals1 w1]. cbn [fst snd] in *.
    destruct (IH signals1 w1 H1) as [H2 Hlen2]. split; [exact H2|].
    cbn [length]. lia.
Qed.

End Steps.

End CacheInvariants.

Import CacheInvariants.

(** X1.  The tradability check is memoised without regard to letter case:
    once [validateWithAlpaca] has returned for a symbol, a call for the
    same symbol in any letter case returns the same verdict, asks the
    broker nothing and leaves the cache as it is, whatever the broker would
    answer by then; [getCachedValidation] reads the same verdict.  A broker
    call that throws is remembered as "not tradable". *)
Theorem X1_validateWithAlpaca_memo (getAsset getAsset' : string -> TickerCache.AssetAnswer)
    (symbol symbol' : string) (w : TickerCache.World) :
  Str.toUpperCase symbol' = Str.toUpperCase symbol ->
  let r := fst (TickerCache.validateWithAlpaca getAsset symbol w) in
  let w1 := snd (TickerCache.validateWithAlpaca getAsset symbol w) in
  TickerCache.validateWithAlpaca getAsset' symbol' w1 = (r, w1) /\
  TickerCache.getCachedValidation (TickerCache.cache w1) symbol' = Some r /\
  (TickerCache.getCachedValidation (TickerCache.cache w) symbol = None ->
   getAsset (Str.toUpperCase symbol) = TickerCache.AssetThrows ->
   r = false /\
   TickerCache.assetCalls w1 = TickerCache.assetCalls w ++ [Str.toUpperCase symbol]).
Proof.
  intros Hup r w1.
  pose proof (validateWithAlpaca_stores getAsset symbol w) as Hst.
  fold r w1 in Hst. rewrite <- Hup in Hst.
  split; [apply validateWithAlpaca_hit; exact Hst|].
  split; [exact Hst|].
  intros Hnone Hthrows. subst r w1.
  unfold TickerCache.getCachedValidation in Hnone.
  unfold TickerCache.validateWithAlpaca. cbv zeta. rewrite Hnone, Hthrows. cbn. auto.
Qed.

(** A failed broker call for "tsla" is remembered for "TSLA". *)
Lemma X1_validateWithAlpaca_memo_witness :
  let r := fst (TickerCache.validateWithAlpaca (fun _ => TickerCache.AssetThrows) "tsla" world_new) in
  let w1 := snd (TickerCache.validateWithAlpaca (fun _ => TickerCache.AssetThrows) "tsla" world_new) in
  TickerCache.validateWithAlpaca tradable "TSLA" w1 = (r, w1) /\
  TickerCache.getCachedValidation (TickerCache.cache w1) "TSLA" = Some r /\
  (TickerCache.getCachedValidation (TickerCache.cache world_new) "tsla" = None ->
   (fun _ : string => TickerCache.AssetThrows) (Str.toUpperCase "tsla") = TickerCache.AssetThrows ->
   r = false /\
   TickerCache.assetCalls w1 = TickerCache.assetCalls world_new ++ [Str.toUpperCase "tsla"]).
Proof.
  apply (X1_validateWithAlpaca_memo (fun _ => TickerCache.AssetThrows) tradable "tsla" "TSLA"
           world_new).
  reflexivity.
Defined.

(** X2.  Neither gatherer asks the broker twice about a symbol: if so far
    no symbol was sent twice and every symbol sent has its verdict cached
    (as in a new world), the same holds after the promotion loop of the
    Reddit gatherer and after that of the SEC gatherer, whatever the broker
    and the directory answer. *)
Theorem X2_gatherers_ask_once (calculateTimeDecay : Q -> num) (now : Z) (sec_8k sec_4 : Q)
    (getAsset : string -> TickerCache.AssetAnswer) (dir : nat -> TickerCache.DirAnswer)
    (tickerData : list (string * Gatherers.RedditAggregate))
    (entries : list Gatherers.SecEntry) (w : TickerCache.World) :
  asked_once w ->
  asked_once (snd (Gatherers.gatherRedditPromote calculateTimeDecay getAsset tickerData w)) /\
  asked_once (snd (Gatherers.gatherSECPromote now sec_8k sec_4 getAsset dir entries w)) /\
  asked_once
    (snd (Gatherers.gatherSECPromote now sec_8k sec_4 getAsset dir entries
            (snd (Gatherers.gatherRedditPromote calculateTimeDecay getAsset tickerData w)))).
Proof.
  intros H.
  assert (Hr : asked_once
            (snd (Gatherers.gatherRedditPromote calculateTimeDecay getAsset tickerData w)))
    by (apply fold_redditStep_asked_once; exact H).
  split; [exact Hr|].
  split; apply fold_secStep_asked_once; assumption.
Qed.

Lemma X2_gatherers_ask_once_witness :
  asked_once (snd (Gatherers.gatherRedditPromote (fun _ => fin 1) tradable
                     [("AAPL"%string, aggregate)] world_new)) /\
  asked_once (snd (Gatherers.gatherSECPromote 2000000 (9 # 10) (8 # 10) tradable directory
                     [filing; filing] world_new)) /\
  asked_once
    (snd (Gatherers.gatherSECPromote 2000000 (9 # 10) (8 # 10) tradable directory
            [filing; filing]
            (snd (Gatherers.gatherRedditPromote (fun _ => fin 1) tradable
                    [("AAPL"%string, aggregate)] world_new)))).
Proof.
  apply (X2_gatherers_ask_once (fun _ => fin 1) 2000000 (9 # 10) (8 # 10) tradable directory
           [("AAPL"%string, aggregate)] [filing; filing] world_new).
  split; [constructor|]. intros s [].
Defined.

(** X3.  The SEC gatherer emits at most 15 signals, one per filing at
    most, and when it returns the cache holds "tradable" for the symbol of
    every signal it emitted. *)
Theorem X3_sec_signals_validated (now : Z) (sec_8k sec_4 : Q)
    (getAsset : string -> TickerCache.AssetAnswer) (dir : nat -> TickerCache.DirAnswer)
    (entries : list Gatherers.SecEntry) (w : TickerCache.World) :
  let out := Gatherers.gatherSECPromote now sec_8k sec_4 getAsset dir entries w in
  Forall (validated (snd out)) (fst out) /\
  (length (fst out) <= 15)%nat /\
  (length (fst out) <= length entries)%nat.
Proof.
  intros out. subst out. unfold Gatherers.gatherSECPromote.
  destruct (fold_secStep_validated now sec_8k sec_4 getAsset dir (firstn 15 entries) [] w)
    as [Hv Hlen]; [constructor|].
  split; [exact Hv|]. cbn [length] in Hlen. rewrite length_firstn in Hlen. lia.
Qed.

Module PromotionFacts.

Import TickerCache Gatherers.

Section Reddit.

Variable calculateTimeDecay : Q -> num.
Variable getAsset : string -> AssetAnswer.

Local Abbreviation redditStep := (redditStep calculateTimeDecay getAsset).
Local Abbreviation promoted := (promoted calculateTimeDecay).

Lemma promoted_keeps tickerData w w' sig :
  secTickers (cache w') = secTickers (cache w) ->
  (forall k v, alpacaCache (cache w) !! k = Some v -> alpacaCache (cache w') !! k = Some v) ->
  promoted tickerData w sig -> promoted tickerData w' sig.
Proof.
  intros Hsec Hkeep [Hd Hv]. split; [exact Hd|].
  destruct Hv as [Hk|Hv]; [left|right].
  - unfold isKnownSecTicker in *. rewrite Hsec. exact Hk.
  - apply Hkeep. exact Hv.
Qed.

Lemma redditStep_promoted tickerData signals w e :
  In e tickerData ->
  Forall (promoted tickerData w) signals ->
  Forall (promoted tickerData (snd (redditStep (signals, w) e)))
         (fst (redditStep (signals, w) e)) /\
  (length (fst (redditStep (signals, w) e)) <= S (length signals))%nat.
Proof.
  intros Hin H. destruct e as [symbol data]. unfold Gatherers.redditStep.
  destruct (mentions data >=? 2) eqn:Em; cbn [fst snd]; [|split; [exact H|lia]].
  assert (Hdata : exists d, In (symbol, d) tickerData /\
                    redditSignal calculateTimeDecay symbol data = redditSignal calculateTimeDecay symbol d /\ 2 <= mentions d).
  { exists data. split; [exact Hin|]. split; [reflexivity|lia]. }
  assert (Hpush : forall w', Forall (promoted tickerData w') signals ->
            (isKnownSecTicker (cache w') symbol = true \/
             alpacaCache (cache w') !! Str.toUpperCase symbol = Some true) ->
            Forall (promoted tickerData w') (signals ++ [redditSignal calculateTimeDecay symbol data]) /\
            (length (signals ++ [redditSignal calculateTimeDecay symbol data]) <= S (length signals))%nat).
  { intros w' H' Hok. split; [|rewrite length_app; cbn; lia].
    apply Forall_app. split; [exact H'|]. constructor; [|constructor].
    split; [exact Hdata|exact Hok]. }
  destruct (isKnownSecTicker (cache w) symbol) eqn:Eknown; cbn [negb fst snd].
  { apply Hpush; auto. }
  unfold getCachedValidation.
  destruct (alpacaCache (cache w) !! Str.toUpperCase symbol) as [[|]|] eqn:E; cbn [fst snd].
  - apply Hpush; auto.
  - split; [exact H|lia].
  - pose proof (validateWithAlpaca_stores getAsset symbol w) as Hst.
    pose proof (validateWithAlpaca_calls getAsset symbol w) as Hcalls.
    assert (H1 : Forall (promoted tickerData (snd (validateWithAlpaca getAsset symbol w)))
                   signals).
    { eapply Forall_impl; [exact H|]. intros sig. apply promoted_keeps.
      - destruct (validateWithAlpaca getAsset symbol w). apply Hcalls.
      - intros k v. apply validateWithAlpaca_keeps. }
    destruct (validateWithAlpaca getAsset symbol w) as [isValid w1].
    cbn [fst snd] in *. destruct isValid; cbn [negb fst snd].
    + apply Hpush; auto.
    + split; [|lia]. eapply Forall_impl; [exact H1|]. intros sig [Hd Hv]. split; auto.
Qed.

Lemma fold_redditStep_promoted tickerData todo : forall signals w,
  (forall e, In e todo -> In e tickerData) ->
  Forall (promoted tickerData w) signals ->
  Forall (promoted tickerData (snd (fold_left redditStep todo (signals, w))))
         (fst (fold_left redditStep todo (signals, w))) /\
  (length (fst (fold_left redditStep todo (signals, w)))
   <= length signals + length todo)%nat.
Proof.
  induction todo as [|e todo IH]; intros signals w Hsub H; cbn [fold_left].
  - cbn. split; [exact H|lia].
  - destruct (redditStep_promoted tickerData signals w e) as [H1 Hlen];
      [apply Hsub; left; reflexivity|exact H|].
    destruct (redditStep (signals, w) e) as [signals1 w1]. cbn [fst snd] in *.
    destruct (IH signals1 w1) as [H2 Hlen2];
      [intros e' He'; apply Hsub; right; exact He'|exact H1|].
    split; [exact H2|]. cbn [length]. lia.
Qed.

End Reddit.

(** The company-name cache answers for every spelling with the same
    normal form. *)
Lemma resolve_hit dir companyName w cached :
  companyToTickerCache w !! Str.trim (Str.toUpperCase companyName) = Some cached ->
  resolveTickerFromCompanyName dir companyName w = (cached, w).
Proof. intros H. unfold resolveTickerFromCompanyName. cbv zeta. rewrite H. reflexivity. Qed.

Lemma resolve_miss dir companyName w :
  companyToTickerCache w !! Str.trim (Str.toUpperCase companyName) = None ->
  match dir (dirFetches w) with
  | DirOk entries =>
    exists t, resolveTickerFromCompanyName dir companyName w
              = (t, set_company (Str.trim (Str.toUpperCase companyName)) t (fetch_dir w))
  | _ => resolveTickerFromCompanyName dir companyName w = (None, fetch_dir w)
  end.
Proof.
  intros H. unfold resolveTickerFromCompanyName. cbv zeta. rewrite H.
  destruct (dir (dirFetches w)) as [| | |entries]; try reflexivity.
  destruct (find _ entries) as [e|]; [eexists; reflexivity|].
  destruct (find _ entries) as [e|]; eexists; reflexivity.
Qed.

Section Freshness.

Variable now : Z.

Lemma ageHours_fin (u : Q) :
  ((finZ now - Fin u) / finZ (1000 * 60 * 60))%num = Fin ((inject_Z now - u) / 3600000).
Proof.
  unfold finZ. cbn [Num.sub Num.add Num.neg]. rewrite div_fin by discriminate.
  reflexivity.
Qed.

Lemma freshness_cases (u : Q) :
  let age := ((inject_Z now - u) / 3600000)%Q in
  (age < 1 /\ calculateSECFreshness now (Fin u) = fin 1)%Q \/
  (1 <= age < 4 /\ calculateSECFreshness now (Fin u) = fin (9 # 10))%Q \/
  (4 <= age < 12 /\ calculateSECFreshness now (Fin u) = fin (7 # 10))%Q \/
  (12 <= age < 24 /\ calculateSECFreshness now (Fin u) = fin (5 # 10))%Q \/
  (24 <= age /\ calculateSECFreshness now (Fin u) = fin (3 # 10))%Q.
Proof.
  intros age. unfold calculateSECFreshness. cbv zeta. rewrite ageHours_fin. fold age.
  unfold finZ, inject_Z.
  destruct (Fin age <? Fin (1 # 1))%num eqn:E1.
  { num_cmp. left. split; [lra|reflexivity]. }
  destruct (Fin age <? Fin (4 # 1))%num eqn:E4.
  { num_cmp. right; left. split; [lra|reflexivity]. }
  destruct (Fin age <? Fin (12 # 1))%num eqn:E12.
  { num_cmp. right; right; left. split; [lra|reflexivity]. }
  destruct (Fin age <? Fin (24 # 1))%num eqn:E24.
  { num_cmp. right; right; right; left. split; [lra|reflexivity]. }
  num_cmp. right; right; right; right. split; [lra|reflexivity].
Qed.

End Freshness.

End PromotionFacts.

Import PromotionFacts.

(** X4.  Every signal the Reddit gatherer promotes is built from an
    aggregate of at least two mentions, and when the gatherer returns its
    symbol is in the loaded SEC set or has "tradable" in the cache; there
    is at most one signal per aggregate, and every symbol sent to the
    broker on the way was outside the SEC set. *)
Theorem X4_reddit_promotion (calculateTimeDecay : Q -> num)
    (getAsset : string -> TickerCache.AssetAnswer)
    (tickerData : list (string * Gatherers.RedditAggregate)) (w : TickerCache.World) :
  let out := Gatherers.gatherRedditPromote calculateTimeDecay getAsset tickerData w in
  (forall sig, In sig (fst out) ->
     (exists data,
        In (Gatherers.sig_symbol sig, data) tickerData /\
        sig = Gatherers.redditSignal calculateTimeDecay (Gatherers.sig_symbol sig) data /\
        2 <= Gatherers.mentions data) /\
     (TickerCache.isKnownSecTicker (TickerCache.cache (snd out)) (Gatherers.sig_symbol sig) = true \/
      validated (snd out) sig)) /\
  (length (fst out) <= length tickerData)%nat /\
  (exists extra,
     TickerCache.assetCalls (snd out) = TickerCache.assetCalls w ++ extra /\
     Forall (fun s => TickerCache.isKnownSecTicker (TickerCache.cache w) s = false) extra).
Proof.
  intros out. subst out. unfold Gatherers.gatherRedditPromote.
  destruct (fold_redditStep_promoted calculateTimeDecay getAsset tickerData tickerData [] w)
    as [Hp Hlen]; [auto|constructor|].
  split; [|split; [cbn [length] in Hlen; lia|]].
  - intros sig Hin. rewrite Forall_forall in Hp. apply Hp.
    apply list_elem_of_In. exact Hin.
  - apply (reddit_skips_known_tickers calculateTimeDecay getAsset tickerData w).
Qed.

(** X5.  Company-name resolution is memoised under the upper-cased,
    trimmed name: after a lookup that was answered from the cache or by
    the directory, a lookup of any spelling with the same normal form
    returns the same ticker (or the same "none") without a request,
    whatever the directory would answer.  A lookup sends at most one
    request, and a request that fails yields no ticker and caches
    nothing, so that the next lookup asks again. *)
Theorem X5_resolve_memo (dir dir' : nat -> TickerCache.DirAnswer)
    (companyName companyName' : string) (w : TickerCache.World) :
  Str.trim (Str.toUpperCase companyName') = Str.trim (Str.toUpperCase companyName) ->
  let key := Str.trim (Str.toUpperCase companyName) in
  let r := fst (Gatherers.resolveTickerFromCompanyName dir companyName w) in
  let w1 := snd (Gatherers.resolveTickerFromCompanyName dir companyName w) in
  ((is_Some (TickerCache.companyToTickerCache w !! key) \/
    exists entries, dir (TickerCache.dirFetches w) = TickerCache.DirOk entries) ->
   Gatherers.resolveTickerFromCompanyName dir' companyName' w1 = (r, w1)) /\
  (TickerCache.companyToTickerCache w !! key = None ->
   (forall entries, dir (TickerCache.dirFetches w) <> TickerCache.DirOk entries) ->
   r = None /\
   TickerCache.companyToTickerCache w1 = TickerCache.companyToTickerCache w /\
   TickerCache.dirFetches w1 = S (TickerCache.dirFetches w)) /\
  (TickerCache.dirFetches w1 <= S (TickerCache.dirFetches w))%nat.
Proof.
  intros Hkey key r w1.
  destruct (TickerCache.companyToTickerCache w !! key) as [cached|] eqn:E.
  - pose proof (resolve_hit dir companyName w cached E) as Hhit.
    subst r w1. rewrite Hhit. cbn [fst snd].
    split; [|split; [discriminate|lia]].
    intros _. apply resolve_hit. rewrite Hkey. exact E.
  - pose proof (resolve_miss dir companyName w E) as Hmiss. fold key in Hmiss.
    destruct (dir (TickerCache.dirFetches w)) as [| | |entries] eqn:Ed.
    4: { destruct Hmiss as [t Hmiss]. subst r w1. rewrite Hmiss. cbn [fst snd].
         split; [|split; [|cbn; lia]].
         - intros _. apply resolve_hit. rewrite Hkey. fold key. cbn. apply lookup_insert_eq.
         - intros _ Hno. exfalso. exact (Hno entries eq_refl). }
    all: subst r w1; rewrite Hmiss; cbn [fst snd];
      (split; [intros [[x Hx]|[entries Hent]]; discriminate|]);
      (split; [auto|cbn; lia]).
Qed.

(** " apple inc. " after "Apple Inc.". *)
Lemma X5_resolve_memo_witness :
  let key := Str.trim (Str.toUpperCase "Apple Inc.") in
  let r := fst (Gatherers.resolveTickerFromCompanyName directory "Apple Inc." world_new) in
  let w1 := snd (Gatherers.resolveTickerFromCompanyName directory "Apple Inc." world_new) in
  ((is_Some (TickerCache.companyToTickerCache world_new !! key) \/
    exists entries, directory (TickerCache.dirFetches world_new) = TickerCache.DirOk entries) ->
   Gatherers.resolveTickerFromCompanyName (fun _ => TickerCache.DirThrows) " apple inc. " w1
   = (r, w1)) /\
  (TickerCache.companyToTickerCache world_new !! key = None ->
   (forall entries, directory (TickerCache.dirFetches world_new) <> TickerCache.DirOk entries) ->
   r = None /\
   TickerCache.companyToTickerCache w1 = TickerCache.companyToTickerCache world_new /\
   TickerCache.dirFetches w1 = S (TickerCache.dirFetches world_new)) /\
  (TickerCache.dirFetches w1 <= S (TickerCache.dirFetches world_new))%nat.
Proof.
  apply (X5_resolve_memo directory (fun _ => TickerCache.DirThrows) "Apple Inc." " apple inc. "
           world_new).
  reflexivity.
Defined.

(** X6.  The freshness of a filing is one of 1, 0.9, 0.7, 0.5 and 0.3; a
    filing updated later is never less fresh than one updated earlier; a
    filing less than an hour old, or dated after the clock, has freshness
    1, and one whose date does not parse (its time is [NaN]) has the
    lowest freshness, 0.3. *)
Theorem X6_calculateSECFreshness (now : Z) (u1 u2 : Q) :
  (u1 <= u2)%Q ->
  let f := Gatherers.calculateSECFreshness now in
  (f (Fin u1) <=? f (Fin u2))%num = true /\
  In (f (Fin u1)) [fin 1; fin (9 # 10); fin (7 # 10); fin (5 # 10); fin (3 # 10)] /\
  ((inject_Z now - 3600000 < u1)%Q -> f (Fin u1) = fin 1) /\
  f NaN = fin (3 # 10).
Proof.
  intros Hle f. subst f.
  pose proof (freshness_cases now u1) as H1.
  pose proof (freshness_cases now u2) as H2.
  cbv zeta in H1, H2.
  assert (Hage : ((inject_Z now - u2) / 3600000 <= (inject_Z now - u1) / 3600000)%Q).
  { apply Qmult_le_compat_r; [lra|]. discriminate. }
  set (a1 := ((inject_Z now - u1) / 3600000)%Q) in *.
  set (a2 := ((inject_Z now - u2) / 3600000)%Q) in *.
  split; [|split; [|split]].
  - destruct H1 as [[A1 ->]|[[A1 ->]|[[A1 ->]|[[A1 ->]|[A1 ->]]]]];
    destruct H2 as [[A2 ->]|[[A2 ->]|[[A2 ->]|[[A2 ->]|[A2 ->]]]]];
      try reflexivity; exfalso; lra.
  - destruct H1 as [[A1 ->]|[[A1 ->]|[[A1 ->]|[[A1 ->]|[A1 ->]]]]]; cbn; auto 6.
  - intros Hnew.
    assert (Ha : (a1 < 1)%Q).
    { subst a1. apply Qlt_shift_div_r; [reflexivity|]. lra. }
    destruct H1 as [[A1 ->]|[[A1 ->]|[[A1 ->]|[[A1 ->]|[A1 ->]]]]];
      try reflexivity; exfalso; lra.
  - reflexivity.
Qed.

Lemma X6_calculateSECFreshness_witness :
  let f := Gatherers.calculateSECFreshness 90000000 in
  (f (Fin 0) <=? f (Fin 86400000))%num = true /\
  In (f (Fin 0)) [fin 1; fin (9 # 10); fin (7 # 10); fin (5 # 10); fin (3 # 10)] /\
  ((inject_Z 90000000 - 3600000 < 0)%Q -> f (Fin 0) = fin 1) /\
  f NaN = fin (3 # 10).
Proof.
  apply (X6_calculateSECFreshness 90000000 0 86400000). discriminate.
Defined.

(** X7.  Refreshing the SEC set changes nothing when the request fails,
    and nothing either while a loaded set is less than 24 hours old,
    whatever the directory answers.  When a refresh is due and the
    directory answers, the set is replaced: afterwards a symbol is known
    exactly when its upper-cased form is the upper-cased ticker of a
    directory entry, the refresh time is the clock, and the cached
    tradability verdicts are untouched. *)
Theorem X7_refreshSecTickers (now : Z) (a : TickerCache.DirAnswer)
    (c : TickerCache.ValidTickerCache) :
  let c' := TickerCache.refreshSecTickersIfNeeded now a c in
  ((forall entries, a <> TickerCache.DirOk entries) -> c' = c) /\
  (is_Some (TickerCache.secTickers c) ->
   now - TickerCache.lastSecRefresh c < 24 * 60 * 60 * 1000 -> c' = c) /\
  (forall entries, a = TickerCache.DirOk entries ->
     (TickerCache.secTickers c = None \/
      24 * 60 * 60 * 1000 <= now - TickerCache.lastSecRefresh c) ->
     (forall symbol,
        TickerCache.isKnownSecTicker c' symbol = true <->
        exists e, In e entries /\ Str.toUpperCase (fst e) = Str.toUpperCase symbol) /\
     TickerCache.lastSecRefresh c' = now /\
     TickerCache.alpacaCache c' = TickerCache.alpacaCache c).
Proof.
  intros c'. subst c'. unfold TickerCache.refreshSecTickersIfNeeded.
  change TickerCache.SEC_REFRESH_INTERVAL_MS with (24 * 60 * 60 * 1000).
  split; [|split].
  - intros Hno. destruct (TickerCache.secTickers c);
      [destruct (_ <? _)|]; destruct a; try reflexivity; exfalso; eapply Hno; reflexivity.
  - intros [s Hs] Hfresh. rewrite Hs.
    destruct (_ <? _) eqn:E; [reflexivity|]. apply Z.ltb_ge in E. lia.
  - intros entries -> Hdue.
    assert (Hset : forall symbol,
      TickerCache.isKnownSecTicker
        {| TickerCache.secTickers :=
             Some (list_to_set (map (fun e => Str.toUpperCase (fst e)) entries));
           TickerCache.lastSecRefresh := now;
           TickerCache.alpacaCache := TickerCache.alpacaCache c |} symbol = true <->
      exists e, In e entries /\ Str.toUpperCase (fst e) = Str.toUpperCase symbol).
    { intros symbol. unfold TickerCache.isKnownSecTicker. cbn.
      rewrite bool_decide_eq_true, elem_of_list_to_set, list_elem_of_In, in_map_iff.
      split; intros (e & H1 & H2); exists e; auto. }
    destruct (TickerCache.secTickers c) as [s|]; [|cbn; auto].
    destruct (_ <? _) eqn:E; [|cbn; auto].
    apply Z.ltb_lt in E. destruct Hdue as [Hd|Hd]; [discriminate|lia].
Qed.

(** ** The worker's authorization and routing (src/index.ts) *)

Module WorkerFacts.

Import Worker.

Lemma get_length_None s : forall i, (String.length s <= i)%nat -> String.get i s = None.
Proof.
  induction s as [|c s IH]; intros i Hi; [destruct i; reflexivity|].
  destruct i as [|i]; cbn in *; [lia|]. apply IH. lia.
Qed.

Lemma get_length_Some s : forall i, (i < String.length s)%nat -> exists c, String.get i s = Some c.
Proof.
  induction s as [|c s IH]; intros i Hi; cbn in Hi; [lia|].
  destruct i as [|i]; cbn; [eauto|]. apply IH. lia.
Qed.

Lemma code_inj c d : Str.code c = Str.code d -> c = d.
Proof.
  unfold Str.code. intros H.
  rewrite <- (ascii_N_embedding c), <- (ascii_N_embedding d), H. reflexivity.
Qed.

(** The accumulator ends at 0 exactly when it started at 0 and the two
    strings agree at every index the loop visits. *)
Lemma compareLoop_zero a b : forall k mismatch,
  (k <= String.length a)%nat ->
  compareLoop a b k mismatch = 0 <->
  mismatch = 0 /\
  forall i, (String.length a - k <= i < String.length a)%nat ->
            charCodeAt a i = charCodeAt b i.
Proof.
  induction k as [|k IH]; intros mismatch Hk; cbn [compareLoop].
  - split; [intros ->; split; [reflexivity|intros i Hi; lia]|intros [-> _]; reflexivity].
  - cbv zeta. rewrite IH by lia.
    rewrite Z.lor_eq_0_iff. split.
    + intros [[-> Hx] Hrest]. split; [reflexivity|]. intros i Hi.
      destruct (Nat.eq_dec i (String.length a - S k)%nat) as [->|Hne].
      * apply Z.lxor_eq. exact Hx.
      * apply Hrest. lia.
    + intros [-> Hall]. split; [split; [reflexivity|]|].
      * rewrite (Hall (String.length a - S k)%nat) by lia. apply Z.lxor_nilpotent.
      * intros i Hi. apply Hall. lia.
Qed.

Lemma append_cons a p s : (String a p ++ s)%string = String a (p ++ s).
Proof. reflexivity. Qed.

Lemma startsWith_split p : forall s,
  Str.startsWith p s = true -> s = (p ++ sliceFrom (String.length p) s)%string.
Proof.
  induction p as [|a p IH]; intros s H; cbn in *; [destruct s; reflexivity|].
  destruct s as [|b s]; [discriminate|].
  apply andb_true_iff in H as [Hab Hp]. apply Ascii.eqb_eq in Hab. subst b.
  rewrite append_cons. cbn [String.length sliceFrom]. f_equal. apply IH. exact Hp.
Qed.

Lemma startsWith_app p s : Str.startsWith p (p ++ s)%string = true.
Proof.
  induction p as [|a p IH]; [reflexivity|].
  rewrite append_cons. cbn [Str.startsWith]. rewrite Ascii.eqb_refl, IH. reflexivity.
Qed.

Lemma sliceFrom_app p s : sliceFrom (String.length p) (p ++ s)%string = s.
Proof.
  induction p as [|a p IH]; [destruct s; reflexivity|].
  rewrite append_cons. cbn [String.length sliceFrom]. exact IH.
Qed.

Lemma constantTimeCompare_eq a b : constantTimeCompare a b = true <-> a = b.
Proof.
  unfold constantTimeCompare.
  destruct (Nat.eqb (String.length a) (String.length b)) eqn:Elen; cbn [negb].
  - apply Nat.eqb_eq in Elen. cbv zeta. rewrite Z.eqb_eq, compareLoop_zero by lia.
    split.
    + intros [_ Hall]. apply String.get_correct. intros i.
      destruct (Nat.lt_ge_cases i (String.length a)) as [Hlt|Hge].
      * specialize (Hall i ltac:(lia)). unfold charCodeAt in Hall.
        destruct (get_length_Some a i Hlt) as [c Hc].
        destruct (get_length_Some b i ltac:(lia)) as [d Hd].
        rewrite Hc, Hd in *. f_equal. apply code_inj. lia.
      * rewrite !get_length_None by lia. reflexivity.
    + intros ->. split; [reflexivity|]. intros i _. reflexivity.
  - split; [discriminate|]. intros ->. rewrite Nat.eqb_refl in Elen. discriminate.
Qed.

Lemma isAuthorized_iff request env :
  isAuthorized request env = true <->
  exists token,
    MAHORAGA_API_TOKEN env = Some token /\ token <> ""%string /\
    Authorization request = Some ("Bearer " ++ token)%string.
Proof.
  unfold isAuthorized. split.
  - destruct (MAHORAGA_API_TOKEN env) as [token|]; [|discriminate].
    destruct (String.eqb token "") eqn:Eempty; [discriminate|].
    apply String.eqb_neq in Eempty.
    destruct (Authorization request) as [authHeader|]; [|discriminate].
    destruct (Str.startsWith "Bearer " authHeader) eqn:Eb; cbn [negb]; [|discriminate].
    intros Hcmp. apply constantTimeCompare_eq in Hcmp.
    exists token. repeat split; auto.
    rewrite (startsWith_split _ _ Eb) at 1. cbn [String.length]. rewrite Hcmp. reflexivity.
  - intros (token & -> & Hne & ->).
    apply String.eqb_neq in Hne. rewrite Hne.
    rewrite startsWith_app. cbn [negb].
    change 7%nat with (String.length "Bearer "). rewrite sliceFrom_app.
    apply constantTimeCompare_eq. reflexivity.
Qed.

End WorkerFacts.

Import WorkerFacts.

(** X8.  The character-wise comparison of the worker accepts two strings
    exactly when they are equal; and a request is authorized exactly when
    a non-empty API token is configured and the [Authorization] header is
    "Bearer " followed by that token, character for character.  Without a
    configured token, and without the header, nothing is authorized. *)
Theorem X8_isAuthorized (request : Worker.Request) (env : Worker.Env) (a b : string) :
  (Worker.constantTimeCompare a b = true <-> a = b) /\
  (Worker.isAuthorized request env = true <->
   exists token,
     Worker.MAHORAGA_API_TOKEN env = Some token /\ token <> ""%string /\
     Worker.Authorization request = Some ("Bearer " ++ token)%string) /\
  (Worker.MAHORAGA_API_TOKEN env = None -> Worker.isAuthorized request env = false) /\
  (Worker.Authorization request = None -> Worker.isAuthorized request env = false).
Proof.
  split; [apply constantTimeCompare_eq|].
  split; [apply isAuthorized_iff|].
  split; intros H.
  - unfold Worker.isAuthorized. rewrite H. reflexivity.
  - unfold Worker.isAuthorized. rewrite H.
    destruct (Worker.MAHORAGA_API_TOKEN env) as [t|]; [|reflexivity].
    destruct (String.eqb t ""); reflexivity.
Qed.

(** X9.  The handler passes a request on to the MCP agent or to the
    harness only if it is authorized, and asks the rate limiter only for
    authorized requests under "/agent": a request under "/mcp" or
    "/agent" that is not authorized gets 401 and causes no call at all.
    "/health" and "/" are answered without authorization.  An authorized
    request under "/agent" is checked under the key "agent-" followed by
    the first 8 characters of the API token; if the limiter refuses it
    the answer is 429 and the request is not counted, otherwise it is
    counted once and the request for the harness is built from the path
    without its "/agent" prefix, or from "/status" when nothing is
    left. *)
Theorem X9_fetch_routes (checkRateLimit : string -> Worker.RateCheck)
    (request : Worker.Request) (env : Worker.Env) (w : Worker.World) :
  let out := Worker.fetch checkRateLimit request env w in
  ((fst out = Worker.FromMcp \/ exists p s, fst out = Worker.FromHarness p s) ->
   Worker.isAuthorized request env = true) /\
  (Worker.isAuthorized request env = false ->
   snd out = w /\
   ((Str.startsWith "/mcp" (Worker.pathname request) = true \/
     Str.startsWith "/agent" (Worker.pathname request) = true) ->
    fst out = Worker.Unauthorized)) /\
  (Worker.pathname request = "/health"%string -> out = (Worker.Health, w)) /\
  (Worker.pathname request = "/"%string -> out = (Worker.Info, w)) /\
  (forall token rest,
     Worker.MAHORAGA_API_TOKEN env = Some token -> token <> ""%string ->
     Worker.Authorization request = Some ("Bearer " ++ token)%string ->
     Worker.pathname request = ("/agent" ++ rest)%string ->
     let key := ("agent-" ++ Str.slice0 8 token)%string in
     if Worker.allowed (checkRateLimit key)
     then out = (Worker.FromHarness (if String.eqb rest "" then "/status" else rest)
                   (Worker.search request),
                 {| Worker.checked := Worker.checked w ++ [key];
                    Worker.incremented := Worker.incremented w ++ [key] |})
     else out = (Worker.RateLimited (Worker.resetAt (checkRateLimit key)),
                 {| Worker.checked := Worker.checked w ++ [key];
                    Worker.incremented := Worker.incremented w |})).
Proof.
  intros out. subst out. unfold Worker.fetch.
  split; [|split; [|split; [|split]]].
  - destruct (String.eqb (Worker.pathname request) "/health");
      [cbn; intros [H|(p & s & H)]; discriminate|].
    destruct (String.eqb (Worker.pathname request) "/");
      [cbn; intros [H|(p & s & H)]; discriminate|].
    destruct (Worker.isAuthorized request env); [reflexivity|]. cbn [negb].
    destruct (Str.startsWith "/mcp" _); [cbn; intros [H|(p & s & H)]; discriminate|].
    destruct (Str.startsWith "/agent" _); cbn; intros [H|(p & s & H)]; discriminate.
  - intros Hno. rewrite Hno. cbn [negb].
    destruct (String.eqb (Worker.pathname request) "/health") eqn:E1.
    { apply String.eqb_eq in E1. rewrite E1. cbn. split; [reflexivity|].
      intros [H|H]; discriminate. }
    destruct (String.eqb (Worker.pathname request) "/") eqn:E2.
    { apply String.eqb_eq in E2. rewrite E2. cbn. split; [reflexivity|].
      intros [H|H]; discriminate. }
    destruct (Str.startsWith "/mcp" _); [cbn; auto|].
    destruct (Str.startsWith "/agent" _); cbn; [auto|].
    split; [reflexivity|]. intros [H|H]; discriminate.
  - intros ->. reflexivity.
  - intros ->. reflexivity.
  - intros token rest Htoken Hne Hauth Hpath.
    set (key := ("agent-" ++ Str.slice0 8 token)%string).
    assert (Hok : Worker.isAuthorized request env = true).
    { apply isAuthorized_iff. exists token. auto. }
    rewrite Hok, Hpath, Hauth. cbn [negb].
    change (String.eqb ("/agent" ++ rest) "/health") with false.
    change (String.eqb ("/agent" ++ rest) "/") with false.
    change (Str.startsWith "/mcp" ("/agent" ++ rest)) with false.
    rewrite startsWith_app. cbv iota.
    change (Worker.replaceFirst "/agent" "" ("/agent" ++ rest)) with rest.
    assert (Hhash : Worker.or_str
                      (default ""%string (Worker.slice 7 15 <$> Some ("Bearer " ++ token)%string))
                      "anon" = Str.slice0 8 token).
    { cbn. destruct token as [|c t]; [contradiction|]. reflexivity. }
    rewrite Hhash. fold key.
    destruct (Worker.allowed (checkRateLimit key)); cbn [negb]; [|reflexivity].
    cbn [Worker.checked Worker.incremented].
    destruct rest; reflexivity.
Qed.

(** An authorized request for "/agent/status" that the limiter admits. *)
Example fetch_runs :
  Worker.fetch (fun _ => {| Worker.allowed := true; Worker.resetAt := 0 |})
    {| Worker.pathname := "/agent/status"; Worker.search := "?x=1";
       Worker.Authorization := Some "Bearer s3cr3t-t0ken" |}
    {| Worker.MAHORAGA_API_TOKEN := Some "s3cr3t-t0ken"; Worker.ENVIRONMENT := None |}
    {| Worker.checked := []; Worker.incremented := [] |}
  = (Worker.FromHarness "/status" "?x=1",
     {| Worker.checked := ["agent-s3cr3t-t"%string];
        Worker.incremented := ["agent-s3cr3t-t"%string] |}).
Proof. reflexivity. Qed.

(** X10.  The dashboard proxy and the worker agree on paths: the proxy
    turns "/api<rest>" into a request for "<worker>/agent<rest>", with
    "/status" for an empty rest, and the worker, given the path
    "/agent<rest>" of such a request, routes it to the harness (never to
    "/health", "/" or the MCP agent) and builds the request for the
    harness from exactly "<rest>" and the query, or else answers 401 or
    429.  A failed request to the worker
    becomes a 502 of the proxy, and any answer of the worker is passed on
    with its status and the three CORS headers set. *)
Theorem X10_proxy_to_harness (checkRateLimit : string -> Worker.RateCheck)
    (fetch : string -> Dashboard.FetchAnswer)
    (denv : Dashboard.Env) (env : Worker.Env) (rest search : string)
    (auth : option string) (w : Worker.World) :
  let p := Dashboard.path ("/api" ++ rest) in
  let request :=
    {| Worker.pathname := ("/agent" ++ p)%string; Worker.search := search;
       Worker.Authorization := auth |} in
  p = (if String.eqb rest "" then "/status" else rest) /\
  Dashboard.targetUrl denv ("/api" ++ rest) search
  = (Dashboard.workerUrl denv ++ "/agent" ++ p ++ search)%string /\
  (fst (Worker.fetch checkRateLimit request env w) = Worker.FromHarness p search \/
   fst (Worker.fetch checkRateLimit request env w) = Worker.Unauthorized \/
   exists t, fst (Worker.fetch checkRateLimit request env w) = Worker.RateLimited t) /\
  (fetch (Dashboard.targetUrl denv ("/api" ++ rest) search) = Dashboard.FetchThrows ->
   Dashboard.r_status (Dashboard.onRequest fetch denv ("/api" ++ rest) search) = 502) /\
  (forall status statusText headers,
     fetch (Dashboard.targetUrl denv ("/api" ++ rest) search)
     = Dashboard.Answered status statusText headers ->
     let r := Dashboard.onRequest fetch denv ("/api" ++ rest) search in
     Dashboard.r_status r = status /\
     Dashboard.r_headers r !! "access-control-allow-origin"%string = Some "*"%string /\
     is_Some (Dashboard.r_headers r !! "access-control-allow-methods"%string) /\
     is_Some (Dashboard.r_headers r !! "access-control-allow-headers"%string)).
Proof.
  intros p request.
  assert (Hp : p = (if String.eqb rest "" then "/status" else rest)%string).
  { subst p. unfold Dashboard.path.
    change (Str.startsWith "/api" ("/api" ++ rest)) with true.
    change (Worker.sliceFrom 4 ("/api" ++ rest)) with rest.
    destruct rest; reflexivity. }
  split; [exact Hp|]. split; [reflexivity|]. split; [|split].
  - assert (Hnonempty : Worker.or_str p "/status" = p).
    { rewrite Hp. destruct rest; reflexivity. }
    unfold Worker.fetch. subst request. cbn [Worker.pathname Worker.search Worker.Authorization].
    change (String.eqb ("/agent" ++ p) "/health") with false.
    change (String.eqb ("/agent" ++ p) "/") with false.
    change (Str.startsWith "/mcp" ("/agent" ++ p)) with false.
    rewrite startsWith_app. cbv iota.
    destruct (Worker.isAuthorized _ env); cbn [negb fst]; [|auto].
    change (Worker.replaceFirst "/agent" "" ("/agent" ++ p)) with p.
    cbv zeta. destruct (Worker.allowed _); cbn [negb fst]; [|eauto].
    rewrite Hnonempty. auto.
  - intros Hthrows. unfold Dashboard.onRequest. rewrite Hthrows. reflexivity.
  - intros status statusText headers Hans r. subst r.
    unfold Dashboard.onRequest. rewrite Hans. cbn [Dashboard.r_status Dashboard.r_headers].
    unfold Dashboard.set.
    repeat match goal with
    | |- context [Str.toLowerCase ?s] =>
      let v := eval vm_compute in (Str.toLowerCase s) in change (Str.toLowerCase s) with v
    end.
    split; [reflexivity|]. split; [|split].
    + rewrite lookup_insert_ne by discriminate.
      rewrite lookup_insert_ne by discriminate.
      apply lookup_insert_eq.
    + rewrite lookup_insert_ne by discriminate.
      rewrite lookup_insert_eq. eauto.
    + rewrite lookup_insert_eq. eauto.
Qed.

(** ** The Twitter budget, cache and scores (gatherers/twitter.ts) *)

Module BudgetFacts.

Import Twitter TwitterNews.

(** The budget test sends nothing and leaves the counter as it was or
    restarts it at 0; when it passes, the counter is below the maximum. *)
Lemma canSpend_reads w :
  w_fetches (snd (canSpendTwitterRead w)) = w_fetches w /\
  w_now (snd (canSpendTwitterRead w)) = w_now w /\
  (reads (snd (canSpendTwitterRead w)) = reads w \/
   reads (snd (canSpendTwitterRead w)) = 0) /\
  (fst (canSpendTwitterRead w) = true ->
   reads (snd (canSpendTwitterRead w)) < MAX_DAILY_READS).
Proof.
  unfold canSpendTwitterRead, reads. cbv zeta.
  destruct (_ >? _); cbn [fst snd w_fetches w_now w_state set_state set_reset set_reads
                         twitterDailyReads from_option Datatypes.id];
    (repeat split; auto); intros H; apply Z.ltb_lt in H; exact H.
Qed.

(** Testing the budget twice in a row is testing it once. *)
Lemma canSpend_twice w :
  canSpendTwitterRead (snd (canSpendTwitterRead w)) = canSpendTwitterRead w.
Proof.
  unfold canSpendTwitterRead. cbv zeta.
  destruct (w_now w - default 0 (twitterDailyReadReset (w_state w)) >? ONE_DAY_MS) eqn:E;
    cbn [fst snd w_fetches w_now w_state set_state set_reset set_reads
         twitterDailyReads twitterDailyReadReset from_option Datatypes.id].
  - replace (w_now w - w_now w) with 0 by lia. reflexivity.
  - rewrite E. reflexivity.
Qed.





Section Ops.

Variable log10 : Q -> num.
Variable getTime : string -> num.




End Ops.


End BudgetFacts.

Import BudgetFacts.


Module ConfirmationCacheFacts.

Import Twitter.

Section Cache.

Variable log10 : Q -> num.

(** A computed result is stored under its symbol, stamped with the clock
    at which the lookup returns. *)
Lemma confirmFresh_stores ctx symbol existing a w tc w1 :
  confirmFresh log10 ctx symbol existing a w = (Some tc, w1) ->
  twitterConfirmation (w_state w1) !! symbol = Some tc /\
  tc_timestamp tc = w_now w1 /\
  tc_symbol tc = symbol /\
  isTwitterEnabled ctx = true.
Proof.
  unfold confirmFresh. cbv zeta.
  destruct (twitterSearchRecent ctx (confirmationQuery symbol) 10 a w) as [tweets w0] eqn:Es.
  destruct (length tweets =? 0)%nat eqn:El; [discriminate|].
  intros [= <- <-]. cbn. rewrite lookup_insert_eq. repeat split.
  unfold twitterSearchRecent in Es.
  destruct (isTwitterEnabled ctx); [reflexivity|].
  cbn in Es. injection Es as <- <-. discriminate.
Qed.

Lemma canSpend_true w :
  reads w < MAX_DAILY_READS -> fst (canSpendTwitterRead w) = true.
Proof.
  unfold canSpendTwitterRead, reads. cbv zeta. intros H.
  destruct (_ >? _); cbn [fst snd w_state set_state set_reset set_reads
                         twitterDailyReads from_option Datatypes.id].
  - reflexivity.
  - apply Z.ltb_lt. exact H.
Qed.

Lemma gather_cached ctx symbol existing a w tc :
  isTwitterEnabled ctx = true ->
  reads w < MAX_DAILY_READS ->
  (3 # 10 <= Qabs existing)%Q ->
  twitterConfirmation (w_state w) !! symbol = Some tc ->
  w_now w - tc_timestamp tc < CACHE_TTL_MS ->
  gatherTwitterConfirmation log10 ctx symbol existing a w
  = (Some tc, snd (canSpendTwitterRead w)).
Proof.
  intros Hen Hreads Habs Hc Httl. unfold gatherTwitterConfirmation.
  rewrite Hen. cbn [negb].
  pose proof (canSpend_true w Hreads) as Hcan.
  destruct (canSpendTwitterRead w) as [can w0] eqn:Ecan. cbn [fst snd] in *. subst can.
  destruct (canSpend_keeps w true w0 Ecan) as (Hconf & Hnow & _).
  cbn [negb].
  destruct (Num.abs (fin existing) <? fin MIN_SENTIMENT_FOR_CONFIRMATION)%num eqn:Egate.
  { unfold fin in Egate. cbn [Num.abs] in Egate. num_cmp.
    unfold MIN_SENTIMENT_FOR_CONFIRMATION in Egate. lra. }
  cbv zeta. rewrite Hconf, Hc, Hnow.
  destruct (_ <? _) eqn:E; [reflexivity|]. apply Z.ltb_ge in E. lia.
Qed.

End Cache.

End ConfirmationCacheFacts.

Import ConfirmationCacheFacts.

(** X12.  A confirmation that was just computed is served from the cache
    for the next 300 seconds: a second lookup for the symbol, less than
    300 s later and with reads left in the budget, returns the very same
    result without sending a request, whatever the network would answer
    and whatever the existing sentiment of the second lookup is (at least
    0.3 in absolute value), so that [confirms_existing] still refers to
    the sentiment of the first lookup. *)
Theorem X12_confirmation_cached (log10 : Q -> num) (ctx : StrategyContext) (symbol : string)
    (e1 e2 : Q) (a1 a2 : Twitter.Answer) (w w1 : Twitter.World)
    (tc : TwitterConfirmation) (d : Z) :
  (forall c, twitterConfirmation (Twitter.w_state w) !! symbol = Some c ->
             Twitter.CACHE_TTL_MS <= Twitter.w_now w - tc_timestamp c) ->
  Twitter.gatherTwitterConfirmation log10 ctx symbol e1 a1 w = (Some tc, w1) ->
  0 <= d < 300000 ->
  (3 # 10 <= Qabs e2)%Q ->
  reads w1 < 200 ->
  exists w2,
    Twitter.gatherTwitterConfirmation log10 ctx symbol e2 a2 (later d w1) = (Some tc, w2) /\
    Twitter.w_fetches w2 = Twitter.w_fetches w1 /\
    twitterConfirmation (Twitter.w_state w2) = twitterConfirmation (Twitter.w_state w1).
Proof.
  intros Hcache Hfirst Hd He2 Hreads.
  assert (Hst : twitterConfirmation (Twitter.w_state w1) !! symbol = Some tc /\
                tc_timestamp tc = Twitter.w_now w1 /\
                Twitter.isTwitterEnabled ctx = true).
  { revert Hfirst. unfold Twitter.gatherTwitterConfirmation.
    destruct (Twitter.isTwitterEnabled ctx); [|discriminate]. cbn [negb].
    destruct (Twitter.canSpendTwitterRead w) as [can w0] eqn:Ecan.
    destruct (canSpend_keeps w can w0 Ecan) as (Hconf & Hnow & _).
    destruct can; [|discriminate]. cbn [negb].
    destruct (_ <? _)%num; [discriminate|]. cbv zeta. rewrite Hconf, Hnow.
    assert (Hfresh : Twitter.confirmFresh log10 ctx symbol e1 a1 w0 = (Some tc, w1) ->
              twitterConfirmation (Twitter.w_state w1) !! symbol = Some tc /\
              tc_timestamp tc = Twitter.w_now w1 /\ true = true).
    { intros H. destruct (confirmFresh_stores log10 _ _ _ _ _ _ _ H) as (H1 & H2 & _ & _).
      auto. }
    destruct (twitterConfirmation (Twitter.w_state w) !! symbol) as [cached|] eqn:Ec;
      [|exact Hfresh].
    specialize (Hcache cached eq_refl).
    destruct (_ <? _) eqn:Ettl; [apply Z.ltb_lt in Ettl; lia|]. exact Hfresh. }
  destruct Hst as (Hstored & Hts & Hen).
  exists (snd (Twitter.canSpendTwitterRead (later d w1))).
  split.
  - apply gather_cached; auto.
    + unfold Twitter.CACHE_TTL_MS. cbn [later Twitter.w_now]. lia.
  - pose proof (canSpend_keeps (later d w1)) as Hk.
    destruct (Twitter.canSpendTwitterRead (later d w1)) as [can w2].
    destruct (Hk can w2 eq_refl) as (Hconf & _ & Hf). cbn [snd]. auto.
Qed.

(** The lookup of the example, repeated two minutes later for a negative
    existing sentiment while the network is down. *)
Lemma X12_confirmation_cached_witness :
  exists tc w1 w2,
    Twitter.gatherTwitterConfirmation log10_table ctx_ex "XYZ" (5 # 10) answer_ex
      (world_of (Some 3) (Some 1000000) 4600000) = (Some tc, w1) /\
    Twitter.gatherTwitterConfirmation log10_table ctx_ex "XYZ" (- (4 # 10))
      {| Twitter.elapsed := 50; Twitter.response := Twitter.FetchThrows |}
      (later 120000 w1) = (Some tc, w2) /\
    Twitter.w_fetches w2 = Twitter.w_fetches w1 /\
    twitterConfirmation (Twitter.w_state w2) = twitterConfirmation (Twitter.w_state w1).
Proof.
  destruct (Twitter.gatherTwitterConfirmation log10_table ctx_ex "XYZ" (5 # 10) answer_ex
              (world_of (Some 3) (Some 1000000) 4600000)) as [[tc|] w1] eqn:E;
    [|vm_compute in E; discriminate].
  exists tc, w1.
  destruct (X12_confirmation_cached log10_table ctx_ex "XYZ" (5 # 10) (- (4 # 10)) answer_ex
              {| Twitter.elapsed := 50; Twitter.response := Twitter.FetchThrows |}
              (world_of (Some 3) (Some 1000000) 4600000) w1 tc 120000)
    as (w2 & H1 & H2 & H3).
  - intros c Hc. vm_compute in Hc. discriminate.
  - exact E.
  - lia.
  - vm_compute. discriminate.
  - vm_compute in E. injection E as <- <-. vm_compute. reflexivity.
  - exists w2. auto.
Defined.

Module TwitterScoreFacts.

Import Twitter.

Lemma digits_nonneg fuel : forall z, 0 <= digits fuel z.
Proof.
  induction fuel as [|fuel IH]; intros z; cbn [digits]; [lia|].
  destruct (z <? 10); [lia|]. specialize (IH (z / 10)). lia.
Qed.

Lemma log10_floor_nonneg : log10_nonneg log10_floor.
Proof.
  intros x _. unfold log10_floor, finZ. eexists. split; [reflexivity|].
  pose proof (digits_nonneg (Z.to_nat (Qfloor x)) (Qfloor x)) as H.
  unfold Qle. cbn. lia.
Qed.

Lemma slice0_length n : forall s, (String.length (Str.slice0 n s) <= n)%nat.
Proof.
  induction n as [|n IH]; intros s; [destruct s; cbn; lia|].
  destruct s as [|c s]; cbn; [lia|]. specialize (IH s). lia.
Qed.

Section Scores.

Variable log10 : Q -> num.
Hypothesis Hlog : log10_nonneg log10.

Lemma weight_nonneg tweet :
  counts_nonneg tweet ->
  exists wq, (authorWeight log10 tweet * engagementWeight tweet)%num = Fin wq /\ (0 <= wq)%Q.
Proof.
  intros (Hf & Hl & Hr). unfold authorWeight, engagementWeight, fin, finZ.
  destruct (Hlog (inject_Z (author_followers tweet + 1))) as (y & Hy & Hy0).
  { rewrite <- (Zle_Qle 1). lia. }
  rewrite Hy. rewrite !div_fin by discriminate. cbn [Num.add]. rewrite !min_fin.
  cbn [Num.mul]. eexists. split; [reflexivity|].
  assert (He : (0 <= inject_Z (likes tweet + retweets tweet * 2))%Q).
  { rewrite <- (Zle_Qle 0). lia. }
  set (E := inject_Z (likes tweet + retweets tweet * 2)) in *.
  assert (H5 : (0 <= y / inject_Z 5)%Q).
  { apply Qle_shift_div_l; [reflexivity|]. lra. }
  assert (H1000 : (0 <= E / inject_Z 1000)%Q).
  { apply Qle_shift_div_l; [reflexivity|]. lra. }
  apply Qmult_le_0_compat.
  - destruct (Num.Qlt_bool _ _); [exact H5|discriminate].
  - destruct (Num.Qlt_bool _ _); unfold inject_Z in *; lra.
Qed.

Lemma tallyStep_ok t tweet :
  counts_nonneg tweet -> tally_ok t -> tally_ok (tallyStep log10 t tweet).
Proof.
  intros Hc (b & r & tot & Hb & Hr & Ht & Hb0 & Hr0 & Hsum).
  destruct (weight_nonneg tweet Hc) as (wq & Hw & Hw0).
  unfold tallyStep, tally_ok. cbv zeta. rewrite Hw, Hb, Hr, Ht.
  cbn [t_bullish t_bearish t_totalWeight Num.add].
  destruct (tweetPolarity tweet >? 0); [|destruct (tweetPolarity tweet <? 0)];
    do 3 eexists; (split; [reflexivity|]); (split; [reflexivity|]);
    (split; [reflexivity|]); repeat split; lra.
Qed.

Lemma fold_tallyStep_ok tweets : forall t,
  Forall counts_nonneg tweets -> tally_ok t -> tally_ok (fold_left (tallyStep log10) tweets t).
Proof.
  induction tweets as [|tweet tweets IH]; intros t Hall Ht; cbn [fold_left]; [exact Ht|].
  apply Forall_cons in Hall as [H1 H2]. apply IH; [exact H2|].
  apply tallyStep_ok; assumption.
Qed.

Lemma twitterSentiment_bounded tweets :
  Forall counts_nonneg tweets ->
  exists s, twitterSentiment log10 tweets = Fin s /\ (-1 <= s <= 1)%Q.
Proof.
  intros Hall. unfold twitterSentiment. cbv zeta.
  destruct (fold_tallyStep_ok tweets
              {| t_bullish := finZ 0; t_bearish := finZ 0; t_totalWeight := finZ 0;
                 t_highlights := [] |} Hall)
    as (b & r & tot & Hb & Hr & Ht & Hb0 & Hr0 & Hsum).
  { exists 0%Q, 0%Q, 0%Q. repeat split; try reflexivity; discriminate. }
  unfold tally. rewrite Hb, Hr, Ht. unfold finZ.
  destruct (Fin tot >? Fin (inject_Z 0))%num eqn:E.
  - num_cmp. unfold inject_Z in E. cbn [Num.sub Num.add Num.neg].
    rewrite div_fin by lra. eexists. split; [reflexivity|]. split.
    + apply Qle_shift_div_l; [exact E|]. lra.
    + apply Qle_shift_div_r; [exact E|]. lra.
  - eexists. split; [reflexivity|]. split; discriminate.
Qed.

End Scores.

Lemma toTweet_nonneg payload tweet :
  Forall user_nonneg (default [] (p_users payload)) ->
  raw_nonneg tweet ->
  counts_nonneg (toTweet payload tweet).
Proof.
  intros Hu [Hrt Hl]. unfold toTweet, counts_nonneg.
  cbn [author_followers likes retweets]. repeat split; auto.
  destruct (find _ (default [] (p_users payload))) as [u|] eqn:Ef; [|cbn; lia].
  apply find_some in Ef as [Hin _].
  rewrite Forall_forall in Hu. apply (Hu u). apply list_elem_of_In. exact Hin.
Qed.

Lemma search_nonneg ctx query maxResults a w :
  payload_nonneg a ->
  Forall counts_nonneg (fst (twitterSearchRecent ctx query maxResults a w)).
Proof.
  intros Hp. unfold twitterSearchRecent.
  destruct (isTwitterEnabled ctx); cbn [negb]; [|constructor].
  destruct (canSpendTwitterRead w) as [can w0].
  destruct can; cbn [negb]; [|constructor].
  unfold payload_nonneg in Hp.
  destruct (response a) as [| | |payload]; cbn [fst]; try constructor.
  destruct Hp as [Hd Hu]. apply Forall_forall. intros t Ht.
  apply list_elem_of_In, in_map_iff in Ht as (rt & <- & Hrt).
  apply toTweet_nonneg; [exact Hu|].
  rewrite Forall_forall in Hd. apply Hd, list_elem_of_In, Hrt.
Qed.

Lemma highlights_short log10 tweets : forall t,
  Forall (fun h => (String.length (h_text h) <= 150)%nat) (t_highlights t) ->
  Forall (fun h => (String.length (h_text h) <= 150)%nat)
         (t_highlights (fold_left (tallyStep log10) tweets t)).
Proof.
  induction tweets as [|tweet tweets IH]; intros t Ht; cbn [fold_left]; [exact Ht|].
  apply IH. unfold tallyStep. cbv zeta. cbn [t_highlights].
  destruct (_ || _); [|exact Ht].
  apply Forall_app. split; [exact Ht|]. constructor; [|constructor].
  cbn [h_text]. apply slice0_length.
Qed.

End TwitterScoreFacts.

Import TwitterScoreFacts.

(** X13.  With follower, like and retweet counts that are not negative
    (and a [Math.log10] that is a number and not negative from 1 on), a
    confirmation that the lookup computes has a sentiment within [-1, 1],
    counts at least one tweet, carries at most 3 highlights of at most 150
    characters each, and is for the symbol asked. *)
Theorem X13_confirmation_bounds (log10 : Q -> num) (ctx : StrategyContext) (symbol : string)
    (existingSentiment : Q) (a : Twitter.Answer) (w w' : Twitter.World)
    (tc : TwitterConfirmation) :
  log10_nonneg log10 ->
  payload_nonneg a ->
  (forall c, twitterConfirmation (Twitter.w_state w) !! symbol = Some c ->
             Twitter.CACHE_TTL_MS <= Twitter.w_now w - tc_timestamp c) ->
  Twitter.gatherTwitterConfirmation log10 ctx symbol existingSentiment a w = (Some tc, w') ->
  (exists s, tc_sentiment tc = Fin s /\ (-1 <= s <= 1)%Q) /\
  (1 <= tweet_count tc)%nat /\
  (length (highlights tc) <= 3)%nat /\
  Forall (fun h => (String.length (h_text h) <= 150)%nat) (highlights tc) /\
  tc_symbol tc = symbol.
Proof.
  intros Hlog Hpay Hcache. unfold Twitter.gatherTwitterConfirmation.
  destruct (Twitter.isTwitterEnabled ctx); [|discriminate]. cbn [negb].
  destruct (Twitter.canSpendTwitterRead w) as [can w0] eqn:Ecan.
  destruct (canSpend_keeps w can w0 Ecan) as (Hconf & Hnow & _).
  destruct can; [|discriminate]. cbn [negb].
  destruct (_ <? _)%num; [discriminate|]. cbv zeta. rewrite Hconf, Hnow.
  assert (Hfresh : Twitter.confirmFresh log10 ctx symbol existingSentiment a w0 = (Some tc, w') ->
            (exists s, tc_sentiment tc = Fin s /\ (-1 <= s <= 1)%Q) /\
            (1 <= tweet_count tc)%nat /\
            (length (highlights tc) <= 3)%nat /\
            Forall (fun h => (String.length (h_text h) <= 150)%nat) (highlights tc) /\
            tc_symbol tc = symbol).
  { unfold Twitter.confirmFresh. cbv zeta.
    pose proof (search_nonneg ctx (Twitter.confirmationQuery symbol) 10 a w0 Hpay) as Hnn.
    destruct (Twitter.twitterSearchRecent ctx _ 10 a w0) as [tweets w1]. cbn [fst] in Hnn.
    destruct (length tweets =? 0)%nat eqn:El; [discriminate|].
    apply Nat.eqb_neq in El.
    intros [= <- _]. cbn [tc_sentiment tweet_count highlights tc_symbol].
    split; [apply twitterSentiment_bounded; assumption|].
    split; [lia|]. split; [rewrite length_firstn; lia|]. split; [|reflexivity].
    apply Forall_take. apply highlights_short. constructor. }
  destruct (twitterConfirmation (Twitter.w_state w) !! symbol) as [cached|] eqn:Ec;
    [|exact Hfresh].
  specialize (Hcache cached eq_refl).
  destruct (_ <? _) eqn:Ettl; [apply Z.ltb_lt in Ettl; lia|]. exact Hfresh.
Qed.

(** The lookup of the example with the step function for [Math.log10]. *)
Lemma X13_confirmation_bounds_witness :
  exists tc w',
    Twitter.gatherTwitterConfirmation log10_floor ctx_ex "XYZ" (5 # 10) answer_ex
      (world_of (Some 3) (Some 1000000) 4600000) = (Some tc, w') /\
    (exists s, tc_sentiment tc = Fin s /\ (-1 <= s <= 1)%Q) /\
    (1 <= tweet_count tc)%nat /\
    (length (highlights tc) <= 3)%nat /\
    Forall (fun h => (String.length (h_text h) <= 150)%nat) (highlights tc) /\
    tc_symbol tc = "XYZ"%string.
Proof.
  destruct (Twitter.gatherTwitterConfirmation log10_floor ctx_ex "XYZ" (5 # 10) answer_ex
              (world_of (Some 3) (Some 1000000) 4600000)) as [[tc|] w'] eqn:E;
    [|vm_compute in E; discriminate].
  exists tc, w'. split; [reflexivity|].
  apply (X13_confirmation_bounds log10_floor ctx_ex "XYZ" (5 # 10) answer_ex
           (world_of (Some 3) (Some 1000000) 4600000) w' tc).
  - exact log10_floor_nonneg.
  - split; repeat constructor; vm_compute; discriminate.
  - intros c Hc. vm_compute in Hc. discriminate.
  - exact E.
Defined.

Module NewsFacts.

Import Twitter TwitterNews.

Lemma search_fetches ctx query maxResults a w :
  w_fetches (snd (twitterSearchRecent ctx query maxResults a w)) = w_fetches w \/
  w_fetches (snd (twitterSearchRecent ctx query maxResults a w))
  = w_fetches w ++ [(query, Z.min maxResults 10)].
Proof.
  unfold twitterSearchRecent.
  destruct (isTwitterEnabled ctx); cbn [negb]; [|left; reflexivity].
  pose proof (canSpend_reads w) as (Hf & _).
  destruct (canSpendTwitterRead w) as [can w0]. cbn [snd] in Hf.
  destruct can; cbn [negb]; [|left; exact Hf].
  right. destruct (response a); cbn; rewrite Hf; reflexivity.
Qed.

Lemma round_le (x : Q) (n : Z) :
  (x <= inject_Z n)%Q -> (inject_Z (Qfloor (x + (1 # 2))) <= inject_Z n)%Q.
Proof.
  intros H. rewrite <- Zle_Qle.
  assert (H1 : (x + (1 # 2) < inject_Z (n + 1))%Q).
  { rewrite inject_Z_plus. unfold inject_Z at 2. lra. }
  assert (H2 : (inject_Z (Qfloor (x + (1 # 2))) < inject_Z (n + 1))%Q).
  { eapply Qle_lt_trans; [apply Qfloor_le|exact H1]. }
  rewrite <- Zlt_Qlt in H2. lia.
Qed.

Section Step.

Variable getTime : string -> num.
Variable now : Z.
Variable toCheck : list string.

Local Abbreviation reported := (reported toCheck).

Lemma newsStep_reported results tweet :
  Forall reported results -> Forall reported (newsStep getTime now toCheck results tweet).
Proof.
  intros H. unfold newsStep. cbv zeta.
  destruct (_ >? _)%num eqn:Eold; [exact H|].
  unfold mentioned.
  destruct (find _ toCheck) as [s|] eqn:Ef; [|exact H].
  destruct (String.eqb s "") eqn:Es; [exact H|].
  apply Forall_app. split; [exact H|]. constructor; [|constructor].
  apply find_some in Ef as [Hin _]. apply String.eqb_neq in Es.
  split; [exact Hin|]. split; [exact Es|].
  split; [cbn [headline]; apply slice0_length|].
  cbn [age_minutes is_breaking]. intros m Hm.
  destruct (getTime (created_at tweet)) as [t| | |].
  - unfold finZ in *. cbn [Num.sub Num.add Num.neg] in *.
    revert Hm. rewrite div_fin by discriminate. cbn [Math.round]. intros Hm.
    assert (Hm' : inject_Z (Qfloor ((inject_Z now + - t) / inject_Z 60000 + (1 # 2))) = m)
      by congruence.
    clear Hm. subst m.
    unfold MAX_NEWS_AGE_MS, BREAKING_THRESHOLD_MS in *. num_cmp.
    split; [eexists; reflexivity|].
    split.
    + apply (round_le _ 30). apply Qle_shift_div_r; [reflexivity|].
      unfold inject_Z in *. lra.
    + intros Hb. num_cmp. apply (round_le _ 10). apply Qle_shift_div_r; [reflexivity|].
      unfold inject_Z in *. lra.
  - exfalso. revert Hm. unfold finZ. cbn. discriminate.
  - exfalso. revert Eold. unfold finZ. cbn. discriminate.
  - exfalso. revert Hm. unfold finZ. cbn. discriminate.
Qed.

Lemma fold_newsStep_reported tweets : forall results,
  Forall reported results ->
  Forall reported (fold_left (newsStep getTime now toCheck) tweets results).
Proof.
  induction tweets as [|t tweets IH]; intros results H; cbn [fold_left]; [exact H|].
  apply IH, newsStep_reported, H.
Qed.

End Step.

End NewsFacts.

Import NewsFacts.

(** X14.  Every item of the breaking-news check names one of the first
    three symbols given, has a headline of at most 200 characters and an
    age in whole minutes that is at most 30, and at most 10 when the item
    is flagged as breaking.  The check sends at most one request, for at
    most 5 results, and none at all when no symbol is given. *)
Theorem X14_breaking_news (getTime : string -> num) (ctx : StrategyContext)
    (symbols : list string) (a : Twitter.Answer) (w : Twitter.World) :
  let out := TwitterNews.checkTwitterBreakingNews getTime ctx symbols a w in
  (forall r, In r (fst out) ->
     In (TwitterNews.bn_symbol r) (firstn 3 symbols) /\
     (String.length (TwitterNews.headline r) <= 200)%nat /\
     forall m, TwitterNews.age_minutes r = Fin m ->
       (exists z, m = inject_Z z) /\ (m <= 30)%Q /\
       (TwitterNews.is_breaking r = true -> (m <= 10)%Q)) /\
  (symbols = [] -> fst out = [] /\ Twitter.w_fetches (snd out) = Twitter.w_fetches w) /\
  (Twitter.w_fetches (snd out) = Twitter.w_fetches w \/
   Twitter.w_fetches (snd out)
   = Twitter.w_fetches w ++ [(TwitterNews.newsQuery (firstn 3 symbols), 5)]).
Proof.
  intros out. subst out. unfold TwitterNews.checkTwitterBreakingNews.
  destruct (Twitter.isTwitterEnabled ctx); cbn [negb];
    [|cbn; repeat split; auto; contradiction].
  pose proof (canSpend_reads w) as (Hf & _).
  destruct (Twitter.canSpendTwitterRead w) as [can w0]. cbn [snd] in Hf.
  destruct can; cbn [negb]; [|cbn; repeat split; auto; contradiction].
  destruct (length symbols =? 0)%nat eqn:El; [cbn; repeat split; auto; contradiction|].
  apply Nat.eqb_neq in El. cbv zeta.
  pose proof (search_fetches ctx (TwitterNews.newsQuery (firstn 3 symbols)) 5 a w0) as Hs.
  destruct (Twitter.twitterSearchRecent ctx _ 5 a w0) as [tweets w1]. cbn [snd] in Hs.
  change (Z.min 5 10) with 5 in Hs. rewrite Hf in Hs.
  pose proof (fold_newsStep_reported getTime (Twitter.w_now w1) (firstn 3 symbols) tweets []
                ltac:(constructor)) as Hrep.
  set (results := fold_left _ tweets []) in *.
  assert (Hres : forall r, In r results ->
            In (TwitterNews.bn_symbol r) (firstn 3 symbols) /\
            (String.length (TwitterNews.headline r) <= 200)%nat /\
            forall m, TwitterNews.age_minutes r = Fin m ->
              (exists z, m = inject_Z z) /\ (m <= 30)%Q /\
              (TwitterNews.is_breaking r = true -> (m <= 10)%Q)).
  { intros r Hr. rewrite Forall_forall in Hrep.
    destruct (Hrep r) as (H1 & _ & H2 & H3); [apply list_elem_of_In; exact Hr|]. auto. }
  destruct (0 <? length results)%nat; cbn [fst snd Twitter.log Twitter.w_fetches];
    (split; [exact Hres|]); (split; [|exact Hs]);
    intros ->; cbn in El; contradiction.
Qed.

(** ** Staleness over time (rules/staleness.ts) *)

Module StalenessOrderFacts.

Import Staleness.

Lemma holdHours_eq now e :
  holdHours now e = Fin ((inject_Z now + - entry_time e) / inject_Z 3600000).
Proof. reflexivity. Qed.

Lemma holdDays_eq now e :
  holdDays now e = Fin ((inject_Z now + - entry_time e) / inject_Z 3600000 / inject_Z 24).
Proof. reflexivity. Qed.

Lemma hold_mono now1 now2 e :
  now1 <= now2 ->
  ((inject_Z now1 + - entry_time e) / inject_Z 3600000
   <= (inject_Z now2 + - entry_time e) / inject_Z 3600000)%Q /\
  ((inject_Z now1 + - entry_time e) / inject_Z 3600000 / inject_Z 24
   <= (inject_Z now2 + - entry_time e) / inject_Z 3600000 / inject_Z 24)%Q.
Proof.
  intros H. rewrite Zle_Qle in H.
  assert (H1 : ((inject_Z now1 + - entry_time e) / inject_Z 3600000
                <= (inject_Z now2 + - entry_time e) / inject_Z 3600000)%Q).
  { apply Qmult_le_compat_r; [lra|discriminate]. }
  split; [exact H1|]. apply Qmult_le_compat_r; [exact H1|discriminate].
Qed.

Lemma timeScore_mono cfg (hd1 hd2 : Q) :
  (hd1 <= hd2)%Q ->
  exists t1 t2,
    timeScore cfg (Fin hd1) = Fin t1 /\ timeScore cfg (Fin hd2) = Fin t2 /\ (t1 <= t2)%Q.
Proof.
  intros Hle.
  destruct (timeScore_bounds cfg hd1) as (t1 & E1 & B1).
  destruct (timeScore_bounds cfg hd2) as (t2 & E2 & B2).
  exists t1, t2. split; [exact E1|]. split; [exact E2|].
  revert E1 E2. unfold timeScore, fin, finZ.
  destruct (Fin hd1 >=? Fin (stale_max_hold_days cfg))%num eqn:M1;
  destruct (Fin hd2 >=? Fin (stale_max_hold_days cfg))%num eqn:M2.
  - intros [= <-] [= <-]. (unfold inject_Z in *; lra).
  - num_cmp. (unfold inject_Z in *; lra).
  - intros _ [= <-]. (unfold inject_Z in *; lra).
  - destruct (Fin hd1 >=? Fin (stale_mid_hold_days cfg))%num eqn:D1;
    destruct (Fin hd2 >=? Fin (stale_mid_hold_days cfg))%num eqn:D2.
    + num_cmp. cbn [Num.sub Num.add Num.neg Num.mul].
      rewrite !div_fin by (unfold inject_Z in *; lra). intros [= <-] [= <-].
      apply Qmult_le_compat_r; [unfold inject_Z; lra|].
      apply Qinv_le_0_compat. (unfold inject_Z in *; lra).
    + num_cmp. (unfold inject_Z in *; lra).
    + intros [= <-] _. (unfold inject_Z in *; lra).
    + intros [= <-] [= <-]. (unfold inject_Z in *; lra).
Qed.

Lemma priceScore_mono cfg (hd1 hd2 pnl : Q) :
  (hd1 <= hd2)%Q ->
  exists p1 p2,
    priceScore cfg (Fin hd1) (Fin pnl) = Fin p1 /\
    priceScore cfg (Fin hd2) (Fin pnl) = Fin p2 /\ (p1 <= p2)%Q.
Proof.
  intros Hle.
  destruct (priceScore_bounds cfg (Fin hd1) pnl) as (p1 & E1 & B1).
  destruct (priceScore_bounds cfg (Fin hd2) pnl) as (p2 & E2 & B2).
  exists p1, p2. split; [exact E1|]. split; [exact E2|].
  revert E1 E2. unfold priceScore, fin, finZ.
  destruct (Fin pnl <? Fin (inject_Z 0))%num.
  { intros -> [= <-]. (unfold inject_Z in *; lra). }
  destruct (Fin pnl <? Fin (stale_mid_min_gain_pct cfg))%num; cbn [andb].
  - destruct (Fin hd1 >=? Fin (stale_mid_hold_days cfg))%num eqn:D1;
    destruct (Fin hd2 >=? Fin (stale_mid_hold_days cfg))%num eqn:D2.
    + intros [= <-] [= <-]. (unfold inject_Z in *; lra).
    + num_cmp. (unfold inject_Z in *; lra).
    + intros [= <-] _. (unfold inject_Z in *; lra).
    + intros [= <-] [= <-]. (unfold inject_Z in *; lra).
  - intros [= <-] [= <-]. (unfold inject_Z in *; lra).
Qed.

Lemma scoreOf_mono cfg now1 now2 cp vol e :
  now1 <= now2 ->
  exists s1 s2,
    scoreOf cfg now1 cp vol e = Fin s1 /\ scoreOf cfg now2 cp vol e = Fin s2 /\
    (0 <= s1)%Q /\ (s1 <= s2)%Q.
Proof.
  intros Hle. destruct (hold_mono now1 now2 e Hle) as [_ Hd].
  unfold scoreOf. rewrite !holdDays_eq.
  destruct (pnlPct_fin cp e) as (pnl & -> & _).
  destruct (timeScore_mono cfg _ _ Hd) as (t1 & t2 & Et1 & Et2 & Ht).
  destruct (priceScore_mono cfg _ _ pnl Hd) as (p1 & p2 & Ep1 & Ep2 & Hp).
  destruct (timeScore_bounds cfg ((inject_Z now1 + - entry_time e) / inject_Z 3600000
                                  / inject_Z 24)) as (t1' & Et & Bt).
  destruct (priceScore_bounds cfg
              (Fin ((inject_Z now1 + - entry_time e) / inject_Z 3600000 / inject_Z 24)) pnl)
    as (p1' & Ep & Bp).
  assert (t1' = t1) by congruence. assert (p1' = p1) by congruence. subst t1' p1'.
  rewrite Et1, Et2, Ep1, Ep2.
  destruct (volumeScore_bounds cfg (volumeRatio vol e)) as (v & -> & Hv).
  unfold finZ. cbn [Num.add]. rewrite !min_fin.
  do 2 eexists. split; [reflexivity|]. split; [reflexivity|].
  clear Et1 Et2 Ep1 Ep2 Et Ep Hd.
  destruct (Num.Qlt_bool (inject_Z 0 + t1 + p1 + v) (inject_Z 100)) eqn:E1;
  destruct (Num.Qlt_bool (inject_Z 0 + t2 + p2 + v) (inject_Z 100)) eqn:E2;
    num_cmp; unfold inject_Z in *; split; lra.
Qed.

End StalenessOrderFacts.

Import StalenessOrderFacts.

(** X15.  With price and social volume unchanged, time only adds to
    staleness: evaluated at a later moment, the score of a position is
    not lower, and a position that was stale is still stale. *)
Theorem X15_staleness_monotone (cfg : AgentConfig) (now1 now2 : Z) (sym : string)
    (cp vol : Q) (entry : option PositionEntry) :
  now1 <= now2 ->
  let r1 := Staleness.analyzeStaleness now1 sym cp vol entry cfg in
  let r2 := Staleness.analyzeStaleness now2 sym cp vol entry cfg in
  (Staleness.staleness_score r1 <=? Staleness.staleness_score r2)%num = true /\
  (Staleness.isStale r1 = true -> Staleness.isStale r2 = true).
Proof.
  intros Hle r1 r2. subst r1 r2.
  destruct entry as [e|]; [|split; [reflexivity|auto]].
  rewrite !analyzeStaleness_some, !holdHours_eq, !holdDays_eq.
  destruct (hold_mono now1 now2 e Hle) as [Hh Hd].
  destruct (scoreOf_mono cfg now1 now2 cp vol e Hle) as (s1 & s2 & E1 & E2 & H0 & H12).
  destruct (scoreOf_bounds cfg now2 cp vol e) as (s2' & E2' & B2).
  rewrite E2 in E2'. injection E2' as <-.
  unfold fin.
  destruct (Fin ((inject_Z now1 + - entry_time e) / inject_Z 3600000)
            <? Fin (stale_min_hold_hours cfg))%num eqn:T1;
  destruct (Fin ((inject_Z now2 + - entry_time e) / inject_Z 3600000)
            <? Fin (stale_min_hold_hours cfg))%num eqn:T2;
    cbv zeta; cbn [Staleness.staleness_score Staleness.isStale].
  - split; [reflexivity|auto].
  - rewrite E2. unfold finZ. split; [apply le_fin; unfold inject_Z; lra|discriminate].
  - num_cmp. lra.
  - rewrite E1, E2. split; [apply le_fin; exact H12|].
    rewrite !orb_true_iff, !andb_true_iff. unfold finZ.
    intros [H|[H1 H2]]; [left|right].
    + num_cmp. apply ge_fin. lra.
    + split; [|exact H2]. num_cmp. apply ge_fin. lra.
Qed.

(** The example position after one day and after four days. *)
Lemma X15_staleness_monotone_witness :
  let r1 := Staleness.analyzeStaleness 86400000 "XYZ" 101 100 (Some entry_ex) cfg_ex in
  let r2 := Staleness.analyzeStaleness 345600000 "XYZ" 101 100 (Some entry_ex) cfg_ex in
  (Staleness.staleness_score r1 <=? Staleness.staleness_score r2)%num = true /\
  (Staleness.isStale r1 = true -> Staleness.isStale r2 = true).
Proof.
  apply (X15_staleness_monotone cfg_ex 86400000 345600000 "XYZ" 101 100 (Some entry_ex)).
  lia.
Defined.

(** ** The state that exit selection leaves (rules/exits.ts) *)

Module ExitsStateFacts.

Import Exits.

Lemma exitStep_state ctx now exits st pos :
  snd (exitStep ctx now (exits, st) pos) =
  if analysed ctx pos
  then {| socialSnapshotCache := socialSnapshotCache st;
          stalenessAnalysis :=
            Some (<[symbol pos := stalenessOf ctx now st pos]> (analysisMap st));
          twitterDailyReads := twitterDailyReads st;
          twitterDailyReadReset := twitterDailyReadReset st;
          twitterConfirmation := twitterConfirmation st |}
  else st.
Proof.
  unfold exitStep, analysed, isOption, tpMatches, slMatches, stalenessOf, analysisMap.
  destruct (String.eqb (asset_class pos) "us_option"); cbn [negb andb].
  { destruct (checkOptionsExit pos ctx); reflexivity. }
  destruct (plPct pos >=? _)%num; cbn [negb andb]; [reflexivity|].
  destruct (plPct pos <=? _)%num; cbn [negb andb]; [reflexivity|].
  destruct (stale_position_enabled (config ctx)); [|reflexivity].
  cbv zeta. destruct (Staleness.isStale _); reflexivity.
Qed.

Lemma stalenessOf_snapshot ctx now st st' pos :
  socialSnapshotCache st' = socialSnapshotCache st ->
  stalenessOf ctx now st' pos = stalenessOf ctx now st pos.
Proof. intros H. unfold stalenessOf. rewrite H. reflexivity. Qed.

Lemma find_app {A} (f : A -> bool) (l1 l2 : list A) :
  find f (l1 ++ l2) = match find f l1 with Some x => Some x | None => find f l2 end.
Proof.
  induction l1 as [|x l1 IH]; cbn [app find]; [reflexivity|].
  destruct (f x); [reflexivity|exact IH].
Qed.

Lemma fold_exitStep_state ctx now positions : forall exits st,
  let st' := snd (fold_left (exitStep ctx now) positions (exits, st)) in
  socialSnapshotCache st' = socialSnapshotCache st /\
  twitterDailyReads st' = twitterDailyReads st /\
  twitterDailyReadReset st' = twitterDailyReadReset st /\
  twitterConfirmation st' = twitterConfirmation st /\
  (forallb (fun p => negb (analysed ctx p)) positions = true -> st' = st) /\
  forall k,
    analysisMap st' !! k =
    match lastAnalysed ctx k positions with
    | Some p => Some (stalenessOf ctx now st p)
    | None => analysisMap st !! k
    end.
Proof.
  induction positions as [|pos positions IH]; intros exits st; cbn [fold_left].
  - cbn. repeat split; reflexivity.
  - pose proof (exitStep_state ctx now exits st pos) as Hstep.
    destruct (exitStep ctx now (exits, st) pos) as [exits1 st1]. cbn [snd] in Hstep.
    specialize (IH exits1 st1). cbv zeta in IH.
    destruct IH as (H1 & H2 & H3 & H4 & H5 & H6).
    assert (Hs1 : socialSnapshotCache st1 = socialSnapshotCache st /\
                  twitterDailyReads st1 = twitterDailyReads st /\
                  twitterDailyReadReset st1 = twitterDailyReadReset st /\
                  twitterConfirmation st1 = twitterConfirmation st).
    { rewrite Hstep. destruct (analysed ctx pos); cbn; auto. }
    destruct Hs1 as (S1 & S2 & S3 & S4).
    split; [congruence|]. split; [congruence|]. split; [congruence|].
    split; [congruence|]. split.
    + cbn [forallb]. intros Hall. apply andb_true_iff in Hall as [Hp Hrest].
      rewrite (H5 Hrest), Hstep. apply negb_true_iff in Hp. rewrite Hp. reflexivity.
    + intros k. rewrite H6. unfold lastAnalysed. cbn [rev]. rewrite find_app.
      destruct (find _ (rev positions)) as [p|].
      { rewrite (stalenessOf_snapshot ctx now st st1 p S1). reflexivity. }
      cbn [find]. rewrite Hstep.
      destruct (analysed ctx pos); cbn [andb]; [|reflexivity].
      unfold analysisMap at 1. cbn [stalenessAnalysis from_option Datatypes.id].
      destruct (String.eqb (symbol pos) k) eqn:Ek.
      * apply String.eqb_eq in Ek. subst k. apply lookup_insert_eq.
      * apply String.eqb_neq in Ek. apply lookup_insert_ne. exact Ek.
Qed.

Lemma firstMatch_stale ctx now st pos c r :
  In c (firstMatch ctx now st pos) -> s_reason c = STALE r ->
  is_Some (positionEntries ctx !! symbol pos) /\ analysed ctx pos = true.
Proof.
  unfold firstMatch, analysed, staleMatches, stalenessOf.
  destruct (isOption pos); cbn [negb andb].
  { unfold checkOptionsExit.
    repeat match goal with |- context [if ?b then _ else _] => destruct b end;
      simpl; intros H; repeat destruct H as [H|H]; subst; try contradiction;
      discriminate. }
  destruct (tpMatches ctx pos); cbn [negb andb];
    [intros [<-|[]]; discriminate|].
  destruct (slMatches ctx pos); cbn [negb andb];
    [intros [<-|[]]; discriminate|].
  destruct (stale_position_enabled (config ctx)); cbn [andb]; [|intros []].
  destruct (positionEntries ctx !! symbol pos) as [e|]; [|cbn; intros []].
  destruct (Staleness.isStale _); [|intros []]. intros _ _. split; [eauto|reflexivity].
Qed.

End ExitsStateFacts.

Import ExitsStateFacts.

(** X16.  Exit selection writes nothing to the strategy state but the
    staleness analyses: the social snapshot, the Twitter counters and the
    confirmation cache are as before, and if no position reaches the
    staleness evaluation (staleness disabled, or only option contracts,
    take profits and stop losses) the state is unchanged.  Afterwards the
    analysis stored under a symbol is that of the last position with this
    symbol that reached the evaluation, and the analyses of other symbols
    are kept.  A position is sold as stale only if an entry was recorded
    for its symbol. *)
Theorem X16_selectExits_state (ctx : StrategyContext) (now : Z) (st : StrategyState)
    (positions : list Position) (account : Account) :
  let exits := fst (Exits.selectExits ctx now st positions account) in
  let st' := snd (Exits.selectExits ctx now st positions account) in
  socialSnapshotCache st' = socialSnapshotCache st /\
  twitterDailyReads st' = twitterDailyReads st /\
  twitterDailyReadReset st' = twitterDailyReadReset st /\
  twitterConfirmation st' = twitterConfirmation st /\
  (forallb (fun p => negb (analysed ctx p)) positions = true -> st' = st) /\
  (stale_position_enabled (config ctx) = false -> st' = st) /\
  (forall k,
     analysisMap st' !! k =
     match lastAnalysed ctx k positions with
     | Some p => Some (stalenessOf ctx now st p)
     | None => analysisMap st !! k
     end) /\
  (forall c r, In c exits -> Exits.s_reason c = Exits.STALE r ->
     is_Some (positionEntries ctx !! Exits.s_symbol c) /\
     stale_position_enabled (config ctx) = true).
Proof.
  intros exits st'. subst exits st'.
  destruct (fold_exitStep_state ctx now positions [] st) as (H1 & H2 & H3 & H4 & H5 & H6).
  split; [exact H1|]. split; [exact H2|]. split; [exact H3|]. split; [exact H4|].
  split; [exact H5|]. split; [|split; [exact H6|]].
  - intros Hoff. apply H5. apply forallb_forall. intros p _.
    unfold analysed. rewrite Hoff, andb_false_r. reflexivity.
  - intros c r Hin Hr. rewrite selectExits_flat_map in Hin.
    apply in_flat_map in Hin as (pos & Hpos & Hc).
    rewrite (firstMatch_symbol _ _ _ _ _ Hc).
    destruct (firstMatch_stale _ _ _ _ _ _ Hc Hr) as [He Ha].
    split; [exact He|]. unfold analysed in Ha.
    apply andb_true_iff in Ha as [_ Ha]. exact Ha.
Qed.

(** ** Retries and scores of the StockTwits gatherer (gatherers/stocktwits.ts) *)

Module RetryFacts.

Import Scoring StockTwits.

Lemma total_app l1 l2 : total (l1 ++ l2) = total l1 + total l2.
Proof. unfold total. induction l1 as [|x l1 IH]; cbn; [reflexivity|]. rewrite IH. lia. Qed.

Lemma backoff_S m : backoff (S m) = backoff m ++ [1000 * 2 ^ Z.of_nat m].
Proof. unfold backoff. rewrite seq_S, map_app. reflexivity. Qed.

Lemma total_backoff m : total (backoff m) = 1000 * (2 ^ Z.of_nat m - 1).
Proof.
  induction m as [|m IH]; [reflexivity|].
  rewrite backoff_S, total_app, IH. cbn [total fold_right].
  rewrite Nat2Z.inj_succ, Z.pow_succ_r by lia. lia.
Qed.

Section Retry.

Variable net : nat -> string -> NetAnswer.
Variable url : string.
Variable maxRetries : nat.

(** The loop from attempt [i = maxRetries - k] on: [n] requests and [m]
    sleeps later it has an ok response, has given up on a status that is
    neither ok nor 403, or has used up its attempts. *)
Lemma retryLoop_spec : forall k w,
  (k <= maxRetries)%nat ->
  let i := (maxRetries - k)%nat in
  let r := fst (retryLoop net url maxRetries k w) in
  let w' := snd (retryLoop net url maxRetries k w) in
  exists n m,
    (n <= k)%nat /\
    requests w' = requests w ++ repeat url n /\
    sleeps w' = sleeps w ++ map (fun j => 1000 * 2 ^ Z.of_nat j) (seq i m) /\
    (forall j, (j < m)%nat -> retryable (net (length (requests w) + j)%nat url) = true) /\
    match r with
    | Some res =>
      n = S m /\ result (net (length (requests w) + m)%nat url) = NetResponse res /\
      ok res = true
    | None =>
      (n = m /\ n = k) \/
      (n = S m /\ exists res,
         result (net (length (requests w) + m)%nat url) = NetResponse res /\
         ok res = false /\ status res <> 403)
    end.
Proof.
  induction k as [|k IH]; intros w Hk; cbv zeta.
  - cbn [retryLoop fst snd]. exists 0%nat, 0%nat. cbn. rewrite !app_nil_r.
    repeat split; auto. intros j Hj. lia.
  - cbn [retryLoop]. cbv zeta.
    set (a := net (length (requests w)) url).
    set (w1 := request url (elapsed a) w).
    assert (Hlen : length (requests w1) = S (length (requests w))).
    { subst w1. cbn. rewrite length_app. cbn. lia. }
    assert (Hretry : forall w2,
      requests w2 = requests w1 -> sleeps w2 = sleeps w ++ [1000 * 2 ^ Z.of_nat (maxRetries - S k)] ->
      retryable a = true ->
      let r := fst (retryLoop net url maxRetries k w2) in
      let w' := snd (retryLoop net url maxRetries k w2) in
      exists n m,
        (n <= S k)%nat /\
        requests w' = requests w ++ repeat url n /\
        sleeps w' = sleeps w ++ map (fun j => 1000 * 2 ^ Z.of_nat j) (seq (maxRetries - S k) m) /\
        (forall j, (j < m)%nat -> retryable (net (length (requests w) + j)%nat url) = true) /\
        match r with
        | Some res =>
          n = S m /\ result (net (length (requests w) + m)%nat url) = NetResponse res /\
          ok res = true
        | None =>
          (n = m /\ n = S k) \/
          (n = S m /\ exists res,
             result (net (length (requests w) + m)%nat url) = NetResponse res /\
             ok res = false /\ status res <> 403)
        end).
    { intros w2 Hreq Hsl Hra. cbv zeta.
      destruct (IH w2 ltac:(lia)) as (n & m & Hn & Hr & Hs & Hall & Hres).
      cbv zeta in Hres.
      exists (S n), (S m). split; [lia|].
      split.
      { rewrite Hr, Hreq. subst w1. cbn [requests request]. rewrite <- app_assoc. reflexivity. }
      split.
      { rewrite Hs, Hsl, <- app_assoc. cbn [seq map app].
        replace (S (maxRetries - S k)) with (maxRetries - k)%nat by lia. reflexivity. }
      split.
      { intros j Hj. destruct j as [|j]; [rewrite Nat.add_0_r; exact Hra|].
        specialize (Hall j ltac:(lia)). rewrite Hreq, Hlen in Hall.
        replace (length (requests w) + S j)%nat with (S (length (requests w)) + j)%nat by lia.
        exact Hall. }
      rewrite Hreq, Hlen in Hres.
      replace (length (requests w) + S m)%nat with (S (length (requests w)) + m)%nat by lia.
      destruct (fst (retryLoop net url maxRetries k w2)) as [res|].
      - destruct Hres as (-> & H1 & H2). auto.
      - destruct Hres as [[-> ->]|(-> & res & H1 & H2 & H3)]; [left; auto|right].
        split; [reflexivity|]. exists res. auto. }
    destruct (result a) as [|res] eqn:Ea.
    + apply Hretry; [reflexivity|reflexivity|].
      unfold retryable. rewrite Ea. reflexivity.
    + destruct (ok res) eqn:Eok.
      * cbn [fst snd]. exists 1%nat, 0%nat. cbn [repeat seq map].
        rewrite app_nil_r, Nat.add_0_r. fold a.
        repeat split; auto; try lia; intros j Hj; lia.
      * destruct (status res =? 403) eqn:E403.
        -- apply Hretry; [reflexivity|reflexivity|].
           unfold retryable. rewrite Ea, Eok, E403. reflexivity.
        -- cbn [fst snd]. exists 1%nat, 0%nat. cbn [repeat seq map].
           rewrite app_nil_r, Nat.add_0_r. fold a.
           split; [lia|]. split; [reflexivity|]. split; [reflexivity|].
           split; [intros j Hj; lia|]. right. split; [reflexivity|].
           exists res. apply Z.eqb_neq in E403. auto.
Qed.

End Retry.

End RetryFacts.

Import RetryFacts.

(** X17.  [fetchWithRetry] sends [n] requests, all for the given URL and
    never more than [maxRetries], and sleeps [m] times, for 1 s, 2 s, 4 s
    and so on, each time after a request that threw or was answered with
    status 403; in all it sleeps 1000 (2^m - 1) ms.  It returns a
    response exactly when the last request was answered ok, and then
    [n = m + 1].  Otherwise it returns nothing: because the last request
    was answered with a status that is neither ok nor 403, after which it
    neither sleeps nor retries, or because all [maxRetries] attempts
    failed, in which case it has slept after the last attempt too. *)
Theorem X17_fetchWithRetry (net : nat -> string -> StockTwits.NetAnswer) (url : string)
    (maxRetries : nat) (w : StockTwits.World) :
  let r := fst (StockTwits.fetchWithRetry net url maxRetries w) in
  let w' := snd (StockTwits.fetchWithRetry net url maxRetries w) in
  let answer j := net (length (StockTwits.requests w) + j)%nat url in
  exists n m,
    (n <= maxRetries)%nat /\
    StockTwits.requests w' = StockTwits.requests w ++ repeat url n /\
    StockTwits.sleeps w' = StockTwits.sleeps w ++ backoff m /\
    slept w' = slept w + 1000 * (2 ^ Z.of_nat m - 1) /\
    (forall j, (j < m)%nat -> retryable (answer j) = true) /\
    (forall res,
       r = Some res <->
       n = S m /\ StockTwits.result (answer m) = StockTwits.NetResponse res /\
       StockTwits.ok res = true) /\
    (r = None ->
     (n = m /\ n = maxRetries) \/
     (n = S m /\ exists res,
        StockTwits.result (answer m) = StockTwits.NetResponse res /\
        StockTwits.ok res = false /\ StockTwits.status res <> 403)).
Proof.
  intros r w' answer. subst r w' answer. unfold StockTwits.fetchWithRetry.
  destruct (retryLoop_spec net url maxRetries maxRetries w (Nat.le_refl _))
    as (n & m & Hn & Hr & Hs & Hall & Hres).
  cbv zeta in Hres. rewrite Nat.sub_diag in Hs. fold (backoff m) in Hs.
  exists n, m. split; [exact Hn|]. split; [exact Hr|]. split; [exact Hs|].
  split; [unfold slept; rewrite Hs, total_app, total_backoff; reflexivity|].
  split; [exact Hall|].
  destruct (fst (StockTwits.retryLoop net url maxRetries maxRetries w)) as [res|].
  - destruct Hres as (H1 & H2 & H3). split; [|discriminate].
    intros res'. split.
    + intros [= <-]. auto.
    + intros (_ & H2' & _). congruence.
  - split; [|intros _; exact Hres].
    intros res. split; [discriminate|].
    intros (H1 & H2 & H3). exfalso.
    destruct Hres as [[Hnm _]|(_ & res' & H2' & H3' & _)]; [lia|]. congruence.
Qed.

(** Three attempts against an API that answers 403, 403 and then 200. *)
Example fetchWithRetry_runs :
  let net n (_ : string) :=
    {| StockTwits.elapsed := 80;
       StockTwits.result :=
         StockTwits.NetResponse
           {| StockTwits.status := if (n <? 2)%nat then 403 else 200;
              StockTwits.body := StockTwits.JsonValue None None |} |} in
  let out := StockTwits.fetchWithRetry net "u" 3
               {| StockTwits.requests := []; StockTwits.sleeps := [];
                  StockTwits.st_log := []; StockTwits.st_now := 0 |} in
  StockTwits.status <$> fst out = Some 200 /\
  StockTwits.requests (snd out) = ["u"; "u"; "u"]%string /\
  StockTwits.sleeps (snd out) = [1000; 2000] /\
  StockTwits.st_now (snd out) = 3240.
Proof. vm_compute. auto. Qed.

Module TwitsScoreFacts.

Import Scoring StockTwits.

Lemma max_min_clamp (d : num) :
  d <> NaN ->
  exists c, Math.max (fin (2 # 10)) (Num.min (fin 1) d) = Fin c /\ (2 # 10 <= c <= 1)%Q.
Proof.
  intros Hd. unfold fin. destruct d as [x| | |]; [| | |contradiction].
  - rewrite min_fin. cbn [Math.max].
    destruct (Num.lt _ _) eqn:E; eexists; (split; [reflexivity|]);
      destruct (Num.Qlt_bool x 1) eqn:E1; num_cmp; lra.
  - exists 1%Q. split; [reflexivity|]. lra.
  - exists (2 # 10)%Q. split; [reflexivity|]. lra.
Qed.

Section Decay.

Variable SOURCE_CONFIG : SourceConfig.
Variable pow : num -> num -> num.
Variable getTime : string -> num.
Hypothesis Hpow : pow_number pow.
Hypothesis Hhalf : (0 < decayHalfLifeMinutes SOURCE_CONFIG)%Q.

Lemma calculateTimeDecay_range now (t : Q) :
  exists d, calculateTimeDecay SOURCE_CONFIG pow now (Fin t) = Fin d /\ (2 # 10 <= d <= 1)%Q.
Proof.
  unfold calculateTimeDecay, fin, finZ. cbv zeta.
  cbn [Num.mul Num.sub Num.add Num.neg].
  rewrite div_fin by discriminate. rewrite div_fin by lra.
  apply max_min_clamp. apply Hpow.
Qed.

Lemma msgTime_fin now msg :
  dated getTime msg -> exists t, msgTime getTime now msg = Fin t.
Proof.
  unfold dated, msgTime, finZ.
  destruct (created_at msg) as [s|].
  - destruct (String.eqb s "") eqn:Es.
    + intros _. rewrite div_fin by discriminate. eauto.
    + intros [->|[t ->]]; [discriminate|]. rewrite div_fin by discriminate. eauto.
  - intros _. rewrite div_fin by discriminate. eauto.
Qed.

Lemma twitsTally_ok now n t msg :
  dated getTime msg -> sums_ok n t ->
  sums_ok (S n) (tallyStep SOURCE_CONFIG pow getTime now t msg).
Proof.
  intros Hd (b & r & tot & Hb & Hr & Ht & Hb0 & Hr0 & Hsum & Hlo & Hhi).
  destruct (msgTime_fin now msg Hd) as (mt & Hmt).
  destruct (calculateTimeDecay_range now mt) as (d & Hdec & Hd1 & Hd2).
  unfold tallyStep, sums_ok. cbv zeta. rewrite Hmt, Hdec, Hb, Hr, Ht.
  cbn [bullish bearish totalTimeDecay Num.add].
  rewrite Nat2Z.inj_succ, <- Z.add_1_r, inject_Z_plus.
  destruct (bool_decide (basic msg = Some "Bullish"%string));
    [|destruct (bool_decide (basic msg = Some "Bearish"%string))];
    do 3 eexists; (split; [reflexivity|]); (split; [reflexivity|]);
    (split; [reflexivity|]); unfold inject_Z at 2 4; repeat split; lra.
Qed.

Lemma fold_twitsTally_ok now messages : forall n t,
  Forall (dated getTime) messages -> sums_ok n t ->
  sums_ok (n + length messages)
    (fold_left (tallyStep SOURCE_CONFIG pow getTime now) messages t).
Proof.
  induction messages as [|msg messages IH]; intros n t Hall Ht; cbn [fold_left length].
  - rewrite Nat.add_0_r. exact Ht.
  - apply Forall_cons in Hall as [H1 H2].
    replace (n + S (length messages))%nat with (S n + length messages)%nat by lia.
    apply IH; [exact H2|]. apply twitsTally_ok; assumption.
Qed.

Lemma tally_sums_ok now messages :
  Forall (dated getTime) messages ->
  sums_ok (length messages) (tally SOURCE_CONFIG pow getTime now messages).
Proof.
  intros H. unfold tally.
  apply (fold_twitsTally_ok now messages 0); [exact H|].
  exists 0%Q, 0%Q, 0%Q. repeat split; try reflexivity; vm_compute; discriminate.
Qed.

End Decay.

Lemma round_range (x : Q) (n : Z) :
  (0 <= x <= inject_Z n)%Q ->
  (0 <= inject_Z (Qfloor (x + (1 # 2))) <= inject_Z n)%Q.
Proof.
  intros [H0 Hn]. split; [|apply round_le; exact Hn].
  rewrite <- (Zle_Qle 0). change 0 with (Qfloor 0).
  apply Qfloor_resp_le. lra.
Qed.

End TwitsScoreFacts.

Import TwitsScoreFacts.

(** X18.  For a symbol with at least one message, every message date
    being absent or a date (with a positive half-life, and one half to a
    finite power being a number), the StockTwits signal has a raw
    sentiment within [-1, 1], a freshness that is positive and at most 1,
    a weighted sentiment that is in absolute value at most the source
    weight, and rounded bullish and bearish sums between 0 and the number
    of messages.  No more is said of the freshness from below: the source
    adds and divides rounded numbers, and the average of decays that are
    all at the floor of 0.2 can come out just under 0.2. *)
Theorem X18_stocktwits_signal (cfg : Scoring.SourceConfig) (pow : num -> num -> num)
    (getTime : string -> num) (now : Z) (sym : string)
    (messages : list StockTwits.Message) :
  pow_number pow ->
  (0 < Scoring.decayHalfLifeMinutes cfg)%Q ->
  Forall (dated getTime) messages ->
  (1 <= length messages)%nat ->
  let sig := StockTwits.signalFor cfg pow getTime now sym messages in
  let n := inject_Z (Z.of_nat (length messages)) in
  exists raw fresh s bu be,
    StockTwits.raw_sentiment sig = Fin raw /\ (-1 <= raw <= 1)%Q /\
    StockTwits.freshness sig = Fin fresh /\ (0 < fresh <= 1)%Q /\
    StockTwits.sentiment sig = Fin s /\
    (Qabs s <= Qabs (Scoring.weights_stocktwits cfg))%Q /\
    StockTwits.sig_bullish sig = Fin bu /\ (0 <= bu <= n)%Q /\
    StockTwits.sig_bearish sig = Fin be /\ (0 <= be <= n)%Q.
Proof.
  intros Hpow Hhalf Hdated Hlen sig n. subst sig.
  destruct (tally_sums_ok cfg pow getTime Hpow Hhalf now messages Hdated)
    as (b & r & tot & Hb & Hr & Ht & Hb0 & Hr0 & Hsum & Hlo & Hhi).
  fold n in Hlo, Hhi.
  assert (Hn : (1 <= n)%Q).
  { subst n. rewrite <- (Zle_Qle 1). lia. }
  assert (Htot : (0 < tot)%Q) by lra.
  unfold StockTwits.signalFor. cbv zeta.
  cbn [StockTwits.raw_sentiment StockTwits.freshness StockTwits.sentiment
       StockTwits.sig_bullish StockTwits.sig_bearish].
  unfold StockTwits.score, StockTwits.avgFreshness. cbv zeta.
  rewrite Hb, Hr, Ht. cbn [Num.or_else].
  assert (Enz : Qeq_bool tot 0 = false) by (apply Qeq_bool_false; lra).
  rewrite Enz. unfold finZ, fin.
  assert (Egt : (Fin tot >? Fin (inject_Z 0))%num = true) by (apply gt_fin; exact Htot).
  rewrite Egt. cbn [Num.sub Num.add Num.neg].
  rewrite div_fin by lra.
  assert (Epos : (0 <? length messages)%nat = true) by (apply Nat.ltb_lt; lia).
  rewrite Epos. fold n. rewrite div_fin by lra.
  cbn [Num.mul Math.round].
  set (raw := ((b + - r) / tot)%Q).
  set (fresh := (tot / n)%Q).
  assert (Hraw : (-1 <= raw <= 1)%Q).
  { subst raw. split.
    - apply Qle_shift_div_l; [exact Htot|]. lra.
    - apply Qle_shift_div_r; [exact Htot|]. lra. }
  assert (Hfresh : (0 < fresh <= 1)%Q).
  { subst fresh. split.
    - apply Qlt_shift_div_l; [lra|]. lra.
    - apply Qle_shift_div_r; [lra|]. lra. }
  do 5 eexists.
  split; [reflexivity|]. split; [exact Hraw|].
  split; [reflexivity|]. split; [exact Hfresh|].
  split; [reflexivity|]. split.
  - rewrite !Qabs_Qmult.
    assert (H1 : (Qabs raw <= 1)%Q) by (apply Qabs_Qle_condition; exact Hraw).
    assert (H2 : (Qabs fresh <= 1)%Q) by (apply Qabs_Qle_condition; lra).
    pose proof (Qabs_nonneg raw) as N1. pose proof (Qabs_nonneg fresh) as N2.
    pose proof (Qabs_nonneg (Scoring.weights_stocktwits cfg)) as N3.
    set (A := Qabs raw) in *. set (B := Qabs fresh) in *.
    set (W := Qabs (Scoring.weights_stocktwits cfg)) in *.
    assert (H3 : (A * W <= 1 * W)%Q) by (apply Qmult_le_compat_r; assumption).
    assert (H4 : (A * W * B <= A * W * 1)%Q).
    { rewrite !(Qmult_comm (A * W)). apply Qmult_le_compat_r; [assumption|].
      apply Qmult_le_0_compat; assumption. }
    eapply Qle_trans; [exact H4|]. rewrite Qmult_1_r.
    rewrite Qmult_1_l in H3. exact H3.
  - clear Hfresh. subst fresh n.
    split; [reflexivity|]. split; [apply round_range; lra|].
    split; [reflexivity|]. apply round_range. lra.
Qed.

Lemma X18_stocktwits_signal_witness :
  let sig := StockTwits.signalFor source_ex pow_half getTime_ex 1736175900000 "NVDA"
               messages_ex in
  let n := inject_Z (Z.of_nat (length messages_ex)) in
  exists raw fresh s bu be,
    StockTwits.raw_sentiment sig = Fin raw /\ (-1 <= raw <= 1)%Q /\
    StockTwits.freshness sig = Fin fresh /\ (0 < fresh <= 1)%Q /\
    StockTwits.sentiment sig = Fin s /\
    (Qabs s <= Qabs (Scoring.weights_stocktwits source_ex))%Q /\
    StockTwits.sig_bullish sig = Fin bu /\ (0 <= bu <= n)%Q /\
    StockTwits.sig_bearish sig = Fin be /\ (0 <= be <= n)%Q.
Proof.
  apply (X18_stocktwits_signal source_ex pow_half getTime_ex 1736175900000 "NVDA"
           messages_ex).
  - unfold pow_number, pow_half, fin. intros q. discriminate.
  - reflexivity.
  - repeat (apply Forall_cons; split;
              [unfold dated; cbn; first [exact I | right; eexists; reflexivity]|]).
    apply Forall_nil. exact I.
  - cbn. lia.
Defined.

Module TwitsGatherFacts.

Import Scoring StockTwits.

Section Bounds.

Variable net : nat -> string -> NetAnswer.

Lemma fetch3_bounds url w :
  let w' := snd (fetchWithRetry net url 3 w) in
  (length (requests w') <= length (requests w) + 3)%nat /\
  slept w <= slept w' <= slept w + 7000.
Proof.
  cbv zeta. unfold fetchWithRetry.
  destruct (retryLoop_spec net url 3 3 w (Nat.le_refl _)) as (n & m & Hn & Hr & Hs & _ & Hres).
  cbv zeta in Hres. cbn [Nat.sub] in Hs. fold (backoff m) in Hs.
  assert (Hm : (m <= 3)%nat).
  { destruct (fst (retryLoop net url 3 3 w)).
    - destruct Hres as [-> _]. lia.
    - destruct Hres as [[-> _]|[-> _]]; lia. }
  split.
  - rewrite Hr, length_app, repeat_length. lia.
  - unfold slept. rewrite Hs, total_app, total_backoff.
    assert (H1 : 0 < 2 ^ Z.of_nat m) by (apply Z.pow_pos_nonneg; lia).
    assert (H2 : 2 ^ Z.of_nat m <= 2 ^ 3) by (apply Z.pow_le_mono_r; lia).
    change (2 ^ 3) with 8 in H2. lia.
Qed.

Variable SOURCE_CONFIG : SourceConfig.
Variable pow : num -> num -> num.
Variable getTime : string -> num.
Variable encodeURIComponent : string -> string.

Local Abbreviation symbolStep :=
  (symbolStep net SOURCE_CONFIG pow getTime encodeURIComponent).

Local Abbreviation emitted := (emitted SOURCE_CONFIG pow getTime).

Lemma symbolStep_bounds signals w sym :
  Forall emitted signals ->
  let out := symbolStep (signals, w) sym in
  Forall emitted (fst out) /\
  (length (fst out) <= S (length signals))%nat /\
  (length (requests (snd out)) <= length (requests w) + 3)%nat /\
  slept w <= slept (snd out) <= slept w + 7200.
Proof.
  intros H. cbv zeta. unfold StockTwits.symbolStep.
  pose proof (fetch3_bounds (streamUrl encodeURIComponent sym) w) as [Hreq Hsl].
  cbv zeta in Hreq, Hsl.
  destruct (fetchWithRetry net (streamUrl encodeURIComponent sym) 3 w) as [res w1].
  cbn [snd] in Hreq, Hsl.
  destruct res as [res|]; cbn [fst snd]; [|repeat split; auto; lia].
  destruct (body res) as [|symbols messages]; cbn [fst snd].
  { repeat split; auto; cbn [requests log]; try lia; unfold slept in *; cbn [sleeps log]; lia. }
  assert (Hslept : slept (sleep 200 w1) = slept w1 + 200).
  { unfold slept. cbn [sleeps sleep]. rewrite total_app. cbn. lia. }
  rewrite Hslept. cbn [requests sleep].
  destruct (5 <=? length (default [] messages))%nat eqn:E5.
  - apply Nat.leb_le in E5. split; [|rewrite length_app; cbn [length]; repeat split; lia].
    apply Forall_app. split; [exact H|]. constructor; [|constructor].
    split; [exact E5|]. eexists _, _. split; reflexivity.
  - repeat split; auto; lia.
Qed.

Lemma fold_symbolStep_bounds syms : forall signals w,
  Forall emitted signals ->
  let out := fold_left symbolStep syms (signals, w) in
  Forall emitted (fst out) /\
  (length (fst out) <= length signals + length syms)%nat /\
  (length (requests (snd out)) <= length (requests w) + 3 * length syms)%nat /\
  slept w <= slept (snd out) <= slept w + 7200 * Z.of_nat (length syms).
Proof.
  induction syms as [|sym syms IH]; intros signals w H; cbv zeta; cbn [fold_left].
  - cbn. repeat split; auto; lia.
  - pose proof (symbolStep_bounds signals w sym H) as (H1 & H2 & H3 & H4).
    destruct (symbolStep (signals, w) sym) as [signals1 w1]. cbn [fst snd] in *.
    destruct (IH signals1 w1 H1) as (I1 & I2 & I3 & I4).
    split; [exact I1|]. cbn [length]. repeat split; lia.
Qed.

End Bounds.

End TwitsGatherFacts.

Import TwitsGatherFacts.

(** X19.  One run of the StockTwits gatherer emits at most 15 signals,
    each for a symbol whose stream returned at least 5 messages; it sends
    at most 48 requests and sleeps at most 115 seconds in all, whatever
    the API answers.  When the trending request yields no ok response,
    the run emits nothing and sends no request for a stream. *)
Theorem X19_gatherStockTwits (net : nat -> string -> StockTwits.NetAnswer)
    (cfg : Scoring.SourceConfig) (pow : num -> num -> num) (getTime : string -> num)
    (encodeURIComponent : string -> string) (w : StockTwits.World) :
  let out := StockTwits.gatherStockTwits net cfg pow getTime encodeURIComponent w in
  (length (fst out) <= 15)%nat /\
  (forall sig, In sig (fst out) ->
     (5 <= StockTwits.volume sig)%nat /\
     exists now messages,
       sig = StockTwits.signalFor cfg pow getTime now (StockTwits.symbol sig) messages /\
       StockTwits.volume sig = length messages) /\
  (length (StockTwits.requests (snd out)) <= length (StockTwits.requests w) + 48)%nat /\
  slept w <= slept (snd out) <= slept w + 115000 /\
  (fst (StockTwits.fetchWithRetry net StockTwits.trendingUrl 3 w) = None ->
   fst out = [] /\
   (length (StockTwits.requests (snd out)) <= length (StockTwits.requests w) + 3)%nat).
Proof.
  intros out. subst out. unfold StockTwits.gatherStockTwits.
  pose proof (fetch3_bounds net StockTwits.trendingUrl w) as [Hreq Hsl].
  cbv zeta in Hreq, Hsl.
  destruct (StockTwits.fetchWithRetry net StockTwits.trendingUrl 3 w) as [res w1].
  cbn [fst snd] in *.
  destruct res as [res|].
  2: { cbn [fst snd StockTwits.log StockTwits.requests]. unfold slept in *.
       cbn [StockTwits.sleeps StockTwits.log].
       split; [cbn; lia|]. split; [intros sig []|]. split; [lia|]. split; [lia|].
       intros _. split; [reflexivity|lia]. }
  destruct (StockTwits.body res) as [|symbols messages].
  { cbn [fst snd StockTwits.log StockTwits.requests]. unfold slept in *.
    cbn [StockTwits.sleeps StockTwits.log].
    split; [cbn; lia|]. split; [intros sig []|]. split; [lia|]. split; [lia|].
    discriminate. }
  cbv zeta.
  destruct (fold_symbolStep_bounds net cfg pow getTime encodeURIComponent
              (firstn 15 (default [] symbols)) [] w1 ltac:(constructor))
    as (H1 & H2 & H3 & H4).
  assert (Hlen : (length (firstn 15 (default [] symbols)) <= 15)%nat).
  { rewrite length_firstn. lia. }
  cbn [length] in H2.
  split; [lia|]. split.
  { intros sig Hsig. rewrite Forall_forall in H1.
    apply (H1 sig). apply list_elem_of_In. exact Hsig. }
  split; [lia|]. split; [lia|]. discriminate.
Qed.

(** ** Engagement thresholds (helpers/sentiment.ts) *)

Module SortFacts.

Import Entries.

Section Any.

Context {A : Type} (cmp : A -> A -> num).

Lemma insert_sorted_perm x l : Permutation (insert_sorted cmp x l) (x :: l).
Proof.
  induction l as [|y l IH]; cbn [insert_sorted]; [reflexivity|].
  destruct (cmp x y >? finZ 0)%num; [|reflexivity].
  rewrite IH. apply perm_swap.
Qed.

(** The sort keeps the elements. *)
Lemma sort_perm l : Permutation (sort cmp l) l.
Proof.
  induction l as [|x l IH]; cbn [sort foldr]; [reflexivity|].
  fold (sort cmp l). rewrite insert_sorted_perm, IH. reflexivity.
Qed.

Lemma sort_In z l : In z (sort cmp l) <-> In z l.
Proof.
  rewrite <- !list_elem_of_In. split; intros H.
  - rewrite <- (sort_perm l). exact H.
  - rewrite (sort_perm l). exact H.
Qed.

End Any.

End SortFacts.

Module ScoringFacts.

Import Entries Scoring SortFacts.

Lemma byThresholdDesc_gt a b :
  (byThresholdDesc a b >? finZ 0)%num = true <-> fst a < fst b.
Proof.
  unfold byThresholdDesc, finZ. cbn [Num.sub Num.add Num.neg].
  rewrite gt_fin. rewrite <- inject_Z_opp, <- inject_Z_plus, <- (Zlt_Qlt 0). lia.
Qed.

Lemma insert_sorted_desc x l :
  StronglySorted descT l -> StronglySorted descT (insert_sorted byThresholdDesc x l).
Proof.
  induction 1 as [|y l Hl IH Hy]; cbn [insert_sorted].
  - repeat constructor.
  - destruct (byThresholdDesc x y >? finZ 0)%num eqn:E.
    + apply byThresholdDesc_gt in E. constructor; [exact IH|].
      apply Forall_forall. intros z Hz.
      apply list_elem_of_In in Hz.
      apply (Permutation_in _ (insert_sorted_perm _ x l)) in Hz.
      destruct Hz as [<-|Hz]; [unfold descT; lia|].
      rewrite Forall_forall in Hy. apply Hy, list_elem_of_In, Hz.
    + assert (Hle : fst y <= fst x).
      { destruct (Z_lt_le_dec (fst x) (fst y)) as [Hlt|Hle]; [|exact Hle].
        apply byThresholdDesc_gt in Hlt. congruence. }
      constructor; [constructor; assumption|].
      constructor; [exact Hle|].
      eapply Forall_impl; [exact Hy|]. unfold descT. intros z Hz. lia.
Qed.

Lemma sort_desc l : StronglySorted descT (sort byThresholdDesc l).
Proof.
  induction l as [|x l IH]; cbn [sort foldr]; [constructor|].
  apply insert_sorted_desc, IH.
Qed.

(** In a table sorted by descending threshold, the first entry whose
    threshold the count reaches has the greatest such threshold. *)
Lemma find_desc (count : Z) l :
  StronglySorted descT l ->
  match find (fun e => count >=? fst e) l with
  | Some e => In e l /\ fst e <= count /\
              forall e', In e' l -> fst e' <= count -> fst e' <= fst e
  | None => forall e', In e' l -> count < fst e'
  end.
Proof.
  induction 1 as [|x l Hl IH Hx]; cbn [find]; [intros e' []|].
  destruct (count >=? fst x) eqn:E.
  - apply Z.geb_le in E. split; [left; reflexivity|]. split; [exact E|].
    intros e' [<-|He'] _; [lia|].
    rewrite Forall_forall in Hx. apply (Hx e'), list_elem_of_In, He'.
  - assert (Hlt : count < fst x).
    { destruct (Z_lt_le_dec count (fst x)) as [H|H]; [exact H|].
      apply Z.geb_le in H. congruence. }
    destruct (find _ l) as [e|].
    + destruct IH as (H1 & H2 & H3). split; [right; exact H1|]. split; [exact H2|].
      intros e' [<-|He'] Hc; [lia|]. apply H3; assumption.
    + intros e' [<-|He']; [exact Hlt|]. apply IH, He'.
Qed.

Lemma NoDup_fst_unique (table : list (Z * Q)) k m m' :
  NoDup (map fst table) -> In (k, m) table -> In (k, m') table -> m = m'.
Proof.
  induction table as [|[k0 m0] table IH]; [contradiction|].
  cbn [map fst]. intros Hnd. apply NoDup_cons in Hnd as [Hnotin Hnd].
  assert (Hno : forall x, In (k0, x) table -> False).
  { intros x Hx. apply Hnotin, list_elem_of_In, in_map_iff. exists (k0, x). auto. }
  intros [H1|H1] [H2|H2].
  - congruence.
  - injection H1 as -> ->. exfalso. eapply Hno, H2.
  - injection H2 as -> ->. exfalso. eapply Hno, H1.
  - apply IH; assumption.
Qed.

End ScoringFacts.

Import SortFacts ScoringFacts.

(** X20.  The engagement multiplier of a count is that of the greatest
    threshold of the table that the count reaches, in whatever order the
    table lists its (distinct) thresholds, and the default (0.8 for
    upvotes, 0.9 for comments) when the count reaches none; the result is
    the mean of the upvote and the comment multiplier. *)
Theorem X20_getEngagementMultiplier (cfg : Scoring.SourceConfig) (upvotes comments : Z)
    (table : list (Z * Q)) (count : Z) (dflt : Q) :
  NoDup (map fst table) ->
  ((forall e, In e table -> count < fst e) ->
   Scoring.multiplierFor table count dflt = dflt) /\
  (forall k m,
     In (k, m) table -> k <= count ->
     (forall e, In e table -> fst e <= count -> fst e <= k) ->
     Scoring.multiplierFor table count dflt = m) /\
  (In (Scoring.multiplierFor table count dflt) (dflt :: map snd table)) /\
  Scoring.getEngagementMultiplier cfg upvotes comments
  = Fin ((Scoring.multiplierFor (Scoring.engagement_upvotes cfg) upvotes (8 # 10)
          + Scoring.multiplierFor (Scoring.engagement_comments cfg) comments (9 # 10))
         / inject_Z 2).
Proof.
  intros Hnd. unfold Scoring.multiplierFor.
  pose proof (find_desc count _ (sort_desc table)) as Hfind.
  destruct (find _ (Entries.sort Scoring.byThresholdDesc table)) as [e|].
  - destruct Hfind as (Hin & Hle & Hmax). apply sort_In in Hin.
    split; [|split; [|split]].
    + intros Hnone. specialize (Hnone e Hin). lia.
    + intros k m Hkm Hk Hgreatest.
      assert (Hek : fst e = k).
      { specialize (Hgreatest e Hin Hle).
        specialize (Hmax (k, m) ltac:(apply sort_In; exact Hkm) Hk). cbn in Hmax. lia. }
      destruct e as [k' m']. cbn in Hek. subst k'. cbn [snd].
      apply (NoDup_fst_unique table k); assumption.
    + right. apply in_map. exact Hin.
    + reflexivity.
  - split; [reflexivity|]. split; [|split; [left; reflexivity|reflexivity]].
    intros k m Hkm Hk _. specialize (Hfind (k, m) ltac:(apply sort_In; exact Hkm)).
    cbn in Hfind. lia.
Qed.

(** 250 upvotes and 5 comments against the example tables. *)
Lemma X20_getEngagementMultiplier_witness :
  ((forall e, In e (Scoring.engagement_upvotes source_ex) -> 250 < fst e) ->
   Scoring.multiplierFor (Scoring.engagement_upvotes source_ex) 250 (8 # 10) = (8 # 10)%Q) /\
  (forall k m,
     In (k, m) (Scoring.engagement_upvotes source_ex) -> k <= 250 ->
     (forall e, In e (Scoring.engagement_upvotes source_ex) -> fst e <= 250 -> fst e <= k) ->
     Scoring.multiplierFor (Scoring.engagement_upvotes source_ex) 250 (8 # 10) = m) /\
  (In (Scoring.multiplierFor (Scoring.engagement_upvotes source_ex) 250 (8 # 10))
      ((8 # 10)%Q :: map snd (Scoring.engagement_upvotes source_ex))) /\
  Scoring.getEngagementMultiplier source_ex 250 5
  = Fin ((Scoring.multiplierFor (Scoring.engagement_upvotes source_ex) 250 (8 # 10)
          + Scoring.multiplierFor (Scoring.engagement_comments source_ex) 5 (9 # 10))
         / inject_Z 2).
Proof.
  apply (X20_getEngagementMultiplier source_ex 250 5 (Scoring.engagement_upvotes source_ex)
           250 (8 # 10)).
  apply (bool_decide_unpack (NoDup (map fst (Scoring.engagement_upvotes source_ex)))).
  vm_compute. exact I.
Defined.

Example getEngagementMultiplier_runs :
  Scoring.getEngagementMultiplier source_ex 250 5 = Fin (((12 # 10) + (9 # 10)) / inject_Z 2).
Proof. reflexivity. Qed.

(** ** The crypto gatherer (gatherers/crypto.ts) *)

Module CryptoGatherFacts.

Import Crypto.

Section Gatherer.

Variable config : CryptoConfig.
Variable getCryptoSnapshot : string -> SnapshotAnswer.

Lemma momentumOf_fin (price prevClose : Q) :
  ~ (prevClose == 0)%Q ->
  momentumOf price prevClose = Fin ((price + - prevClose) / prevClose * inject_Z 100).
Proof.
  intros H. unfold momentumOf, fin, finZ. cbn [Num.sub Num.add Num.neg].
  rewrite div_fin by exact H. reflexivity.
Qed.

(** The raw sentiment of a move: positive and at most 1; 0.1 unless the
    move is upward. *)
Lemma rawSentimentOf_range (m : Q) :
  exists s, rawSentimentOf config (Fin m) = Fin s /\ (0 < s <= 1)%Q /\
            ((m <= 0)%Q -> s = (1 # 10)%Q).
Proof.
  unfold rawSentimentOf, fin, finZ. cbv zeta.
  destruct (Fin m >? Fin (inject_Z 0))%num eqn:Ebull.
  - num_cmp. unfold inject_Z in Ebull.
    destruct (Num.abs (Fin m) >=? _)%num; cbn [andb].
    + cbn [Num.abs]. rewrite div_fin by discriminate. rewrite min_fin.
      eexists. split; [reflexivity|].
      assert (Habs : (Qabs m == m)%Q) by (apply Qabs_pos; lra).
      assert (Hpos : (0 < Qabs m / inject_Z 5)%Q).
      { apply Qlt_shift_div_l; [reflexivity|]. lra. }
      split; [|intros Hle; lra].
      destruct (Num.Qlt_bool _ _) eqn:E; num_cmp; unfold inject_Z in *; lra.
    + eexists. split; [reflexivity|]. split; [lra|reflexivity].
  - rewrite andb_false_r. eexists. split; [reflexivity|]. split; [lra|reflexivity].
Qed.

Lemma cryptoStep_gathered symbols signals w symbol :
  In symbol symbols ->
  Forall (gathered symbols) signals ->
  let out := cryptoStep config getCryptoSnapshot (signals, w) symbol in
  Forall (gathered symbols) (fst out) /\
  (length (fst out) <= S (length signals))%nat /\
  asked (snd out) = asked w ++ [symbol].
Proof.
  intros Hin H. cbv zeta. unfold cryptoStep.
  destruct (snapshot_result (getCryptoSnapshot symbol)) as [| |snapshot]; cbn [fst snd].
  1-2: repeat split; auto.
  set (price := default 0%Q (latest_trade_price snapshot)).
  set (prevClose := default 0%Q (prev_daily_bar_c snapshot)).
  destruct (Qeq_bool price 0) eqn:Ep; cbn [orb fst snd]; [repeat split; auto|].
  destruct (Qeq_bool prevClose 0) eqn:Ec; cbn [fst snd]; [repeat split; auto|].
  num_cmp. cbv zeta. cbn [fst snd asked sleep ask].
  split; [|split; [rewrite length_app; cbn; lia|reflexivity]].
  apply Forall_app. split; [exact H|]. constructor; [|constructor].
  rewrite (momentumOf_fin price prevClose Ec).
  set (m := ((price + - prevClose) / prevClose * inject_Z 100)%Q).
  destruct (rawSentimentOf_range m) as (s & Hs & Hrange & Hdown).
  unfold gathered.
  cbn [sig_symbol isCrypto raw_sentiment sentiment Crypto.price bullish bearish momentum].
  split; [exact Hin|]. split; [reflexivity|]. split; [reflexivity|]. split; [exact Ep|].
  split; [destruct (Fin m >? finZ 0)%num; reflexivity|].
  exists s, m. split; [exact Hs|]. split; [exact Hrange|]. split; [reflexivity|].
  unfold finZ.
  destruct (Fin m >? Fin (inject_Z 0))%num eqn:E; num_cmp; unfold inject_Z in E.
  - split; [intros Hle; lra|reflexivity].
  - split; [intros Hle; split; [apply Hdown; exact Hle|reflexivity]|intros Hlt; lra].
Qed.

Lemma fold_cryptoStep_gathered symbols todo : forall signals w,
  (forall s, In s todo -> In s symbols) ->
  Forall (gathered symbols) signals ->
  let out := fold_left (cryptoStep config getCryptoSnapshot) todo (signals, w) in
  Forall (gathered symbols) (fst out) /\
  (length (fst out) <= length signals + length todo)%nat /\
  asked (snd out) = asked w ++ todo.
Proof.
  induction todo as [|symbol todo IH]; intros signals w Hsub H; cbv zeta; cbn [fold_left].
  - cbn. rewrite app_nil_r. repeat split; auto. lia.
  - destruct (cryptoStep_gathered symbols signals w symbol) as (H1 & H2 & H3);
      [apply Hsub; left; reflexivity|exact H|].
    destruct (cryptoStep config getCryptoSnapshot (signals, w) symbol) as [signals1 w1].
    cbn [fst snd] in *.
    destruct (IH signals1 w1) as (I1 & I2 & I3);
      [intros s Hs; apply Hsub; right; exact Hs|exact H1|].
    split; [exact I1|]. split; [cbn [length]; lia|].
    rewrite I3, H3, <- app_assoc. reflexivity.
Qed.

End Gatherer.

End CryptoGatherFacts.

Import CryptoGatherFacts.

(** X21.  The crypto gatherer asks for the snapshot of each configured
    symbol once, in order (of BTC/USD, ETH/USD and SOL/USD when none is
    configured), and of nothing when crypto is disabled.  Each signal it
    emits is for one of these symbols, is flagged as crypto, has a
    non-zero price and a sentiment that is positive and at most 1, also
    when the price fell: a move that is not upward yields the sentiment
    0.1 and is counted as bearish; an upward move is counted as bullish.
    So the rules, which keep the crypto signals of positive sentiment,
    keep every signal of the gatherer. *)
Theorem X21_gatherCrypto (config : Crypto.CryptoConfig)
    (getCryptoSnapshot : string -> Crypto.SnapshotAnswer) (w : Crypto.World) :
  let out := Crypto.gatherCrypto config getCryptoSnapshot w in
  let symbols :=
    default ["BTC/USD"; "ETH/USD"; "SOL/USD"]%string (Crypto.crypto_symbols config) in
  (Crypto.crypto_enabled config = false -> out = ([], w)) /\
  (Crypto.crypto_enabled config = true -> Crypto.asked (snd out) = Crypto.asked w ++ symbols) /\
  (length (fst out) <= length symbols)%nat /\
  (forall sig, In sig (fst out) ->
     In (Crypto.sig_symbol sig) symbols /\
     Crypto.isCrypto sig = true /\
     ~ (Crypto.price sig == 0)%Q /\
     Crypto.bullish sig + Crypto.bearish sig = 1 /\
     exists s m,
       Crypto.sentiment sig = Fin s /\ (0 < s <= 1)%Q /\
       Crypto.momentum sig = Fin m /\
       ((m <= 0)%Q -> s = (1 # 10)%Q /\ Crypto.bearish sig = 1) /\
       ((0 < m)%Q -> Crypto.bullish sig = 1)) /\
  List.filter (fun s => (Crypto.sentiment s >? finZ 0)%num) (List.filter Crypto.isCrypto (fst out))
  = fst out.
Proof.
  intros out symbols. subst out. unfold Crypto.gatherCrypto.
  destruct (Crypto.crypto_enabled config); cbn [negb].
  2: { split; [reflexivity|]. split; [discriminate|]. split; [cbn; lia|].
       split; [intros sig []|reflexivity]. }
  cbv zeta. fold symbols.
  destruct (fold_cryptoStep_gathered config getCryptoSnapshot symbols symbols [] w)
    as (H1 & H2 & H3); [auto|constructor|].
  destruct (fold_left _ symbols ([], w)) as [signals w1]. cbn [fst snd] in *.
  split; [discriminate|]. split; [intros _; exact H3|]. split; [exact H2|].
  assert (Hall : forall sig, In sig signals -> gathered symbols sig).
  { intros sig Hsig. rewrite Forall_forall in H1. apply H1, list_elem_of_In, Hsig. }
  split.
  - intros sig Hsig. destruct (Hall sig Hsig) as (G1 & G2 & _ & G4 & G5 & G6). auto.
  - clear H1 H2 H3. induction signals as [|sig signals IH]; [reflexivity|].
    destruct (Hall sig ltac:(left; reflexivity)) as (_ & G2 & _ & _ & _ & s & m & Gs & Gr & _).
    cbn [List.filter]. rewrite G2. cbn [List.filter]. rewrite Gs.
    assert (E : (Fin s >? finZ 0)%num = true) by (apply gt_fin; unfold inject_Z; lra).
    rewrite E. f_equal. apply IH. intros sig' Hsig'. apply Hall. right. exact Hsig'.
Qed.

(** A coin that fell by 4% and two that rose by 10%. *)
Example gatherCrypto_runs :
  let snap s :=
    {| Crypto.took := 30;
       Crypto.snapshot_result :=
         Crypto.SnapshotOf
           {| Crypto.latest_trade_price :=
                Some (if String.eqb s "BTC/USD" then 96 else 110)%Q;
              Crypto.prev_daily_bar_c := Some 100%Q;
              Crypto.daily_bar_v := Some 5%Q |} |} in
  map (fun s => (Crypto.sig_symbol s, Crypto.sentiment s, Crypto.bearish s))
      (fst (Crypto.gatherCrypto config_ex snap
              {| Crypto.asked := []; Crypto.sleeps := []; Crypto.c_log := [];
                 Crypto.c_now := 0 |}))
  = [("BTC/USD"%string, fin (1 # 10), 1);
     ("ETH/USD"%string, Fin (1 # 1), 0);
     ("SOL/USD"%string, Fin (1 # 1), 0)].
Proof. vm_compute. reflexivity. Qed.

(** ** The crypto trading loop (rules/crypto.ts) *)

Module CryptoRulesFacts.

Import Crypto.

Lemma sellsOf_app a b : sellsOf (a ++ b) = sellsOf a ++ sellsOf b.
Proof. unfold sellsOf. apply flat_map_app. Qed.

Lemma buysOf_app a b : buysOf (a ++ b) = buysOf a ++ buysOf b.
Proof. unfold buysOf. apply flat_map_app. Qed.

Lemma unfilled_app a b : unfilled (a ++ b) = unfilled a && unfilled b.
Proof. unfold unfilled. apply forallb_app. Qed.

Lemma unfilled_removelast a : unfilled a = true -> unfilled (removelast a) = true.
Proof.
  induction a as [|e a IH]; [reflexivity|]. intros H.
  cbn [unfilled forallb] in H. apply andb_true_iff in H as [He Ha].
  cbn [removelast]. destruct a as [|e' a]; [reflexivity|].
  cbn [unfilled forallb]. rewrite He. apply IH. exact Ha.
Qed.

Lemma unfilled_removelast_app a b :
  unfilled a = true -> unfilled (removelast b) = true ->
  unfilled (removelast (a ++ b)) = true.
Proof.
  intros Ha Hb. destruct b as [|e b].
  - rewrite app_nil_r. apply unfilled_removelast, Ha.
  - rewrite removelast_app by discriminate. rewrite unfilled_app, Ha. exact Hb.
Qed.

Section Rules.

Variable cfg : AgentConfig.
Variable config : CryptoConfig.
Variable researchCrypto : string -> num -> num -> Reply (option Research).
Variable sell : string -> Z.
Variable getAccount : nat -> Reply Account.
Variable buy : string -> num -> Reply bool.

Local Abbreviation exitStep := (Crypto.exitStep config sell).
Local Abbreviation entryStep := (Crypto.entryStep cfg config researchCrypto getAccount buy).
Local Abbreviation entryLoop := (Crypto.entryLoop cfg config researchCrypto getAccount buy).

(** *** Exits *)

Lemma exitStep_events t pos :
  events (exitStep t pos) = events t ++ exitEvents config pos /\
  cryptoResearch (exitStep t pos) = cryptoResearch t.
Proof.
  unfold Crypto.exitStep, exitEvents. cbv zeta.
  destruct (Exits.plPct pos >=? fin (crypto_take_profit_pct config))%num.
  - cbn [emit events cryptoResearch]. rewrite <- app_assoc. split; reflexivity.
  - destruct (Exits.plPct pos <=? - fin (crypto_stop_loss_pct config))%num.
    + cbn [emit events cryptoResearch]. rewrite <- app_assoc. split; reflexivity.
    + rewrite app_nil_r. split; reflexivity.
Qed.

Lemma fold_exitStep_events positions : forall t,
  events (fold_left exitStep positions t) = events t ++ flat_map (exitEvents config) positions /\
  cryptoResearch (fold_left exitStep positions t) = cryptoResearch t.
Proof.
  induction positions as [|pos positions IH]; intros t; cbn [fold_left flat_map].
  - rewrite app_nil_r. split; reflexivity.
  - destruct (IH (exitStep t pos)) as [I1 I2].
    destruct (exitStep_events t pos) as [E1 E2].
    rewrite I1, I2, E1, E2, <- app_assoc. split; reflexivity.
Qed.

(** The sells of the exit loop: the positions at or over the target or
    at or under the limit, in order. *)
Lemma exitEvents_sells pos :
  buysOf (exitEvents config pos) = [] /\
  unfilled (exitEvents config pos) = true /\
  (forall e, In e (exitEvents config pos) ->
     match e with Sell _ _ | Logged _ _ => True | _ => False end) /\
  ((sellsOf (exitEvents config pos) = [] /\
    (Exits.plPct pos >=? fin (crypto_take_profit_pct config))%num = false /\
    (Exits.plPct pos <=? - fin (crypto_stop_loss_pct config))%num = false) \/
   exists r, sellsOf (exitEvents config pos) = [(symbol pos, r)] /\ exitReason config pos r).
Proof.
  unfold exitEvents, exitReason.
  destruct (Exits.plPct pos >=? fin (crypto_take_profit_pct config))%num eqn:Etp.
  - split; [reflexivity|]. split; [reflexivity|]. split.
    + intros e [<-|[<-|[]]]; exact I.
    + right. eexists. split; [reflexivity|]. left. split; reflexivity.
  - destruct (Exits.plPct pos <=? - fin (crypto_stop_loss_pct config))%num eqn:Esl.
    + split; [reflexivity|]. split; [reflexivity|]. split.
      * intros e [<-|[<-|[]]]; exact I.
      * right. eexists. split; [reflexivity|]. right. repeat split; reflexivity.
    + split; [reflexivity|]. split; [reflexivity|]. split; [intros e []|].
      left. repeat split; reflexivity.
Qed.

Lemma exits_spec positions :
  let exits := flat_map (exitEvents config) positions in
  buysOf exits = [] /\
  unfilled exits = true /\
  (forall e, In e exits -> match e with Sell _ _ | Logged _ _ => True | _ => False end) /\
  (length (sellsOf exits) <= length positions)%nat /\
  (forall s r, In (s, r) (sellsOf exits) ->
     exists pos, In pos positions /\ symbol pos = s /\ exitReason config pos r) /\
  (forall pos, In pos positions ->
     (Exits.plPct pos >=? fin (crypto_take_profit_pct config))%num = true \/
     (Exits.plPct pos <=? - fin (crypto_stop_loss_pct config))%num = true ->
     exists r, In (symbol pos, r) (sellsOf exits)).
Proof.
  cbv zeta. induction positions as [|pos positions IH]; cbn [flat_map].
  - split; [reflexivity|]. split; [reflexivity|]. split; [intros e []|].
    split; [cbn; lia|]. split; [intros s r []|intros pos []].
  - destruct IH as (I1 & I2 & I3 & I4 & I5 & I6).
    destruct (exitEvents_sells pos) as (E1 & E2 & E3 & E4).
    rewrite buysOf_app, unfilled_app, sellsOf_app, E1, E2, I1, I2.
    split; [reflexivity|]. split; [reflexivity|]. split.
    { intros e He. apply in_app_or in He as [He|He]; [apply E3|apply I3]; exact He. }
    destruct E4 as [(E4 & Ntp & Nsl)|(r0 & E4 & Er)]; rewrite E4.
    + cbn [app length]. split; [lia|]. split.
      * intros s r Hin. destruct (I5 s r Hin) as (p & Hp & Hs & Hr).
        exists p. split; [right; exact Hp|]. split; assumption.
      * intros p [<-|Hp] Hor.
        -- destruct Hor; congruence.
        -- apply I6; assumption.
    + cbn [app length]. split; [lia|]. split.
      * intros s r [Heq|Hin].
        -- injection Heq as <- <-. exists pos. split; [left; reflexivity|].
           split; [reflexivity|exact Er].
        -- destruct (I5 s r Hin) as (p & Hp & Hs & Hr).
           exists p. split; [right; exact Hp|]. split; assumption.
      * intros p [<-|Hp] Hor.
        -- exists r0. left. reflexivity.
        -- destruct (I6 p Hp Hor) as (r & Hr). exists r. right. exact Hr.
Qed.

(** *** Entries *)

(** A position size that is not under 10 is a number between 10 and the
    configured maximum, or it is no number at all. *)
Lemma positionSizeFor_range account research :
  (positionSizeFor cfg config account research <? finZ 10)%num = false ->
  positionSizeFor cfg config account research = NaN \/
  sizeOk config (positionSizeFor cfg config account research).
Proof.
  unfold positionSizeFor, Entries.sizePct, fin, finZ, sizeOk.
  rewrite min_fin. rewrite div_fin by discriminate. cbn [Num.mul].
  set (x := (cash account * _)%Q).
  destruct (r_confidence research) as [c| | |]; cbn [Num.mul].
  - rewrite min_fin. intros H. right.
    eexists. split; [reflexivity|]. num_cmp. unfold inject_Z in *.
    split; [exact H|].
    destruct (Num.Qlt_bool (crypto_max_position_value config) _) eqn:E; num_cmp; lra.
  - unfold Num.inf_of_sign.
    destruct (Num.Qsgn_pos x); [|destruct (Num.Qsgn_neg x)]; cbn; intros H.
    + right. eexists. split; [reflexivity|].
      apply Qlt_bool_false in H. unfold inject_Z in H. lra.
    + discriminate.
    + left. reflexivity.
  - unfold Num.inf_of_sign.
    destruct (Num.Qsgn_pos (- x)); [|destruct (Num.Qsgn_neg (- x))]; cbn; intros H.
    + right. eexists. split; [reflexivity|].
      apply Qlt_bool_false in H. unfold inject_Z in H. lra.
    + discriminate.
    + left. reflexivity.
  - intros _. left. reflexivity.
Qed.

(** With a confidence that is a finite number it is a number. *)
Lemma positionSizeFor_numeric account research :
  numeric research ->
  (positionSizeFor cfg config account research <? finZ 10)%num = false ->
  sizeOk config (positionSizeFor cfg config account research).
Proof.
  intros [c Hc] H. destruct (positionSizeFor_range account research H) as [E|E]; [|exact E].
  exfalso. revert E. unfold positionSizeFor, Entries.sizePct, fin, finZ.
  rewrite min_fin. rewrite div_fin by discriminate. rewrite Hc. cbn [Num.mul].
  rewrite min_fin. discriminate.
Qed.

(** The entry loop is followed for a property [Inv] that every research
    result in the cache and every answer of [researchCrypto] has, and a
    property [okSize] that the sizes computed from such results have. *)
Section Sizes.

Variable Inv : Research -> Prop.
Variable okSize : num -> Prop.

Hypothesis Hsize : forall account research,
  Inv research ->
  (positionSizeFor cfg config account research <? finZ 10)%num = false ->
  okSize (positionSizeFor cfg config account research).

Hypothesis Hanswers : forall symbol momentum sentiment research,
  r_value (researchCrypto symbol momentum sentiment) = Some research -> Inv research.

Lemma entryStep_events held t signal :
  (forall s research, cryptoResearch t !! s = Some research -> Inv research) ->
  exists evs,
    match entryStep held t signal with
    | inl t' =>
      events t' = events t ++ evs /\ step_ok okSize signal evs false /\
      (forall s research, cryptoResearch t' !! s = Some research -> Inv research)
    | inr t' =>
      events t' = events t ++ evs /\ step_ok okSize signal evs true /\
      (forall s research, cryptoResearch t' !! s = Some research -> Inv research)
    end.
Proof.
  intros Hcache. unfold Crypto.entryStep.
  destruct (maxCryptoPositions config <=? held)%nat.
  { exists []. rewrite app_nil_r. split; [reflexivity|]. split; [|exact Hcache].
    split; [reflexivity|]. left. split; reflexivity. }
  cbv zeta.
  set (a := researchCrypto _ _ _).
  assert (Hrest : forall (research : option Research) (t1 : Trading) (pre : list Event),
    events t1 = events t ++ pre -> sellsOf pre = [] -> buysOf pre = [] ->
    unfilled pre = true ->
    (forall r, research = Some r -> Inv r) ->
    (forall s r, cryptoResearch t1 !! s = Some r -> Inv r) ->
    exists evs,
      match
        match research with
        | None => inl (emit (Logged "Crypto" "research_skip") 0 t1)
        | Some research =>
          if negb (String.eqb (r_verdict research) "BUY")
          then inl (emit (Logged "Crypto" "research_skip") 0 t1)
          else if (r_confidence research <? fin (min_analyst_confidence cfg))%num
          then inl (emit (Logged "Crypto" "low_confidence") 0 t1)
          else
            if (positionSizeFor cfg config (r_value (getAccount (accountCalls t1))) research
                <? finZ 10)%num
            then inl (emit (Logged "Crypto" "buy_skipped") 0
                        (emit GetAccount (r_took (getAccount (accountCalls t1))) t1))
            else
              if r_value (buy (sig_symbol signal)
                            (positionSizeFor cfg config
                               (r_value (getAccount (accountCalls t1))) research))
              then inr (emit (Buy (sig_symbol signal)
                                (positionSizeFor cfg config
                                   (r_value (getAccount (accountCalls t1))) research)
                                (r_value (buy (sig_symbol signal)
                                   (positionSizeFor cfg config
                                      (r_value (getAccount (accountCalls t1))) research))))
                          (r_took (buy (sig_symbol signal)
                                   (positionSizeFor cfg config
                                      (r_value (getAccount (accountCalls t1))) research)))
                          (emit GetAccount (r_took (getAccount (accountCalls t1))) t1))
              else inl (emit (Buy (sig_symbol signal)
                                (positionSizeFor cfg config
                                   (r_value (getAccount (accountCalls t1))) research)
                                (r_value (buy (sig_symbol signal)
                                   (positionSizeFor cfg config
                                      (r_value (getAccount (accountCalls t1))) research))))
                          (r_took (buy (sig_symbol signal)
                                   (positionSizeFor cfg config
                                      (r_value (getAccount (accountCalls t1))) research)))
                          (emit GetAccount (r_took (getAccount (accountCalls t1))) t1))
        end
      with
      | inl t' =>
        events t' = events t ++ evs /\ step_ok okSize signal evs false /\
        (forall s r, cryptoResearch t' !! s = Some r -> Inv r)
      | inr t' =>
        events t' = events t ++ evs /\ step_ok okSize signal evs true /\
        (forall s r, cryptoResearch t' !! s = Some r -> Inv r)
      end).
  { intros research t1 pre Hev Hs Hb Hu Hinv Hc1.
    assert (Hskip : forall ev, exists evs,
      events (emit (Logged "Crypto" ev) 0 t1) = events t ++ evs /\
      step_ok okSize signal evs false /\
      (forall s r, cryptoResearch (emit (Logged "Crypto" ev) 0 t1) !! s = Some r -> Inv r)).
    { intros ev. exists (pre ++ [Logged "Crypto" ev]). cbn [emit events cryptoResearch].
      rewrite Hev, <- app_assoc. split; [reflexivity|]. split; [|exact Hc1]. split.
      - rewrite sellsOf_app, Hs. reflexivity.
      - left. rewrite buysOf_app, unfilled_app, Hb, Hu. split; reflexivity. }
    destruct research as [research|]; [|apply Hskip].
    specialize (Hinv research eq_refl).
    destruct (negb (String.eqb (r_verdict research) "BUY")); [apply Hskip|].
    destruct (r_confidence research <? fin (min_analyst_confidence cfg))%num;
      [apply Hskip|].
    set (account := r_value (getAccount (accountCalls t1))).
    destruct (positionSizeFor cfg config account research <? finZ 10)%num eqn:Esize.
    - exists (pre ++ [GetAccount; Logged "Crypto" "buy_skipped"]).
      cbn [emit events cryptoResearch].
      rewrite Hev, <- !app_assoc. split; [reflexivity|]. split; [|exact Hc1]. split.
      + rewrite sellsOf_app, Hs. reflexivity.
      + left. rewrite buysOf_app, unfilled_app, Hb, Hu. split; reflexivity.
    - pose proof (Hsize account research Hinv Esize) as Hok.
      set (size := positionSizeFor cfg config account research) in *.
      assert (Hbuy : forall f,
        events (emit (Buy (sig_symbol signal) size f)
                  (r_took (buy (sig_symbol signal) size))
                  (emit GetAccount (r_took (getAccount (accountCalls t1))) t1))
        = events t ++ (pre ++ [GetAccount]) ++ [Buy (sig_symbol signal) size f] /\
        step_ok okSize signal ((pre ++ [GetAccount]) ++ [Buy (sig_symbol signal) size f]) f /\
        (forall s r,
           cryptoResearch
             (emit (Buy (sig_symbol signal) size f)
                (r_took (buy (sig_symbol signal) size))
                (emit GetAccount (r_took (getAccount (accountCalls t1))) t1)) !! s = Some r ->
           Inv r)).
      { intros f. cbn [emit events cryptoResearch]. rewrite Hev, <- !app_assoc.
        split; [reflexivity|]. split; [|exact Hc1]. split.
        - rewrite !sellsOf_app, Hs. reflexivity.
        - right. exists size, (pre ++ [GetAccount]). rewrite <- !app_assoc.
          split; [reflexivity|]. rewrite buysOf_app, unfilled_app, Hb, Hu.
          split; [reflexivity|]. split; [reflexivity|exact Hok]. }
      destruct (r_value (buy (sig_symbol signal) size)) eqn:Efill;
        eexists; apply Hbuy. }
  assert (Hfresh : forall research,
    r_value a = Some research ->
    forall s r,
      <[sig_symbol signal := research]> (cryptoResearch t) !! s = Some r -> Inv r).
  { intros research Ha s r Hl.
    destruct (decide (sig_symbol signal = s)) as [<-|Hne].
    - rewrite lookup_insert_eq in Hl. injection Hl as <-. apply (Hanswers _ _ _ _ Ha).
    - rewrite lookup_insert_ne in Hl by exact Hne. apply (Hcache _ _ Hl). }
  destruct (cryptoResearch t !! sig_symbol signal) as [cached|] eqn:Ecache.
  - destruct (t_now t - r_timestamp cached >? CRYPTO_RESEARCH_TTL_MS)%Z.
    + destruct (r_value a) as [research|] eqn:Ea.
      * apply (Hrest (Some research) _ [Researched (sig_symbol signal)]);
          try reflexivity.
        -- intros r [= <-]. apply (Hanswers _ _ _ _ Ea).
        -- apply (Hfresh research eq_refl).
      * apply (Hrest None _ [Researched (sig_symbol signal)]); try reflexivity.
        -- intros r Hr. discriminate.
        -- exact Hcache.
    + apply (Hrest (Some cached) t []); [rewrite app_nil_r|..]; try reflexivity.
      * intros r [= <-]. apply (Hcache _ _ Ecache).
      * exact Hcache.
  - destruct (r_value a) as [research|] eqn:Ea.
    + apply (Hrest (Some research) _ [Researched (sig_symbol signal)]); try reflexivity.
      * intros r [= <-]. apply (Hanswers _ _ _ _ Ea).
      * apply (Hfresh research eq_refl).
    + apply (Hrest None _ [Researched (sig_symbol signal)]); try reflexivity.
      * intros r Hr. discriminate.
      * exact Hcache.
Qed.

Lemma step_ok_buys signal evs stops :
  step_ok okSize signal evs stops ->
  (length (buysOf evs) <= 1)%nat /\
  (forall b, In b (buysOf evs) ->
     fst (fst b) = sig_symbol signal /\ okSize (snd (fst b))) /\
  unfilled (removelast evs) = true /\
  (stops = false -> unfilled evs = true).
Proof.
  intros [_ [[Hb Hu]|(size & pre & -> & Hb & Hu & Hq)]].
  - rewrite Hb. split; [cbn; lia|]. split; [intros b []|].
    split; [apply unfilled_removelast, Hu|intros _; exact Hu].
  - rewrite buysOf_app, Hb, removelast_last, unfilled_app, Hu. cbn [app buysOf flat_map].
    split; [cbn; lia|]. split.
    + intros b [<-|[]]. cbn [fst snd]. split; [reflexivity|exact Hq].
    + split; [reflexivity|]. intros ->. reflexivity.
Qed.

(** The entry loop: no sell; at most one buy for each signal, each for a
    signal of the list and with a size that satisfies [okSize]; only the
    last event can be a buy that was filled. *)
Lemma entryLoop_events held signals : forall t,
  (forall s research, cryptoResearch t !! s = Some research -> Inv research) ->
  exists evs,
    events (entryLoop held signals t) = events t ++ evs /\
    sellsOf evs = [] /\
    (length (buysOf evs) <= length signals)%nat /\
    unfilled (removelast evs) = true /\
    (forall b, In b (buysOf evs) ->
       (exists sig, In sig signals /\ sig_symbol sig = fst (fst b)) /\
       okSize (snd (fst b))).
Proof.
  induction signals as [|signal rest IH]; intros t Hcache; cbn [Crypto.entryLoop].
  - exists []. rewrite app_nil_r. split; [reflexivity|]. split; [reflexivity|].
    split; [cbn; lia|]. split; [reflexivity|intros b []].
  - destruct (entryStep_events held t signal Hcache) as (evs1 & H1).
    destruct (entryStep held t signal) as [t1|t1]; destruct H1 as (Hev & Hok & Hc1);
      pose proof (step_ok_buys signal evs1 _ Hok) as (Hlen & Hbuys & Hlast & Hun).
    + destruct (IH t1 Hc1) as (evs2 & I1 & I2 & I3 & I4 & I5).
      exists (evs1 ++ evs2). rewrite I1, Hev, <- app_assoc. split; [reflexivity|].
      rewrite sellsOf_app, buysOf_app, I2, (proj1 Hok), length_app. split; [reflexivity|].
      split; [cbn [length]; lia|].
      split; [apply unfilled_removelast_app; [apply Hun; reflexivity|exact I4]|].
      intros b Hb. apply in_app_or in Hb as [Hb|Hb].
      * destruct (Hbuys b Hb) as [Hs Hq]. split; [|exact Hq].
        exists signal. split; [left; reflexivity|symmetry; exact Hs].
      * destruct (I5 b Hb) as [(sig & Hin & Hs) Hq]. split; [|exact Hq].
        exists sig. split; [right; exact Hin|exact Hs].
    + exists evs1. split; [exact Hev|]. split; [exact (proj1 Hok)|].
      split; [cbn [length]; lia|]. split; [exact Hlast|].
      intros b Hb. destruct (Hbuys b Hb) as [Hs Hq]. split; [|exact Hq].
      exists signal. split; [left; reflexivity|symmetry; exact Hs].
Qed.

End Sizes.

Lemma In_firstn_In {A} (n : nat) (l : list A) x : In x (firstn n l) -> In x l.
Proof.
  intros H. rewrite <- (firstn_skipn n l). apply in_or_app. left. exact H.
Qed.

(** The signals that are ranked: crypto signals of positive sentiment
    whose symbol is not held. *)
Lemma cryptoSignals_In signals (held : list string) sig :
  In sig (cryptoSignals signals (list_to_set held)) ->
  In sig signals /\ isCrypto sig = true /\ (sentiment sig >? finZ 0)%num = true /\
  ~ In (sig_symbol sig) held.
Proof.
  unfold cryptoSignals. intros H. apply sort_In in H.
  apply filter_In in H as [H Hsent]. apply filter_In in H as [H Hheld].
  apply filter_In in H as [H Hcrypto].
  split; [exact H|]. split; [exact Hcrypto|]. split; [exact Hsent|].
  intros Hin. apply negb_true_iff, bool_decide_eq_false in Hheld. apply Hheld.
  apply elem_of_list_to_set, list_elem_of_In, Hin.
Qed.

(** The whole run, for the same [Inv] and [okSize]. *)
Lemma runCryptoTrading_entries (Inv : Research -> Prop) (okSize : num -> Prop)
    signals positions t :
  (forall account research,
     Inv research ->
     (positionSizeFor cfg config account research <? finZ 10)%num = false ->
     okSize (positionSizeFor cfg config account research)) ->
  (forall symbol momentum sentiment research,
     r_value (researchCrypto symbol momentum sentiment) = Some research -> Inv research) ->
  (forall s research, cryptoResearch t !! s = Some research -> Inv research) ->
  let held := List.filter (isCryptoPosition config) positions in
  exists new,
    events (runCryptoTrading cfg config researchCrypto sell getAccount buy
              signals positions t) = events t ++ new /\
    (length (buysOf new) <= 2)%nat /\
    unfilled (removelast new) = true /\
    (forall b, In b (buysOf new) ->
       entered okSize signals (map symbol held) b /\
       (length held < maxCryptoPositions config <= 3)%nat).
Proof.
  intros Hsize Hanswers Hcache held. unfold runCryptoTrading.
  destruct (crypto_enabled config); cbn [negb].
  2: { exists []. rewrite app_nil_r. split; [reflexivity|]. split; [cbn; lia|].
       split; [reflexivity|intros b []]. }
  cbv zeta. fold held.
  destruct (fold_exitStep_events held t) as [Hev Hc].
  destruct (exits_spec held) as (E1 & E2 & _). cbv zeta in *.
  destruct (maxCryptoPositions config <=? length held)%nat eqn:Ecap.
  - exists (flat_map (exitEvents config) held). split; [exact Hev|].
    rewrite E1. split; [cbn; lia|]. split; [apply unfilled_removelast, E2|intros b []].
  - apply Nat.leb_gt in Ecap.
    destruct (entryLoop_events Inv okSize Hsize Hanswers (length held)
                (firstn 2 (cryptoSignals signals (list_to_set (map symbol held))))
                (fold_left exitStep held t))
      as (entries & H1 & H2 & H3 & H4 & H5).
    { intros s research Hl. rewrite Hc in Hl. apply (Hcache _ _ Hl). }
    exists (flat_map (exitEvents config) held ++ entries).
    rewrite H1, Hev, <- app_assoc. split; [reflexivity|].
    rewrite buysOf_app, E1. cbn [app]. split.
    { pose proof (firstn_le_length 2
        (cryptoSignals signals (list_to_set (map symbol held)))). lia. }
    split; [apply unfilled_removelast_app; assumption|].
    intros b Hb. destruct (H5 b Hb) as [(sig & Hin & Hsym) Hq].
    apply In_firstn_In, cryptoSignals_In in Hin as (Hsig & Hcr & Hs & Hheld).
    split.
    + split; [exists sig; auto|]. split; [rewrite <- Hsym; exact Hheld|exact Hq].
    + split; [exact Ecap|]. unfold maxCryptoPositions. lia.
Qed.

End Rules.

End CryptoRulesFacts.

Import CryptoRulesFacts.

(** X22.  The crypto trading loop does nothing when crypto is disabled.
    Otherwise it first handles the exits and only then the entries: the
    exits are sells and log lines only, the entries contain no sell.  A
    sell is for a crypto position (its symbol is configured or contains
    a slash) whose profit is at or over the take-profit target, or at
    or under the stop-loss limit and under the target; every such
    position is sold, and there are no more sells than crypto
    positions. *)
Theorem X22_crypto_exits (cfg : AgentConfig) (config : Crypto.CryptoConfig)
    (researchCrypto : string -> num -> num -> Crypto.Reply (option Crypto.Research))
    (sell : string -> Z) (getAccount : nat -> Crypto.Reply Account)
    (buy : string -> num -> Crypto.Reply bool)
    (signals : list Crypto.Signal) (positions : list Position) (t : Crypto.Trading) :
  let t' := Crypto.runCryptoTrading cfg config researchCrypto sell getAccount buy
              signals positions t in
  let held := List.filter (Crypto.isCryptoPosition config) positions in
  (Crypto.crypto_enabled config = false -> t' = t) /\
  exists exits entries,
    Crypto.events t' = Crypto.events t ++ exits ++ entries /\
    (forall e, In e exits ->
       match e with Crypto.Sell _ _ | Crypto.Logged _ _ => True | _ => False end) /\
    sellsOf entries = [] /\
    (length (sellsOf exits) <= length held)%nat /\
    (forall s r, In (s, r) (sellsOf exits) ->
       exists pos, In pos positions /\ Crypto.isCryptoPosition config pos = true /\
                   symbol pos = s /\ exitReason config pos r) /\
    (Crypto.crypto_enabled config = true ->
     forall pos, In pos positions -> Crypto.isCryptoPosition config pos = true ->
       (Exits.plPct pos >=? fin (Crypto.crypto_take_profit_pct config))%num = true \/
       (Exits.plPct pos <=? - fin (Crypto.crypto_stop_loss_pct config))%num = true ->
       exists r, In (symbol pos, r) (sellsOf exits)).
Proof.
  intros t' held. subst t'. unfold Crypto.runCryptoTrading.
  destruct (Crypto.crypto_enabled config); cbn [negb].
  2: { split; [reflexivity|]. exists [], []. rewrite app_nil_r.
       split; [reflexivity|]. split; [intros e []|]. split; [reflexivity|].
       split; [cbn; lia|]. split; [intros s r []|discriminate]. }
  split; [discriminate|]. cbv zeta. fold held.
  destruct (fold_exitStep_events config sell held t) as [Hev _].
  destruct (exits_spec config held) as (_ & _ & E3 & E4 & E5 & E6). cbv zeta in *.
  assert (Hrest : forall entries t1,
    Crypto.events t1 = Crypto.events (fold_left (Crypto.exitStep config sell) held t) ++ entries ->
    sellsOf entries = [] ->
    exists exits entries0,
      Crypto.events t1 = Crypto.events t ++ exits ++ entries0 /\
      (forall e, In e exits ->
         match e with Crypto.Sell _ _ | Crypto.Logged _ _ => True | _ => False end) /\
      sellsOf entries0 = [] /\
      (length (sellsOf exits) <= length held)%nat /\
      (forall s r, In (s, r) (sellsOf exits) ->
         exists pos, In pos positions /\ Crypto.isCryptoPosition config pos = true /\
                     symbol pos = s /\ exitReason config pos r) /\
      (true = true ->
       forall pos, In pos positions -> Crypto.isCryptoPosition config pos = true ->
         (Exits.plPct pos >=? fin (Crypto.crypto_take_profit_pct config))%num = true \/
         (Exits.plPct pos <=? - fin (Crypto.crypto_stop_loss_pct config))%num = true ->
         exists r, In (symbol pos, r) (sellsOf exits))).
  { intros entries t1 H1 Hs.
    exists (flat_map (exitEvents config) held), entries.
    rewrite H1, Hev, <- app_assoc. split; [reflexivity|]. split; [exact E3|].
    split; [exact Hs|]. split; [exact E4|]. split.
    - intros s r Hin. destruct (E5 s r Hin) as (pos & Hpos & Hsym & Hr).
      apply filter_In in Hpos as [Hpos Hc]. exists pos. auto.
    - intros _ pos Hpos Hc. apply E6. apply filter_In. split; assumption. }
  destruct (Crypto.maxCryptoPositions config <=? length held)%nat.
  - apply (Hrest []); [rewrite app_nil_r|]; reflexivity.
  - destruct (entryLoop_events cfg config researchCrypto getAccount buy
                (fun _ => True) (fun _ => True)
                (fun _ _ _ _ => I) (fun _ _ _ _ _ => I) (length held)
                (firstn 2 (Crypto.cryptoSignals signals
                             (list_to_set (map symbol held))))
                (fold_left (Crypto.exitStep config sell) held t)
                (fun _ _ _ => I))
      as (entries & H1 & H2 & _).
    apply (Hrest entries); assumption.
Qed.

(** X23.  The entries of the crypto trading loop: one run places at
    most two buys, and a buy that was filled can only be the last thing
    it does, so at most one buy is filled.  Every buy is for a crypto
    signal of positive sentiment whose symbol is not among the held
    crypto positions, and it is placed only while fewer crypto positions
    are held than the limit, which is at most 3.  The size of a buy is a
    number between 10 and the configured maximum, or it is not a number:
    the loop does not check the confidence that the research copies from
    the model's answer, and a confidence that is no number passes both of
    its tests.  When every research result, cached or returned, has a
    finite confidence, every size is a number between 10 and the
    maximum. *)
Theorem X23_crypto_entries (cfg : AgentConfig) (config : Crypto.CryptoConfig)
    (researchCrypto : string -> num -> num -> Crypto.Reply (option Crypto.Research))
    (sell : string -> Z) (getAccount : nat -> Crypto.Reply Account)
    (buy : string -> num -> Crypto.Reply bool)
    (signals : list Crypto.Signal) (positions : list Position) (t : Crypto.Trading) :
  let t' := Crypto.runCryptoTrading cfg config researchCrypto sell getAccount buy
              signals positions t in
  let held := List.filter (Crypto.isCryptoPosition config) positions in
  exists new,
    Crypto.events t' = Crypto.events t ++ new /\
    (length (buysOf new) <= 2)%nat /\
    unfilled (removelast new) = true /\
    (forall b, In b (buysOf new) ->
       entered (fun size => size = NaN \/ sizeOk config size) signals (map symbol held) b /\
       (length held < Crypto.maxCryptoPositions config <= 3)%nat) /\
    ((forall symbol momentum sentiment research,
        Crypto.r_value (researchCrypto symbol momentum sentiment) = Some research ->
        numeric research) ->
     (forall s research, Crypto.cryptoResearch t !! s = Some research -> numeric research) ->
     forall b, In b (buysOf new) -> sizeOk config (snd (fst b))).
Proof.
  intros t' held. subst t'.
  destruct (runCryptoTrading_entries cfg config researchCrypto sell getAccount buy
              (fun _ => True) (fun size => size = NaN \/ sizeOk config size)
              signals positions t)
    as (new & Hev & Hlen & Hlast & Hbuys).
  { intros account research _. apply positionSizeFor_range. }
  { intros; exact I. }
  { intros; exact I. }
  exists new. split; [exact Hev|]. split; [exact Hlen|]. split; [exact Hlast|].
  split; [exact Hbuys|].
  intros Hanswers Hcache b Hb.
  destruct (runCryptoTrading_entries cfg config researchCrypto sell getAccount buy
              numeric (sizeOk config) signals positions t)
    as (new' & Hev' & _ & _ & Hbuys').
  { intros account research. apply positionSizeFor_numeric. }
  { exact Hanswers. }
  { exact Hcache. }
  rewrite Hev in Hev'. apply app_inv_head in Hev'. subst new'.
  destruct (Hbuys' b Hb) as [(_ & _ & Hok) _]. exact Hok.
Qed.

(** A run: the coin that gained 12% is sold, the one that gained 1% is
    kept, and the signalled coin is researched and bought for the
    configured maximum. *)
Example runCryptoTrading_runs :
  Crypto.events
    (Crypto.runCryptoTrading cfg_ex config_ex
       (fun _ _ _ => {| Crypto.r_took := 900; Crypto.r_value := Some eth_research |})
       (fun _ => 40)
       (fun _ => {| Crypto.r_took := 30; Crypto.r_value := {| cash := 10000 |} |})
       (fun _ _ => {| Crypto.r_took := 50; Crypto.r_value := true |})
       [eth_ex] [btc_ex; sol_ex]
       {| Crypto.cryptoResearch := ∅; Crypto.t_now := 0; Crypto.events := [] |})
  = [Crypto.Logged "Crypto" "take_profit";
     Crypto.Sell "BTC/USD" (Crypto.CryptoTakeProfit (Fin (1200 # 100)));
     Crypto.Researched "ETH/USD";
     Crypto.GetAccount;
     Crypto.Buy "ETH/USD" (Fin 1000) true].
Proof. vm_compute. reflexivity. Qed.

(** The same run when the model's answer carries no confidence: the buy
    is placed with a size that is not a number. *)
Example runCryptoTrading_unrated :
  Crypto.events
    (Crypto.runCryptoTrading cfg_ex config_ex
       (fun _ _ _ => {| Crypto.r_took := 900; Crypto.r_value := Some eth_unrated |})
       (fun _ => 40)
       (fun _ => {| Crypto.r_took := 30; Crypto.r_value := {| cash := 10000 |} |})
       (fun _ _ => {| Crypto.r_took := 50; Crypto.r_value := true |})
       [eth_ex] [btc_ex; sol_ex]
       {| Crypto.cryptoResearch := ∅; Crypto.t_now := 0; Crypto.events := [] |})
  = [Crypto.Logged "Crypto" "take_profit";
     Crypto.Sell "BTC/USD" (Crypto.CryptoTakeProfit (Fin (1200 # 100)));
     Crypto.Researched "ETH/USD";
     Crypto.GetAccount;
     Crypto.Buy "ETH/USD" NaN true].
Proof. vm_compute. reflexivity. Qed.

(** ** The crypto symbol helpers (helpers/crypto.ts) *)

Module StringFacts.

Lemma app_cons a (s t : string) : (String a s ++ t)%string = String a (s ++ t)%string.
Proof. reflexivity. Qed.

Lemma app_nil_l' (t : string) : ("" ++ t)%string = t.
Proof. reflexivity. Qed.

Lemma app_empty_r (s : string) : (s ++ "")%string = s.
Proof. induction s as [|a s IH]; [reflexivity|]. rewrite app_cons, IH. reflexivity. Qed.

Lemma app_assoc' (s t u : string) : ((s ++ t) ++ u)%string = (s ++ (t ++ u))%string.
Proof. induction s as [|a s IH]; [reflexivity|]. rewrite !app_cons, IH. reflexivity. Qed.

Lemma length_app' (s t : string) :
  String.length (s ++ t) = (String.length s + String.length t)%nat.
Proof.
  induction s as [|a s IH]; [reflexivity|]. rewrite app_cons. cbn [String.length].
  rewrite IH. reflexivity.
Qed.

Lemma slice0_app (s t : string) : Str.slice0 (String.length s) (s ++ t) = s.
Proof.
  induction s as [|a s IH]; [destruct t; reflexivity|].
  rewrite app_cons. cbn [String.length Str.slice0]. rewrite IH. reflexivity.
Qed.

(** Two strings with the same last character stripped. *)
Lemma app_last_inj (s s' : string) a a' :
  (s ++ String a "")%string = (s' ++ String a' "")%string -> s = s' /\ a = a'.
Proof.
  revert s'. induction s as [|c s IH]; intros [|c' s'] H.
  - injection H as ->. split; reflexivity.
  - rewrite app_cons in H. cbn in H. injection H as -> H. destruct s'; discriminate.
  - rewrite app_cons in H. cbn in H. injection H as -> H. destruct s; discriminate.
  - rewrite !app_cons in H. injection H as -> H. destruct (IH s' H) as [-> ->].
    split; reflexivity.
Qed.

Lemma app_inv_tail' (s s' t : string) : (s ++ t)%string = (s' ++ t)%string -> s = s'.
Proof.
  revert s s'. induction t as [|a t IH]; intros s s' H.
  - rewrite !app_empty_r in H. exact H.
  - change (String a t) with (String a "" ++ t)%string in H.
    rewrite <- !app_assoc' in H. apply IH in H. apply app_last_inj in H. apply H.
Qed.

Lemma all_chars_app p (s t : string) :
  all_chars p (s ++ t) = all_chars p s && all_chars p t.
Proof.
  induction s as [|a s IH]; [reflexivity|]. rewrite app_cons. cbn [all_chars].
  rewrite IH, andb_assoc. reflexivity.
Qed.

End StringFacts.

Import StringFacts.

Module AnchoredFacts.

Import Regex CryptoSymbol.

(** *** A bounded greedy repetition of one character class *)

Lemma rep_one_sound p k : forall fuel min st res,
  rep (one p) k fuel min st = Some res ->
  exists pre st1,
    rest st = (pre ++ rest st1)%string /\ caps st1 = caps st /\
    all_chars p pre = true /\ (min <= String.length pre <= fuel)%nat /\
    k st1 = Some res.
Proof.
  assert (Hzero : forall fuel min st res,
    (if Nat.eqb min 0 then k st else None) = Some res ->
    exists pre st1,
      rest st = (pre ++ rest st1)%string /\ caps st1 = caps st /\
      all_chars p pre = true /\ (min <= String.length pre <= fuel)%nat /\
      k st1 = Some res).
  { intros fuel min st res H. destruct (Nat.eqb_spec min 0); [|discriminate].
    exists ""%string, st. cbn. repeat split; auto; lia. }
  induction fuel as [|fuel IH]; intros min st res H; cbn [rep] in H.
  - apply Hzero, H.
  - destruct (one p st _) as [res0|] eqn:E.
    + injection H as ->. unfold one in E.
      destruct (rest st) as [|a s'] eqn:Erest; [discriminate|].
      destruct (p a) eqn:Ep; [|discriminate]. cbn [rest String.length] in E.
      replace (Nat.eqb (String.length s') (S (String.length s'))) with false in E
        by (symmetry; apply Nat.eqb_neq; lia).
      rewrite andb_false_r in E. apply IH in E as (pre & st1 & H1 & H2 & H3 & H4 & H5).
      cbn [rest caps] in H1, H2.
      exists (String a pre), st1. rewrite app_cons, <- H1. cbn [all_chars String.length].
      rewrite Ep, H3. repeat split; auto; lia.
    + destruct (Hzero fuel min st res H) as (pre & st1 & H1 & H2 & H3 & H4 & H5).
      exists pre, st1. repeat split; auto; lia.
Qed.

Lemma rep_one_complete p k post cs : forall pre fuel min st,
  all_chars p pre = true -> (min <= String.length pre <= fuel)%nat ->
  rest st = (pre ++ post)%string -> caps st = cs ->
  (forall st1, rest st1 = post -> caps st1 = cs -> is_Some (k st1)) ->
  is_Some (rep (one p) k fuel min st).
Proof.
  induction pre as [|a pre IH]; intros fuel min st Hall Hlen Hrest Hcaps Hk.
  - cbn [String.length] in Hlen. assert (min = 0%nat) as -> by lia.
    destruct fuel as [|fuel]; cbn [rep Nat.eqb].
    + apply Hk; assumption.
    + destruct (one p st _); [eexists; reflexivity|]. apply Hk; assumption.
  - cbn [String.length all_chars] in Hlen, Hall. apply andb_true_iff in Hall as [Ha Hall].
    destruct fuel as [|fuel]; [lia|]. cbn [rep]. rewrite app_cons in Hrest.
    unfold one at 1. rewrite Hrest, Ha. cbn [rest String.length].
    replace (Nat.eqb (String.length (pre ++ post)) (S (String.length (pre ++ post))))
      with false by (symmetry; apply Nat.eqb_neq; lia).
    rewrite andb_false_r.
    destruct (IH fuel (Nat.pred min)
                {| prev := Some a; rest := (pre ++ post)%string; caps := caps st |})
      as [res Hres]; [exact Hall|lia|reflexivity|exact Hcaps|exact Hk|].
    rewrite Hres. eexists. reflexivity.
Qed.

(** *** The three quotes *)

Lemma quote_sound k st res :
  m false quote st k = Some res ->
  exists q st1,
    rest st = (q ++ rest st1)%string /\ caps st1 = caps st /\ isQuote q /\
    k st1 = Some res.
Proof.
  unfold quote. cbn [alts lit m]. unfold one, char_eq. cbn [rest caps].
  destruct (rest st) as [|a1 s] eqn:Erest; [discriminate|].
  destruct s as [|a2 s]; [destruct (Ascii.eqb a1 "U"); discriminate|].
  destruct s as [|a3 s];
    [destruct (Ascii.eqb a1 "U"); [destruct (Ascii.eqb a2 "S")|]; discriminate|].
  destruct (Ascii.eqb_spec a1 "U") as [->|]; [|discriminate].
  destruct (Ascii.eqb_spec a2 "S") as [->|]; [|discriminate].
  destruct (Ascii.eqb_spec a3 "D") as [->|]; [|discriminate].
  destruct (k {| prev := Some "D"%char; rest := s; caps := caps st |}) as [r|] eqn:E1.
  { intros [= <-]. exists "USD"%string, {| prev := Some "D"%char; rest := s; caps := caps st |}.
    split; [reflexivity|]. split; [reflexivity|]. split; [left; reflexivity|exact E1]. }
  destruct s as [|a4 s]; [discriminate|].
  destruct (Ascii.eqb_spec a4 "T") as [->|].
  { destruct (k {| prev := Some "T"%char; rest := s; caps := caps st |}) as [r|] eqn:E2.
    - intros [= <-].
      exists "USDT"%string, {| prev := Some "T"%char; rest := s; caps := caps st |}.
      split; [reflexivity|]. split; [reflexivity|].
      split; [right; left; reflexivity|exact E2].
    - discriminate. }
  destruct (Ascii.eqb_spec a4 "C") as [->|]; [|discriminate].
  intros E3.
  exists "USDC"%string, {| prev := Some "C"%char; rest := s; caps := caps st |}.
  split; [reflexivity|]. split; [reflexivity|].
  split; [right; right; reflexivity|exact E3].
Qed.

Lemma quote_complete k st q post :
  isQuote q -> rest st = (q ++ post)%string ->
  (forall st1, rest st1 = post -> caps st1 = caps st -> is_Some (k st1)) ->
  is_Some (m false quote st k).
Proof.
  intros Hq Hrest Hk. unfold quote. cbn [alts lit m]. unfold one, char_eq. cbn [rest caps].
  destruct Hq as [-> | [-> | ->]]; cbv [String.append] in Hrest; rewrite Hrest; cbn.
  - destruct (Hk {| prev := Some "D"%char; rest := post; caps := caps st |})
      as [r Hr]; [reflexivity..|]. rewrite Hr. eexists. reflexivity.
  - destruct (k {| prev := Some "D"%char; rest := String "T" post; caps := caps st |});
      [eexists; reflexivity|].
    destruct (Hk {| prev := Some "T"%char; rest := post; caps := caps st |})
      as [r Hr]; [reflexivity..|]. rewrite Hr. eexists. reflexivity.
  - destruct (k {| prev := Some "D"%char; rest := String "C" post; caps := caps st |});
      [eexists; reflexivity|].
    destruct (Hk {| prev := Some "C"%char; rest := post; caps := caps st |})
      as [r Hr]; [reflexivity..|]. exact (ex_intro _ r Hr).
Qed.

(** *** The two expressions *)

Lemma m_seq ci r1 r2 st k :
  m ci (Seq r1 r2) st k = m ci r1 st (fun st1 => m ci r2 st1 k).
Proof. reflexivity. Qed.

Lemma m_group ci n r1 st k :
  m ci (Group n r1) st k
  = m ci r1 st (fun st1 =>
      k {| prev := prev st1; rest := rest st1;
           caps := set_cap n (consumed st st1) (caps st1) |}).
Proof. reflexivity. Qed.

Lemma m_base st k : m false base st k = rep (one Str.is_upper) k 5 2 st.
Proof. reflexivity. Qed.

Lemma consumed_app st st1 pre :
  rest st = (pre ++ rest st1)%string -> consumed st st1 = pre.
Proof.
  intros H. unfold consumed. rewrite H, length_app'.
  replace (String.length pre + String.length (rest st1) - String.length (rest st1))%nat
    with (String.length pre) by lia.
  apply slice0_app.
Qed.

Lemma atEnd_Some st res : atEnd st = Some res -> rest st = ""%string /\ res = st.
Proof.
  unfold atEnd. destruct (rest st); [|discriminate]. intros [= <-]. split; reflexivity.
Qed.

(** A match of the first expression: the text is a base followed by a
    quote, which are the two groups. *)
Lemma concatenated_sound t res :
  matchAnchored concatenated t = Some res ->
  exists b q, t = (b ++ q)%string /\ isBase b /\ isQuote q /\
              group 1 res = b /\ group 2 res = q.
Proof.
  unfold matchAnchored, concatenated. rewrite m_seq, m_group, m_base. intros H.
  apply rep_one_sound in H as (b & st1 & H1 & H2 & H3 & H4 & H5).
  cbn [rest caps] in H1, H2. rewrite m_group in H5.
  apply quote_sound in H5 as (q & st2 & Q1 & Q2 & Q3 & Q4).
  cbn [rest caps] in Q1, Q2. apply atEnd_Some in Q4 as [Q4 ->]. cbn [rest] in Q4.
  rewrite Q4, app_empty_r in Q1.
  exists b, q. split; [rewrite H1, Q1; reflexivity|]. split; [split; assumption|].
  split; [exact Q3|].
  unfold group. cbn [caps]. rewrite Q2, H2.
  rewrite (consumed_app _ st1 b) by exact H1.
  rewrite (consumed_app _ st2 q) by (cbn [rest]; rewrite Q4, app_empty_r; exact Q1).
  split; reflexivity.
Qed.

Lemma concatenated_complete b q :
  isBase b -> isQuote q -> is_Some (matchAnchored concatenated (b ++ q)).
Proof.
  intros [Hlen Hup] Hq. unfold matchAnchored, concatenated.
  rewrite m_seq, m_group, m_base.
  apply (rep_one_complete _ _ q [] b); [exact Hup|exact Hlen|reflexivity..|].
  intros st1 Hrest Hcaps. rewrite m_group.
  apply (quote_complete _ _ q ""%string); [exact Hq|cbn [rest]; rewrite app_empty_r; exact Hrest|].
  intros st2 Hrest2 _. unfold atEnd. cbn [rest]. rewrite Hrest2. eexists. reflexivity.
Qed.

(** A match of the second expression: a base, a slash and a quote. *)
Lemma slashed_sound t res :
  matchAnchored slashed t = Some res ->
  exists b q, t = (b ++ "/" ++ q)%string /\ isBase b /\ isQuote q.
Proof.
  unfold matchAnchored, slashed. rewrite m_seq, m_base. intros H.
  apply rep_one_sound in H as (b & st1 & H1 & H2 & H3 & H4 & H5).
  cbn [rest caps] in H1, H2. rewrite m_seq in H5. cbn [m] in H5. unfold one at 1 in H5.
  destruct (rest st1) as [|a s] eqn:E1; [discriminate|]. unfold char_eq in H5.
  destruct (Ascii.eqb_spec a "/") as [->|]; [|discriminate].
  change (m false quote {| prev := Some "/"%char; rest := s; caps := caps st1 |}
            (fun st2 => atEnd {| prev := prev st2; rest := rest st2;
                                 caps := set_cap 1
                                   (consumed {| prev := Some "/"%char; rest := s;
                                                caps := caps st1 |} st2) (caps st2) |})
          = Some res) in H5.
  apply quote_sound in H5 as (q & st2 & Q1 & Q2 & Q3 & Q4).
  cbn [rest caps] in Q1, Q2. apply atEnd_Some in Q4 as [Q4 _]. cbn [rest] in Q4.
  rewrite Q4, app_empty_r in Q1. subst s.
  exists b, q. split; [exact H1|]. split; [split; assumption|exact Q3].
Qed.

Lemma slashed_complete b q :
  isBase b -> isQuote q -> is_Some (matchAnchored slashed (b ++ "/" ++ q)).
Proof.
  intros [Hlen Hup] Hq. unfold matchAnchored, slashed. rewrite m_seq, m_base.
  apply (rep_one_complete _ _ ("/" ++ q)%string [] b); [exact Hup|exact Hlen|reflexivity..|].
  intros st1 Hrest Hcaps. rewrite m_seq. cbn [m]. unfold one at 1. rewrite Hrest.
  change ("/" ++ q)%string with (String "/" q). cbn [char_eq Ascii.eqb Bool.eqb].
  change (is_Some
    (m false quote {| prev := Some "/"%char; rest := q; caps := caps st1 |}
       (fun st2 => atEnd {| prev := prev st2; rest := rest st2;
                            caps := set_cap 1
                              (consumed {| prev := Some "/"%char; rest := q;
                                           caps := caps st1 |} st2) (caps st2) |}))).
  apply (quote_complete _ _ q ""%string); [exact Hq|cbn [rest]; rewrite app_empty_r; reflexivity|].
  intros st2 Hrest2 _. unfold atEnd. cbn [rest]. rewrite Hrest2. eexists. reflexivity.
Qed.

(** A text splits into a base and a quote in one way at most. *)
Lemma split_unique (b q b' q' : string) :
  isQuote q -> isQuote q' -> (b ++ q)%string = (b' ++ q')%string -> b = b' /\ q = q'.
Proof.
  assert (Hlast : forall (s s' u u' : string) a a',
    (s ++ (u ++ String a ""))%string = (s' ++ (u' ++ String a' ""))%string -> a = a').
  { intros s s' u u' a a' H. rewrite <- !app_assoc' in H. apply app_last_inj in H. apply H. }
  intros Hq Hq' H.
  destruct Hq as [-> | [-> | ->]]; destruct Hq' as [-> | [-> | ->]];
    try (split; [exact (app_inv_tail' _ _ _ H)|reflexivity]); exfalso.
  - apply (Hlast b b' "US"%string "USD"%string) in H. discriminate.
  - apply (Hlast b b' "US"%string "USD"%string) in H. discriminate.
  - apply (Hlast b b' "USD"%string "US"%string) in H. discriminate.
  - apply (Hlast b b' "USD"%string "USD"%string) in H. discriminate.
  - apply (Hlast b b' "USD"%string "US"%string) in H. discriminate.
  - apply (Hlast b b' "USD"%string "USD"%string) in H. discriminate.
Qed.

End AnchoredFacts.

Import AnchoredFacts.

Module CryptoSymbolFacts.

Import Regex CryptoSymbol AnchoredFacts.

Lemma upper_upper a : Str.upper_char (Str.upper_char a) = Str.upper_char a.
Proof. destruct a as [[] [] [] [] [] [] [] []]; reflexivity. Qed.

Lemma upper_slash a : Ascii.eqb (Str.upper_char a) "/" = Ascii.eqb a "/".
Proof. destruct a as [[] [] [] [] [] [] [] []]; reflexivity. Qed.

Lemma upper_fixed a : Str.is_upper a = true -> Str.upper_char a = a.
Proof. destruct a as [[] [] [] [] [] [] [] []]; intros H; try reflexivity; discriminate. Qed.

Lemma upper_not_slash a : Str.is_upper a = true -> Ascii.eqb a "/" = false.
Proof. destruct a as [[] [] [] [] [] [] [] []]; intros H; try reflexivity; discriminate. Qed.

Lemma toUpperCase_cons a s :
  Str.toUpperCase (String a s) = String (Str.upper_char a) (Str.toUpperCase s).
Proof. reflexivity. Qed.

Lemma toUpperCase_app s t :
  Str.toUpperCase (s ++ t) = (Str.toUpperCase s ++ Str.toUpperCase t)%string.
Proof.
  induction s as [|a s IH]; [reflexivity|].
  rewrite app_cons, !toUpperCase_cons, IH. reflexivity.
Qed.

Lemma toUpperCase_upper s : all_chars Str.is_upper s = true -> Str.toUpperCase s = s.
Proof.
  induction s as [|a s IH]; [reflexivity|]. cbn [all_chars]. intros H.
  apply andb_true_iff in H as [Ha Hs]. rewrite toUpperCase_cons, upper_fixed, IH; auto.
Qed.

Lemma toUpperCase_quote q : isQuote q -> Str.toUpperCase q = q.
Proof. intros [-> | [-> | ->]]; reflexivity. Qed.

(** [s.includes("/")] looks for one character. *)
Lemma includes_slash_cons a s :
  Str.includes "/" (String a s) = Ascii.eqb a "/" || Str.includes "/" s.
Proof.
  cbn [Str.includes Str.startsWith]. rewrite Ascii.eqb_sym.
  destruct (Ascii.eqb a "/"); reflexivity.
Qed.

Lemma includes_slash_upper s : Str.includes "/" (Str.toUpperCase s) = Str.includes "/" s.
Proof.
  induction s as [|a s IH]; [reflexivity|].
  rewrite toUpperCase_cons, !includes_slash_cons, upper_slash, IH. reflexivity.
Qed.

Lemma includes_slash_app s t :
  Str.includes "/" (s ++ t) = Str.includes "/" s || Str.includes "/" t.
Proof.
  induction s as [|a s IH].
  - change (Str.includes "/" "") with false. reflexivity.
  - rewrite app_cons, !includes_slash_cons, IH, orb_assoc. reflexivity.
Qed.

(** A base, a slash and a quote: the form that is left as it is. *)
Lemma pair_fixed b q :
  isBase b -> isQuote q ->
  Str.includes "/" (b ++ "/" ++ q) = true /\
  Str.toUpperCase (b ++ "/" ++ q) = (b ++ "/" ++ q)%string.
Proof.
  intros [_ Hb] Hq. split.
  - rewrite includes_slash_app. change ("/" ++ q)%string with (String "/" q).
    rewrite includes_slash_cons. cbn. apply orb_true_r.
  - rewrite !toUpperCase_app, (toUpperCase_upper b), (toUpperCase_quote q) by assumption.
    reflexivity.
Qed.

Lemma base_no_slash b : all_chars Str.is_upper b = true -> Str.includes "/" b = false.
Proof.
  induction b as [|a b IH]; [reflexivity|]. cbn [all_chars]. intros H.
  apply andb_true_iff in H as [Ha Hb]. rewrite includes_slash_cons, upper_not_slash, IH; auto.
Qed.

(** What [normalizeCryptoSymbol] returns. *)
Lemma normalize_cases s :
  (Str.includes "/" s = true /\ normalizeCryptoSymbol s = Str.toUpperCase s) \/
  (Str.includes "/" s = false /\
   exists b q, Str.toUpperCase s = (b ++ q)%string /\ isBase b /\ isQuote q /\
               normalizeCryptoSymbol s = (b ++ "/" ++ q)%string) \/
  (Str.includes "/" s = false /\
   (forall b q, isBase b -> isQuote q -> Str.toUpperCase s <> (b ++ q)%string) /\
   normalizeCryptoSymbol s = s).
Proof.
  unfold normalizeCryptoSymbol. destruct (Str.includes "/" s) eqn:E; [left; auto|right].
  destruct (matchAnchored concatenated (Str.toUpperCase s)) as [res|] eqn:Em.
  - left. split; [reflexivity|].
    apply concatenated_sound in Em as (b & q & H1 & H2 & H3 & H4 & H5).
    exists b, q. rewrite H4, H5. auto.
  - right. split; [reflexivity|]. split; [|reflexivity].
    intros b q Hb Hq Heq. destruct (concatenated_complete b q Hb Hq) as [res Hres].
    rewrite <- Heq in Hres. congruence.
Qed.

Lemma normalize_idem s :
  normalizeCryptoSymbol (normalizeCryptoSymbol s) = normalizeCryptoSymbol s.
Proof.
  destruct (normalize_cases s) as [[E ->]|[(E & b & q & _ & Hb & Hq & ->)|(E & _ & H)]].
  - unfold normalizeCryptoSymbol. rewrite includes_slash_upper, E. apply toUpperCase_idem.
  - destruct (pair_fixed b q Hb Hq) as [Hs Hu].
    unfold normalizeCryptoSymbol. rewrite Hs. exact Hu.
  - rewrite H. exact H.
Qed.

End CryptoSymbolFacts.

Import CryptoSymbolFacts.

(** X24.  [normalizeCryptoSymbol]: a symbol with a slash is put in
    upper case.  A symbol without a slash whose upper case is two to
    five capital letters followed by USD, USDT or USDC gets a slash
    between the two, and the split is the only one there is; every
    other symbol is returned as it is, in its own case.  Normalizing
    twice is normalizing once. *)
Theorem X24_normalizeCryptoSymbol (symbol : string) :
  (Str.includes "/" symbol = true ->
   CryptoSymbol.normalizeCryptoSymbol symbol = Str.toUpperCase symbol) /\
  (Str.includes "/" symbol = false ->
   forall b q, isBase b -> isQuote q -> Str.toUpperCase symbol = (b ++ q)%string ->
     CryptoSymbol.normalizeCryptoSymbol symbol = (b ++ "/" ++ q)%string) /\
  (Str.includes "/" symbol = false ->
   (forall b q, isBase b -> isQuote q -> Str.toUpperCase symbol <> (b ++ q)%string) ->
   CryptoSymbol.normalizeCryptoSymbol symbol = symbol) /\
  CryptoSymbol.normalizeCryptoSymbol (CryptoSymbol.normalizeCryptoSymbol symbol)
  = CryptoSymbol.normalizeCryptoSymbol symbol.
Proof.
  split; [|split; [|split]].
  - intros E. unfold CryptoSymbol.normalizeCryptoSymbol. rewrite E. reflexivity.
  - intros E b q Hb Hq Hu.
    destruct (normalize_cases symbol)
      as [[E' _]|[(_ & b' & q' & Hu' & Hb' & Hq' & ->)|(_ & Hnone & _)]].
    + congruence.
    + rewrite Hu in Hu'. destruct (split_unique b q b' q' Hq Hq' Hu') as [-> ->].
      reflexivity.
    + destruct (Hnone b q Hb Hq Hu).
  - intros E Hnone.
    destruct (normalize_cases symbol)
      as [[E' _]|[(_ & b' & q' & Hu' & Hb' & Hq' & _)|(_ & _ & H)]].
    + congruence.
    + destruct (Hnone b' q' Hb' Hq' Hu').
    + exact H.
  - apply normalize_idem.
Qed.

Example normalizeCryptoSymbol_runs :
  map CryptoSymbol.normalizeCryptoSymbol
    ["btcusd"; "btc/usd"; "BTCUSDT"; "USDUSD"; "AUSDT"; "doge"; "ABCDEFUSD"]%string
  = ["BTC/USD"; "BTC/USD"; "BTC/USDT"; "USD/USD"; "AUSDT"; "doge"; "ABCDEFUSD"]%string.
Proof. vm_compute. reflexivity. Qed.

(** X25.  [isCryptoSymbol]: a symbol is a crypto symbol exactly when
    its normal form is the normal form of a configured symbol, or is
    two to five capital letters, a slash and USD, USDT or USDC.  So the
    answer for a symbol is the answer for its normal form, every
    configured symbol is recognised, and a pair of a base and a quote
    is recognised in either case, with or without the slash, whatever
    is configured. *)
Theorem X25_isCryptoSymbol (symbol : string) (cryptoSymbols : list string) :
  (CryptoSymbol.isCryptoSymbol symbol cryptoSymbols = true <->
   (exists c, In c cryptoSymbols /\
              CryptoSymbol.normalizeCryptoSymbol c
              = CryptoSymbol.normalizeCryptoSymbol symbol) \/
   (exists b q, isBase b /\ isQuote q /\
                CryptoSymbol.normalizeCryptoSymbol symbol = (b ++ "/" ++ q)%string)) /\
  CryptoSymbol.isCryptoSymbol (CryptoSymbol.normalizeCryptoSymbol symbol) cryptoSymbols
  = CryptoSymbol.isCryptoSymbol symbol cryptoSymbols /\
  (In symbol cryptoSymbols -> CryptoSymbol.isCryptoSymbol symbol cryptoSymbols = true) /\
  (forall b q, isBase b -> isQuote q ->
     Str.toUpperCase symbol = (b ++ q)%string \/
     Str.toUpperCase symbol = (b ++ "/" ++ q)%string ->
     CryptoSymbol.isCryptoSymbol symbol cryptoSymbols = true).
Proof.
  assert (Hiff : forall s,
    CryptoSymbol.isCryptoSymbol s cryptoSymbols = true <->
    (exists c, In c cryptoSymbols /\
               CryptoSymbol.normalizeCryptoSymbol c = CryptoSymbol.normalizeCryptoSymbol s) \/
    (exists b q, isBase b /\ isQuote q /\
                 CryptoSymbol.normalizeCryptoSymbol s = (b ++ "/" ++ q)%string)).
  { intros s. unfold CryptoSymbol.isCryptoSymbol. cbv zeta.
    destruct (existsb _ cryptoSymbols) eqn:Eany.
    - split; [intros _|reflexivity]. left.
      apply existsb_exists in Eany as (c & Hc & Heq). apply String.eqb_eq in Heq.
      exists c. split; assumption.
    - destruct (CryptoSymbol.matchAnchored CryptoSymbol.slashed
                  (CryptoSymbol.normalizeCryptoSymbol s)) as [res|] eqn:Em.
      + split; [intros _|reflexivity]. right.
        apply slashed_sound in Em as (b & q & H1 & H2 & H3). exists b, q. auto.
      + split; [discriminate|]. intros [(c & Hc & Heq)|(b & q & Hb & Hq & Heq)].
        * assert (Hany : existsb
            (fun configSymbol =>
               String.eqb (CryptoSymbol.normalizeCryptoSymbol configSymbol)
                 (CryptoSymbol.normalizeCryptoSymbol s)) cryptoSymbols = true).
          { apply existsb_exists. exists c. split; [exact Hc|]. apply String.eqb_eq, Heq. }
          congruence.
        * destruct (slashed_complete b q Hb Hq) as [res Hres].
          rewrite <- Heq in Hres. congruence. }
  split; [apply Hiff|]. split; [|split].
  - unfold CryptoSymbol.isCryptoSymbol. cbv zeta. rewrite normalize_idem. reflexivity.
  - intros Hin. apply Hiff. left. exists symbol. split; [exact Hin|reflexivity].
  - intros b q Hb Hq Hu. apply Hiff. right. exists b, q. split; [exact Hb|].
    split; [exact Hq|]. destruct Hu as [Hu|Hu].
    + assert (E : Str.includes "/" symbol = false).
      { rewrite <- includes_slash_upper, Hu, includes_slash_app.
        rewrite base_no_slash by apply Hb. destruct Hq as [-> | [-> | ->]]; reflexivity. }
      destruct (normalize_cases symbol)
        as [[E' _]|[(_ & b' & q' & Hu' & Hb' & Hq' & ->)|(_ & Hnone & _)]].
      * congruence.
      * rewrite Hu in Hu'. destruct (split_unique b q b' q' Hq Hq' Hu') as [-> ->].
        reflexivity.
      * destruct (Hnone b q Hb Hq Hu).
    + assert (E : Str.includes "/" symbol = true).
      { rewrite <- includes_slash_upper, Hu. apply pair_fixed; assumption. }
      unfold CryptoSymbol.normalizeCryptoSymbol. rewrite E. exact Hu.
Qed.

(** The case of a symbol that is not a pair matters: [doge] is not the
    configured [DOGE]. *)
Example isCryptoSymbol_runs :
  map (fun s => CryptoSymbol.isCryptoSymbol s ["DOGE"; "ethusd"]%string)
    ["btcusd"; "btc/usd"; "ETH/USD"; "DOGE"; "doge"; "BTC/EUR"; "AAPL"]%string
  = [true; true; true; true; false; false; false].
Proof. vm_compute. reflexivity. Qed.

(** ** The candidates of the analyst prompt (prompts/analyst.ts) *)

Module AnalystFacts.

Import Crypto Analyst Entries SortFacts.

(** *** The aggregation *)

Lemma symbolsOf_snoc done sig :
  symbolsOf (done ++ [sig]) = Ticker.set_add (sig_symbol sig) (symbolsOf done).
Proof. unfold symbolsOf. rewrite fold_left_app. reflexivity. Qed.

Lemma set_add_In t k matches : In k (Ticker.set_add t matches) <-> In k matches \/ k = t.
Proof.
  unfold Ticker.set_add. destruct (existsb (String.eqb t) matches) eqn:E.
  - split; [auto|]. intros [H | ->]; [exact H|].
    apply existsb_exists in E as (x & Hx & Heq). apply String.eqb_eq in Heq. subst x.
    exact Hx.
  - rewrite in_app_iff. cbn [In]. split.
    + intros [H|[H|[]]]; [left; exact H|right; symmetry; exact H].
    + intros [H|H]; [left; exact H|right; left; symmetry; exact H].
Qed.

Lemma symbolsOf_In signals k : In k (symbolsOf signals) <-> In k (map sig_symbol signals).
Proof.
  induction signals as [|sig signals IH] using rev_ind; [reflexivity|].
  rewrite symbolsOf_snoc, set_add_In, IH, map_app, in_app_iff. cbn [map In]. split.
  - intros [H|H]; [left; exact H|right; left; symmetry; exact H].
  - intros [H|[H|[]]]; [left; exact H|right; symmetry; exact H].
Qed.

Lemma symbolsOf_NoDup signals : NoDup (symbolsOf signals).
Proof.
  induction signals as [|sig signals IH] using rev_ind; [constructor|].
  rewrite symbolsOf_snoc. apply set_add_NoDup, IH.
Qed.

Lemma signalsOf_snoc k done sig :
  signalsOf k (done ++ [sig])
  = signalsOf k done ++ (if String.eqb (sig_symbol sig) k then [sig] else []).
Proof. unfold signalsOf. rewrite List.filter_app. reflexivity. Qed.

Lemma signalsOf_nil k signals :
  ~ In k (map sig_symbol signals) -> signalsOf k signals = [].
Proof.
  induction signals as [|sig signals IH]; [reflexivity|]. cbn [map In signalsOf List.filter].
  intros H. destruct (String.eqb_spec (sig_symbol sig) k) as [Heq|_].
  - destruct H. left. exact Heq.
  - apply IH. intros Hin. apply H. right. exact Hin.
Qed.

Lemma signalsOf_cons k signals :
  In k (map sig_symbol signals) -> signalsOf k signals <> [].
Proof.
  induction signals as [|sig signals IH]; [intros []|]. cbn [map In signalsOf List.filter].
  intros [H|H].
  - rewrite H, String.eqb_refl. discriminate.
  - destruct (String.eqb (sig_symbol sig) k); [discriminate|]. apply IH, H.
Qed.

(** One more signal changes the aggregate of its symbol only, by the
    three updates. *)
Lemma update_group done sig k :
  (if String.eqb k (sig_symbol sig) then push sig (groupOf done k) else groupOf done k)
  = groupOf (done ++ [sig]) k.
Proof.
  unfold groupOf. rewrite signalsOf_snoc, (String.eqb_sym (sig_symbol sig) k).
  destruct (String.eqb k (sig_symbol sig)).
  - unfold push, sumSentiment. cbn [a_symbol sources totalSentiment count].
    rewrite !map_app, fold_left_app, length_app. cbn [map fold_left length].
    f_equal. lia.
  - rewrite app_nil_r. reflexivity.
Qed.

Lemma has_group done symbol keys :
  has symbol (map (groupOf done) keys) = existsb (String.eqb symbol) keys.
Proof.
  unfold has. induction keys as [|k keys IH]; [reflexivity|].
  cbn [map existsb a_symbol groupOf]. rewrite IH, (String.eqb_sym k symbol). reflexivity.
Qed.

Lemma aggregateStep_group done sig :
  aggregateStep (map (groupOf done) (symbolsOf done)) sig
  = map (groupOf (done ++ [sig])) (symbolsOf (done ++ [sig])).
Proof.
  unfold aggregateStep. cbv zeta. rewrite has_group, symbolsOf_snoc. unfold Ticker.set_add.
  destruct (existsb (String.eqb (sig_symbol sig)) (symbolsOf done)) eqn:E.
  - rewrite map_map. apply map_ext. intros k. apply update_group.
  - assert (Hfresh : {| a_symbol := sig_symbol sig; sources := [];
                        totalSentiment := finZ 0; count := 0 |}
                     = groupOf done (sig_symbol sig)).
    { unfold groupOf. rewrite signalsOf_nil; [reflexivity|].
      intros Hin. apply symbolsOf_In in Hin.
      assert (existsb (String.eqb (sig_symbol sig)) (symbolsOf done) = true); [|congruence].
      apply existsb_exists. exists (sig_symbol sig). split; [exact Hin|apply String.eqb_refl]. }
    rewrite Hfresh, !map_app, map_map. cbn [map]. f_equal.
    + apply map_ext. intros k. apply update_group.
    + f_equal. apply (update_group done sig (sig_symbol sig)).
Qed.

(** The map after the loop: the aggregate of each symbol, in the order
    of the first occurrences. *)
Lemma aggregated_groups rest : forall done,
  fold_left aggregateStep rest (map (groupOf done) (symbolsOf done))
  = map (groupOf (done ++ rest)) (symbolsOf (done ++ rest)).
Proof.
  induction rest as [|sig rest IH]; intros done; cbn [fold_left].
  - rewrite app_nil_r. reflexivity.
  - rewrite aggregateStep_group, IH, <- app_assoc. reflexivity.
Qed.

(** *** The order *)

Lemma ge_ranked x t : (x >=? Fin t)%num = true -> rankable x.
Proof. destruct x; cbn; intros H; try exact I; discriminate. Qed.

Lemma byAvgDesc_lt a b :
  rankable (avgSentiment a) -> rankable (avgSentiment b) ->
  (byAvgDesc a b >? finZ 0)%num = Num.lt (avgSentiment a) (avgSentiment b).
Proof.
  unfold byAvgDesc. destruct (avgSentiment a) as [x| | |], (avgSentiment b) as [y| | |];
    cbn; intros Ha Hb; try contradiction; try reflexivity.
  destruct (Num.Qlt_bool x y) eqn:E1; destruct (Num.Qlt_bool (inject_Z 0) (y + - x)) eqn:E2;
    try reflexivity; exfalso.
  - apply Qlt_bool_true in E1. apply Qlt_bool_false in E2. unfold inject_Z in *. lra.
  - apply Qlt_bool_false in E1. apply Qlt_bool_true in E2. unfold inject_Z in *. lra.
Qed.

Lemma lt_notBelow a b :
  rankable (avgSentiment a) -> rankable (avgSentiment b) ->
  Num.lt (avgSentiment a) (avgSentiment b) = true -> notBelow b a.
Proof.
  unfold notBelow. destruct (avgSentiment a) as [x| | |], (avgSentiment b) as [y| | |];
    cbn; intros Ha Hb H; try contradiction; try reflexivity; try discriminate.
  apply Qlt_bool_true in H. apply Qle_bool_iff. lra.
Qed.

Lemma nlt_notBelow a b :
  rankable (avgSentiment a) -> rankable (avgSentiment b) ->
  Num.lt (avgSentiment a) (avgSentiment b) = false -> notBelow a b.
Proof.
  unfold notBelow. destruct (avgSentiment a) as [x| | |], (avgSentiment b) as [y| | |];
    cbn; intros Ha Hb H; try contradiction; try reflexivity; try discriminate.
  apply Qlt_bool_false in H. apply Qle_bool_iff. lra.
Qed.

Lemma notBelow_trans a b c :
  rankable (avgSentiment a) -> rankable (avgSentiment b) -> rankable (avgSentiment c) ->
  notBelow a b -> notBelow b c -> notBelow a c.
Proof.
  unfold notBelow.
  destruct (avgSentiment a) as [x| | |], (avgSentiment b) as [y| | |],
    (avgSentiment c) as [z| | |];
    cbn; intros Ha Hb Hc H1 H2; try contradiction; try reflexivity; try discriminate.
  apply Qle_bool_iff in H1, H2. apply Qle_bool_iff. lra.
Qed.

Local Abbreviation good := (fun c => rankable (avgSentiment c)).

Lemma insert_sorted_avg x l :
  good x -> Forall good l ->
  StronglySorted notBelow l -> StronglySorted notBelow (insert_sorted byAvgDesc x l).
Proof.
  intros Hx Hl Hs. induction Hs as [|y l Hs IH Hy]; cbn [insert_sorted].
  - repeat constructor.
  - apply Forall_cons in Hl as [Hgy Hl].
    rewrite (byAvgDesc_lt x y Hx Hgy).
    destruct (Num.lt (avgSentiment x) (avgSentiment y)) eqn:E.
    + constructor; [apply IH, Hl|].
      apply Forall_forall. intros z Hz. apply list_elem_of_In in Hz.
      apply (Permutation_in _ (insert_sorted_perm _ x l)) in Hz.
      destruct Hz as [<-|Hz]; [apply lt_notBelow; assumption|].
      rewrite Forall_forall in Hy. apply Hy, list_elem_of_In, Hz.
    + pose proof (nlt_notBelow x y Hx Hgy E) as Hxy.
      constructor; [constructor; assumption|].
      constructor; [exact Hxy|].
      rewrite Forall_forall in Hy, Hl. apply Forall_forall. intros z Hz.
      apply (notBelow_trans x y z); auto.
Qed.

Lemma sort_avg l : Forall good l -> StronglySorted notBelow (sort byAvgDesc l).
Proof.
  induction l as [|x l IH]; cbn [sort foldr]; [constructor|]. intros H.
  apply Forall_cons in H as [Hx Hl]. fold (sort byAvgDesc l).
  apply insert_sorted_avg; [exact Hx| |apply IH, Hl].
  apply Forall_forall. intros z Hz. apply list_elem_of_In, sort_In in Hz.
  rewrite Forall_forall in Hl. apply Hl, list_elem_of_In, Hz.
Qed.

Lemma StronglySorted_firstn {A} (R : A -> A -> Prop) n : forall l,
  StronglySorted R l -> StronglySorted R (firstn n l).
Proof.
  induction n as [|n IH]; intros l Hs; [constructor|].
  destruct Hs as [|x l Hs Hx]; cbn [firstn]; [constructor|].
  constructor; [apply IH, Hs|]. apply Forall_take, Hx.
Qed.

Lemma sublist_List_filter {A} (p : A -> bool) l : sublist (List.filter p l) l.
Proof.
  induction l as [|x l IH]; cbn [List.filter]; [constructor|].
  destruct (p x); constructor; exact IH.
Qed.

Lemma sublist_List_map {A B} (f : A -> B) l1 l2 :
  sublist l1 l2 -> sublist (map f l1) (map f l2).
Proof. induction 1; cbn [map]; constructor; assumption. Qed.

End AnalystFacts.

Import AnalystFacts.

(** X26.  The candidates of the analyst prompt: at most ten, no symbol
    twice, in the order of descending average sentiment.  A candidate
    stands for all the signals of its symbol: its sources are their
    sources in order, its count is their number (at least one), its
    total is the sum of their sentiments and its average, the total
    divided by the count, is at least half of the minimum sentiment
    score; a symbol whose average is not a number is no candidate. *)
Theorem X26_analyst_candidates (min_sentiment_score : Q) (signals : list Crypto.Signal) :
  let cs := Analyst.candidates min_sentiment_score signals in
  (length cs <= 10)%nat /\
  NoDup (map (fun c => Analyst.a_symbol (Analyst.agg c)) cs) /\
  StronglySorted notBelow cs /\
  forall c, In c cs ->
    let mine := signalsOf (Analyst.a_symbol (Analyst.agg c)) signals in
    mine <> [] /\
    Analyst.sources (Analyst.agg c) = map Crypto.source mine /\
    Analyst.count (Analyst.agg c) = Z.of_nat (length mine) /\
    Analyst.totalSentiment (Analyst.agg c) = sumSentiment mine /\
    Analyst.avgSentiment c
    = (Analyst.totalSentiment (Analyst.agg c) / finZ (Analyst.count (Analyst.agg c)))%num /\
    Analyst.avgSentiment c <> NaN /\
    (Analyst.avgSentiment c >=? fin min_sentiment_score * fin (1 # 2))%num = true.
Proof.
  intros cs. subst cs. unfold Analyst.candidates. cbv zeta.
  change (fold_left Analyst.aggregateStep signals [])
    with (fold_left Analyst.aggregateStep signals (map (groupOf []) (symbolsOf []))).
  rewrite aggregated_groups. cbn [app].
  set (p := fun a : Analyst.Candidate =>
              (Analyst.avgSentiment a >=? fin min_sentiment_score * fin (1 # 2))%num).
  set (mk := fun a : Analyst.Aggregate =>
               {| Analyst.agg := a;
                  Analyst.avgSentiment :=
                    (Analyst.totalSentiment a / finZ (Analyst.count a))%num |}).
  set (all := map mk (map (groupOf signals) (symbolsOf signals))).
  assert (Hgood : Forall (fun c => rankable (Analyst.avgSentiment c)) (List.filter p all)).
  { apply Forall_forall. intros c Hc. apply list_elem_of_In, filter_In in Hc as [_ Hc].
    apply (ge_ranked _ _ Hc). }
  split; [apply firstn_le_length|]. split; [|split].
  - apply (sublist_NoDup _ (map (fun c => Analyst.a_symbol (Analyst.agg c))
                                (Entries.sort Analyst.byAvgDesc (List.filter p all)))).
    2: { apply sublist_List_map, sublist_take. }
    rewrite (sort_perm Analyst.byAvgDesc (List.filter p all)).
    apply (sublist_NoDup _ (map (fun c => Analyst.a_symbol (Analyst.agg c)) all)).
    2: { apply sublist_List_map, sublist_List_filter. }
    unfold all. rewrite !map_map. cbn [Analyst.agg mk groupOf Analyst.a_symbol].
    rewrite map_id. apply symbolsOf_NoDup.
  - apply StronglySorted_firstn, sort_avg, Hgood.
  - intros c Hc. apply In_firstn_In, sort_In, filter_In in Hc as [Hc Hp].
    unfold all in Hc. rewrite map_map in Hc. apply in_map_iff in Hc as (k & <- & Hk).
    apply symbolsOf_In in Hk. cbn [mk Analyst.agg Analyst.avgSentiment groupOf
      Analyst.a_symbol Analyst.sources Analyst.count Analyst.totalSentiment].
    split; [apply signalsOf_cons, Hk|]. repeat (split; [reflexivity|]).
    split; [|exact Hp].
    intros Hnan. unfold p in Hp. cbn [mk Analyst.avgSentiment groupOf
      Analyst.count Analyst.totalSentiment] in Hp. rewrite Hnan in Hp. discriminate.
Qed.

(** Two symbols: the better one first, the sources of each in order. *)
Example candidates_runs :
  map (fun c => (Analyst.a_symbol (Analyst.agg c), Analyst.sources (Analyst.agg c),
                 Analyst.count (Analyst.agg c)))
      (Analyst.candidates (4 # 10)
         [signal_ex "AAPL" "reddit" (3 # 10); signal_ex "TSLA" "stocktwits" (9 # 10);
          signal_ex "AAPL" "sec" (5 # 10); signal_ex "GME" "reddit" (1 # 10)])
  = [("TSLA", ["stocktwits"], 1); ("AAPL", ["reddit"; "sec"], 2)]%string.
Proof. vm_compute. reflexivity. Qed.
